(* ===== verification/_CoqProject ===== *)
-Q . S2P
Prelude.v
Config.v
Address.v
FrameAllocator.v
PageTable.v
PageTableSpec.v
MemorySet.v
MemorySetSpec.v
ForkSpec.v
MmapSpec.v
Pipe.v
BlockCache.v
Drivers.v
Fat32Layout.v
Fat32.v
Fat32Spec.v
Fat32DirSpec.v
Fat32FileSpec.v
Ext4Layout.v
Ext4.v
Ext4Spec.v
Ext4FileSpec.v
Ext4DirSpec.v
Time.v
Task.v
Syscall.v
Process.v
SchedSpec.v
SpawnSpec.v
ProcSpec.v
HeapSpec.v
FdSpec.v
Vfs.v
VfsSpec.v
SdRegs.v
SdCard.v
SdController.v
SdSpec.v
Poll.v
PollSpec.v
Trap.v
TrapSpec.v
Mutex.v
User.v
UserSpec.v
