(* ===== verification/Prelude.v ===== *)
(** * ChaOS: a verification library for the kernel

    ChaOS is a RISC-V kernel in Rust ([os/src]).  This library models its memory management, its
    block devices down to the registers of the SD-card controller ([os/libs/visionfive2-sd]), its
    FAT32 and ext4 file systems ([os/libs/ext4_rs] for the latter), its pipes, its tasks with the
    system calls on them, and its traps, as executable functions, and proves what these parts
    promise to each other and to user programs.

    ** How the code is modelled

    A [usize] is an integer below [2^64]; [wadd], [wsub], [wmul], [wshl] wrap, as the release build
    does, and narrower integers have their own conversions ([as_u32], [as_u16], ...).  Rust code that
    may panic is a function into [outcome]; code with state is a function of the monad [M], which
    passes the state along; a panic ends it and says which kind of fault it was.  An access through a
    raw pointer outside of its object is the fault [Undefined]: the real program may go on from
    there, and nothing is claimed about how.  Unbounded loops
    take fuel and answer [NoFuel] when it is used up, which no theorem confuses with a result:
    theorems say how much fuel is enough, or that no amount is.  References are keys of a store
    wherever sharing matters: task control blocks ([k_tasks]), cached blocks ([arcs]), the ends of a
    pipe.  Physical memory is one map from frames to their bytes, and page tables live in it.

    Third-party crates, which the repository keeps in [os/vendor], and the hardware are parameters:
    the ELF parser ([xmas-elf]), the VirtIO driver ([VirtIOBlk], with the laws [VirtIOBlkOk] of a
    disk without a limit), block devices ([BlockDevice], with the laws [BlockDeviceOk]), the
    controller of the SD card (with the laws [SdControllerOk]), the time counter, the room that the
    kernel heap has for a table of descriptors ([KernelHeap]), and, where a theorem does not depend on them, the type of files and the inodes of FAT32, which the kernel
    does not mount.  The
    driver of the SD card is an interface of [Drivers] that [SdCard] implements.  The system calls
    that work on user memory are a parameter of the trap handler, and what other tasks do while a
    caller is suspended is one of [Poll].

    ** The files

    - [Prelude] (this file): outcomes and the state monad, machine integers, record updates, the
      hint databases, lemmas on lists and integers.  [Config]: constants ([config.rs],
      [boards/qemu.rs]).
    - Memory.  [Address]: [mm/address.rs].  [FrameAllocator]: [mm/frame_allocator.rs].  [PageTable]:
      [mm/page_table.rs] and the invariant of the tree of tables; [PageTableSpec]: its contract.
      [MemorySet]: [mm/memory_set.rs] (areas, the kernel space, loading of programs, fork, heap,
      mmap); [MemorySetSpec], [ForkSpec], [MmapSpec]: its contracts.
    - Devices and files.  [Pipe]: [fs/pipe.rs].  [BlockCache]: [block/]; the interface [BlockStore]
      with the laws [BlockStoreOk] is what file systems see of it.  [Drivers]: [drivers/block/].
      [Fat32Layout]: the structures on disk ([fs/fat32/super_block.rs], [dentry.rs]); [Fat32]: the
      allocation table, clusters, directory entries and inodes ([fat.rs], [fs.rs], [dentry.rs],
      [inode.rs]) over any [BlockStore]; [Fat32Spec], [Fat32DirSpec], [Fat32FileSpec]: its contracts.
    - ext4.  [Ext4Layout]: checksums, bitmaps, paths and the structures on disk ([utils.rs],
      [ext4_structs/]), each a list of bytes with the offsets of its fields.  [Ext4]: loading and
      writing of descriptors and inodes, allocation, extents, directories, opening, reading, writing
      and removal ([ext4_impl.rs], [ext4_interface.rs], [ext4_structs/inode.rs]) and the inodes of the
      kernel ([fs/ext4/inode.rs]), over any [OffsetDevice].  [Ext4Spec]: the laws [OffsetDeviceOk] of
      such a device, which the driver of [Drivers] satisfies, runs over disk images, and the contracts
      of checksums and allocation; [Ext4FileSpec], [Ext4DirSpec]: those of files and directories.
    - The virtual file system.  [Vfs]: the interfaces [InodeOps] and [FileOps] of inodes and files,
      [open_file], mounting, ext4 as an instance whose file positions are shared cells ([fs/mod.rs],
      [fs/inode.rs], [fs/file.rs], [fs/ext4/]), and the calls of [syscall/fs.rs] that take a path or
      read and write a file, on the kernel of [Task] together with a disk; [VfsSpec]: its contracts.
      [Poll]: sets of descriptors, [ppoll] and [pselect] ([syscall/ppoll.rs]); [PollSpec]: theirs.
    - The SD card.  [SdRegs]: the registers and commands as bit fields ([register.rs], [cmd.rs]).
      [SdCard]: waiting, sending commands, transfers and initialisation ([lib.rs], [utils.rs]), on
      any controller.  [SdController]: what a controller and the card behind it promise, as a
      machine that works on its own between the accesses, within time limits, and a simulated one
      that keeps the promise.  [SdSpec]: the driver of [Drivers] on it is an array of sectors.
    - Tasks.  [Time]: durations and clocks ([timer.rs], the clock calls).  [Task]: identifiers and
      kernel stacks ([task/res.rs]), control blocks ([task/task.rs]), signals ([task/signal.rs]), the
      queues ([task/manager.rs], [task/processor.rs]), suspending, blocking and exiting
      ([task/mod.rs]), timers ([timer.rs]) and semaphores ([sync/semaphore.rs]).  [Syscall]: the
      calls of [syscall/process.rs], [syscall/thread.rs], [syscall/signal.rs] and [syscall/fs.rs]
      on tasks, memory, signals and descriptors.  [Process]: the initial process, [fork], threads,
      [exec] and the calls that reach them, with the trap contexts ([trap/context.rs]) they write
      through the active page table.  [SchedSpec], [SpawnSpec], [ProcSpec], [HeapSpec], [FdSpec]:
      their contracts.  [Mutex]: spin locks and cells ([sync/mutex/], [sync/up.rs]) with their
      theorems.
    - Traps.  [Trap]: the registers of a hart, the assembly that saves and restores them
      ([trap/trap.S], [trap/init_entry.S]), the table of system calls ([syscall/mod.rs]), the handler
      and the ways back to user mode ([trap/mod.rs]), on the kernel of [Task]; [TrapSpec]: its
      contracts.  [User]: the calls of the user library and the shell ([user/src]) as programs on the
      table of [Trap]; [UserSpec]: what they promise and how they fit the kernel.

    ** What the theorems show

    - Frames are handed out once, and freed frames are never used again
      ([FrameAllocator.frames_handed_out_once], [recycled_frames_never_reused]).
    - A page table implements a finite map over any sequence of calls; mapping in one address space
      changes no other that does not share the tables; a process shares the kernel half; copying from and to user memory reaches
      exactly the bytes of the buffer ([PageTableSpec]).
    - Areas are mapped to fresh cleared frames and give them back; data is loaded where it belongs;
      fork makes a private copy; mmap and brk extend an address space by fresh pages and change
      nothing else ([MemorySetSpec], [ForkSpec], [MmapSpec], [HeapSpec]).
    - A ring buffer is a bounded queue; a pipe delivers exactly the bytes its writers load, in order,
      under every interleaving of readers and writers, and a transfer ends.  A writer that waited
      goes on in the address space that is active by then, so that only the first 3200 bytes of a
      message are sure to be its own ([Pipe]).
    - The block cache cannot be told from the disk it caches, and a block in use stays shared
      ([BlockCache]); the drivers store and return exactly the bytes asked for ([Drivers]).
    - Cluster chains grow at their end, directories of a few short names behave as lists of entries
      and files as arrays of bytes within their clusters ([Fat32Spec], [Fat32DirSpec], [Fat32FileSpec]).
    - The ext4 checksum is CRC-32C; blocks and inodes are taken first free first, and exactly their
      bit is set ([Ext4Spec]); reading within a file whose extents are in its inode returns the bytes
      they map ([Ext4FileSpec]); looking up a name returns the first entry of that name, and the
      search of a block ends when it meets no unused entry ([Ext4DirSpec]).
    - Opening a name binds the lowest free descriptor to the inode the directory has under it; reads
      through a file without holes follow each other without gap or repetition; [read_all] of it ends
      and returns the whole file ([VfsSpec]).  An [FdSet] is a set of numbers below 1024, [pselect] returns the number
      of ready descriptors and keeps exactly those of the open ones ([PollSpec]).
    - On a controller that behaves as documented the driver of the SD card is an array of sectors,
      and a card that does not answer makes it panic ([SdSpec]).
    - A system call resumes its caller behind the [ecall] with its result and its registers; a timer
      interrupt is transparent to the program it interrupts ([TrapSpec]).  The shell takes commands
      with redirections apart as it should ([UserSpec]).
    - At most one hart holds a spin lock, in every interleaving, and interrupts are off meanwhile
      ([Mutex]).
    - The queues of the scheduler agree with the status of the tasks in every reachable state, a
      blocked task is in the block queue and in no other, which no task ever leaves, a
      ready task runs after those before it, semaphores admit their count in order, kernel stacks
      are disjoint ([SchedSpec]); [fork] makes a process with a copy of the memory and of the trap
      context, queued and registered ([SpawnSpec]); a parent gets the exit code of its child
      ([ProcSpec]); descriptors are a map, as far as the kernel heap has room ([FdSpec]).
    - Some theorems state what the code does where it differs from what it means to do: [munmap]
      keeps translations, [kill] takes its signal as a mask, growing the heap after moving its end
      inside a page panics, long FAT32 names are read back in the wrong order, a file never gets a
      second cluster, DMA pages are freed twice, a write end of a pipe panics on hang-up,
      creating a thread panics.  In ext4, writing a file panics, a change of a directory copies past the
      end of an array, allocation of an inode never returns when none is free, a full group
      gives block 0, an appended block is not the one allocated, reading a hole panics, opening panics
      when it has to create or truncate, and so does [openat] relative to an open directory.  A call
      during which another table became active loses its result, an unknown call panics, [ppoll]
      never waits and counts one too many, and a descriptor number that needs more than the kernel
      heap makes [dup3] panic.  The
      user library and the kernel disagree on the number of [dup], so that no pipeline of the shell
      works ([UserSpec]).

    ** Bounds and fuel

    Theorems on FAT32 assume [fuel] above the length of the chain or of the directory, or the
    number of sectors of a file; the statements say which.  [MemorySet_map_heap] and the loops over
    ranges compute their own bound from their arguments and are shown to need no more.  Counters
    that could overflow (the permits of a semaphore, the time counter, the number of identifiers)
    have their bound in the statement.  The loops of ext4 over blocks, entries and groups carry fuel
    that the theorems show to be enough, or show that none is.  The waits of the SD driver end by
    their time-outs: the fuel is above the number of clock reads in 255 ms.  One turn is enough for [ppoll], and for [pselect] when a descriptor is ready.

    ** Not modelled

    The switch between kernel stacks: an operation that gives up the processor ends there, and the
    rest of its loop is another turn.  The SUM bit, which lets the kernel touch user pages: accesses
    to user memory are as if it were set.  How a path, a record or a vector of buffers is read from
    user memory before the call proper; [getdents64] behind the write of its first entry, which is
    undefined behaviour.  The atomic accesses of spin locks are sequentially consistent.
    The kernel heap: allocation succeeds, except that of the table which [dup3] extends.
    [syscall/sync.rs] and [sync/condvar.rs], which are commented out but for a [sleep] that the table
    does not name.  Of ext4 the routines that nothing reaches ([binsearch_extent],
    [ext4_file_read_old] with [ext4_add_extent], [write_de_tail_to_blk], [sync_de_tail_to_disk]) and
    the mount point; of the SD driver the formatting of the card identification; of the user programs
    line editing and the loops that wait for children.  Start-up, console, logging and firmware
    calls, which are input and output. *)

From Stdlib Require Import ZArith Lia.
From stdpp Require Import base list gmap sorting.

Open Scope Z_scope.

(** ** Faults and outcomes

    The kernel is compiled with [panic = abort] semantics: a failed [unwrap], [assert!], slice
    index or an explicit [panic!] stops the machine.  A loop that is given too little fuel yields
    [NoFuel], which is never confused with a result. *)

Inductive fault :=
| Unwrap          (* [Option::unwrap] on [None] *)
| Assert          (* [assert!] / [assert_eq!] *)
| Bounds          (* slice or vector index out of range, length mismatch of [copy_from_slice] *)
| Explicit        (* [panic!] *)
| Borrowed        (* [UPSafeCell::exclusive_access] while the cell is borrowed *)
| PageFault       (* a kernel access that the MMU refuses *)
| Todo            (* [todo!], [unimplemented!] *)
| DivZero         (* division by zero *)
| Undefined       (* an access through a raw pointer outside of its object *)
| Halt.           (* the firmware call that shuts the machine down *)

Inductive outcome (A : Type) :=
| Ok (a : A)
| Panic (f : fault)
| NoFuel.
Arguments Ok {A} a.
Arguments Panic {A} f.
Arguments NoFuel {A}.

#[export] Instance fault_eq_dec : EqDecision fault.
Proof. solve_decision. Defined.

#[export] Instance outcome_ret : MRet outcome := λ A a, Ok a.
#[export] Instance outcome_bind : MBind outcome := λ A B k c,
  match c with Ok a => k a | Panic f => Panic f | NoFuel => NoFuel end.

(** ** The state-and-panic monad in which the stateful code is written *)

Definition M (S A : Type) : Type := S → outcome (A * S).

#[export] Instance M_ret S : MRet (M S) := λ A a s, Ok (a, s).
#[export] Instance M_bind S : MBind (M S) := λ A B k c s,
  match c s with Ok (a, s') => k a s' | Panic f => Panic f | NoFuel => NoFuel end.

Definition panic {S A} (f : fault) : M S A := λ _, Panic f.
Definition get {S} : M S S := λ s, Ok (s, s).
Definition put {S} (s' : S) : M S unit := λ _, Ok ((), s').
Definition gets {S A} (f : S → A) : M S A := λ s, Ok (f s, s).
Definition modify {S} (f : S → S) : M S unit := λ s, Ok ((), f s).
Definition lift {S A} (o : outcome A) : M S A := λ s,
  match o with Ok a => Ok (a, s) | Panic f => Panic f | NoFuel => NoFuel end.
Definition unwrapO {A} (o : option A) : outcome A :=
  match o with Some a => Ok a | None => Panic Unwrap end.
Definition assertO (b : bool) : outcome unit := if b then Ok () else Panic Assert.
Definition unwrap {S A} (o : option A) : M S A := lift (unwrapO o).
Definition assertM {S} (b : bool) : M S unit := lift (assertO b).
Definition noFuel {S A} : M S A := λ _, NoFuel.

(** ** Record updates

    [r <| p := v |>] is [r] with the field [p] set to [v], and [r <| p ::= f |>] applies [f] to the
    field.  A record type opts in with an [Instance] of [Settable] that rebuilds its argument. *)

Class Settable (R : Type) := eta : R → R.
Class Setter {R E : Type} (proj : R → E) := set_field : (E → E) → R → R.
Arguments set_field {R E} proj {_} _ _ : assert.

Ltac derive_setter :=
  match goal with
  | |- @Setter ?R ?E ?proj =>
      let inst := constr:(_ : Settable R) in
      let body := eval hnf in inst in
      match eval pattern proj in body with
      | ?f _ => exact (λ g, f (λ r, g (proj r)))
      end
  end.
#[export] Hint Extern 1 (Setter _) => derive_setter : typeclass_instances.

Notation "r <| p := v |>" := (set_field p (λ _, v) r) (at level 1, p at level 9, left associativity).
Notation "r <| p ::= f |>" := (set_field p f r) (at level 1, p at level 9, left associativity).

(** Run an operation on one field of the state. *)
Definition zoom {S T A} (proj : S → T) `{!Setter proj} (c : M T A) : M S A := λ s,
  match c (proj s) with
  | Ok (a, t) => Ok (a, s <| proj := t |>)
  | Panic f => Panic f
  | NoFuel => NoFuel
  end.

(** [for x in l { b = f b x }] *)
Fixpoint foldM {S A B} (f : B → A → M S B) (b : B) (l : list A) : M S B :=
  match l with
  | [] => mret b
  | x :: l' => b' ← f b x; foldM f b' l'
  end.

(** [loop { ... }]: the body yields [inl b] to go on with [b] and [inr r] to leave with [r]. *)
Fixpoint loopM {S B R} (fuel : nat) (body : B → M S (B + R)) (b : B) : M S R :=
  match fuel with
  | O => noFuel
  | S fuel' =>
      x ← body b;
      match x with inl b' => loopM fuel' body b' | inr r => mret r end
  end.

(** ** Machine integers

    [usize] arithmetic wraps modulo [2^64] (the kernel is built with [--release], see
    [os/Makefile]); an [isize] is the two's complement reading of the same bits. *)

Definition W64 : Z := 2 ^ 64.
Definition wrap (x : Z) : Z := x mod W64.
Definition wadd (x y : Z) : Z := wrap (x + y).
Definition wsub (x y : Z) : Z := wrap (x - y).
Definition wmul (x y : Z) : Z := wrap (x * y).
Definition wshl (x n : Z) : Z := wrap (Z.shiftl x n).
Definition wnot (x : Z) : Z := W64 - 1 - x.
Definition as_isize (x : Z) : Z := if x <? 2 ^ 63 then x else x - W64.
Definition as_u8 (x : Z) : Z := x mod 2 ^ 8.
Definition as_u16 (x : Z) : Z := x mod 2 ^ 16.
Definition as_u32 (x : Z) : Z := x mod 2 ^ 32.
Definition shl32 (x n : Z) : Z := as_u32 (Z.shiftl x n).

Definition is_usize (x : Z) : Prop := 0 ≤ x < W64.
Definition is_byte (x : Z) : Prop := 0 ≤ x < 256.

Declare Scope usize_scope.
Delimit Scope usize_scope with usize.
Infix "+" := wadd : usize_scope.
Infix "-" := wsub : usize_scope.
Infix "*" := wmul : usize_scope.

(** ** Little-endian words and slice updates *)

Fixpoint le_bytes (n : nat) (w : Z) : list Z :=
  match n with
  | O => []
  | S n' => w mod 256 :: le_bytes n' (w / 256)
  end.

Definition le_word (bs : list Z) : Z := foldr (λ b acc, b + 256 * acc) 0 bs.

(** [l[i..i + k.len()].copy_from_slice(k)], for a range that is in bounds *)
Definition splice {A} (l : list A) (i : nat) (k : list A) : list A :=
  take i l ++ k ++ drop (i + length k) l.

(** [&l[i..j]], for a range that is in bounds *)
Definition slice {A} (l : list A) (i j : nat) : list A := take (j - i) (drop i l).

(** [x.0 as usize & !(4096 - 1)]-style alignment masks are proved equal to arithmetic once. *)

(** * Lemmas *)

(** ** Outcomes and the monad *)

Lemma bind_Ok_inv {S A B} (c : M S A) (k : A → M S B) s b s' :
  (c ≫= k) s = Ok (b, s') → ∃ a s1, c s = Ok (a, s1) ∧ k a s1 = Ok (b, s').
Proof. unfold mbind, M_bind. destruct (c s) as [[a s1]| |] eqn:E; naive_solver. Qed.

Lemma bind_Ok {S A B} (c : M S A) (k : A → M S B) s a s1 :
  c s = Ok (a, s1) → (c ≫= k) s = k a s1.
Proof. unfold mbind, M_bind. by intros ->. Qed.

Lemma bind_Panic {S A B} (c : M S A) (k : A → M S B) s f :
  c s = Panic f → (c ≫= k) s = Panic f.
Proof. unfold mbind, M_bind. by intros ->. Qed.

Lemma lift_Ok_inv {S A} (o : outcome A) (s : S) a s' :
  lift o s = Ok (a, s') → o = Ok a ∧ s' = s.
Proof. unfold lift. destruct o; naive_solver. Qed.

Lemma unwrap_Ok_inv {S A} (o : option A) (s : S) a s' :
  unwrap o s = Ok (a, s') → o = Some a ∧ s' = s.
Proof. unfold unwrap, lift, unwrapO. destruct o; naive_solver. Qed.

Lemma assertM_Ok_inv {S} b (s : S) u s' :
  assertM b s = Ok (u, s') → b = true ∧ s' = s.
Proof. unfold assertM, lift, assertO. destruct b; naive_solver. Qed.

Lemma obind_Ok_inv {A B} (c : outcome A) (k : A → outcome B) b :
  (c ≫= k) = Ok b → ∃ a, c = Ok a ∧ k a = Ok b.
Proof. unfold mbind, outcome_bind. destruct c; naive_solver. Qed.

Lemma foldM_app {S A B} (f : B → A → M S B) b l1 l2 s :
  foldM f b (l1 ++ l2) s = (b' ← foldM f b l1; foldM f b' l2) s.
Proof.
  revert b s. induction l1 as [|x l1 IH]; intros b s; [done|].
  simpl. unfold mbind, M_bind. destruct (f b x s) as [[b1 s1]| |]; [|done|done].
  rewrite IH. done.
Qed.

(** An invariant of the body is an invariant of the loop. *)
Lemma foldM_inv {S A B} (I : list A → B → S → Prop) (f : B → A → M S B) l :
  ∀ b s b' s', foldM f b l s = Ok (b', s') → I [] b s →
  (∀ done x rest b s b' s', l = done ++ x :: rest → I done b s → f b x s = Ok (b', s') →
     I (done ++ [x]) b' s') →
  I l b' s'.
Proof.
  intros b s b' s' Hr HI Hstep.
  assert (∀ done rest b s, l = done ++ rest → I done b s →
    foldM f b rest s = Ok (b', s') → I l b' s') as Hgen.
  { intros done0 rest. revert done0. induction rest as [|x rest IH]; intros done0 b0 s0 Hl H0 Hf.
    - simpl in Hf. unfold mret, M_ret in Hf. simplify_eq. by rewrite app_nil_r.
    - simpl in Hf. apply bind_Ok_inv in Hf as (b1 & s1 & Hx & Hf).
      apply (IH (done0 ++ [x]) b1 s1); [by rewrite <-app_assoc| |done].
      by eapply Hstep. }
  by apply (Hgen [] l b s).
Qed.

(** Running a program: one rewriting rule per primitive. *)
Section run.
Context {S A B : Type}.
Implicit Types s : S.

Lemma bind_get (k : S → M S B) s : (get ≫= k) s = k s s.
Proof. done. Qed.
Lemma bind_gets (f : S → A) (k : A → M S B) s : (gets f ≫= k) s = k (f s) s.
Proof. done. Qed.
Lemma bind_put s' (k : unit → M S B) s : (put s' ≫= k) s = k () s'.
Proof. done. Qed.
Lemma bind_modify f (k : unit → M S B) s : (modify f ≫= k) s = k () (f s).
Proof. done. Qed.
Lemma bind_mret (a : A) (k : A → M S B) s : (mret a ≫= k) s = k a s.
Proof. done. Qed.
Lemma bind_panic f (k : A → M S B) s : (panic f ≫= k) s = Panic f.
Proof. done. Qed.
Lemma bind_lift_Ok (a : A) (k : A → M S B) s : (lift (Ok a) ≫= k) s = k a s.
Proof. done. Qed.
Lemma bind_lift_Panic f (k : A → M S B) s : (lift (Panic f) ≫= k) s = Panic f.
Proof. done. Qed.
Lemma bind_unwrap_Some (a : A) (k : A → M S B) s : (unwrap (Some a) ≫= k) s = k a s.
Proof. done. Qed.
Lemma bind_unwrap_None (k : A → M S B) s : (unwrap None ≫= k) s = Panic Unwrap.
Proof. done. Qed.
Lemma bind_assert_true (k : unit → M S B) s : (assertM true ≫= k) s = k () s.
Proof. done. Qed.
Lemma bind_assert_false (k : unit → M S B) s : (assertM false ≫= k) s = Panic Assert.
Proof. done. Qed.
Lemma bind_bind {C} (c : M S A) (k : A → M S B) (k' : B → M S C) s :
  ((c ≫= k) ≫= k') s = (c ≫= λ a, k a ≫= k') s.
Proof. unfold mbind, M_bind. by destruct (c s) as [[a s1]| |]. Qed.
End run.

Create Rewrite HintDb run.
#[export] Hint Rewrite @bind_get @bind_gets @bind_put @bind_modify @bind_mret @bind_panic
  @bind_lift_Ok @bind_lift_Panic @bind_unwrap_Some @bind_unwrap_None @bind_assert_true
  @bind_assert_false @bind_bind : run.

Ltac run := repeat (progress (autorewrite with run; cbn beta iota zeta)).

Ltac inv_ok :=
  repeat match goal with
  | H : (_ ≫= _) _ = Ok (_, _) |- _ =>
      apply bind_Ok_inv in H; let a := fresh "a" in let s := fresh "s" in
      let H1 := fresh "H" in let H2 := fresh "H" in destruct H as (a & s & H1 & H2)
  | H : lift _ _ = Ok (_, _) |- _ => apply lift_Ok_inv in H; destruct H as [H ->]
  | H : unwrap _ _ = Ok (_, _) |- _ => apply unwrap_Ok_inv in H; destruct H as [H ->]
  | H : assertM _ _ = Ok (_, _) |- _ => apply assertM_Ok_inv in H; destruct H as [H ->]
  | H : mret _ _ = Ok (_, _) |- _ => unfold mret, M_ret in H; simplify_eq
  | H : get _ = Ok (_, _) |- _ => unfold get in H; simplify_eq
  | H : gets _ _ = Ok (_, _) |- _ => unfold gets in H; simplify_eq
  | H : put _ _ = Ok (_, _) |- _ => unfold put in H; simplify_eq
  | H : modify _ _ = Ok (_, _) |- _ => unfold modify in H; simplify_eq
  | H : panic _ _ = Ok _ |- _ => discriminate H
  end.

(** ** Machine integers *)

Lemma W64_pos : 0 < W64.
Proof. reflexivity. Qed.

Lemma wrap_small x : is_usize x → wrap x = x.
Proof. unfold wrap, is_usize. apply Z.mod_small. Qed.

Lemma wrap_range x : is_usize (wrap x).
Proof. unfold wrap, is_usize. apply Z.mod_pos_bound, W64_pos. Qed.

Lemma wadd_small x y : 0 ≤ x → 0 ≤ y → x + y < W64 → wadd x y = x + y.
Proof. intros. unfold wadd. apply wrap_small. unfold is_usize. lia. Qed.

Lemma wsub_small x y : 0 ≤ y ≤ x → x < W64 → wsub x y = x - y.
Proof. intros. unfold wsub. apply wrap_small. unfold is_usize. lia. Qed.

Lemma land_ones_mod x n : 0 ≤ n → Z.land x (2 ^ n - 1) = x mod 2 ^ n.
Proof. intros. rewrite <-Z.land_ones by done. f_equal. rewrite Z.ones_equiv. lia. Qed.

Lemma lor_disjoint_add a b n :
  0 ≤ n → 0 ≤ b < 2 ^ n → Z.lor (a * 2 ^ n) b = a * 2 ^ n + b.
Proof.
  intros Hn Hb. assert (Z.land (a * 2 ^ n) b = 0) as H0.
  { apply Z.bits_inj'. intros i Hi. rewrite Z.land_spec, Z.bits_0.
    destruct (decide (i < n)); [by rewrite Z.mul_pow2_bits_low by lia|].
    rewrite <-(Z.mod_small b (2 ^ n)) by done.
    by rewrite Z.mod_pow2_bits_high, andb_false_r by lia. }
  rewrite <-Z.lxor_lor by done. symmetry. by apply Z.add_nocarry_lxor.
Qed.

(** ** Little-endian words and slices *)

Lemma as_u32_small x : 0 ≤ x < 2 ^ 32 → as_u32 x = x.
Proof. intros. unfold as_u32. by rewrite Z.mod_small. Qed.

Lemma length_le_bytes n w : length (le_bytes n w) = n.
Proof. revert w. induction n; intros; simpl; auto. Qed.

Lemma le_bytes_byte n w : Forall is_byte (le_bytes n w).
Proof.
  revert w. induction n as [|n IH]; intros w; simpl; constructor; [|apply IH].
  unfold is_byte. apply Z.mod_pos_bound. lia.
Qed.

Lemma le_word_le_bytes n w : 0 ≤ w < 256 ^ Z.of_nat n → le_word (le_bytes n w) = w.
Proof.
  revert w. induction n as [|n IH]; intros w Hw.
  - simpl in *. lia.
  - rewrite Nat2Z.inj_succ, Z.pow_succ_r in Hw by lia.
    simpl. fold (le_word (le_bytes n (w / 256))). rewrite IH.
    + pose proof (Z.div_mod w 256). lia.
    + split; [apply Z.div_pos; lia|apply Z.div_lt_upper_bound; lia].
Qed.

Lemma le_word_range bs : Forall is_byte bs → 0 ≤ le_word bs < 256 ^ Z.of_nat (length bs).
Proof.
  induction 1 as [|b bs Hb Hbs IH]; [simpl; lia|].
  simpl length. rewrite Nat2Z.inj_succ, Z.pow_succ_r by lia.
  simpl. fold (le_word bs). unfold is_byte in Hb. lia.
Qed.

Lemma le_bytes_le_word bs : Forall is_byte bs → le_bytes (length bs) (le_word bs) = bs.
Proof.
  induction 1 as [|b bs Hb Hbs IH]; [done|]. simpl. fold (le_word bs).
  unfold is_byte in Hb. rewrite (Z.mul_comm 256 (le_word bs)), Z.mod_add, Z.mod_small by lia.
  rewrite Z.div_add, Z.div_small by lia. by rewrite Z.add_0_l, IH.
Qed.

Lemma length_splice {A} (l : list A) i k :
  (i + length k ≤ length l)%nat → length (splice l i k) = length l.
Proof. intros. unfold splice. rewrite !length_app, length_take, length_drop. lia. Qed.

Lemma length_slice {A} (l : list A) i j :
  (i ≤ j ≤ length l)%nat → length (slice l i j) = (j - i)%nat.
Proof. intros. unfold slice. rewrite length_take, length_drop. lia. Qed.

Lemma lookup_splice_new {A} (l : list A) i k j :
  (i + length k ≤ length l)%nat → (i ≤ j < i + length k)%nat →
  splice l i k !! j = k !! (j - i)%nat.
Proof.
  intros. unfold splice. rewrite lookup_app_r; rewrite length_take; [|lia].
  rewrite lookup_app_l by lia. f_equal. lia.
Qed.

Lemma lookup_splice_old {A} (l : list A) i k j :
  (i + length k ≤ length l)%nat → (j < i ∨ i + length k ≤ j)%nat →
  splice l i k !! j = l !! j.
Proof.
  intros ? [?|?]; unfold splice.
  - rewrite lookup_app_l by (rewrite length_take; lia). by rewrite lookup_take_lt by lia.
  - rewrite lookup_app_r; rewrite length_take; [|lia].
    rewrite lookup_app_r by lia. rewrite lookup_drop. f_equal. lia.
Qed.

Lemma lookup_slice {A} (l : list A) i j k :
  (k < j - i)%nat → slice l i j !! k = l !! (i + k)%nat.
Proof. intros. unfold slice. by rewrite lookup_take_lt, lookup_drop by lia. Qed.

Lemma slice_splice_same {A} (l : list A) i k :
  (i + length k ≤ length l)%nat → slice (splice l i k) i (i + length k) = k.
Proof.
  intros. unfold slice, splice.
  rewrite drop_app_ge by (rewrite length_take; lia). rewrite length_take.
  replace (i - i `min` length l)%nat with 0%nat by lia. rewrite drop_0.
  replace (i + length k - i)%nat with (length k) by lia. by rewrite take_app_length.
Qed.

Lemma list_eq_lookup_lt {A} (l k : list A) :
  length l = length k → (∀ i, (i < length l)%nat → l !! i = k !! i) → l = k.
Proof.
  intros Hl H. apply list_eq. intros i. destruct (decide (i < length l)%nat); [auto|].
  rewrite !lookup_ge_None_2; [done|lia|lia].
Qed.

Lemma slice_splice_other {A} (l : list A) i k a b :
  (i + length k ≤ length l)%nat → (a ≤ b ≤ length l)%nat → (b ≤ i ∨ i + length k ≤ a)%nat →
  slice (splice l i k) a b = slice l a b.
Proof.
  intros. apply list_eq_lookup_lt.
  - rewrite !length_slice; rewrite ?length_splice; lia.
  - intros j Hj. rewrite length_slice in Hj by (rewrite ?length_splice; lia).
    rewrite !lookup_slice by lia. rewrite lookup_splice_old by lia. done.
Qed.

Lemma Forall_splice {A} (P : A → Prop) l i k :
  Forall P l → Forall P k → Forall P (splice l i k).
Proof.
  intros. unfold splice. repeat apply Forall_app_2; auto using Forall_take, Forall_drop.
Qed.

Lemma Forall_slice {A} (P : A → Prop) l i j : Forall P l → Forall P (slice l i j).
Proof. intros. unfold slice. auto using Forall_take, Forall_drop. Qed.

(** ** Integer ranges *)

Lemma seqZ_snoc l n : 0 ≤ n → seqZ l (n + 1) = seqZ l n ++ [l + n].
Proof. intros. by rewrite seqZ_app by lia. Qed.

(** ** Automation *)

Create HintDb chaos.
#[export] Hint Resolve wrap_range length_le_bytes le_bytes_byte Forall_splice Forall_slice : chaos.
Create Rewrite HintDb chaos.
#[export] Hint Rewrite @length_splice @length_slice length_le_bytes using lia : chaos.

(** Arithmetic goals on machine words: unfold the widths and let [lia] finish. *)
Ltac word := unfold is_usize, is_byte, W64 in *; lia.
