(* ===== verification/Config.v ===== *)
(** * Constants of the kernel ([os/src/config.rs], [os/src/boards/qemu.rs])

    The values of the default [qemu] feature.  [KERNEL_SPACE_OFFSET] is a virtual page number,
    every other address is a byte address. *)

From Stdlib Require Import ZArith.
From S2P Require Import Prelude.

Open Scope Z_scope.

Definition PAGE_SIZE : Z := 0x1000.
Definition PAGE_SIZE_BITS : Z := 0xc.
Definition USER_STACK_SIZE : Z := 4096 * 20.
Definition KERNEL_STACK_SIZE : Z := 4096 * 8.
Definition KERNEL_HEAP_SIZE : Z := PAGE_SIZE * 0x500.
Definition MEMORY_END : Z := 0xffffffc088000000.
Definition MAX_SYSCALL_NUM : Z := 500.
Definition USER_SPACE_END : Z := 0x3FFFFFFFFF.
Definition TRAP_CONTEXT_BASE : Z := USER_SPACE_END - PAGE_SIZE * 2 + 1.
Definition MMAP_BASE : Z := 0x20000000.
Definition PAGE_TABLE_LEVEL : nat := 3.
Definition KERNEL_SPACE_OFFSET : Z := 0xffffffc000000.
Definition USER_TRAMPOLINE : Z := 0x1919810.
Definition CLOCK_FREQ : Z := 12500000.
