(* ===== verification/Address.v ===== *)
(** * Addresses and page numbers ([os/src/mm/address.rs])

    [VirtAddr], [PhysAddr], [KernelAddr], [VirtPageNum] and [PhysPageNum] are newtypes of [usize];
    they are integers here, and every conversion of the source is one definition, an [assert!] in
    it a [Panic Assert] outcome. *)

From Stdlib Require Import ZArith Lia.
From stdpp Require Import base list.
From S2P Require Import Prelude Config.

Open Scope Z_scope.

Abbreviation VirtAddr := Z (only parsing).
Abbreviation PhysAddr := Z (only parsing).
Abbreviation KernelAddr := Z (only parsing).
Abbreviation VirtPageNum := Z (only parsing).
Abbreviation PhysPageNum := Z (only parsing).

Definition PA_WIDTH_SV39 : Z := 56.
Definition VA_WIDTH_SV39 : Z := 39.
Definition PPN_WIDTH_SV39 : Z := PA_WIDTH_SV39 - PAGE_SIZE_BITS.
Definition VPN_WIDTH_SV39 : Z := VA_WIDTH_SV39 - PAGE_SIZE_BITS.

(** ** Conversions from and to [usize] *)

Definition KernelAddr_from_pa (pa : PhysAddr) : KernelAddr :=
  wadd pa (wshl KERNEL_SPACE_OFFSET PAGE_SIZE_BITS).

Definition PhysAddr_from_ka (ka : KernelAddr) : PhysAddr :=
  wsub ka (wshl KERNEL_SPACE_OFFSET PAGE_SIZE_BITS).

Definition PhysAddr_from_usize (v : Z) : outcome PhysAddr :=
  let tmp := Z.shiftr (as_isize v) PA_WIDTH_SV39 in
  _ ← assertO ((tmp =? 0) || (tmp =? -1)); mret v.

Definition PhysPageNum_from_usize (v : Z) : outcome PhysPageNum :=
  let tmp := Z.shiftr (as_isize v) PPN_WIDTH_SV39 in
  _ ← assertO ((tmp =? 0) || (tmp =? -1)); mret v.

Definition VirtAddr_from_usize (v : Z) : outcome VirtAddr :=
  let tmp := Z.shiftr (as_isize v) VA_WIDTH_SV39 in
  _ ← assertO ((tmp =? 0) || (tmp =? -1)); mret v.

Definition VirtPageNum_from_usize (v : Z) : outcome VirtPageNum :=
  let tmp := Z.shiftr v (VPN_WIDTH_SV39 - 1) in
  _ ← assertO ((tmp =? 0) || (tmp =? Z.shiftl 1 (52 - VPN_WIDTH_SV39 + 1) - 1)); mret v.

Definition usize_from_VirtAddr (v : VirtAddr) : Z :=
  if Z.shiftl 1 (VA_WIDTH_SV39 - 1) <=? v
  then Z.lor v (wnot (Z.shiftl 1 VA_WIDTH_SV39 - 1)) else v.

(** ** Pages of an address *)

Definition VirtAddr_floor (va : VirtAddr) : VirtPageNum := va / PAGE_SIZE.
Definition VirtAddr_ceil (va : VirtAddr) : VirtPageNum := wadd (wsub va 1) PAGE_SIZE / PAGE_SIZE.
Definition VirtAddr_page_offset (va : VirtAddr) : Z := Z.land va (PAGE_SIZE - 1).
Definition VirtAddr_aligned (va : VirtAddr) : bool := VirtAddr_page_offset va =? 0.

Definition PhysAddr_floor (pa : PhysAddr) : PhysPageNum := pa / PAGE_SIZE.
Definition PhysAddr_ceil (pa : PhysAddr) : PhysPageNum := wadd (wsub pa 1) PAGE_SIZE / PAGE_SIZE.
Definition PhysAddr_page_offset (pa : PhysAddr) : Z := Z.land pa (PAGE_SIZE - 1).
Definition PhysAddr_aligned (pa : PhysAddr) : bool := PhysAddr_page_offset pa =? 0.

Definition VirtPageNum_from_va (va : VirtAddr) : outcome VirtPageNum :=
  _ ← assertO (VirtAddr_page_offset va =? 0); mret (VirtAddr_floor va).
Definition VirtAddr_from_vpn (vpn : VirtPageNum) : VirtAddr := wshl vpn PAGE_SIZE_BITS.

Definition PhysPageNum_from_pa (pa : PhysAddr) : outcome PhysPageNum :=
  _ ← assertO (PhysAddr_page_offset pa =? 0); mret (PhysAddr_floor pa).
Definition PhysAddr_from_ppn (ppn : PhysPageNum) : PhysAddr := wshl ppn PAGE_SIZE_BITS.
Definition PhysPageNum_from_ka (ka : KernelAddr) : PhysPageNum :=
  PhysAddr_floor (PhysAddr_from_ka ka).

(** [VirtPageNum::indexes]: the loop [for i in (0..PAGE_TABLE_LEVEL).rev()] over the array [idx]. *)
Definition VirtPageNum_indexes (vpn : VirtPageNum) : list Z :=
  snd (foldl (λ '(vpn, idx) i, (Z.shiftr vpn 9, <[i := Z.land vpn 511]> idx))
         (vpn, replicate PAGE_TABLE_LEVEL 0) (rev (seq 0 PAGE_TABLE_LEVEL))).

(** ** Ranges of page numbers *)

Record SimpleRange := { range_l : Z; range_r : Z }.

Definition SimpleRange_new (start_ end_ : Z) : outcome SimpleRange :=
  _ ← assertO (start_ <=? end_); mret {| range_l := start_; range_r := end_ |}.

Record SimpleRangeIterator := { it_current : Z; it_end : Z }.

Definition SimpleRange_into_iter (r : SimpleRange) : SimpleRangeIterator :=
  {| it_current := range_l r; it_end := range_r r |}.

(** [StepByOne::step] *)
Definition page_step (n : Z) : Z := wadd n 1.

Definition SimpleRangeIterator_next (it : SimpleRangeIterator)
    : option Z * SimpleRangeIterator :=
  if it_current it =? it_end it then (None, it)
  else (Some (it_current it), {| it_current := page_step (it_current it); it_end := it_end it |}).

(** What a [for] loop over the iterator visits; [NoFuel] when [next] has not yet returned [None]. *)
Fixpoint iter_collect (fuel : nat) (it : SimpleRangeIterator) : outcome (list Z) :=
  match fuel with
  | O => NoFuel
  | S fuel' =>
      match SimpleRangeIterator_next it with
      | (None, _) => Ok []
      | (Some x, it') => l ← iter_collect fuel' it'; mret (x :: l)
      end
  end.

(** The pages a [for vpn in range] loop visits, in order (see [range_loop_visits]). *)
Definition range_pages (r : SimpleRange) : list Z := seqZ (range_l r) (range_r r - range_l r).

(** * Lemmas *)

(** A canonical SV39 address: bits 38 to 63 agree. *)
Definition sv39_canonical (v : Z) : Prop := 0 ≤ v < 2 ^ 38 ∨ W64 - 2 ^ 38 ≤ v < W64.

(** The page numbers [VirtPageNum::from] accepts. *)
Definition canonical_vpn (vpn : Z) : Prop := 0 ≤ vpn < 2 ^ 26 ∨ 2 ^ 52 - 2 ^ 26 ≤ vpn < 2 ^ 52.

#[export] Instance sv39_canonical_dec v : Decision (sv39_canonical v).
Proof. unfold sv39_canonical. apply _. Defined.
#[export] Instance canonical_vpn_dec v : Decision (canonical_vpn v).
Proof. unfold canonical_vpn. apply _. Defined.

Lemma VirtPageNum_indexes_eq vpn :
  VirtPageNum_indexes vpn = [vpn / 2 ^ 18 mod 512; vpn / 2 ^ 9 mod 512; vpn mod 512].
Proof.
  unfold VirtPageNum_indexes. simpl. change 511 with (2 ^ 9 - 1).
  rewrite !land_ones_mod by lia. rewrite !Z.shiftr_div_pow2 by lia.
  rewrite Z.div_div by lia. done.
Qed.

Lemma VirtPageNum_indexes_range vpn :
  Forall (λ i, 0 ≤ i < 512) (VirtPageNum_indexes vpn).
Proof.
  rewrite VirtPageNum_indexes_eq.
  repeat constructor; try apply Z.mod_pos_bound; lia.
Qed.

Lemma VirtPageNum_indexes_mod vpn vpn' :
  VirtPageNum_indexes vpn = VirtPageNum_indexes vpn' ↔ vpn mod 2 ^ 27 = vpn' mod 2 ^ 27.
Proof.
  rewrite !VirtPageNum_indexes_eq. split; intros H.
  - simplify_eq. Z.to_euclidean_division_equations. lia.
  - f_equal; [|f_equal; [|f_equal]]; Z.to_euclidean_division_equations; lia.
Qed.

Lemma canonical_vpn_mod_inj vpn vpn' :
  canonical_vpn vpn → canonical_vpn vpn' → vpn mod 2 ^ 27 = vpn' mod 2 ^ 27 → vpn = vpn'.
Proof.
  unfold canonical_vpn. intros ?? H.
  assert (∀ v, 0 ≤ v < 2 ^ 26 → v mod 2 ^ 27 = v) as Hlo by (intros; apply Z.mod_small; lia).
  assert (∀ v, 2 ^ 52 - 2 ^ 26 ≤ v < 2 ^ 52 → v mod 2 ^ 27 = v - (2 ^ 52 - 2 ^ 27)) as Hhi.
  { intros v ?. symmetry. apply Z.mod_unique with (q := 2 ^ 25 - 1); lia. }
  pose proof (Hlo vpn). pose proof (Hlo vpn'). pose proof (Hhi vpn). pose proof (Hhi vpn'). lia.
Qed.

Lemma page_offset_mod va : VirtAddr_page_offset va = va mod PAGE_SIZE.
Proof. unfold VirtAddr_page_offset, PAGE_SIZE. apply (land_ones_mod va 12). lia. Qed.

Lemma isize_shiftr_sign v n :
  is_usize v → 0 ≤ n ≤ 63 →
  ((Z.shiftr (as_isize v) n =? 0) || (Z.shiftr (as_isize v) n =? -1))
  = bool_decide (v < 2 ^ n ∨ W64 - 2 ^ n ≤ v).
Proof.
  intros Hv Hn. rewrite Z.shiftr_div_pow2 by lia.
  assert (0 < 2 ^ n ≤ 2 ^ 63) as Hp by (split; [lia|apply Z.pow_le_mono_r; lia]).
  set (p := 2 ^ n) in *. clearbody p. unfold as_isize, is_usize, W64 in *.
  case_bool_decide as H';
    rewrite ?orb_true_iff, ?orb_false_iff, ?Z.eqb_eq, ?Z.eqb_neq;
    destruct (Z.ltb_spec v (2 ^ 63)).
  all: Z.to_euclidean_division_equations; nia.
Qed.

Lemma VirtAddr_from_usize_eq v :
  is_usize v →
  VirtAddr_from_usize v
  = if bool_decide (v < 2 ^ 39 ∨ W64 - 2 ^ 39 ≤ v) then Ok v else Panic Assert.
Proof.
  intros Hv. unfold VirtAddr_from_usize. rewrite isize_shiftr_sign by (done || (vm_compute; done)).
  change (2 ^ VA_WIDTH_SV39) with (2 ^ 39). by case_bool_decide.
Qed.

Lemma PhysPageNum_from_usize_ok v : 0 ≤ v < 2 ^ 44 → PhysPageNum_from_usize v = Ok v.
Proof.
  intros Hv. unfold PhysPageNum_from_usize.
  rewrite isize_shiftr_sign by (word || (vm_compute; done)).
  change (2 ^ PPN_WIDTH_SV39) with (2 ^ 44). rewrite bool_decide_true by lia. done.
Qed.

Lemma PhysAddr_from_usize_ok v : 0 ≤ v < 2 ^ 56 → PhysAddr_from_usize v = Ok v.
Proof.
  intros Hv. unfold PhysAddr_from_usize.
  rewrite isize_shiftr_sign by (word || (vm_compute; done)).
  change (2 ^ PA_WIDTH_SV39) with (2 ^ 56). rewrite bool_decide_true by lia. done.
Qed.

Lemma VirtPageNum_from_usize_eq v :
  0 ≤ v → VirtPageNum_from_usize v = if decide (canonical_vpn v) then Ok v else Panic Assert.
Proof.
  intros Hv. unfold VirtPageNum_from_usize. change (VPN_WIDTH_SV39 - 1) with 26.
  change (Z.shiftl 1 (52 - VPN_WIDTH_SV39 + 1) - 1) with (2 ^ 26 - 1).
  rewrite Z.shiftr_div_pow2 by lia. unfold canonical_vpn.
  destruct (Z.eqb_spec (v / 2 ^ 26) 0); destruct (Z.eqb_spec (v / 2 ^ 26) (2 ^ 26 - 1));
    destruct (decide _); simpl; try done; exfalso; Z.to_euclidean_division_equations; lia.
Qed.

Lemma VirtPageNum_from_usize_inv v a :
  0 ≤ v → VirtPageNum_from_usize v = Ok a → a = v ∧ canonical_vpn v.
Proof.
  intros Hv. rewrite VirtPageNum_from_usize_eq by done. destruct (decide _); naive_solver.
Qed.

Lemma usize_from_VirtAddr_eq v :
  is_usize v →
  usize_from_VirtAddr v
  = if bool_decide (v < 2 ^ 38) then v else W64 - 2 ^ 39 + v mod 2 ^ 39.
Proof.
  intros Hv. unfold usize_from_VirtAddr, wnot.
  change (Z.shiftl 1 (VA_WIDTH_SV39 - 1)) with (2 ^ 38).
  change (W64 - 1 - (Z.shiftl 1 VA_WIDTH_SV39 - 1)) with (Z.ones 25 * 2 ^ 39).
  destruct (Z.leb_spec (2 ^ 38) v); case_bool_decide; try lia.
  rewrite (Z.div_mod v (2 ^ 39)) at 1 by lia. rewrite (Z.mul_comm (2 ^ 39)).
  assert (0 ≤ v mod 2 ^ 39 < 2 ^ 39) by (apply Z.mod_pos_bound; lia).
  rewrite <-(lor_disjoint_add _ (v mod 2 ^ 39)) by lia.
  rewrite (Z.lor_comm (Z.lor _ _)), Z.lor_assoc, <-!Z.shiftl_mul_pow2, <-Z.shiftl_lor by lia.
  assert (Z.lor (Z.ones 25) (v / 2 ^ 39) = Z.ones 25) as ->.
  { apply Z.bits_inj'. intros i Hi. rewrite Z.lor_spec.
    destruct (decide (i < 25)); [by rewrite Z.ones_spec_low by lia|].
    rewrite Z.ones_spec_high by lia. simpl.
    rewrite <-(Z.mod_small (v / 2 ^ 39) (2 ^ 25)).
    - apply Z.mod_pow2_bits_high. lia.
    - unfold is_usize, W64 in Hv. Z.to_euclidean_division_equations. lia. }
  rewrite Z.shiftl_mul_pow2, lor_disjoint_add by lia.
  change (Z.ones 25 * 2 ^ 39) with (W64 - 2 ^ 39). done.
Qed.

Lemma VirtAddr_ceil_eq va :
  0 ≤ va → va + 4095 < W64 → VirtAddr_ceil va = (va + 4095) / 4096.
Proof.
  intros. unfold VirtAddr_ceil, PAGE_SIZE, wadd, wsub, wrap.
  rewrite Zplus_mod_idemp_l. replace (va - 1 + 4096) with (va + 4095) by lia.
  rewrite Z.mod_small by lia. done.
Qed.

Lemma VirtAddr_from_vpn_eq vpn : 0 ≤ vpn < 2 ^ 52 → VirtAddr_from_vpn vpn = vpn * 4096.
Proof.
  intros. unfold VirtAddr_from_vpn, wshl. rewrite Z.shiftl_mul_pow2 by (vm_compute; done).
  apply wrap_small. change (2 ^ PAGE_SIZE_BITS) with 4096. word.
Qed.

Lemma iter_collect_ok n l fuel :
  0 ≤ l → l + Z.of_nat n < W64 → (n < fuel)%nat →
  iter_collect fuel {| it_current := l; it_end := l + Z.of_nat n |} = Ok (seqZ l (Z.of_nat n)).
Proof.
  revert l fuel. induction n as [|n IH]; intros l fuel Hl Hr Hf.
  - destruct fuel as [|fuel]; [lia|]. simpl. unfold SimpleRangeIterator_next. simpl.
    by rewrite Z.add_0_r, Z.eqb_refl.
  - destruct fuel as [|fuel]; [lia|]. cbn [iter_collect]. unfold SimpleRangeIterator_next.
    cbn [it_current it_end]. destruct (Z.eqb_spec l (l + Z.of_nat (S n))); [lia|].
    unfold page_step. rewrite wadd_small by lia.
    replace (l + Z.of_nat (S n)) with (l + 1 + Z.of_nat n) by lia.
    rewrite IH by lia. rewrite (seqZ_cons l) by lia.
    replace (Z.pred (Z.of_nat (S n))) with (Z.of_nat n) by lia.
    by rewrite <-Z.add_1_r.
Qed.

(** * Properties *)

(** two page numbers accepted by [VirtPageNum::from] that select the same three page-table
    indexes are equal: on accepted page numbers the page-table walk never confuses two pages. *)
Theorem indexes_injective (v w a b : Z) :
  0 ≤ v → 0 ≤ w → VirtPageNum_from_usize v = Ok a → VirtPageNum_from_usize w = Ok b →
  VirtPageNum_indexes a = VirtPageNum_indexes b → v = w.
Proof.
  intros ?? [-> ?]%VirtPageNum_from_usize_inv [-> ?]%VirtPageNum_from_usize_inv
    ?%VirtPageNum_indexes_mod; auto using canonical_vpn_mod_inj.
Qed.

Lemma indexes_injective_witness : VirtPageNum_from_usize 0x80200 = Ok 0x80200 ∧ 0x80200 = 0x80200.
Proof.
  split; [reflexivity|].
  apply (indexes_injective 0x80200 0x80200 0x80200 0x80200); (lia || reflexivity).
Defined.

(** [VirtAddr::from] accepts exactly the addresses whose bits 39 to 63 agree and panics on the
    others; an accepted address converted back to [usize] is unchanged unless it lies in
    [[2^38, 2^39)], where the conversion sign-extends it. *)
Theorem VirtAddr_usize_roundtrip (v : Z) :
  is_usize v →
  (VirtAddr_from_usize v
   = if decide (v < 2 ^ 39 ∨ W64 - 2 ^ 39 ≤ v) then Ok v else Panic Assert) ∧
  (VirtAddr_from_usize v = Ok v → usize_from_VirtAddr v = v ↔ ¬ (2 ^ 38 ≤ v < 2 ^ 39)).
Proof.
  intros Hv. rewrite VirtAddr_from_usize_eq, usize_from_VirtAddr_eq by done.
  split; [case_bool_decide; by destruct (decide _)|].
  unfold is_usize, W64 in *.
  case_bool_decide as H1; [intros _|done]. case_bool_decide; [lia|].
  Z.to_euclidean_division_equations. lia.
Qed.

Lemma VirtAddr_usize_roundtrip_witness : usize_from_VirtAddr 0xffffffc080200000 = 0xffffffc080200000.
Proof.
  apply (VirtAddr_usize_roundtrip 0xffffffc080200000); [|reflexivity|];
    unfold is_usize, W64; lia.
Defined.

(** the address check of [VirtAddr::from] is one bit too wide for SV39: every address [v] of
    [[2^38, 2^39)] is accepted although it is not canonical, and it selects the same page-table
    entry as the accepted kernel address [v + 2^64 - 2^39]. *)
Theorem VirtAddr_from_accepts_alias (v : Z) :
  2 ^ 38 ≤ v < 2 ^ 39 →
  let w := v + (W64 - 2 ^ 39) in
  VirtAddr_from_usize v = Ok v ∧ ¬ sv39_canonical v ∧
  VirtAddr_from_usize w = Ok w ∧ sv39_canonical w ∧
  VirtPageNum_indexes (VirtAddr_floor v) = VirtPageNum_indexes (VirtAddr_floor w).
Proof.
  intros Hv w. rewrite !VirtAddr_from_usize_eq by (subst w; word).
  unfold sv39_canonical, w, W64 in *.
  rewrite !bool_decide_true by lia. repeat split; try lia.
  apply VirtPageNum_indexes_mod. unfold VirtAddr_floor, PAGE_SIZE.
  replace (v + (2 ^ 64 - 2 ^ 39)) with (v + (2 ^ 52 - 2 ^ 27) * 4096) by lia.
  rewrite Z.div_add by lia.
  replace (2 ^ 52 - 2 ^ 27) with ((2 ^ 25 - 1) * 2 ^ 27) by lia. by rewrite Z.mod_add by lia.
Qed.

Lemma VirtAddr_from_accepts_alias_witness :
  VirtAddr_from_usize 0x4000000000 = Ok 0x4000000000 ∧
  VirtPageNum_indexes (VirtAddr_floor 0x4000000000)
  = VirtPageNum_indexes (VirtAddr_floor (0x4000000000 + (W64 - 2 ^ 39))).
Proof.
  destruct (VirtAddr_from_accepts_alias 0x4000000000) as (H1 & _ & _ & _ & H2); [lia|].
  split; [exact H1|exact H2].
Defined.

(** [floor] and [ceil] give the page that contains an address and the first page boundary at
    or above it, a page number converted to an address and back is unchanged, and an address that
    is not page aligned is refused by the conversion to a page number. *)
Theorem page_rounding (va vpn : Z) :
  0 ≤ va → va + 4095 < W64 → 0 ≤ vpn < 2 ^ 52 →
  (VirtAddr_floor va * 4096 ≤ va < (VirtAddr_floor va + 1) * 4096) ∧
  ((VirtAddr_ceil va - 1) * 4096 < va ≤ VirtAddr_ceil va * 4096) ∧
  va = VirtAddr_floor va * 4096 + VirtAddr_page_offset va ∧
  VirtPageNum_from_va (VirtAddr_from_vpn vpn) = Ok vpn ∧
  (VirtPageNum_from_va va
   = if decide (VirtAddr_ceil va = VirtAddr_floor va) then Ok (VirtAddr_floor va) else Panic Assert).
Proof.
  intros Hva Hlt Hvpn. unfold VirtPageNum_from_va.
  rewrite VirtAddr_ceil_eq, !page_offset_mod, VirtAddr_from_vpn_eq by done.
  unfold VirtAddr_floor, PAGE_SIZE. rewrite Z_mod_mult, Z.div_mul by lia.
  repeat split; try (Z.to_euclidean_division_equations; lia).
  destruct (Z.eqb_spec (va mod 4096) 0); destruct (decide _); simpl; try done;
    exfalso; Z.to_euclidean_division_equations; lia.
Qed.

Lemma page_rounding_witness :
  VirtAddr_floor 0x10fff * 4096 ≤ 0x10fff ∧ VirtPageNum_from_va (VirtAddr_from_vpn 3) = Ok 3.
Proof.
  destruct (page_rounding 0x10fff 3) as (H1 & _ & _ & H2 & _); [lia|unfold W64; lia|lia|].
  split; [apply H1|exact H2].
Defined.

(** a [for] loop over a page range terminates and visits each page of [[start, end)] exactly
    once, in increasing order; a range with [start > end] is refused. *)
Theorem range_loop_visits (start_ end_ : Z) :
  0 ≤ start_ → end_ < W64 →
  match SimpleRange_new start_ end_ with
  | Ok r => start_ ≤ end_ ∧ ∀ fuel, (Z.to_nat (end_ - start_) < fuel)%nat →
      iter_collect fuel (SimpleRange_into_iter r) = Ok (range_pages r) ∧
      (∀ p, p ∈ range_pages r ↔ start_ ≤ p < end_) ∧ NoDup (range_pages r)
  | Panic f => end_ < start_ ∧ f = Assert
  | NoFuel => False
  end.
Proof.
  intros Hs He. unfold SimpleRange_new, SimpleRange_into_iter, range_pages.
  destruct (Z.leb_spec start_ end_); simpl; [|done]. split; [done|]. intros fuel Hf.
  split; [|split].
  - pose proof (iter_collect_ok (Z.to_nat (end_ - start_)) start_ fuel) as Hi.
    rewrite Z2Nat.id in Hi by lia. replace (start_ + (end_ - start_)) with end_ in Hi by lia. auto with lia.
  - intros p. rewrite elem_of_seqZ. lia.
  - apply NoDup_seqZ.
Qed.

Lemma range_loop_visits_witness :
  iter_collect 4 (SimpleRange_into_iter {| range_l := 5; range_r := 8 |}) = Ok [5; 6; 7].
Proof.
  destruct (range_loop_visits 5 8) as [_ H]; [lia|unfold W64; lia|].
  apply (H 4%nat). simpl. lia.
Defined.
