(* ===== verification/FrameAllocator.v ===== *)
(** * Physical frames ([os/src/mm/frame_allocator.rs])

    Physical memory is the map from page numbers to their 4096 bytes, read and written through the
    kernel's linear window ([PhysPageNum::get_bytes_array]); its initial contents are arbitrary.
    [Mm] is the memory together with the global [FRAME_ALLOCATOR].  A [FrameTracker] is its page
    number; dropping it is the explicit call [FrameTracker_drop]. *)

From Stdlib Require Import ZArith Lia.
From stdpp Require Import functions prelude.
From S2P Require Import Prelude Config Address.

Open Scope Z_scope.

(** ** The allocator *)

Record StackFrameAllocator := {
  fa_current : Z;
  fa_end : Z;
  fa_recycled : list Z;
}.

Definition StackFrameAllocator_new : StackFrameAllocator :=
  {| fa_current := 0; fa_end := 0; fa_recycled := [] |}.

Definition StackFrameAllocator_init (s : StackFrameAllocator) (l r : PhysPageNum)
    : StackFrameAllocator :=
  {| fa_current := l; fa_end := r; fa_recycled := fa_recycled s |}.

Definition fa_set_current (s : StackFrameAllocator) (c : Z) : StackFrameAllocator :=
  {| fa_current := c; fa_end := fa_end s; fa_recycled := fa_recycled s |}.

(** [self.current += 1; (self.current - 1).into()] *)
Definition fa_bump : M StackFrameAllocator PhysPageNum :=
  modify (λ s, fa_set_current s (wadd (fa_current s) 1));;
  s ← get;
  lift (PhysPageNum_from_usize (wsub (fa_current s) 1)).

Definition StackFrameAllocator_alloc : M StackFrameAllocator (option PhysPageNum) :=
  s ← get;
  if fa_current s =? fa_end s then mret None
  else ppn ← fa_bump; mret (Some ppn).

Definition StackFrameAllocator_alloc_contiguous (num : nat)
    : M StackFrameAllocator (list PhysPageNum * PhysPageNum) :=
  root_ppn ← gets fa_current;
  ret ← foldM (λ ret _,
    s ← get;
    if fa_current s =? fa_end s then panic Explicit
    else ppn ← fa_bump; mret (ret ++ [ppn])) [] (seq 0 num);
  root ← lift (PhysPageNum_from_usize root_ppn);
  mret (ret, root).

Definition StackFrameAllocator_dealloc (ppn : PhysPageNum) : M StackFrameAllocator unit :=
  s ← get;
  if (fa_current s <=? ppn) || existsb (λ v, v =? ppn) (fa_recycled s) then panic Explicit
  else put {| fa_current := fa_current s; fa_end := fa_end s;
              fa_recycled := fa_recycled s ++ [ppn] |}.

(** ** Memory and frame trackers *)

Record Mm := {
  mem : Z → list Z;
  fa : StackFrameAllocator;
}.

Definition zero_page : list Z := replicate 4096 0.

Definition set_mem (f : (Z → list Z) → Z → list Z) (s : Mm) : Mm :=
  {| mem := f (mem s); fa := fa s |}.

(** [ppn.get_bytes_array()], read and overwritten as a whole *)
Definition get_bytes_array (s : Mm) (ppn : PhysPageNum) : list Z := mem s ppn.
Definition set_bytes_array (ppn : PhysPageNum) (bytes : list Z) : M Mm unit :=
  modify (set_mem (λ m, <[ppn := bytes]> m)).

(** [FRAME_ALLOCATOR.exclusive_access(..)]: run an operation on the global allocator. *)
Definition with_allocator {A} (c : M StackFrameAllocator A) : M Mm A := λ s,
  match c (fa s) with
  | Ok (a, f) => Ok (a, {| mem := mem s; fa := f |})
  | Panic e => Panic e
  | NoFuel => NoFuel
  end.

(** [FrameTracker::new]: every byte of the frame is cleared. *)
Definition FrameTracker_new (ppn : PhysPageNum) : M Mm PhysPageNum :=
  s ← get;
  set_bytes_array ppn (map (λ _, 0) (get_bytes_array s ppn));;
  mret ppn.

Definition frame_alloc : M Mm (option PhysPageNum) :=
  o ← with_allocator StackFrameAllocator_alloc;
  match o with
  | None => mret None
  | Some ppn => t ← FrameTracker_new ppn; mret (Some t)
  end.

Definition frame_alloc_contiguous (num : nat) : M Mm (list PhysPageNum * PhysPageNum) :=
  '(frames, root_ppn) ← with_allocator (StackFrameAllocator_alloc_contiguous num);
  trackers ← foldM (λ ts p, t ← FrameTracker_new p; mret (ts ++ [t])) [] frames;
  mret (trackers, root_ppn).

Definition frame_dealloc (ppn : PhysPageNum) : M Mm unit :=
  with_allocator (StackFrameAllocator_dealloc ppn).

Definition FrameTracker_drop (t : PhysPageNum) : M Mm unit := frame_dealloc t.

(** Dropping a [Vec<FrameTracker>] or the values of a map drops the elements in order. *)
Definition drop_frames (l : list PhysPageNum) : M Mm unit :=
  foldM (λ _ t, FrameTracker_drop t) () l.

(** [init_frame_allocator]; [ekernel] is the linker's end of the kernel image. *)
Definition init_frame_allocator (ekernel memory_end : Z) : M Mm unit :=
  with_allocator (modify (λ s,
    StackFrameAllocator_init s (PhysAddr_ceil (PhysAddr_from_ka ekernel))
                               (PhysAddr_floor (PhysAddr_from_ka memory_end)))).

(** * Lemmas *)

(** Invariant of the allocator: the unused frames are [[current, end)], the recycled ones are
    distinct frames below [current]. *)
Record fa_inv (s : StackFrameAllocator) : Prop := {
  fa_inv_lo : 0 ≤ fa_current s;
  fa_inv_le : fa_current s ≤ fa_end s;
  fa_inv_hi : fa_end s < 2 ^ 44;
  fa_inv_nodup : NoDup (fa_recycled s);
  fa_inv_rec : Forall (λ p, p < fa_current s) (fa_recycled s);
}.

Record mm_inv (s : Mm) : Prop := {
  mm_inv_fa : fa_inv (fa s);
  mm_inv_len : ∀ p, length (mem s p) = 4096%nat;
  mm_inv_byte : ∀ p, Forall is_byte (mem s p);
}.

Lemma fa_bump_ok s :
  fa_inv s → fa_current s < fa_end s →
  fa_bump s = Ok (fa_current s, fa_set_current s (fa_current s + 1)).
Proof.
  intros [Hlo Hle Hhi _ _] Hlt. unfold fa_bump. run. cbn [fa_current fa_set_current].
  rewrite wadd_small, wsub_small by word.
  rewrite Z.add_simpl_r, PhysPageNum_from_usize_ok by lia. done.
Qed.

Lemma fa_inv_bump s :
  fa_inv s → fa_current s < fa_end s → fa_inv (fa_set_current s (fa_current s + 1)).
Proof.
  intros [?? ? ? Hrec] ?. split; simpl; try done; try lia.
  eapply Forall_impl; [exact Hrec|]. simpl. lia.
Qed.

Lemma alloc_eq s :
  fa_inv s →
  StackFrameAllocator_alloc s
  = if decide (fa_current s = fa_end s) then Ok (None, s)
    else Ok (Some (fa_current s), fa_set_current s (fa_current s + 1)).
Proof.
  intros Hinv. pose proof (fa_inv_le _ Hinv). unfold StackFrameAllocator_alloc. run.
  destruct (Z.eqb_spec (fa_current s) (fa_end s)).
  - by rewrite decide_True.
  - rewrite decide_False by done. by erewrite bind_Ok by (apply fa_bump_ok; done || lia).
Qed.

Lemma existsb_elem_of (l : list Z) p : existsb (λ v, v =? p) l = bool_decide (p ∈ l).
Proof.
  apply eq_true_iff_eq. rewrite existsb_exists, bool_decide_eq_true, list_elem_of_In.
  split; [|naive_solver lia]. intros (x & ? & ?%Z.eqb_eq). by subst.
Qed.

Lemma dealloc_eq p s :
  StackFrameAllocator_dealloc p s
  = if decide (fa_current s ≤ p ∨ p ∈ fa_recycled s) then Panic Explicit
    else Ok ((), {| fa_current := fa_current s; fa_end := fa_end s;
                    fa_recycled := fa_recycled s ++ [p] |}).
Proof.
  unfold StackFrameAllocator_dealloc. run. rewrite existsb_elem_of.
  destruct (decide _) as [H|H]; destruct (Z.leb_spec (fa_current s) p); simpl; try done.
  - destruct H; [lia|]. by rewrite bool_decide_true.
  - naive_solver.
  - by rewrite bool_decide_false by naive_solver.
Qed.

Lemma dealloc_inv p s u s' :
  fa_inv s → StackFrameAllocator_dealloc p s = Ok (u, s') → fa_inv s'.
Proof.
  intros [] H. rewrite dealloc_eq in H. destruct (decide _) as [|Hn]; simplify_eq.
  split; simpl; try done.
  - apply NoDup_app. split; [done|]. split; [|apply NoDup_singleton].
    intros x Hx ->%list_elem_of_singleton. auto.
  - apply Forall_app. split; [done|]. constructor; [lia|done].
Qed.

Lemma fa_set_current_twice s a b : fa_set_current (fa_set_current s a) b = fa_set_current s b.
Proof. done. Qed.

Lemma fa_set_current_id s : fa_set_current s (fa_current s) = s.
Proof. by destruct s. Qed.

Lemma alloc_contiguous_loop {X} (l : list X) acc s :
  fa_inv s →
  foldM (λ ret _,
    s ← get;
    if fa_current s =? fa_end s then panic Explicit
    else ppn ← fa_bump; mret (ret ++ [ppn])) acc l s
  = if decide (Z.of_nat (length l) ≤ fa_end s - fa_current s)
    then Ok (acc ++ seqZ (fa_current s) (Z.of_nat (length l)),
             fa_set_current s (fa_current s + Z.of_nat (length l)))
    else Panic Explicit.
Proof.
  revert acc s. induction l as [|x l IH]; intros acc s Hinv; pose proof (fa_inv_le _ Hinv).
  - rewrite decide_True by (simpl; lia). cbn. by rewrite app_nil_r, Z.add_0_r, fa_set_current_id.
  - cbn [foldM length]. run. destruct (Z.eqb_spec (fa_current s) (fa_end s)).
    + rewrite decide_False by lia. by run.
    + run. erewrite bind_Ok by (apply fa_bump_ok; done || lia). run.
      rewrite IH by (apply fa_inv_bump; done || lia). simpl fa_current. simpl fa_end.
      rewrite fa_set_current_twice.
      destruct (decide _); [rewrite decide_True by lia|rewrite decide_False by lia; done].
      rewrite <-app_assoc. rewrite (seqZ_cons (fa_current s) (Z.of_nat (S (length l)))) by lia.
      replace (Z.pred (Z.of_nat (S (length l)))) with (Z.of_nat (length l)) by lia.
      rewrite <-Z.add_1_r.
      by replace (fa_current s + 1 + Z.of_nat (length l))
        with (fa_current s + Z.of_nat (S (length l))) by lia.
Qed.

Lemma alloc_contiguous_eq num s :
  fa_inv s →
  StackFrameAllocator_alloc_contiguous num s
  = if decide (Z.of_nat num ≤ fa_end s - fa_current s)
    then Ok (seqZ (fa_current s) (Z.of_nat num), fa_current s,
             fa_set_current s (fa_current s + Z.of_nat num))
    else Panic Explicit.
Proof.
  intros Hinv. unfold StackFrameAllocator_alloc_contiguous. run.
  pose proof (alloc_contiguous_loop (seq 0 num) [] s Hinv) as Hl. rewrite length_seq in Hl.
  destruct Hinv. destruct (decide _).
  - rewrite (bind_Ok _ _ _ _ _ Hl). rewrite PhysPageNum_from_usize_ok by lia. done.
  - by rewrite (bind_Panic _ _ _ _ Hl).
Qed.

Lemma map_zero_page (l : list Z) : length l = 4096%nat → map (λ _, 0) l = zero_page.
Proof.
  intros Hl. unfold zero_page. rewrite <-Hl. clear Hl. induction l; simpl; congruence.
Qed.

Lemma zero_page_byte : Forall is_byte zero_page.
Proof. apply Forall_replicate. unfold is_byte. lia. Qed.

Lemma FrameTracker_new_eq p s :
  length (mem s p) = 4096%nat →
  FrameTracker_new p s = Ok (p, {| mem := <[p := zero_page]> (mem s); fa := fa s |}).
Proof.
  intros Hl. unfold FrameTracker_new, set_bytes_array, get_bytes_array. run.
  unfold set_mem. by rewrite map_zero_page.
Qed.

Definition mm_bump (s : Mm) : Mm :=
  {| mem := <[fa_current (fa s) := zero_page]> (mem s);
     fa := fa_set_current (fa s) (fa_current (fa s) + 1) |}.

Lemma with_allocator_eq {A} (c : M StackFrameAllocator A) s :
  with_allocator c s
  = match c (fa s) with
    | Ok (a, f) => Ok (a, {| mem := mem s; fa := f |})
    | Panic e => Panic e
    | NoFuel => NoFuel
    end.
Proof. done. Qed.

Lemma frame_alloc_eq s :
  mm_inv s →
  frame_alloc s
  = if decide (fa_current (fa s) = fa_end (fa s)) then Ok (None, s)
    else Ok (Some (fa_current (fa s)), mm_bump s).
Proof.
  intros [Hfa Hlen _]. unfold frame_alloc.
  pose proof (with_allocator_eq StackFrameAllocator_alloc s) as E. rewrite alloc_eq in E by done.
  destruct (decide _) as [He|Hne].
  - rewrite (bind_Ok _ _ _ _ _ E). by destruct s.
  - rewrite (bind_Ok _ _ _ _ _ E). by erewrite bind_Ok by (apply FrameTracker_new_eq, Hlen).
Qed.

Lemma mm_inv_set_page s p bytes :
  mm_inv s → length bytes = 4096%nat → Forall is_byte bytes →
  mm_inv {| mem := <[p := bytes]> (mem s); fa := fa s |}.
Proof.
  intros [Hfa Hl Hb] ??. split; simpl; [done|..].
  all: intros q; destruct (decide (p = q)) as [->|];
    rewrite ?fn_lookup_insert, ?fn_lookup_insert_ne by done; auto.
Qed.

Lemma mm_inv_bump s :
  mm_inv s → fa_current (fa s) < fa_end (fa s) → mm_inv (mm_bump s).
Proof.
  intros Hs Hlt.
  destruct (mm_inv_set_page s (fa_current (fa s)) zero_page) as [_ Hl Hb];
    [done|done|apply zero_page_byte|].
  split; simpl; [|done|done]. by apply fa_inv_bump; [apply Hs|].
Qed.

(** A successful [frame_alloc] either finds the allocator exhausted or hands out the cleared frame
    [current]. *)
Lemma frame_alloc_Ok s o s' :
  mm_inv s → frame_alloc s = Ok (o, s') →
  mm_inv s' ∧
  match o with
  | None => s' = s ∧ fa_current (fa s) = fa_end (fa s)
  | Some p => p = fa_current (fa s) ∧ p < fa_end (fa s) ∧ s' = mm_bump s
  end.
Proof.
  intros Hs. pose proof (fa_inv_le _ (mm_inv_fa _ Hs)). rewrite frame_alloc_eq by done.
  destruct (decide _); intros ?; simplify_eq; [done|].
  split; [apply mm_inv_bump; [done|lia]|]. split; [done|]. split; [lia|done].
Qed.

Definition mm_dealloc (s : Mm) (p : Z) : Mm :=
  {| mem := mem s;
     fa := {| fa_current := fa_current (fa s); fa_end := fa_end (fa s);
              fa_recycled := fa_recycled (fa s) ++ [p] |} |}.

Lemma frame_dealloc_eq p s :
  frame_dealloc p s
  = if decide (fa_current (fa s) ≤ p ∨ p ∈ fa_recycled (fa s)) then Panic Explicit
    else Ok ((), mm_dealloc s p).
Proof.
  unfold frame_dealloc, with_allocator. rewrite dealloc_eq. by destruct (decide _).
Qed.

Lemma frame_dealloc_Ok p s u s' :
  mm_inv s → frame_dealloc p s = Ok (u, s') →
  mm_inv s' ∧ s' = mm_dealloc s p ∧ p < fa_current (fa s) ∧ p ∉ fa_recycled (fa s).
Proof.
  intros [Hfa Hl Hb] H. pose proof H as H'. rewrite frame_dealloc_eq in H'.
  unfold frame_dealloc, with_allocator in H.
  destruct (StackFrameAllocator_dealloc p (fa s)) as [[v f]| |] eqn:E; simplify_eq.
  destruct (decide _) as [|Hn]; simplify_eq.
  split; [split; simpl; [by eapply dealloc_inv|done..]|]. split; [done|]. split; [lia|naive_solver].
Qed.

(** Clearing a list of frames one after the other. *)
Lemma trackers_loop (l : list Z) acc s :
  mm_inv s →
  ∃ s', foldM (λ ts p, t ← FrameTracker_new p; mret (ts ++ [t])) acc l s = Ok (acc ++ l, s') ∧
    mm_inv s' ∧ fa s' = fa s ∧
    (∀ p, p ∈ l → mem s' p = zero_page) ∧ (∀ p, p ∉ l → mem s' p = mem s p).
Proof.
  revert acc s. induction l as [|x l IH]; intros acc s Hs.
  - exists s. rewrite app_nil_r. split_and!; [done..|intros p Hp; by apply not_elem_of_nil in Hp|done].
  - cbn [foldM]. run. erewrite bind_Ok by (apply FrameTracker_new_eq, Hs). run.
    edestruct (IH (acc ++ [x])) as (s' & -> & Hs' & Hfa & Hz & Hsame).
    { apply (mm_inv_set_page s x); [done|done|apply zero_page_byte]. }
    exists s'. rewrite <-app_assoc. split_and!; [done|done|done| |].
    + intros p Hp. destruct (decide (p ∈ l)); [auto|].
      assert (p = x) as -> by set_solver. rewrite Hsame by done. simpl. by rewrite fn_lookup_insert.
    + intros p Hp. rewrite Hsame by set_solver. simpl. rewrite fn_lookup_insert_ne; set_solver.
Qed.

(** ** Sequences of allocator calls *)

Inductive frame_op := OpAlloc | OpAllocContiguous (num : nat) | OpDealloc (ppn : Z).

(** Runs the calls in order and collects the frames handed out. *)
Definition run_frame_op (given : list Z) (op : frame_op) : M Mm (list Z) :=
  match op with
  | OpAlloc => o ← frame_alloc; mret (given ++ option_list o)
  | OpAllocContiguous n => '(ts, _) ← frame_alloc_contiguous n; mret (given ++ ts)
  | OpDealloc p => frame_dealloc p;; mret given
  end.

Definition run_frame_ops (ops : list frame_op) : M Mm (list Z) := foldM run_frame_op [] ops.

Lemma frame_alloc_contiguous_cases n s :
  mm_inv s →
  match frame_alloc_contiguous n s with
  | Ok ((ts, root), s') =>
      Z.of_nat n ≤ fa_end (fa s) - fa_current (fa s) ∧
      root = fa_current (fa s) ∧ ts = seqZ root (Z.of_nat n) ∧ mm_inv s' ∧
      fa s' = fa_set_current (fa s) (root + Z.of_nat n) ∧
      (∀ p, p ∈ ts → mem s' p = zero_page) ∧ (∀ p, p ∉ ts → mem s' p = mem s p)
  | Panic f => f = Explicit ∧ fa_end (fa s) - fa_current (fa s) < Z.of_nat n
  | NoFuel => False
  end.
Proof.
  intros Hs. unfold frame_alloc_contiguous.
  pose proof (with_allocator_eq (StackFrameAllocator_alloc_contiguous n) s) as E.
  rewrite alloc_contiguous_eq in E by apply Hs.
  destruct (decide _) as [Hle|Hgt]; [|rewrite (bind_Panic _ _ _ _ E); split; [done|lia]].
  rewrite (bind_Ok _ _ _ _ _ E). cbn beta iota.
  edestruct (trackers_loop (seqZ (fa_current (fa s)) (Z.of_nat n)) []) as (s' & Hl & Hs' & Hfa & ? & ?).
  2: { rewrite (bind_Ok _ _ _ _ _ Hl). cbn. by split_and!. }
  destruct Hs as [[]]. split; [split|..]; simpl; try done; try lia.
  eapply Forall_impl; [done|]. simpl. lia.
Qed.

(** What a sequence of calls maintains: the frames handed out so far are the consecutive frames
    from [l] up to [current], and a frame freed once stays in [recycled]. *)
Record trace_inv (l : Z) (s0 : Mm) (given : list Z) (s : Mm) : Prop := {
  ti_mm : mm_inv s;
  ti_given : given = seqZ l (Z.of_nat (length given));
  ti_current : fa_current (fa s) = l + Z.of_nat (length given);
  ti_end : fa_end (fa s) = fa_end (fa s0);
  ti_recycled : fa_recycled (fa s0) ⊆ fa_recycled (fa s);
}.

Lemma trace_inv_step l s0 op given s given' s' :
  trace_inv l s0 given s → run_frame_op given op s = Ok (given', s') →
  trace_inv l s0 given' s'.
Proof.
  intros [Hmm Hg Hc He Hr] H. destruct op as [|n|p]; simpl in H; inv_ok.
  - apply frame_alloc_Ok in H0 as [Hmm' Ho]; [|done]. destruct a as [p|]; simpl.
    + destruct Ho as (-> & Hlt & ->). split; simpl; try done; rewrite length_app; simpl.
      * rewrite Nat2Z.inj_add, Hc, seqZ_snoc by lia. by rewrite <-Hg.
      * rewrite Hc. lia.
    + destruct Ho as [-> _]. by rewrite app_nil_r.
  - destruct a as [ts root]. inv_ok. pose proof (frame_alloc_contiguous_cases n s Hmm) as Hcc.
    rewrite H0 in Hcc. destruct Hcc as (Hle & -> & -> & Hmm' & Hfa & _).
    split; [done| | |by rewrite Hfa|by rewrite Hfa].
    + rewrite length_app, length_seqZ, Nat2Z.inj_add, Z2Nat.id, seqZ_app by lia.
      by rewrite <-Hg, Hc.
    + rewrite Hfa, length_app, length_seqZ. simpl. lia.
  - apply frame_dealloc_Ok in H0 as (Hmm' & -> & _); [|done]. split; simpl; try done. set_solver.
Qed.

Lemma trace_inv_run l s0 ops given s :
  mm_inv s0 → l = fa_current (fa s0) → run_frame_ops ops s0 = Ok (given, s) →
  trace_inv l s0 given s.
Proof.
  intros Hs0 -> H. unfold run_frame_ops in H.
  apply (foldM_inv (λ _ g s, trace_inv (fa_current (fa s0)) s0 g s) _ _ _ _ _ _ H).
  - split; try done. simpl. lia.
  - intros. by eapply trace_inv_step.
Qed.

(** * Properties *)

(** A state as [init_frame_allocator] leaves it, for the free frames [[l, r)]. *)
Definition booted (m : Z → list Z) (l r : Z) : Mm :=
  {| mem := m; fa := StackFrameAllocator_init StackFrameAllocator_new l r |}.

(** C6: however allocations, contiguous allocations and deallocations are interleaved after boot,
    no frame is ever handed out twice and every frame handed out lies in the managed range
    [[l, r)]; the frames are handed out in increasing order. *)
Theorem frames_handed_out_once (m : Z → list Z) (l r : Z) (ops : list frame_op) given s :
  0 ≤ l → l ≤ r → r < 2 ^ 44 → mm_inv (booted m l r) →
  run_frame_ops ops (booted m l r) = Ok (given, s) →
  NoDup given ∧ Forall (λ p, l ≤ p < r) given ∧ given = seqZ l (Z.of_nat (length given)).
Proof.
  intros ??? Hs H. eapply trace_inv_run in H as [Hmm Hg Hc He _]; [|done|done].
  simpl in *. pose proof (fa_inv_le _ (mm_inv_fa _ Hmm)).
  split_and!; [rewrite Hg; apply NoDup_seqZ| |done].
  rewrite Hg. apply Forall_forall. intros p. rewrite elem_of_seqZ. lia.
Qed.

Lemma booted_inv (m : Z → list Z) (l r : Z) :
  0 ≤ l → l ≤ r → r < 2 ^ 44 →
  (∀ p, length (m p) = 4096%nat) → (∀ p, Forall is_byte (m p)) → mm_inv (booted m l r).
Proof. intros. split; [split|..]; simpl; try done. constructor. Qed.

Definition demo_ops : list frame_op :=
  [OpAlloc; OpAllocContiguous 2; OpDealloc 0x80300; OpAlloc; OpAlloc].

Lemma frames_handed_out_once_witness :
  NoDup [0x80300; 0x80301; 0x80302; 0x80303].
Proof.
  destruct (run_frame_ops demo_ops (booted (λ _, zero_page) 0x80300 0x80304))
    as [[given s]| |] eqn:E; [|vm_compute in E; discriminate..].
  assert (given = [0x80300; 0x80301; 0x80302; 0x80303]) as <- by (vm_compute in E; congruence).
  apply (frames_handed_out_once (λ _, zero_page) 0x80300 0x80304 demo_ops given s); try lia.
  - apply booted_inv; try lia; [done|intros _; apply zero_page_byte].
  - exact E.
Defined.

(** a freed frame is never available again: after any sequence of calls that has handed out as
    many frames as the managed range holds, [frame_alloc] fails, whatever has been freed since
    (the recycled stack is filled and never popped). *)
Theorem recycled_frames_never_reused (m : Z → list Z) (l r : Z) (ops : list frame_op) given s :
  0 ≤ l → l ≤ r → r < 2 ^ 44 → mm_inv (booted m l r) →
  run_frame_ops ops (booted m l r) = Ok (given, s) →
  frame_alloc s = Ok (None, s) ↔ Z.of_nat (length given) = r - l.
Proof.
  intros ??? Hs H. eapply trace_inv_run in H as [Hmm Hg Hc He _]; [|done|done].
  rewrite frame_alloc_eq by done. simpl in *. rewrite Hc, He.
  destruct (decide _); [split; [lia|done]|]. split; [done|lia].
Qed.

Lemma recycled_frames_never_reused_witness :
  ∃ s, run_frame_ops demo_ops (booted (λ _, zero_page) 0x80300 0x80304)
       = Ok ([0x80300; 0x80301; 0x80302; 0x80303], s) ∧ frame_alloc s = Ok (None, s).
Proof.
  destruct (run_frame_ops demo_ops (booted (λ _, zero_page) 0x80300 0x80304))
    as [[given s]| |] eqn:E; [|vm_compute in E; discriminate..].
  assert (given = [0x80300; 0x80301; 0x80302; 0x80303]) as -> by (vm_compute in E; congruence).
  exists s. split; [done|].
  apply (recycled_frames_never_reused (λ _, zero_page) 0x80300 0x80304 demo_ops
           [0x80300; 0x80301; 0x80302; 0x80303] s); try lia; [|exact E|reflexivity].
  apply booted_inv; try lia; [done|intros _; apply zero_page_byte].
Defined.

(** freeing a frame twice is always caught: once [frame_dealloc p] has succeeded, a later
    [frame_dealloc p] panics, whatever calls happen in between. *)
Theorem double_free_panics (s s1 s2 : Mm) (p : Z) (u : unit) (ops : list frame_op) given :
  mm_inv s → frame_dealloc p s = Ok (u, s1) → run_frame_ops ops s1 = Ok (given, s2) →
  frame_dealloc p s2 = Panic Explicit.
Proof.
  intros Hs Hd Hr. apply frame_dealloc_Ok in Hd as (Hs1 & -> & _); [|done].
  eapply trace_inv_run in Hr as [_ _ _ _ Hrec]; [|done|done].
  rewrite frame_dealloc_eq, decide_True; [done|]. right. apply Hrec. simpl. set_solver.
Qed.

Lemma double_free_panics_witness :
  ∃ s2, frame_dealloc 0x80300 s2 = Panic Explicit ∧ fa_recycled (fa s2) = [0x80300].
Proof.
  set (s := mm_bump (booted (λ _, zero_page) 0x80300 0x80304)).
  exists (mm_bump (mm_dealloc s 0x80300)). split; [|reflexivity].
  apply (double_free_panics s (mm_dealloc s 0x80300) _ 0x80300 () [OpAlloc] [0x80301]).
  - apply mm_inv_bump; [|simpl; lia].
    apply booted_inv; try lia; [done|intros _; apply zero_page_byte].
  - reflexivity.
  - reflexivity.
Defined.

(** [frame_alloc_contiguous n] hands out exactly the next [n] consecutive frames, all cleared,
    and leaves every other page alone; it panics exactly when fewer than [n] frames are left. *)
Theorem frame_alloc_contiguous_spec (n : nat) (s : Mm) :
  mm_inv s →
  match frame_alloc_contiguous n s with
  | Ok ((ts, root), s') =>
      Z.of_nat n ≤ fa_end (fa s) - fa_current (fa s) ∧
      root = fa_current (fa s) ∧ ts = seqZ root (Z.of_nat n) ∧ mm_inv s' ∧
      fa_current (fa s') = root + Z.of_nat n ∧
      (∀ p, p ∈ ts → get_bytes_array s' p = zero_page) ∧
      (∀ p, p ∉ ts → get_bytes_array s' p = get_bytes_array s p)
  | Panic f => f = Explicit ∧ fa_end (fa s) - fa_current (fa s) < Z.of_nat n
  | NoFuel => False
  end.
Proof.
  intros Hs. pose proof (frame_alloc_contiguous_cases n s Hs) as H.
  destruct (frame_alloc_contiguous n s) as [[[ts root] s']| |]; [|done..].
  destruct H as (?&->&->&?&->&?&?). by split_and!.
Qed.

Lemma frame_alloc_contiguous_spec_witness :
  frame_alloc_contiguous 5 (booted (λ _, zero_page) 0x80300 0x80304) = Panic Explicit ∧
  0x80304 - 0x80300 < 5.
Proof.
  pose proof (frame_alloc_contiguous_spec 5 (booted (λ _, zero_page) 0x80300 0x80304)) as H.
  destruct (frame_alloc_contiguous 5 (booted (λ _, zero_page) 0x80300 0x80304))
    as [[[ts root] s']|f|] eqn:E; [vm_compute in E; discriminate| |vm_compute in E; discriminate].
  destruct H as [-> H].
  { apply booted_inv; try lia; [done|intros _; apply zero_page_byte]. }
  split; [reflexivity|exact H].
Defined.
