(* ===== verification/PageTable.v ===== *)
(** * SV39 page tables ([os/src/mm/page_table.rs])

    Page-table entries are the 64-bit little-endian words of the pages of physical memory, so that
    a table walk reads and writes the same memory as everything else.  A reference to an entry
    ([&mut PageTableEntry]) is the slot it designates: the page number of the table and the index.

    The first half gives the code; the second half relates it to the tree of table pages
    ([node]), states the invariant that this tree has no sharing ([pt_inv]), and shows that the
    table implements a finite map from page numbers to entries ([pt_lookup]). *)

From Stdlib Require Import ZArith Lia.
From stdpp Require Import functions prelude.
From S2P Require Import Prelude Config Address FrameAllocator.

Open Scope Z_scope.

(** ** Entries *)

Definition PTEFlags_V : Z := Z.shiftl 1 0.
Definition PTEFlags_R : Z := Z.shiftl 1 1.
Definition PTEFlags_W : Z := Z.shiftl 1 2.
Definition PTEFlags_X : Z := Z.shiftl 1 3.
Definition PTEFlags_U : Z := Z.shiftl 1 4.
Definition PTEFlags_G : Z := Z.shiftl 1 5.
Definition PTEFlags_A : Z := Z.shiftl 1 6.
Definition PTEFlags_D : Z := Z.shiftl 1 7.

(** [bitflags]: all flags, and [from_bits], which refuses undefined bits *)
Definition PTEFlags_all : Z :=
  foldr Z.lor 0 [PTEFlags_V; PTEFlags_R; PTEFlags_W; PTEFlags_X;
                 PTEFlags_U; PTEFlags_G; PTEFlags_A; PTEFlags_D].
Definition PTEFlags_from_bits (b : Z) : option Z :=
  if Z.land b (255 - PTEFlags_all) =? 0 then Some b else None.

Definition PageTableEntry_new (ppn : PhysPageNum) (flags : Z) : Z := Z.lor (wshl ppn 10) flags.
Definition PageTableEntry_empty : Z := 0.
Definition PageTableEntry_ppn (bits : Z) : outcome PhysPageNum :=
  PhysPageNum_from_usize (Z.land (Z.shiftr bits 10) (Z.shiftl 1 44 - 1)).
Definition PageTableEntry_flags (bits : Z) : outcome Z :=
  unwrapO (PTEFlags_from_bits (as_u8 bits)).
Definition PageTableEntry_is_valid (bits : Z) : outcome bool :=
  f ← PageTableEntry_flags bits; mret (negb (Z.land f PTEFlags_V =? 0)).
Definition PageTableEntry_readable (bits : Z) : outcome bool :=
  f ← PageTableEntry_flags bits; mret (negb (Z.land f PTEFlags_R =? 0)).
Definition PageTableEntry_writable (bits : Z) : outcome bool :=
  f ← PageTableEntry_flags bits; mret (negb (Z.land f PTEFlags_W =? 0)).
Definition PageTableEntry_executable (bits : Z) : outcome bool :=
  f ← PageTableEntry_flags bits; mret (negb (Z.land f PTEFlags_X =? 0)).

(** ** Slots: [&mut ppn.get_pte_array()[idx]] *)

Definition slot : Type := Z * Z.

Definition rd_pte (m : Z → list Z) (p i : Z) : Z :=
  le_word (slice (m p) (8 * Z.to_nat i) (8 * Z.to_nat i + 8)).
Definition wr_pte (m : Z → list Z) (p i e : Z) : Z → list Z :=
  <[p := splice (m p) (8 * Z.to_nat i) (le_bytes 8 e)]> m.

Definition get_pte_array (ppn : PhysPageNum) (idx : Z) : outcome slot :=
  if (0 <=? idx) && (idx <? 512) then Ok (ppn, idx) else Panic Bounds.
Definition load_pte (sl : slot) : M Mm Z := gets (λ s, rd_pte (mem s) (fst sl) (snd sl)).
Definition store_pte (sl : slot) (e : Z) : M Mm unit :=
  modify (set_mem (λ m, wr_pte m (fst sl) (snd sl) e)).

(** ** Page tables *)

Record PageTable := { root_ppn : PhysPageNum; frames : list PhysPageNum }.

Definition PageTable_new : M Mm PageTable :=
  o ← frame_alloc;
  frame ← unwrap o;
  mret {| root_ppn := frame; frames := [frame] |}.

Definition PageTable_from_token (satp : Z) : outcome PageTable :=
  r ← PhysPageNum_from_usize (Z.land satp (Z.shiftl 1 44 - 1));
  mret {| root_ppn := r; frames := [] |}.

(** [new_process]; [kernel_root] is [KERNEL_SPACE.page_table.root_ppn].  The entries from index
    [indexes()[0]] on are copied from the kernel's root table. *)
Definition PageTable_new_process (kernel_root : PhysPageNum) : M Mm PageTable :=
  o ← frame_alloc;
  frame ← unwrap o;
  kernel_root_vpn ← lift (VirtPageNum_from_usize KERNEL_SPACE_OFFSET);
  idx ← unwrap (head (VirtPageNum_indexes kernel_root_vpn));
  s ← get;
  set_bytes_array frame
    (let i := Z.to_nat idx in
     take (8 * i) (get_bytes_array s frame) ++ drop (8 * i) (get_bytes_array s kernel_root));;
  mret {| root_ppn := frame; frames := [frame] |}.

Definition enumerate {A} (l : list A) : list (nat * A) := zip (seq 0 (length l)) l.

(** The part of the loop of [find_pte_create] that makes a missing table. *)
Definition pte_ensure (pt : PageTable) (pte : slot) : M Mm (PageTable * PhysPageNum) :=
  e ← load_pte pte;
  v ← lift (PageTableEntry_is_valid e);
  pt' ← (if (v : bool) then mret pt
         else
           o ← frame_alloc;
           frame ← unwrap o;
           store_pte pte (PageTableEntry_new frame PTEFlags_V);;
           mret {| root_ppn := root_ppn pt; frames := frames pt ++ [frame] |});
  e' ← load_pte pte;
  ppn ← lift (PageTableEntry_ppn e');
  mret (pt', ppn).

Fixpoint find_pte_create_loop (pt : PageTable) (ppn : PhysPageNum) (l : list (nat * Z))
    : M Mm (PageTable * option slot) :=
  match l with
  | [] => mret (pt, None)
  | (i, idx) :: rest =>
      pte ← lift (get_pte_array ppn idx);
      if (i =? 2)%nat then mret (pt, Some pte)
      else
        '(pt', ppn') ← pte_ensure pt pte;
        find_pte_create_loop pt' ppn' rest
  end.

Definition find_pte_create (pt : PageTable) (vpn : VirtPageNum) : M Mm (PageTable * option slot) :=
  find_pte_create_loop pt (root_ppn pt) (enumerate (VirtPageNum_indexes vpn)).

Fixpoint find_pte_loop (ppn : PhysPageNum) (l : list (nat * Z)) : M Mm (option slot) :=
  match l with
  | [] => mret None
  | (i, idx) :: rest =>
      pte ← lift (get_pte_array ppn idx);
      if (i =? 2)%nat then mret (Some pte)
      else
        e ← load_pte pte;
        v ← lift (PageTableEntry_is_valid e);
        if (v : bool) then ppn' ← lift (PageTableEntry_ppn e); find_pte_loop ppn' rest
        else mret None
  end.

Definition find_pte (pt : PageTable) (vpn : VirtPageNum) : M Mm (option slot) :=
  find_pte_loop (root_ppn pt) (enumerate (VirtPageNum_indexes vpn)).

Definition leaf_flags (flags : Z) : Z :=
  Z.lor (Z.lor (Z.lor flags PTEFlags_V) PTEFlags_D) PTEFlags_A.

Definition PageTable_map (pt : PageTable) (vpn : VirtPageNum) (ppn : PhysPageNum) (flags : Z)
    : M Mm PageTable :=
  '(pt', o) ← find_pte_create pt vpn;
  pte ← unwrap o;
  e ← load_pte pte;
  v ← lift (PageTableEntry_is_valid e);
  assertM (negb v);;
  store_pte pte (PageTableEntry_new ppn (leaf_flags flags));;
  mret pt'.

Definition PageTable_map_allow_cover (pt : PageTable) (vpn : VirtPageNum) (ppn : PhysPageNum)
    (flags : Z) : M Mm PageTable :=
  '(pt', o) ← find_pte_create pt vpn;
  pte ← unwrap o;
  store_pte pte (PageTableEntry_new ppn (leaf_flags flags));;
  mret pt'.

Definition PageTable_unmap (pt : PageTable) (vpn : VirtPageNum) : M Mm unit :=
  o ← find_pte pt vpn;
  pte ← unwrap o;
  e ← load_pte pte;
  v ← lift (PageTableEntry_is_valid e);
  assertM v;;
  store_pte pte PageTableEntry_empty.

Definition PageTable_translate (pt : PageTable) (vpn : VirtPageNum) : M Mm (option Z) :=
  o ← find_pte pt vpn;
  match o with
  | None => mret None
  | Some pte => e ← load_pte pte; mret (Some e)
  end.

Definition PageTable_translate_va (pt : PageTable) (va : VirtAddr) : M Mm (option PhysAddr) :=
  o ← find_pte pt (VirtAddr_floor va);
  match o with
  | None => mret None
  | Some pte =>
      e ← load_pte pte;
      ppn ← lift (PageTableEntry_ppn e);
      pa ← lift (PhysAddr_from_usize (wadd (PhysAddr_from_ppn ppn) (VirtAddr_page_offset va)));
      mret (Some pa)
  end.

Definition PageTable_token (pt : PageTable) : Z := Z.lor (wshl 8 60) (root_ppn pt).

(** ** Buffers in another address space *)

(** A [&'static mut [u8]] into a physical page: the page and the bounds of the slice. *)
Record view := { view_ppn : PhysPageNum; view_lo : Z; view_hi : Z }.

(** [&mut ppn.get_bytes_array()[lo..hi]] *)
Definition byte_slice (ppn : PhysPageNum) (lo hi : Z) : outcome view :=
  if (lo <=? hi) && (hi <=? 4096) then Ok {| view_ppn := ppn; view_lo := lo; view_hi := hi |}
  else Panic Bounds.

(** The body of the [while start < end] loop of [translated_byte_buffer]. *)
Definition translated_byte_buffer_step (page_table : PageTable) (end_ : Z)
    (st : Z * list view) : M Mm (Z * list view + list view) :=
  let '(start, v) := st in
  if start <? end_ then
    start_va ← lift (VirtAddr_from_usize start);
    let vpn := VirtAddr_floor start_va in
    o ← PageTable_translate page_table vpn;
    e ← unwrap o;
    ppn ← lift (PageTableEntry_ppn e);
    let vpn := page_step vpn in
    let end_va := VirtAddr_from_vpn vpn in
    end_va' ← lift (VirtAddr_from_usize end_);
    let end_va := Z.min end_va end_va' in
    w ← lift (if VirtAddr_page_offset end_va =? 0
              then byte_slice ppn (VirtAddr_page_offset start_va) 4096
              else byte_slice ppn (VirtAddr_page_offset start_va) (VirtAddr_page_offset end_va));
    mret (inl (usize_from_VirtAddr end_va, v ++ [w]))
  else mret (inr v).

(** [translated_byte_buffer]: the fuel is one more than the number of pages the buffer can touch. *)
Definition translated_byte_buffer (token ptr len : Z) : M Mm (list view) :=
  page_table ← lift (PageTable_from_token token);
  let end_ := wadd ptr len in
  loopM (Z.to_nat (len / 4096 + 3)) (translated_byte_buffer_step page_table end_) (ptr, []).

(** [UserBuffer] and its iterator, which yields one pointer (page, offset) per byte. *)
Definition UserBuffer_len (buffers : list view) : Z :=
  foldl (λ total b, wadd total (view_hi b - view_lo b)) 0 buffers.

Record UserBufferIterator := {
  ub_buffers : list view;
  ub_current_buffer : nat;
  ub_current_idx : Z;
}.

Definition UserBuffer_into_iter (buffers : list view) : UserBufferIterator :=
  {| ub_buffers := buffers; ub_current_buffer := 0; ub_current_idx := 0 |}.

Definition UserBufferIterator_next (it : UserBufferIterator)
    : outcome (option (Z * Z) * UserBufferIterator) :=
  match ub_buffers it !! ub_current_buffer it with
  | None => Ok (None, it)
  | Some b =>
      if ub_current_idx it <? view_hi b - view_lo b then
        let r := (view_ppn b, view_lo b + ub_current_idx it) in
        if wadd (ub_current_idx it) 1 =? view_hi b - view_lo b
        then Ok (Some r, {| ub_buffers := ub_buffers it;
                            ub_current_buffer := S (ub_current_buffer it); ub_current_idx := 0 |})
        else Ok (Some r, {| ub_buffers := ub_buffers it;
                            ub_current_buffer := ub_current_buffer it;
                            ub_current_idx := wadd (ub_current_idx it) 1 |})
      else Panic Bounds
  end.

(** * Lemmas *)

(** ** Entries *)

Definition pte_ppn (e : Z) : Z := e / 2 ^ 10 mod 2 ^ 44.

Lemma pte_ppn_range e : 0 ≤ pte_ppn e < 2 ^ 44.
Proof. apply Z.mod_pos_bound. lia. Qed.

Lemma PTE_ppn_eq e : PageTableEntry_ppn e = Ok (pte_ppn e).
Proof.
  unfold PageTableEntry_ppn. change (Z.shiftl 1 44 - 1) with (2 ^ 44 - 1).
  rewrite land_ones_mod, Z.shiftr_div_pow2 by lia.
  apply PhysPageNum_from_usize_ok, pte_ppn_range.
Qed.

Lemma PTE_flags_eq e : PageTableEntry_flags e = Ok (e mod 256).
Proof.
  unfold PageTableEntry_flags, PTEFlags_from_bits. change (255 - PTEFlags_all) with 0.
  by rewrite Z.land_0_r.
Qed.

Lemma land_bit_test f k : 0 ≤ k → negb (Z.land f (2 ^ k) =? 0) = Z.testbit f k.
Proof.
  intros Hk. replace (Z.land f (2 ^ k)) with (Z.b2z (Z.testbit f k) * 2 ^ k).
  { destruct (Z.testbit f k); simpl Z.b2z; [|done].
    destruct (Z.eqb_spec (1 * 2 ^ k) 0); [lia|done]. }
  apply Z.bits_inj'. intros i Hi.
  rewrite Z.land_spec, Z.pow2_bits_eqb, <-Z.shiftl_mul_pow2, Z.shiftl_spec by lia.
  destruct (Z.eqb_spec k i) as [->|].
  - by rewrite Z.sub_diag, Z.b2z_bit0, andb_true_r.
  - rewrite andb_false_r. destruct (decide (i < k)); [by rewrite Z.testbit_neg_r by lia|].
    destruct (Z.testbit f k); simpl; [|by rewrite Z.bits_0].
    change 1 with (2 ^ 0). rewrite Z.pow2_bits_false; [done|lia].
Qed.

Lemma flag_test e k :
  0 ≤ k < 8 → (f ← PageTableEntry_flags e; mret (negb (Z.land f (2 ^ k) =? 0))) = Ok (Z.testbit e k).
Proof.
  intros Hk. rewrite PTE_flags_eq. unfold mbind, outcome_bind, mret, outcome_ret.
  rewrite land_bit_test by lia. change 256 with (2 ^ 8). by rewrite Z.mod_pow2_bits_low by lia.
Qed.

Lemma PTE_is_valid_eq e : PageTableEntry_is_valid e = Ok (Z.testbit e 0).
Proof. apply (flag_test e 0). lia. Qed.

Lemma PTE_new_eq ppn flags :
  0 ≤ ppn < 2 ^ 44 → 0 ≤ flags < 2 ^ 10 → PageTableEntry_new ppn flags = ppn * 2 ^ 10 + flags.
Proof.
  intros. unfold PageTableEntry_new, wshl.
  rewrite Z.shiftl_mul_pow2, wrap_small by (lia || word). by apply lor_disjoint_add.
Qed.

Lemma PTE_new_range ppn flags :
  0 ≤ ppn < 2 ^ 44 → 0 ≤ flags < 2 ^ 10 → is_usize (PageTableEntry_new ppn flags).
Proof. intros. rewrite PTE_new_eq by done. word. Qed.

Lemma PTE_new_ppn ppn flags :
  0 ≤ ppn < 2 ^ 44 → 0 ≤ flags < 2 ^ 10 → pte_ppn (PageTableEntry_new ppn flags) = ppn.
Proof.
  intros. rewrite PTE_new_eq by done. unfold pte_ppn.
  rewrite Z.div_add_l, (Z.div_small flags), Z.add_0_r by lia. by apply Z.mod_small.
Qed.

Lemma PTE_new_testbit ppn flags k :
  0 ≤ ppn < 2 ^ 44 → 0 ≤ flags < 2 ^ 10 → 0 ≤ k < 10 →
  Z.testbit (PageTableEntry_new ppn flags) k = Z.testbit flags k.
Proof.
  intros. rewrite PTE_new_eq by done. rewrite <-(Z.mod_pow2_bits_low _ 10) by lia.
  by rewrite Z.add_comm, Z.mod_add, Z.mod_small by lia.
Qed.

Lemma PTE_new_valid ppn flags :
  0 ≤ ppn < 2 ^ 44 → 0 ≤ flags < 2 ^ 8 → Z.testbit flags 0 = true →
  Z.testbit (PageTableEntry_new ppn flags) 0 = true.
Proof. intros. rewrite PTE_new_testbit by lia. done. Qed.

Lemma leaf_flags_range flags : 0 ≤ flags < 2 ^ 8 → 0 ≤ leaf_flags flags < 2 ^ 8.
Proof.
  intros Hf. unfold leaf_flags.
  assert (∀ a b, 0 ≤ a < 2 ^ 8 → 0 ≤ b < 2 ^ 8 → 0 ≤ Z.lor a b < 2 ^ 8) as Hlor.
  { intros a b Ha Hb. split; [apply Z.lor_nonneg; lia|].
    destruct (Z.eqb_spec (Z.lor a b) 0) as [->|]; [lia|].
    apply Z.log2_lt_pow2; [pose proof (proj2 (Z.lor_nonneg a b)); lia|].
    rewrite Z.log2_lor by lia. apply Z.max_lub_lt.
    all: match goal with |- Z.log2 ?x < _ => destruct (Z.eqb_spec x 0) as [->|];
           [done|apply Z.log2_lt_pow2; lia] end. }
  repeat apply Hlor; [done|done..].
Qed.

Lemma leaf_flags_valid flags : Z.testbit (leaf_flags flags) 0 = true.
Proof. unfold leaf_flags. rewrite !Z.lor_spec. by rewrite orb_true_r. Qed.

(** ** Slots *)

Lemma rd_pte_range m p i :
  Forall is_byte (m p) → length (m p) = 4096%nat → 0 ≤ i < 512 → is_usize (rd_pte m p i).
Proof.
  intros Hb Hl Hi. unfold rd_pte.
  pose proof (le_word_range (slice (m p) (8 * Z.to_nat i) (8 * Z.to_nat i + 8))) as H.
  rewrite length_slice in H by lia. replace (8 * Z.to_nat i + 8 - 8 * Z.to_nat i)%nat with 8%nat in H by lia.
  apply H. by apply Forall_slice.
Qed.

Lemma rd_wr_same m p i e :
  length (m p) = 4096%nat → 0 ≤ i < 512 → is_usize e → rd_pte (wr_pte m p i e) p i = e.
Proof.
  intros Hl Hi He. unfold rd_pte, wr_pte. rewrite fn_lookup_insert.
  pose proof (slice_splice_same (m p) (8 * Z.to_nat i) (le_bytes 8 e)) as H.
  rewrite length_le_bytes in H. rewrite H by lia. by apply (le_word_le_bytes 8).
Qed.

Lemma rd_wr_other m p i e q j :
  length (m p) = 4096%nat → 0 ≤ i < 512 → 0 ≤ j < 512 → (q, j) ≠ (p, i) →
  rd_pte (wr_pte m p i e) q j = rd_pte m q j.
Proof.
  intros Hl Hi Hj Hne. unfold rd_pte, wr_pte.
  destruct (decide (p = q)) as [->|Hp]; [|by rewrite fn_lookup_insert_ne].
  rewrite fn_lookup_insert. assert (i ≠ j) by congruence.
  rewrite slice_splice_other; [done|rewrite ?length_le_bytes; lia..].
Qed.

Lemma rd_zero_page m p i : m p = zero_page → 0 ≤ i < 512 → rd_pte m p i = 0.
Proof.
  intros Hz Hi. unfold rd_pte. rewrite Hz. unfold slice, zero_page.
  rewrite drop_replicate, take_replicate.
  replace (_ `min` _)%nat with 8%nat by lia. done.
Qed.

Lemma rd_pte_ext m m' p i : m' p = m p → rd_pte m' p i = rd_pte m p i.
Proof. unfold rd_pte. by intros ->. Qed.

(** ** The tree of table pages *)

Definition child (m : Z → list Z) (p i : Z) : option Z :=
  if Z.testbit (rd_pte m p i) 0 then Some (pte_ppn (rd_pte m p i)) else None.

(** The table page reached from [p] along a path of indexes. *)
Fixpoint node (m : Z → list Z) (p : Z) (path : list Z) : option Z :=
  match path with
  | [] => Some p
  | i :: rest => match child m p i with Some q => node m q rest | None => None end
  end.

Definition good_index (i : Z) : Prop := 0 ≤ i < 512.
Definition good_path (path : list Z) : Prop := (length path ≤ 2)%nat ∧ Forall good_index path.

(** The tree invariant: the tables of a page table are distinct allocated frames, so that no table
    is reached along two paths, and the next frame of the allocator is not one of them. *)
Record pt_inv (s : Mm) (root : Z) : Prop := {
  pt_inv_bound : ∀ path p, good_path path → node (mem s) root path = Some p →
    p < fa_current (fa s);
  pt_inv_inj : ∀ path path' p, good_path path → good_path path' →
    node (mem s) root path = Some p → node (mem s) root path' = Some p → path = path';
}.

(** The abstract contents of a page table: the valid leaf entry of a page number, if any. *)
Definition walk (m : Z → list Z) (root i j k : Z) : option Z :=
  match node m root [i; j] with
  | Some p => if Z.testbit (rd_pte m p k) 0 then Some (rd_pte m p k) else None
  | None => None
  end.

Definition idx0 (vpn : Z) : Z := vpn / 2 ^ 18 mod 512.
Definition idx1 (vpn : Z) : Z := vpn / 2 ^ 9 mod 512.
Definition idx2 (vpn : Z) : Z := vpn mod 512.

Definition pt_lookup (s : Mm) (pt : PageTable) (vpn : Z) : option Z :=
  walk (mem s) (root_ppn pt) (idx0 vpn) (idx1 vpn) (idx2 vpn).

Lemma good_idx0 vpn : good_index (idx0 vpn).
Proof. apply Z.mod_pos_bound. lia. Qed.
Lemma good_idx1 vpn : good_index (idx1 vpn).
Proof. apply Z.mod_pos_bound. lia. Qed.
Lemma good_idx2 vpn : good_index (idx2 vpn).
Proof. apply Z.mod_pos_bound. lia. Qed.

Lemma good_path_nil : good_path [].
Proof. split; [simpl; lia|constructor]. Qed.
Lemma good_path_1 i : good_index i → good_path [i].
Proof. split; [simpl; lia|]. by rewrite Forall_singleton. Qed.
Lemma good_path_2 i j : good_index i → good_index j → good_path [i; j].
Proof. split; [simpl; lia|]. by rewrite Forall_cons, Forall_singleton. Qed.
#[export] Hint Resolve good_idx0 good_idx1 good_idx2 good_path_nil good_path_1 good_path_2 : chaos.

(** Case analysis on a path of length at most two. *)
Lemma good_path_cases path :
  good_path path →
  path = [] ∨ (∃ i, path = [i] ∧ good_index i) ∨
  (∃ i j, path = [i; j] ∧ good_index i ∧ good_index j).
Proof.
  intros [Hl Hf]. destruct path as [|i [|j [|]]]; simpl in Hl; [auto| | |lia].
  - inv Hf. eauto.
  - inv Hf. match goal with H : Forall _ [j] |- _ => inv H end. eauto 10.
Qed.

Lemma child_ext m m' p i : rd_pte m' p i = rd_pte m p i → child m' p i = child m p i.
Proof. unfold child. by intros ->. Qed.

Lemma child_zero m p i : m p = zero_page → good_index i → child m p i = None.
Proof. intros. unfold child. by rewrite rd_zero_page. Qed.

(** Writing a leaf entry does not change the tree. *)
Lemma node_wr_leaf s root a b p k e path :
  pt_inv s root → mm_inv s → good_index a → good_index b → good_index k →
  node (mem s) root [a; b] = Some p → good_path path →
  node (wr_pte (mem s) p k e) root path = node (mem s) root path.
Proof.
  intros [_ Hinj] Hmm Ha Hb Hk Hp Hpath.
  assert (∀ q π i, good_path π → node (mem s) root π = Some q → π ≠ [a; b] → good_index i →
    child (wr_pte (mem s) p k e) q i = child (mem s) q i) as Hsame.
  { intros q π i Hπ Hq Hne Hi. apply child_ext, rd_wr_other; [apply Hmm|done..|].
    intros [= -> ->]. apply Hne. eapply Hinj; eauto with chaos. }
  apply good_path_cases in Hpath as [->|[(i & -> & Hi)|(i & j & -> & Hi & Hj)]]; [done|..].
  - simpl. rewrite (Hsame root []) by (eauto with chaos || done). done.
  - simpl. rewrite (Hsame root []) by (eauto with chaos || done).
    destruct (child (mem s) root i) as [q|] eqn:Hq; [|done].
    rewrite (Hsame q [i]); [done|eauto with chaos|simpl; by rewrite Hq|done|done].
Qed.

(** Hanging a fresh cleared frame below the table [p] at index [i]. *)
Definition hang (s : Mm) (p i : Z) : Z → list Z :=
  wr_pte (<[fa_current (fa s) := zero_page]> (mem s)) p i
    (PageTableEntry_new (fa_current (fa s)) PTEFlags_V).

Section hang.
Context (s : Mm) (root : Z) (Hpt : pt_inv s root) (Hmm : mm_inv s).
Context (Hlt : fa_current (fa s) < fa_end (fa s)).

Lemma node_not_fresh path p :
  good_path path → node (mem s) root path = Some p → p ≠ fa_current (fa s).
Proof. intros Hg Hn ->. pose proof (pt_inv_bound _ _ Hpt _ _ Hg Hn). lia. Qed.

Lemma child_not_fresh i q :
  good_index i → child (mem s) root i = Some q → q ≠ fa_current (fa s).
Proof. intros Hi Hq. apply (node_not_fresh [i]); [auto with chaos|]. simpl. by rewrite Hq. Qed.

Lemma child_not_root i q : good_index i → child (mem s) root i = Some q → q ≠ root.
Proof.
  intros Hi Hq ->. pose proof (pt_inv_inj _ _ Hpt [i] [] root) as H. simpl in H.
  rewrite Hq in H. naive_solver auto with chaos.
Qed.

Lemma child_root_inj i j q :
  good_index i → good_index j →
  child (mem s) root i = Some q → child (mem s) root j = Some q → i = j.
Proof.
  intros Hi Hj Hq Hq'. pose proof (pt_inv_inj _ _ Hpt [i] [j] q) as H. simpl in H.
  rewrite Hq, Hq' in H. by specialize (H (good_path_1 _ Hi) (good_path_1 _ Hj) eq_refl eq_refl) as [= ->].
Qed.

Lemma hang_same p i q j :
  p ≠ fa_current (fa s) → good_index i → good_index j → q ≠ fa_current (fa s) → (q, j) ≠ (p, i) →
  rd_pte (hang s p i) q j = rd_pte (mem s) q j.
Proof.
  intros Hp Hi Hj Hq Hqj. unfold hang. destruct Hmm. rewrite rd_wr_other; try done.
  - apply rd_pte_ext. by rewrite fn_lookup_insert_ne.
  - by rewrite fn_lookup_insert_ne.
Qed.

Lemma hang_child_same p i q j :
  p ≠ fa_current (fa s) → good_index i → good_index j → q ≠ fa_current (fa s) → (q, j) ≠ (p, i) →
  child (hang s p i) q j = child (mem s) q j.
Proof. intros. by apply child_ext, hang_same. Qed.

Lemma hang_child_new p i :
  p ≠ fa_current (fa s) → good_index i → child (hang s p i) p i = Some (fa_current (fa s)).
Proof.
  intros Hp Hi. destruct Hmm as [[] ? ?]. unfold child, hang.
  rewrite rd_wr_same; [|by rewrite fn_lookup_insert_ne|done|].
  - rewrite PTE_new_valid, PTE_new_ppn by (done || lia). done.
  - apply PTE_new_range; [lia|done].
Qed.

Lemma hang_fresh_page p i : p ≠ fa_current (fa s) → hang s p i (fa_current (fa s)) = zero_page.
Proof. intros. unfold hang, wr_pte. by rewrite fn_lookup_insert_ne, fn_lookup_insert by done. Qed.

Lemma hang_child_fresh p i j :
  p ≠ fa_current (fa s) → good_index j → child (hang s p i) (fa_current (fa s)) j = None.
Proof. intros. apply child_zero; [|done]. by apply hang_fresh_page. Qed.

(** At the root the new frame becomes the node [[i]] ... *)
Lemma node_hang_root i path :
  good_index i → child (mem s) root i = None → good_path path →
  node (hang s root i) root path
  = if decide (path = [i]) then Some (fa_current (fa s)) else node (mem s) root path.
Proof.
  intros Hi Hc Hpath. pose proof (node_not_fresh [] root good_path_nil eq_refl) as Hr.
  apply good_path_cases in Hpath as [->|[(x & -> & Hx)|(x & y & -> & Hx & Hy)]]; [done|..]; simpl.
  - destruct (decide (x = i)) as [->|]; [by rewrite hang_child_new, decide_True|].
    rewrite decide_False by congruence. rewrite hang_child_same by (done || congruence). done.
  - destruct (decide (x = i)) as [->|]; rewrite decide_False by congruence.
    { by rewrite hang_child_new, Hc, hang_child_fresh. }
    rewrite hang_child_same by (done || congruence).
    destruct (child (mem s) root x) as [q|] eqn:Hq; [|done].
    rewrite hang_child_same; [done|done|done|done|by apply (child_not_fresh x)|].
    pose proof (child_not_root x q Hx Hq). congruence.
Qed.

(** ... and below the node [[a]] it becomes the node [[a; i]]. *)
Lemma node_hang_child a p i path :
  good_index a → good_index i → child (mem s) root a = Some p → child (mem s) p i = None →
  good_path path →
  node (hang s p i) root path
  = if decide (path = [a; i]) then Some (fa_current (fa s)) else node (mem s) root path.
Proof.
  intros Ha Hi Hpa Hc Hpath. pose proof (node_not_fresh [] root good_path_nil eq_refl) as Hr.
  pose proof (child_not_root a p Ha Hpa). pose proof (child_not_fresh a p Ha Hpa).
  apply good_path_cases in Hpath as [->|[(x & -> & Hx)|(x & y & -> & Hx & Hy)]]; [done|..]; simpl.
  - by rewrite decide_False, hang_child_same by (done || congruence).
  - rewrite (hang_child_same p i root x) by (done || congruence).
    destruct (child (mem s) root x) as [q|] eqn:Hq.
    2: { rewrite decide_False; [done|]. intros [= -> ->]. congruence. }
    destruct (decide (q = p)) as [->|Hqp].
    + assert (x = a) as -> by (by apply (child_root_inj x a p)).
      destruct (decide (y = i)) as [->|]; [by rewrite hang_child_new, decide_True|].
      rewrite decide_False by congruence. by rewrite hang_child_same by (done || congruence).
    + rewrite decide_False by (intros [= -> ->]; congruence).
      by rewrite hang_child_same by (done || congruence || by apply (child_not_fresh x)).
Qed.
End hang.

Lemma node_app m p π i :
  node m p (π ++ [i]) = match node m p π with Some q => child m q i | None => None end.
Proof.
  revert p. induction π as [|x π IH]; intros p; simpl; [by destruct (child m p i)|].
  destruct (child m p x); [apply IH|done].
Qed.

Lemma good_path_app_l π i : good_path (π ++ [i]) → good_path π ∧ good_index i.
Proof.
  intros [Hl [Hπ Hi]%Forall_app]. rewrite Forall_singleton in Hi.
  rewrite length_app in Hl. simpl in Hl. split; [split; [lia|done]|done].
Qed.

Lemma node_hang s root π p i path :
  pt_inv s root → mm_inv s → fa_current (fa s) < fa_end (fa s) →
  good_path (π ++ [i]) → node (mem s) root π = Some p → child (mem s) p i = None → good_path path →
  node (hang s p i) root path
  = if decide (path = π ++ [i]) then Some (fa_current (fa s)) else node (mem s) root path.
Proof.
  intros Hpt Hmm Hlt Hg Hp Hc Hpath. pose proof (good_path_app_l _ _ Hg) as [[_ Hπ] Hi].
  destruct Hg as [Hlen _]. rewrite length_app in Hlen.
  destruct π as [|a [|]]; simpl in Hlen, Hp; [simplify_eq; by apply node_hang_root| |lia].
  rewrite Forall_singleton in Hπ. destruct (child (mem s) root a) as [q|] eqn:Hq; simplify_eq.
  by apply node_hang_child.
Qed.

Lemma mm_inv_wr_pte s p i e :
  mm_inv s → good_index i → mm_inv {| mem := wr_pte (mem s) p i e; fa := fa s |}.
Proof.
  intros Hs Hi. apply mm_inv_set_page; [done| |].
  - rewrite length_splice; [apply Hs|]. rewrite length_le_bytes, (mm_inv_len _ Hs).
    unfold good_index in Hi. lia.
  - apply Forall_splice; [apply Hs|apply le_bytes_byte].
Qed.

Definition hang_state (s : Mm) (p i : Z) : Mm :=
  {| mem := hang s p i; fa := fa (mm_bump s) |}.

(** How a walk that creates tables along [π] changes the state: tables are only added, they are
    fresh frames, the abstract contents stay, and pages that are neither fresh nor tables on the
    path are untouched. *)
Record pt_grow (root : Z) (π : list Z) (s s' : Mm) : Prop := {
  grow_mm : mm_inv s';
  grow_pt : pt_inv s' root;
  grow_cur : fa_current (fa s) ≤ fa_current (fa s');
  grow_fa : fa s' = fa_set_current (fa s) (fa_current (fa s'));
  grow_keep : ∀ path p, good_path path →
    node (mem s) root path = Some p → node (mem s') root path = Some p;
  grow_back : ∀ path p, good_path path → p < fa_current (fa s) →
    node (mem s') root path = Some p → node (mem s) root path = Some p;
  grow_walk : ∀ i j k, good_index i → good_index j → good_index k →
    walk (mem s') root i j k = walk (mem s) root i j k;
  grow_frame : ∀ q, q < fa_current (fa s) →
    (∀ path, path `prefix_of` π → node (mem s) root path ≠ Some q) → mem s' q = mem s q;
  grow_new : ∀ path q, good_path path → fa_current (fa s) ≤ q →
    node (mem s') root path = Some q → path `prefix_of` π;
}.

Lemma pt_grow_refl root π s : mm_inv s → pt_inv s root → pt_grow root π s s.
Proof.
  intros Hmm Hpt. split; try done; [by rewrite fa_set_current_id|].
  intros path q Hg Hq Hn. pose proof (pt_inv_bound _ _ Hpt path q Hg Hn). lia.
Qed.

Lemma pt_grow_trans root π s1 s2 s3 :
  good_path π → pt_grow root π s1 s2 → pt_grow root π s2 s3 → pt_grow root π s1 s3.
Proof.
  intros Hπ H12 H23. pose proof (grow_cur _ _ _ _ H12). pose proof (grow_cur _ _ _ _ H23).
  split; [apply H23|apply H23|lia|..].
  - rewrite (grow_fa _ _ _ _ H23) at 1. rewrite (grow_fa _ _ _ _ H12) at 1. done.
  - intros. by eapply grow_keep, grow_keep.
  - intros. eapply grow_back; [exact H12|done|done|]. eapply grow_back; [exact H23|done|lia|done].
  - intros. by rewrite (grow_walk _ _ _ _ H23), (grow_walk _ _ _ _ H12).
  - intros q Hq Hnot. rewrite (grow_frame _ _ _ _ H23); [by apply (grow_frame _ _ _ _ H12)|lia|].
    intros path Hpre Hn. apply (Hnot path Hpre). eapply grow_back; [done| |done|done].
    destruct Hpre as [k ->]. destruct Hπ as [Hl [Hf _]%Forall_app]. rewrite length_app in Hl.
    split; [lia|done].
  - intros path q Hg Hq Hn. destruct (decide (q < fa_current (fa s2))).
    + eapply (grow_new _ _ _ _ H12); [done|done|]. by eapply (grow_back _ _ _ _ H23).
    + apply (grow_new _ _ _ _ H23 path q); [done|lia|done].
Qed.

Lemma walk_hang s root π p i a b k :
  pt_inv s root → mm_inv s → fa_current (fa s) < fa_end (fa s) →
  good_path (π ++ [i]) → node (mem s) root π = Some p → child (mem s) p i = None →
  good_index a → good_index b → good_index k →
  walk (hang s p i) root a b k = walk (mem s) root a b k.
Proof.
  intros Hpt Hmm Hlt Hg Hp Hc Ha Hb Hk. unfold walk. pose proof (good_path_app_l _ _ Hg) as [Hπ Hi].
  pose proof (node_not_fresh s root Hpt π p Hπ Hp).
  rewrite (node_hang s root π p i) by auto with chaos. destruct (decide _) as [Heq|Hne].
  - rewrite (rd_zero_page _ (fa_current (fa s))) by (done || by apply hang_fresh_page).
    by rewrite Heq, node_app, Hp, Hc.
  - destruct (node (mem s) root [a; b]) as [q|] eqn:Hq; [|done].
    pose proof (node_not_fresh s root Hpt [a; b] q (good_path_2 _ _ Ha Hb) Hq).
    rewrite hang_same; try done. intros [= -> ->].
    pose proof (pt_inv_inj _ _ Hpt _ _ _ (good_path_2 _ _ Ha Hb) Hπ Hq Hp) as <-.
    destruct Hg as [Hl _]. simpl in Hl. lia.
Qed.

Lemma pt_grow_hang s root π p i π' :
  pt_inv s root → mm_inv s → fa_current (fa s) < fa_end (fa s) →
  good_path (π ++ [i]) → node (mem s) root π = Some p → child (mem s) p i = None →
  π ++ [i] `prefix_of` π' → pt_grow root π' s (hang_state s p i).
Proof.
  intros Hpt Hmm Hlt Hg Hp Hc Hpre'. assert (π `prefix_of` π') as Hpre by (by eapply prefix_app_l).
  pose proof (good_path_app_l _ _ Hg) as [Hπ Hi].
  pose proof (node_not_fresh s root Hpt π p Hπ Hp) as Hpf.
  pose proof (λ path, node_hang s root π p i path Hpt Hmm Hlt Hg Hp Hc) as Hnode.
  pose proof (λ path p H, pt_inv_bound _ _ Hpt path p H) as Hbd.
  split; unfold hang_state; simpl fa; simpl mem; cbn [fa_current fa_set_current mm_bump].
  - apply (mm_inv_wr_pte (mm_bump s)); [by apply mm_inv_bump|done].
  - split; simpl mem; simpl fa; cbn [fa_current fa_set_current].
    + intros path q Hpath. rewrite Hnode by done. destruct (decide _); intros; simplify_eq; [lia|].
      specialize (Hbd path q). naive_solver lia.
    + intros path path' q Hpath Hpath'. rewrite !Hnode by done.
      destruct (decide _); destruct (decide _); intros H1 H2; simplify_eq; [done|..].
      * by apply Hbd in H2; [lia|].
      * by apply Hbd in H1; [lia|].
      * by eapply pt_inv_inj.
  - lia.
  - done.
  - intros path q Hpath Hq. rewrite Hnode by done. rewrite decide_False; [done|]. intros ->.
    by rewrite node_app, Hp, Hc in Hq.
  - intros path q Hpath Hlt' . rewrite Hnode by done. destruct (decide _); [|done].
    intros [= <-]. lia.
  - intros. by apply (walk_hang s root π).
  - intros q Hq Hnot. unfold hang, wr_pte. rewrite !fn_lookup_insert_ne; [done|lia|].
    intros ->. by apply (Hnot π).
  - intros path q Hpath Hq. rewrite Hnode by done. destruct (decide _) as [->|]; [done|].
    intros Hn. pose proof (Hbd path q Hpath Hn). lia.
Qed.

(** ** The walks *)

Lemma indexes_idx vpn : VirtPageNum_indexes vpn = [idx0 vpn; idx1 vpn; idx2 vpn].
Proof. apply VirtPageNum_indexes_eq. Qed.

Lemma get_pte_array_ok p i : good_index i → get_pte_array p i = Ok (p, i).
Proof.
  intros [? ?]. unfold get_pte_array.
  by rewrite (proj2 (Z.leb_le _ _)), (proj2 (Z.ltb_lt _ _)).
Qed.

Lemma bind_load_pte {B} sl (k : Z → M Mm B) s :
  (load_pte sl ≫= k) s = k (rd_pte (mem s) (fst sl) (snd sl)) s.
Proof. done. Qed.
Lemma bind_store_pte {B} sl e (k : unit → M Mm B) s :
  (store_pte sl e ≫= k) s = k () {| mem := wr_pte (mem s) (fst sl) (snd sl) e; fa := fa s |}.
Proof. done. Qed.
#[export] Hint Rewrite @bind_load_pte @bind_store_pte PTE_is_valid_eq PTE_ppn_eq : run.

Lemma pte_ensure_spec pt s π p i π' :
  pt_inv s (root_ppn pt) → mm_inv s → good_path (π ++ [i]) → π ++ [i] `prefix_of` π' →
  node (mem s) (root_ppn pt) π = Some p →
  match pte_ensure pt (p, i) s with
  | Ok ((pt', q), s') =>
      pt_grow (root_ppn pt) π' s s' ∧ node (mem s') (root_ppn pt) (π ++ [i]) = Some q ∧
      root_ppn pt' = root_ppn pt ∧
      frames pt' = frames pt ++ seqZ (fa_current (fa s)) (fa_current (fa s') - fa_current (fa s)) ∧
      fa_current (fa s') ≤ fa_current (fa s) + 1
  | Panic f => f = Unwrap ∧ fa_current (fa s) = fa_end (fa s)
  | NoFuel => False
  end.
Proof.
  intros Hpt Hmm Hg Hpre Hp. pose proof (good_path_app_l _ _ Hg) as [Hπ Hi].
  pose proof (node_not_fresh s _ Hpt π p Hπ Hp).
  unfold pte_ensure. run. simpl fst. simpl snd.
  destruct (Z.testbit (rd_pte (mem s) p i) 0) eqn:Hv.
  { run. simpl. split_and!; [by apply pt_grow_refl| |done|by rewrite Z.sub_diag, app_nil_r|lia].
    rewrite node_app, Hp. unfold child. by rewrite Hv. }
  assert (child (mem s) p i = None) as Hc by (unfold child; by rewrite Hv).
  run. pose proof (frame_alloc_eq s Hmm) as Ha. pose proof (fa_inv_le _ (mm_inv_fa _ Hmm)).
  destruct (decide _) as [He|Hne]; [by rewrite (bind_Ok _ _ _ _ _ Ha)|].
  rewrite (bind_Ok _ _ _ _ _ Ha). run. simpl fst. simpl snd.
  change {| mem := _; fa := _ |} with (hang_state s p i). cbn [mem hang_state].
  pose proof (hang_child_new s Hmm ltac:(lia) p i ltac:(done) Hi) as Hnew.
  assert (fa_current (fa (hang_state s p i)) = fa_current (fa s) + 1) as Hcur by done.
  split_and!; [apply (pt_grow_hang s _ π); [done|done|lia|done..]| |done| |lia].
  - change (mem (hang_state s p i)) with (hang s p i).
    rewrite (node_hang s (root_ppn pt) π) by (done || lia). rewrite decide_True by done.
    unfold child in Hnew. destruct (Z.testbit (rd_pte (hang s p i) p i) 0); congruence.
  - rewrite Hcur. by replace (fa_current (fa s) + 1 - fa_current (fa s)) with 1 by lia.
Qed.

Lemma find_pte_create_spec pt s vpn :
  pt_inv s (root_ppn pt) → mm_inv s →
  match find_pte_create pt vpn s with
  | Ok ((pt', o), s') =>
      ∃ p, o = Some (p, idx2 vpn) ∧ pt_grow (root_ppn pt) [idx0 vpn; idx1 vpn] s s' ∧
        node (mem s') (root_ppn pt) [idx0 vpn; idx1 vpn] = Some p ∧
        root_ppn pt' = root_ppn pt ∧
        frames pt'
        = frames pt ++ seqZ (fa_current (fa s)) (fa_current (fa s') - fa_current (fa s)) ∧
        fa_current (fa s') ≤ fa_current (fa s) + 2
  | Panic f => f = Unwrap ∧ fa_end (fa s) - fa_current (fa s) < 2
  | NoFuel => False
  end.
Proof.
  intros Hpt Hmm. unfold find_pte_create. rewrite indexes_idx.
  change (enumerate _) with [(0%nat, idx0 vpn); (1%nat, idx1 vpn); (2%nat, idx2 vpn)].
  pose proof (good_path_2 _ _ (good_idx0 vpn) (good_idx1 vpn)) as Hg.
  set (π := [idx0 vpn; idx1 vpn]) in *.
  cbn [find_pte_create_loop Nat.eqb]. rewrite get_pte_array_ok by auto with chaos. run.
  pose proof (pte_ensure_spec pt s [] (root_ppn pt) (idx0 vpn) π Hpt Hmm
    (good_path_1 _ (good_idx0 vpn)) (prefix_app_r [idx0 vpn] [idx0 vpn] [idx1 vpn] (reflexivity _)) eq_refl) as H1.
  destruct (pte_ensure pt (root_ppn pt, idx0 vpn) s) as [[[pt1 p1] s1]|f|] eqn:E1;
    [|destruct H1 as [-> ?]; rewrite (bind_Panic _ _ _ _ E1); split; [done|lia]|done].
  rewrite (bind_Ok _ _ _ _ _ E1). cbn beta iota.
  destruct H1 as (G1 & Hn1 & Hr1 & Hf1 & Hb1). rewrite get_pte_array_ok by auto with chaos. run.
  rewrite <-Hr1 in Hn1.
  pose proof (pte_ensure_spec pt1 s1 [idx0 vpn] p1 (idx1 vpn) π
    ltac:(rewrite Hr1; apply G1) (grow_mm _ _ _ _ G1) Hg
    (reflexivity π) Hn1) as H2.
  pose proof (grow_cur _ _ _ _ G1) as Hc1. pose proof (f_equal fa_end (grow_fa _ _ _ _ G1)) as He1.
  simpl in He1.
  destruct (pte_ensure pt1 (p1, idx1 vpn) s1) as [[[pt2 p2] s2]|f|] eqn:E2;
    [|destruct H2 as [-> ?]; rewrite (bind_Panic _ _ _ _ E2); split; [done|lia]|done].
  rewrite (bind_Ok _ _ _ _ _ E2). cbn beta iota.
  destruct H2 as (G2 & Hn2 & Hr2 & Hf2 & Hb2). rewrite get_pte_array_ok by auto with chaos. run.
  rewrite Hr1 in *. pose proof (grow_cur _ _ _ _ G2). exists p2.
  split_and!; [done|by eapply pt_grow_trans|done|congruence| |lia].
  rewrite Hf2, Hf1, <-app_assoc. f_equal.
  replace (fa_current (fa s2) - fa_current (fa s))
    with ((fa_current (fa s1) - fa_current (fa s)) + (fa_current (fa s2) - fa_current (fa s1))) by lia.
  rewrite seqZ_app by lia. do 2 f_equal. lia.
Qed.

Lemma find_pte_eq pt vpn s :
  find_pte pt vpn s
  = Ok ((λ p, (p, idx2 vpn)) <$> node (mem s) (root_ppn pt) [idx0 vpn; idx1 vpn], s).
Proof.
  unfold find_pte. rewrite indexes_idx.
  change (enumerate _) with [(0%nat, idx0 vpn); (1%nat, idx1 vpn); (2%nat, idx2 vpn)].
  cbn [find_pte_loop node Nat.eqb]. unfold child. rewrite get_pte_array_ok by auto with chaos. run.
  cbn [fst snd]. destruct (Z.testbit (rd_pte (mem s) (root_ppn pt) (idx0 vpn)) 0); [|done].
  run. rewrite get_pte_array_ok by auto with chaos. run. cbn [fst snd].
  destruct (Z.testbit _ 0); [|done]. run. by rewrite get_pte_array_ok by auto with chaos.
Qed.

(** ** Updates of leaf entries *)

Definition leaf_state (s : Mm) (p k e : Z) : Mm := {| mem := wr_pte (mem s) p k e; fa := fa s |}.

Section leaf.
Context (s : Mm) (root a b p k e : Z).
Context (Hpt : pt_inv s root) (Hmm : mm_inv s).
Context (Ha : good_index a) (Hb : good_index b) (Hk : good_index k).
Context (Hp : node (mem s) root [a; b] = Some p) (He : is_usize e).

Lemma leaf_pt_inv : pt_inv (leaf_state s p k e) root.
Proof.
  split; unfold leaf_state; simpl mem; simpl fa.
  - intros path q Hg. rewrite (node_wr_leaf s root a b) by done. by apply Hpt.
  - intros path path' q Hg Hg'. rewrite !(node_wr_leaf s root a b) by done. by apply Hpt.
Qed.

Lemma leaf_mm_inv : mm_inv (leaf_state s p k e).
Proof. by apply mm_inv_wr_pte. Qed.

Lemma walk_wr_leaf i j l :
  good_index i → good_index j → good_index l →
  walk (wr_pte (mem s) p k e) root i j l
  = if decide ([i; j; l] = [a; b; k]) then (if Z.testbit e 0 then Some e else None)
    else walk (mem s) root i j l.
Proof.
  intros Hi Hj Hl. unfold walk. rewrite (node_wr_leaf s root a b) by auto with chaos.
  destruct (decide _) as [[= -> -> ->]|Hne].
  - rewrite Hp. by rewrite rd_wr_same by (done || apply Hmm).
  - destruct (node (mem s) root [i; j]) as [q|] eqn:Hq; [|done].
    rewrite rd_wr_other; [done|apply Hmm|done..|]. intros [= -> ->]. apply Hne.
    pose proof (pt_inv_inj _ _ Hpt [i; j] [a; b] p (good_path_2 _ _ Hi Hj) (good_path_2 _ _ Ha Hb) Hq Hp).
    congruence.
Qed.
End leaf.

Lemma idx_eq_mod v w :
  [idx0 v; idx1 v; idx2 v] = [idx0 w; idx1 w; idx2 w] ↔ v mod 2 ^ 27 = w mod 2 ^ 27.
Proof. rewrite <-!indexes_idx. apply VirtPageNum_indexes_mod. Qed.

(** The outcome of an operation that sets the entry of [vpn] to [new]: the abstract contents are
    updated at [vpn] only, new tables are fresh frames recorded in [frames], and no page is
    touched but those and the tables on the path of [vpn]. *)
Record pt_update (pt pt' : PageTable) (vpn : Z) (new : option Z) (s s' : Mm) : Prop := {
  upd_mm : mm_inv s';
  upd_pt : pt_inv s' (root_ppn pt');
  upd_root : root_ppn pt' = root_ppn pt;
  upd_cur : fa_current (fa s) ≤ fa_current (fa s') ≤ fa_current (fa s) + 2;
  upd_fa : fa s' = fa_set_current (fa s) (fa_current (fa s'));
  upd_frames : frames pt'
    = frames pt ++ seqZ (fa_current (fa s)) (fa_current (fa s') - fa_current (fa s));
  upd_lookup : ∀ v, pt_lookup s' pt' v
    = if decide (v mod 2 ^ 27 = vpn mod 2 ^ 27) then new else pt_lookup s pt v;
  upd_frame : ∀ q, q < fa_current (fa s) →
    (∀ path, path `prefix_of` [idx0 vpn; idx1 vpn] → node (mem s) (root_ppn pt) path ≠ Some q) →
    mem s' q = mem s q;
  upd_back : ∀ path q, good_path path → q < fa_current (fa s) →
    node (mem s') (root_ppn pt') path = Some q → node (mem s) (root_ppn pt) path = Some q;
  upd_keep : ∀ path q, good_path path →
    node (mem s) (root_ppn pt) path = Some q → node (mem s') (root_ppn pt') path = Some q;
  upd_new : ∀ path q, good_path path → fa_current (fa s) ≤ q →
    node (mem s') (root_ppn pt') path = Some q → path `prefix_of` [idx0 vpn; idx1 vpn];
}.

Lemma leaf_update pt pt' s s1 vpn p e :
  pt_grow (root_ppn pt) [idx0 vpn; idx1 vpn] s s1 →
  node (mem s1) (root_ppn pt) [idx0 vpn; idx1 vpn] = Some p →
  root_ppn pt' = root_ppn pt → fa_current (fa s1) ≤ fa_current (fa s) + 2 →
  frames pt' = frames pt ++ seqZ (fa_current (fa s)) (fa_current (fa s1) - fa_current (fa s)) →
  is_usize e →
  pt_update pt pt' vpn (if Z.testbit e 0 then Some e else None) s (leaf_state s1 p (idx2 vpn) e).
Proof.
  intros G Hp Hr Hc Hf He. pose proof (grow_mm _ _ _ _ G). pose proof (grow_pt _ _ _ _ G).
  pose proof (good_idx0 vpn). pose proof (good_idx1 vpn). pose proof (good_idx2 vpn).
  split; try done.
  - by apply leaf_mm_inv.
  - rewrite Hr. by apply (leaf_pt_inv s1 _ (idx0 vpn) (idx1 vpn)).
  - split; [apply G|done].
  - apply G.
  - intros v. unfold pt_lookup, leaf_state. rewrite Hr. simpl mem.
    rewrite (walk_wr_leaf s1 _ (idx0 vpn) (idx1 vpn)) by auto with chaos.
    rewrite (grow_walk _ _ _ _ G) by auto with chaos.
    destruct (decide _) as [E|E]; rewrite idx_eq_mod in E; [by rewrite decide_True|by rewrite decide_False].
  - intros q Hq Hnot. unfold leaf_state, wr_pte. simpl mem.
    rewrite fn_lookup_insert_ne; [by apply (grow_frame _ _ _ _ G)|]. intros ->.
    apply (Hnot [idx0 vpn; idx1 vpn]); [done|]. by eapply grow_back; [done|auto with chaos|done|].
  - intros path q Hg Hq. unfold leaf_state. rewrite Hr. simpl mem.
    rewrite (node_wr_leaf s1 _ (idx0 vpn) (idx1 vpn)) by done. by apply (grow_back _ _ _ _ G).
  - intros path q Hg Hq. unfold leaf_state. rewrite Hr. simpl mem.
    rewrite (node_wr_leaf s1 _ (idx0 vpn) (idx1 vpn)) by done. by apply (grow_keep _ _ _ _ G).
  - intros path q Hg Hq. unfold leaf_state. rewrite Hr. simpl mem.
    rewrite (node_wr_leaf s1 _ (idx0 vpn) (idx1 vpn)) by done. by apply (grow_new _ _ _ _ G).
Qed.

Lemma pt_lookup_grow pt s s1 vpn v :
  pt_grow (root_ppn pt) [idx0 vpn; idx1 vpn] s s1 →
  walk (mem s1) (root_ppn pt) (idx0 v) (idx1 v) (idx2 v) = pt_lookup s pt v.
Proof. intros G. by apply (grow_walk _ _ _ _ G); auto with chaos. Qed.

Lemma PageTable_map_spec pt s vpn ppn flags :
  pt_inv s (root_ppn pt) → mm_inv s → 0 ≤ ppn < 2 ^ 44 → 0 ≤ flags < 2 ^ 8 →
  match PageTable_map pt vpn ppn flags s with
  | Ok (pt', s') =>
      pt_lookup s pt vpn = None ∧
      pt_update pt pt' vpn (Some (PageTableEntry_new ppn (leaf_flags flags))) s s'
  | Panic f => f = Assert ∧ is_Some (pt_lookup s pt vpn) ∨
               f = Unwrap ∧ fa_end (fa s) - fa_current (fa s) < 2
  | NoFuel => False
  end.
Proof.
  intros Hpt Hmm Hppn Hfl. pose proof (find_pte_create_spec pt s vpn Hpt Hmm) as H.
  pose proof (leaf_flags_range flags Hfl) as Hlf. unfold PageTable_map.
  destruct (find_pte_create pt vpn s) as [[[pt' o] s1]|f|] eqn:E;
    [|rewrite (bind_Panic _ _ _ _ E); right; exact H|destruct H].
  rewrite (bind_Ok _ _ _ _ _ E). destruct H as (p & -> & G & Hp & Hr & Hf & Hc). run. cbn [fst snd].
  pose proof (pt_lookup_grow pt s s1 vpn vpn G) as Hw. unfold walk in Hw. rewrite Hp in Hw.
  destruct (Z.testbit (rd_pte (mem s1) p (idx2 vpn)) 0) eqn:Hv; cbn [negb].
  { rewrite bind_assert_false. left. split; [done|]. rewrite <-Hw. eauto. }
  run. cbn [fst snd]. split; [done|].
  pose proof (leaf_update pt pt' s s1 vpn p (PageTableEntry_new ppn (leaf_flags flags)) G Hp Hr Hc Hf)
    as Hupd.
  rewrite PTE_new_valid in Hupd by (done || apply leaf_flags_valid).
  apply Hupd, PTE_new_range; [done|lia].
Qed.

Lemma PageTable_map_allow_cover_spec pt s vpn ppn flags :
  pt_inv s (root_ppn pt) → mm_inv s → 0 ≤ ppn < 2 ^ 44 → 0 ≤ flags < 2 ^ 8 →
  match PageTable_map_allow_cover pt vpn ppn flags s with
  | Ok (pt', s') => pt_update pt pt' vpn (Some (PageTableEntry_new ppn (leaf_flags flags))) s s'
  | Panic f => f = Unwrap ∧ fa_end (fa s) - fa_current (fa s) < 2
  | NoFuel => False
  end.
Proof.
  intros Hpt Hmm Hppn Hfl. pose proof (find_pte_create_spec pt s vpn Hpt Hmm) as H.
  pose proof (leaf_flags_range flags Hfl) as Hlf. unfold PageTable_map_allow_cover.
  destruct (find_pte_create pt vpn s) as [[[pt' o] s1]|f|] eqn:E;
    [|rewrite (bind_Panic _ _ _ _ E); exact H|destruct H].
  rewrite (bind_Ok _ _ _ _ _ E). destruct H as (p & -> & G & Hp & Hr & Hf & Hc). run. cbn [fst snd].
  pose proof (leaf_update pt pt' s s1 vpn p (PageTableEntry_new ppn (leaf_flags flags)) G Hp Hr Hc Hf)
    as Hupd.
  rewrite PTE_new_valid in Hupd by (done || apply leaf_flags_valid).
  apply Hupd, PTE_new_range; [done|lia].
Qed.

Lemma PageTable_unmap_spec pt s vpn :
  pt_inv s (root_ppn pt) → mm_inv s →
  match PageTable_unmap pt vpn s with
  | Ok (_, s') => is_Some (pt_lookup s pt vpn) ∧ pt_update pt pt vpn None s s' ∧ fa s' = fa s
  | Panic f => pt_lookup s pt vpn = None ∧ (f = Unwrap ∨ f = Assert)
  | NoFuel => False
  end.
Proof.
  intros Hpt Hmm. unfold PageTable_unmap. rewrite (bind_Ok _ _ _ _ _ (find_pte_eq pt vpn s)).
  unfold pt_lookup, walk.
  destruct (node (mem s) (root_ppn pt) [idx0 vpn; idx1 vpn]) as [p|] eqn:Hp; simpl fmap; run;
    [|auto]. cbn [fst snd].
  destruct (Z.testbit (rd_pte (mem s) p (idx2 vpn)) 0) eqn:Hv; run; [|auto].
  split; [eauto|]. split; [|done].
  apply (leaf_update pt pt s s vpn p 0); [by apply pt_grow_refl|done|done|lia| |word].
  by rewrite Z.sub_diag, app_nil_r.
Qed.
