(* ===== verification/PageTableSpec.v ===== *)
(** * What page tables promise

    The abstract contents of a page table is a finite map from page numbers to entries; this file
    shows that the operations of [PageTable] implement it over any sequence of calls, that tables
    of different address spaces do not interfere, that a process table shares the kernel half, and
    what address translation and [translated_byte_buffer] compute. *)

From Stdlib Require Import ZArith Lia.
From stdpp Require Import functions prelude gmap.
From S2P Require Import Prelude Config Address FrameAllocator PageTable.

Open Scope Z_scope.

(** ** Entries *)

(** a page-table entry built from a 44-bit frame number and flags gives both back, and its four
    permission tests read exactly the corresponding flag; none of these accessors panics. *)
Theorem pte_roundtrip (ppn flags : Z) :
  0 ≤ ppn < 2 ^ 44 → 0 ≤ flags < 2 ^ 8 →
  let e := PageTableEntry_new ppn flags in
  is_usize e ∧ PageTableEntry_ppn e = Ok ppn ∧ PageTableEntry_flags e = Ok flags ∧
  PageTableEntry_is_valid e = Ok (Z.testbit flags 0) ∧
  PageTableEntry_readable e = Ok (Z.testbit flags 1) ∧
  PageTableEntry_writable e = Ok (Z.testbit flags 2) ∧
  PageTableEntry_executable e = Ok (Z.testbit flags 3).
Proof.
  intros Hp Hf e. split; [apply PTE_new_range; lia|].
  rewrite PTE_ppn_eq, PTE_flags_eq. unfold e. rewrite PTE_new_ppn by lia.
  split; [done|]. split.
  - rewrite PTE_new_eq by lia. f_equal. rewrite Z.add_comm.
    replace (ppn * 2 ^ 10) with (ppn * 4 * 256) by lia. rewrite Z.mod_add, Z.mod_small by lia. done.
  - unfold PageTableEntry_is_valid, PageTableEntry_readable, PageTableEntry_writable,
      PageTableEntry_executable.
    rewrite (flag_test _ 0), (flag_test _ 1), (flag_test _ 2), (flag_test _ 3) by lia.
    by rewrite !PTE_new_testbit by lia.
Qed.

Lemma pte_roundtrip_witness :
  PageTableEntry_ppn (PageTableEntry_new 0x80400 0xdf) = Ok 0x80400 ∧
  PageTableEntry_executable (PageTableEntry_new 0x80400 0xdf) = Ok true.
Proof.
  destruct (pte_roundtrip 0x80400 0xdf) as (_ & H1 & _ & _ & _ & _ & H2); [lia|lia|].
  split; [exact H1|exact H2].
Defined.

(** ** Fresh tables *)

Lemma node_zero m root path p :
  m root = zero_page → good_path path → node m root path = Some p → path = [] ∧ p = root.
Proof.
  intros Hz Hg. apply good_path_cases in Hg as [->|[(i & -> & Hi)|(i & j & -> & Hi & Hj)]].
  - naive_solver.
  - simpl. by rewrite child_zero.
  - simpl. by rewrite child_zero.
Qed.

Lemma pt_inv_zero s root :
  mem s root = zero_page → root < fa_current (fa s) → pt_inv s root.
Proof.
  intros Hz Hlt. split.
  - intros path p Hg Hn. by apply (node_zero (mem s)) in Hn as [_ ->].
  - intros path path' p Hg Hg' Hn Hn'.
    apply (node_zero (mem s)) in Hn as [-> _]; [|done|done].
    by apply (node_zero (mem s)) in Hn' as [-> _].
Qed.

Lemma walk_zero m root i j k :
  m root = zero_page → good_index i → good_index j → walk m root i j k = None.
Proof.
  intros. unfold walk. destruct (node m root [i; j]) as [p|] eqn:E; [|done].
  by apply node_zero in E as [? _]; auto with chaos.
Qed.

Lemma PageTable_new_spec s :
  mm_inv s →
  match PageTable_new s with
  | Ok (pt, s') => mm_inv s' ∧ pt_inv s' (root_ppn pt) ∧ s' = mm_bump s ∧
      pt = {| root_ppn := fa_current (fa s); frames := [fa_current (fa s)] |} ∧
      (∀ v, pt_lookup s' pt v = None)
  | Panic f => f = Unwrap ∧ fa_current (fa s) = fa_end (fa s)
  | NoFuel => False
  end.
Proof.
  intros Hmm. unfold PageTable_new. pose proof (frame_alloc_eq s Hmm) as Ha.
  pose proof (fa_inv_le _ (mm_inv_fa _ Hmm)).
  destruct (decide _); rewrite (bind_Ok _ _ _ _ _ Ha); [done|]. run. cbn [mret M_ret].
  assert (mem (mm_bump s) (fa_current (fa s)) = zero_page) as Hz by (simpl; by rewrite fn_lookup_insert).
  split_and!; [apply mm_inv_bump; [done|lia]| |done|done|].
  - apply pt_inv_zero; [done|]. simpl. lia.
  - intros v. apply walk_zero; auto with chaos.
Qed.

(** ** Refinement of a finite map *)

Inductive pt_op :=
| PMap (vpn ppn flags : Z)
| PMapAllowCover (vpn ppn flags : Z)
| PUnmap (vpn : Z).

Definition pt_op_ok (op : pt_op) : Prop :=
  match op with
  | PMap vpn ppn flags | PMapAllowCover vpn ppn flags =>
      canonical_vpn vpn ∧ 0 ≤ ppn < 2 ^ 44 ∧ 0 ≤ flags < 2 ^ 8
  | PUnmap vpn => canonical_vpn vpn
  end.

Definition run_pt_op (pt : PageTable) (op : pt_op) : M Mm PageTable :=
  match op with
  | PMap vpn ppn flags => PageTable_map pt vpn ppn flags
  | PMapAllowCover vpn ppn flags => PageTable_map_allow_cover pt vpn ppn flags
  | PUnmap vpn => PageTable_unmap pt vpn;; mret pt
  end.

Definition run_pt_ops (ops : list pt_op) : M Mm PageTable :=
  pt ← PageTable_new; foldM run_pt_op pt ops.

(** The specification: a map from page numbers to entries; mapping a mapped page and unmapping an
    unmapped one are refused. *)
Definition pt_spec_op (g : gmap Z Z) (op : pt_op) : option (gmap Z Z) :=
  match op with
  | PMap vpn ppn flags =>
      match g !! vpn with
      | None => Some (<[vpn := PageTableEntry_new ppn (leaf_flags flags)]> g)
      | Some _ => None
      end
  | PMapAllowCover vpn ppn flags => Some (<[vpn := PageTableEntry_new ppn (leaf_flags flags)]> g)
  | PUnmap vpn => match g !! vpn with None => None | Some _ => Some (delete vpn g) end
  end.

Fixpoint pt_spec_ops (g : gmap Z Z) (ops : list pt_op) : option (gmap Z Z) :=
  match ops with
  | [] => Some g
  | op :: rest => match pt_spec_op g op with Some g' => pt_spec_ops g' rest | None => None end
  end.

Record pt_rep (s : Mm) (pt : PageTable) (g : gmap Z Z) : Prop := {
  rep_mm : mm_inv s;
  rep_pt : pt_inv s (root_ppn pt);
  rep_lookup : ∀ v, canonical_vpn v → pt_lookup s pt v = g !! v;
}.

Lemma pt_update_canonical pt pt' vpn new s s' v :
  pt_update pt pt' vpn new s s' → canonical_vpn vpn → canonical_vpn v →
  pt_lookup s' pt' v = if decide (v = vpn) then new else pt_lookup s pt v.
Proof.
  intros U Hvpn Hv. rewrite (upd_lookup _ _ _ _ _ _ U).
  destruct (decide (v = vpn)) as [->|Hne]; [by rewrite decide_True|].
  rewrite decide_False; [done|]. intros E. apply Hne. by apply canonical_vpn_mod_inj.
Qed.

Lemma pt_update_rep pt pt' vpn new s s' g :
  pt_rep s pt g → canonical_vpn vpn → pt_update pt pt' vpn new s s' →
  pt_rep s' pt' (partial_alter (λ _, new) vpn g).
Proof.
  intros [_ _ Hl] Hvpn U. split; [apply U|apply U|]. intros v Hv.
  rewrite (pt_update_canonical _ _ _ _ _ _ _ U) by done.
  destruct (decide (v = vpn)) as [->|]; [by rewrite lookup_partial_alter_eq|].
  rewrite lookup_partial_alter_ne by done. auto.
Qed.

Lemma run_pt_op_refines pt s g op :
  pt_rep s pt g → pt_op_ok op →
  match run_pt_op pt op s with
  | Ok (pt', s') => ∃ g', pt_spec_op g op = Some g' ∧ pt_rep s' pt' g'
  | Panic f => pt_spec_op g op = None ∨ f = Unwrap ∧ fa_end (fa s) - fa_current (fa s) < 2
  | NoFuel => False
  end.
Proof.
  intros Hrep Hok. pose proof Hrep as [Hmm Hpt Hl]. destruct op as [vpn ppn fl|vpn ppn fl|vpn];
    cbn [run_pt_op pt_spec_op pt_op_ok] in *.
  - destruct Hok as (Hv & Hp & Hf). pose proof (PageTable_map_spec pt s vpn ppn fl Hpt Hmm Hp Hf) as H.
    rewrite Hl in H by done.
    destruct (PageTable_map _ _ _ _ _) as [[pt' s']|f|]; [|destruct H as [[_ [e He]]|?]|done].
    + destruct H as [-> U]. eexists. split; [done|]. by apply (pt_update_rep _ _ _ _ _ _ _ Hrep).
    + rewrite He. by left.
    + by right.
  - destruct Hok as (Hv & Hp & Hf).
    pose proof (PageTable_map_allow_cover_spec pt s vpn ppn fl Hpt Hmm Hp Hf) as H.
    destruct (PageTable_map_allow_cover _ _ _ _ _) as [[pt' s']|f|]; [|by right|done].
    eexists. split; [done|]. by apply (pt_update_rep _ _ _ _ _ _ _ Hrep).
  - pose proof (PageTable_unmap_spec pt s vpn Hpt Hmm) as H. rewrite Hl in H by done.
    destruct (PageTable_unmap pt vpn s) as [[u s']|f|] eqn:E; [| |destruct H].
    + rewrite (bind_Ok _ _ _ _ _ E). destruct H as ([e ->] & U & _). eexists. split; [done|].
      by apply (pt_update_rep _ _ _ _ _ _ _ Hrep).
    + rewrite (bind_Panic _ _ _ _ E). destruct H as [-> _]. by left.
Qed.

Lemma run_pt_ops_refines pt s g ops :
  pt_rep s pt g → Forall pt_op_ok ops →
  match foldM run_pt_op pt ops s with
  | Ok (pt', s') => ∃ g', pt_spec_ops g ops = Some g' ∧ pt_rep s' pt' g'
  | Panic f => pt_spec_ops g ops = None ∨ f = Unwrap
  | NoFuel => False
  end.
Proof.
  intros Hrep Hok. revert pt s g Hrep. induction Hok as [|op ops Hop Hops IH]; intros pt s g Hrep.
  - simpl. eauto.
  - simpl. pose proof (run_pt_op_refines pt s g op Hrep Hop) as H.
    destruct (run_pt_op pt op s) as [[pt1 s1]|f|] eqn:E; [| |destruct H].
    + rewrite (bind_Ok _ _ _ _ _ E). destruct H as (g1 & -> & Hrep1). by apply IH.
    + rewrite (bind_Panic _ _ _ _ E). destruct H as [->|[-> _]]; [by left|by right].
Qed.

(** C1: a page table built by [PageTable::new] and any sequence of [map], [map_allow_cover] and
    [unmap] calls implements a finite map from page numbers to entries: a run that succeeds leaves
    exactly the entries the map specification gives, and a run panics only where the specification
    refuses a call (mapping a mapped page, unmapping an unmapped one) or memory is exhausted. *)
Theorem page_table_refines_map (s : Mm) (ops : list pt_op) :
  mm_inv s → Forall pt_op_ok ops →
  match run_pt_ops ops s with
  | Ok (pt, s') => ∃ g, pt_spec_ops ∅ ops = Some g ∧
      ∀ v, canonical_vpn v → pt_lookup s' pt v = g !! v
  | Panic f => pt_spec_ops ∅ ops = None ∨ f = Unwrap
  | NoFuel => False
  end.
Proof.
  intros Hmm Hok. unfold run_pt_ops. pose proof (PageTable_new_spec s Hmm) as H.
  destruct (PageTable_new s) as [[pt s1]|f|] eqn:E; [| |destruct H].
  - rewrite (bind_Ok _ _ _ _ _ E). destruct H as (Hmm1 & Hpt1 & _ & _ & Hl).
    pose proof (run_pt_ops_refines pt s1 ∅ ops) as Hr.
    destruct (foldM run_pt_op pt ops s1) as [[pt' s']|f|]; [|apply Hr; done..].
    destruct Hr as (g' & Hg & []); [done|done|eauto].
  - rewrite (bind_Panic _ _ _ _ E). right. apply H.
Qed.

(** Concrete states for the witnesses: 64 free frames from [0x80300] on. *)
Definition demo_mm : Mm := booted (λ _, zero_page) 0x80300 0x80340.

Lemma demo_mm_inv : mm_inv demo_mm.
Proof. apply booted_inv; try lia; [done|intros _; apply zero_page_byte]. Qed.

Definition demo_pt_ops : list pt_op :=
  [PMap 5 0x81000 0x16; PMap 6 0x81001 0x1e; PUnmap 5; PMapAllowCover 6 0x81002 0x12].

Lemma demo_pt_ops_ok : Forall pt_op_ok demo_pt_ops.
Proof. unfold demo_pt_ops. repeat apply Forall_cons_2; unfold pt_op_ok, canonical_vpn; (lia || apply Forall_nil_2). Qed.

Lemma page_table_refines_map_witness :
  ∃ pt s', run_pt_ops demo_pt_ops demo_mm = Ok (pt, s') ∧
    pt_lookup s' pt 5 = None ∧ pt_lookup s' pt 6 = Some (PageTableEntry_new 0x81002 0xd3).
Proof.
  pose proof (page_table_refines_map demo_mm demo_pt_ops demo_mm_inv demo_pt_ops_ok) as H.
  destruct (run_pt_ops demo_pt_ops demo_mm) as [[pt s']|f|] eqn:E; [|vm_compute in E; discriminate..].
  exists pt, s'. destruct H as (g & Hg & Hl). split; [reflexivity|].
  rewrite !Hl by (unfold canonical_vpn; lia). injection Hg as <-. split; reflexivity.
Defined.

(** ** Isolation *)

(** The tables that the walk of [vpn] in [pt1] visits are not tables of [pt2]. *)
Definition walk_disjoint (s : Mm) (pt1 pt2 : PageTable) (vpn : Z) : Prop :=
  ∀ path path' p, path `prefix_of` [idx0 vpn; idx1 vpn] → good_path path' →
    node (mem s) (root_ppn pt1) path = Some p → node (mem s) (root_ppn pt2) path' = Some p → False.

Lemma prefix_good_path path vpn : path `prefix_of` [idx0 vpn; idx1 vpn] → good_path path.
Proof.
  intros [k Hk]. destruct (good_path_2 _ _ (good_idx0 vpn) (good_idx1 vpn)) as [Hl Hf].
  rewrite Hk in Hl, Hf. apply Forall_app in Hf as [? _]. rewrite length_app in Hl. split; [lia|done].
Qed.

Lemma node_agree m m' root path :
  good_path path →
  (∀ path' p, good_path path' → node m root path' = Some p → m' p = m p) →
  node m' root path = node m root path.
Proof.
  intros Hg Hsame.
  assert (∀ π p i, good_path π → node m root π = Some p → child m' p i = child m p i) as Hc.
  { intros π p i Hπ Hp. apply child_ext, rd_pte_ext. by apply (Hsame π). }
  apply good_path_cases in Hg as [->|[(i & -> & Hi)|(i & j & -> & Hi & Hj)]]; [done|..]; simpl.
  - by rewrite (Hc [] root) by auto with chaos.
  - rewrite (Hc [] root) by auto with chaos. destruct (child m root i) as [q|] eqn:Hq; [|done].
    rewrite (Hc [i] q); [done|auto with chaos|simpl; by rewrite Hq].
Qed.

Lemma pt_update_other pt1 pt1' pt2 vpn new s s' :
  pt_update pt1 pt1' vpn new s s' → pt_inv s (root_ppn pt2) → walk_disjoint s pt1 pt2 vpn →
  pt_inv s' (root_ppn pt2) ∧ ∀ v, pt_lookup s' pt2 v = pt_lookup s pt2 v.
Proof.
  intros U Hpt2 Hdis.
  assert (∀ path p, good_path path → node (mem s) (root_ppn pt2) path = Some p → mem s' p = mem s p)
    as Hsame.
  { intros path p Hg Hp. apply (upd_frame _ _ _ _ _ _ U); [by eapply pt_inv_bound|].
    intros π Hπ Hn. by apply (Hdis π path p). }
  assert (∀ path, good_path path →
    node (mem s') (root_ppn pt2) path = node (mem s) (root_ppn pt2) path) as Hn.
  { intros. by apply node_agree. }
  pose proof (upd_cur _ _ _ _ _ _ U). split; [split|].
  - intros path p Hg. rewrite Hn by done. intros Hp. pose proof (pt_inv_bound _ _ Hpt2 path p Hg Hp). lia.
  - intros path path' p Hg Hg'. rewrite !Hn by done. by apply (pt_inv_inj _ _ Hpt2).
  - intros v. unfold pt_lookup, walk. rewrite Hn by auto with chaos.
    destruct (node (mem s) (root_ppn pt2) [idx0 v; idx1 v]) as [q|] eqn:Hq; [|done].
    rewrite (rd_pte_ext (mem s) (mem s')); [done|]. apply (Hsame [idx0 v; idx1 v]); auto with chaos.
Qed.

(** C2: mapping a page in one address space changes no translation of another one that does not share
    the tables of that page: if no table walked for [vpn] in [pt1] is a table of [pt2], then after [map]
    (which may add tables to [pt1]) every page of [pt2] translates as before and [pt2] is still a
    well-formed tree.  The condition holds for the user half of two processes; it does not for the
    kernel half, whose tables every process shares, so that a new kernel stack appears in all of them. *)
Theorem map_isolates_address_spaces (s s' : Mm) (pt1 pt1' pt2 : PageTable) (vpn ppn flags : Z) :
  mm_inv s → pt_inv s (root_ppn pt1) → pt_inv s (root_ppn pt2) →
  0 ≤ ppn < 2 ^ 44 → 0 ≤ flags < 2 ^ 8 → walk_disjoint s pt1 pt2 vpn →
  PageTable_map pt1 vpn ppn flags s = Ok (pt1', s') →
  pt_inv s' (root_ppn pt2) ∧ ∀ v, pt_lookup s' pt2 v = pt_lookup s pt2 v.
Proof.
  intros Hmm H1 H2 Hp Hf Hdis Hmap. pose proof (PageTable_map_spec pt1 s vpn ppn flags H1 Hmm Hp Hf) as H.
  rewrite Hmap in H. destruct H as [_ U]. by eapply pt_update_other.
Qed.

Lemma map_isolates_address_spaces_witness :
  ∃ s s' pt1', let pt2 := {| root_ppn := 0x80301; frames := [0x80301] |} in
    PageTable_map {| root_ppn := 0x80300; frames := [0x80300] |} 7 0x81000 0x16 s = Ok (pt1', s') ∧
    pt_lookup s' pt1' 7 = Some (PageTableEntry_new 0x81000 0xd7) ∧ pt_lookup s' pt2 7 = None.
Proof.
  set (pt1 := {| root_ppn := 0x80300; frames := [0x80300] |}).
  set (s0 := mm_bump (mm_bump demo_mm)).
  assert (mm_inv s0) as H0 by (repeat (apply mm_inv_bump; [|cbn; lia]); apply demo_mm_inv).
  assert (pt_inv s0 0x80300) as P1 by (apply pt_inv_zero; [reflexivity|cbn; lia]).
  pose proof (PageTable_map_spec pt1 s0 7 0x81000 0x16 P1 H0 ltac:(lia) ltac:(lia)) as Hm.
  destruct (PageTable_map pt1 7 0x81000 0x16 s0) as [[pt1' s']|f|] eqn:E;
    [|vm_compute in E; discriminate..].
  exists s0, s', pt1'. split; [exact E|]. destruct Hm as [_ U].
  split; [rewrite (upd_lookup _ _ _ _ _ _ U); reflexivity|].
  destruct (map_isolates_address_spaces s0 s' pt1 pt1' {| root_ppn := 0x80301; frames := [0x80301] |}
              7 0x81000 0x16) as [_ H];
    [exact H0|exact P1| |lia|lia| |exact E|rewrite H; vm_compute; reflexivity].
  - apply pt_inv_zero; [reflexivity|cbn; lia].
  - intros path path' p Hpre Hg' Hn Hn'. cbn [root_ppn] in Hn'.
    apply node_zero in Hn' as [-> ->]; [|reflexivity|exact Hg'].
    apply node_zero in Hn as [_ Hp]; [discriminate Hp|reflexivity|by apply prefix_good_path in Hpre].
Defined.

(** ** Tables of processes *)

(** A root table whose upper half is that of the table [k] and whose lower half is empty. *)
Definition half_root (k : list Z) : list Z := take 2048 zero_page ++ drop 2048 k.

Definition np_state (s : Mm) (kernel_root : Z) : Mm :=
  let m := mem (mm_bump s) in
  {| mem := <[fa_current (fa s) := take 2048 (m (fa_current (fa s))) ++ drop 2048 (m kernel_root)]> m;
     fa := fa (mm_bump s) |}.

Lemma half_root_wf k :
  length k = 4096%nat → Forall is_byte k →
  length (half_root k) = 4096%nat ∧ Forall is_byte (half_root k).
Proof.
  intros Hl Hb. unfold half_root. split.
  - rewrite length_app, length_take, length_drop, Hl. done.
  - apply Forall_app_2; [apply Forall_take, zero_page_byte|by apply Forall_drop].
Qed.

Lemma rd_half_root m p k i :
  m p = half_root (m k) → length (m k) = 4096%nat → good_index i →
  rd_pte m p i = if i <? 256 then 0 else rd_pte m k i.
Proof.
  intros Hp Hl Hi. unfold rd_pte, slice. rewrite Hp. unfold half_root, good_index in *.
  assert (length (take 2048 zero_page) = 2048%nat) as Ht by done.
  destruct (Z.ltb_spec i 256).
  - rewrite drop_app_le by lia. rewrite take_app_le by (rewrite length_drop; lia).
    unfold zero_page. rewrite take_replicate, drop_replicate, take_replicate.
    replace (_ `min` _)%nat with 8%nat by lia. done.
  - rewrite drop_app_ge by lia. rewrite Ht, drop_drop.
    replace (2048 + (8 * Z.to_nat i - 2048))%nat with (8 * Z.to_nat i)%nat by lia. done.
Qed.

Section new_process.
Context (s : Mm) (k : Z) (Hmm : mm_inv s) (Hk : pt_inv s k).
Context (Hlt : fa_current (fa s) < fa_end (fa s)).

Lemma np_mem_other q : q ≠ fa_current (fa s) → mem (np_state s k) q = mem s q.
Proof. intros. simpl. by rewrite !fn_lookup_insert_ne. Qed.

Lemma np_mem_root : mem (np_state s k) (fa_current (fa s)) = half_root (mem s k).
Proof.
  pose proof (node_not_fresh s k Hk [] k good_path_nil eq_refl).
  simpl. by rewrite !fn_lookup_insert, fn_lookup_insert_ne.
Qed.

Lemma np_mm_inv : mm_inv (np_state s k).
Proof.
  destruct (half_root_wf (mem s k)) as [Hl Hb]; [apply Hmm..|].
  split; [by apply mm_inv_bump|..]; intros p;
    (destruct (decide (p = fa_current (fa s))) as [->|];
       [rewrite np_mem_root|rewrite np_mem_other by done]); done || apply Hmm.
Qed.

Lemma np_child i :
  good_index i →
  child (np_state s k).(mem) (fa_current (fa s)) i = if i <? 256 then None else child (mem s) k i.
Proof.
  intros Hi. pose proof (node_not_fresh s k Hk [] k good_path_nil eq_refl).
  unfold child. rewrite (rd_half_root _ _ k); [| |rewrite np_mem_other by done; apply Hmm|done].
  - rewrite (rd_pte_ext (mem s) _ k) by (by apply np_mem_other). by destruct (i <? 256).
  - by rewrite np_mem_root, np_mem_other.
Qed.

Lemma np_node path :
  good_path path →
  node (mem (np_state s k)) (fa_current (fa s)) path
  = match path with
    | [] => Some (fa_current (fa s))
    | i :: _ => if i <? 256 then None else node (mem s) k path
    end.
Proof.
  intros Hg. apply good_path_cases in Hg as [->|[(i & -> & Hi)|(i & j & -> & Hi & Hj)]]; [done|..];
    cbn [node]; rewrite np_child by done; destruct (i <? 256); try done.
  destruct (child (mem s) k i) as [q|] eqn:Hq; [|done].
  rewrite (child_ext (mem s)); [done|]. apply rd_pte_ext, np_mem_other.
  by apply (child_not_fresh s k Hk i).
Qed.

Lemma np_pt_inv : pt_inv (np_state s k) (fa_current (fa s)).
Proof.
  split.
  - intros path p Hg. rewrite np_node by done. simpl. destruct path as [|i path].
    + intros [= <-]. lia.
    + destruct (i <? 256); [done|]. intros Hn. pose proof (pt_inv_bound _ _ Hk _ _ Hg Hn). lia.
  - intros path path' p Hg Hg'. rewrite !np_node by done.
    destruct path as [|i path], path' as [|i' path']; [done|..].
    + intros [= <-]. destruct (i' <? 256); [done|]. intros Hn.
      by apply (node_not_fresh s k Hk) in Hn.
    + intros Hn [= <-]. destruct (i <? 256); [done|]. by apply (node_not_fresh s k Hk) in Hn.
    + destruct (i <? 256), (i' <? 256); try done. by apply (pt_inv_inj _ _ Hk).
Qed.

Lemma np_lookup v ptk pt :
  root_ppn ptk = k → root_ppn pt = fa_current (fa s) →
  pt_lookup (np_state s k) pt v = if idx0 v <? 256 then None else pt_lookup s ptk v.
Proof.
  intros Hrk Hr. unfold pt_lookup, walk. rewrite Hr, Hrk, np_node by auto with chaos.
  destruct (idx0 v <? 256); [done|].
  destruct (node (mem s) k [idx0 v; idx1 v]) as [q|] eqn:Hq; [|done].
  rewrite (rd_pte_ext (mem s)); [done|]. apply np_mem_other.
  by apply (node_not_fresh s _ Hk [idx0 v; idx1 v]); auto with chaos.
Qed.
End new_process.

Lemma PageTable_new_process_eq s k :
  mm_inv s →
  PageTable_new_process k s
  = if decide (fa_current (fa s) = fa_end (fa s)) then Panic Unwrap
    else Ok ({| root_ppn := fa_current (fa s); frames := [fa_current (fa s)] |}, np_state s k).
Proof.
  intros Hmm. pose proof (frame_alloc_eq s Hmm) as Ha.
  unfold PageTable_new_process. destruct (decide _); rewrite (bind_Ok _ _ _ _ _ Ha); [done|]. run.
  change (VirtPageNum_from_usize KERNEL_SPACE_OFFSET) with (Ok KERNEL_SPACE_OFFSET). run.
  change (head (VirtPageNum_indexes KERNEL_SPACE_OFFSET)) with (Some 256). run.
  unfold set_bytes_array. run. done.
Qed.

(** the page table of a new process has exactly the kernel's translations in the upper half
    (page numbers whose top index is at least 256), no translation in the user half, and is a
    well-formed tree that leaves the kernel's own translations unchanged; it fails only when no
    frame is left for its root. *)
Theorem new_process_shares_kernel_half (s : Mm) (kernel : PageTable) :
  mm_inv s → pt_inv s (root_ppn kernel) →
  match PageTable_new_process (root_ppn kernel) s with
  | Ok (pt, s') =>
      mm_inv s' ∧ pt_inv s' (root_ppn pt) ∧ root_ppn pt ≠ root_ppn kernel ∧
      (∀ v, pt_lookup s' pt v = if idx0 v <? 256 then None else pt_lookup s kernel v) ∧
      (∀ p, p ≠ root_ppn pt → get_bytes_array s' p = get_bytes_array s p)
  | Panic f => f = Unwrap ∧ fa_current (fa s) = fa_end (fa s)
  | NoFuel => False
  end.
Proof.
  intros Hmm Hk. pose proof (fa_inv_le _ (mm_inv_fa _ Hmm)).
  rewrite PageTable_new_process_eq by done. destruct (decide _); [done|].
  assert (fa_current (fa s) < fa_end (fa s)) as Hlt by lia. split_and!.
  - by apply np_mm_inv.
  - by apply np_pt_inv.
  - pose proof (node_not_fresh s _ Hk [] _ good_path_nil eq_refl). simpl. congruence.
  - intros v. by apply np_lookup.
  - intros p Hp. by apply np_mem_other.
Qed.

Lemma new_process_shares_kernel_half_witness :
  ∃ pt s', PageTable_new_process 0x80300 (mm_bump demo_mm) = Ok (pt, s') ∧
    pt_lookup s' pt 0x80200 = None.
Proof.
  pose proof (new_process_shares_kernel_half (mm_bump demo_mm)
    {| root_ppn := 0x80300; frames := [0x80300] |}) as H. cbn [root_ppn] in H.
  destruct (PageTable_new_process 0x80300 (mm_bump demo_mm)) as [[pt s']|f|] eqn:E;
    [|vm_compute in E; discriminate..].
  exists pt, s'. split; [reflexivity|].
  destruct H as (_ & _ & _ & H & _); [| |rewrite H; reflexivity].
  - apply mm_inv_bump; [apply demo_mm_inv|cbn; lia].
  - apply pt_inv_zero; [reflexivity|cbn; lia].
Defined.

(** ** Translation *)

Lemma PageTable_translate_eq pt vpn s :
  PageTable_translate pt vpn s
  = Ok ((λ p, rd_pte (mem s) p (idx2 vpn)) <$> node (mem s) (root_ppn pt) [idx0 vpn; idx1 vpn], s).
Proof.
  unfold PageTable_translate. rewrite (bind_Ok _ _ _ _ _ (find_pte_eq pt vpn s)).
  destruct (node (mem s) (root_ppn pt) [idx0 vpn; idx1 vpn]); reflexivity.
Qed.

Lemma pt_lookup_node s pt vpn e :
  pt_lookup s pt vpn = Some e →
  ∃ p, node (mem s) (root_ppn pt) [idx0 vpn; idx1 vpn] = Some p ∧ e = rd_pte (mem s) p (idx2 vpn).
Proof.
  unfold pt_lookup, walk. destruct (node (mem s) (root_ppn pt) [idx0 vpn; idx1 vpn]) as [p|]; [|done].
  destruct (Z.testbit _ _); naive_solver.
Qed.

Lemma translate_mapped s pt vpn e :
  pt_lookup s pt vpn = Some e → PageTable_translate pt vpn s = Ok (Some e, s).
Proof.
  intros (p & Hp & ->)%pt_lookup_node. by rewrite PageTable_translate_eq, Hp.
Qed.

Lemma translate_va_eq s pt va :
  PageTable_translate_va pt va s
  = Ok ((λ p, pte_ppn (rd_pte (mem s) p (idx2 (VirtAddr_floor va))) * 4096 + va mod 4096)
          <$> node (mem s) (root_ppn pt) [idx0 (VirtAddr_floor va); idx1 (VirtAddr_floor va)], s).
Proof.
  unfold PageTable_translate_va. rewrite (bind_Ok _ _ _ _ _ (find_pte_eq pt _ s)).
  destruct (node (mem s) (root_ppn pt) _) as [p|]; [|reflexivity].
  cbn [fmap option_fmap option_map]. run. cbn [fst snd].
  set (e := rd_pte (mem s) p (idx2 (VirtAddr_floor va))).
  pose proof (pte_ppn_range e). assert (0 ≤ va mod 4096 < 4096) by (apply Z.mod_pos_bound; lia).
  rewrite page_offset_mod. unfold PhysAddr_from_ppn, wshl, PAGE_SIZE.
  rewrite Z.shiftl_mul_pow2 by (vm_compute; done). change (2 ^ PAGE_SIZE_BITS) with 4096.
  rewrite (wrap_small (pte_ppn e * 4096)), wadd_small by word.
  rewrite PhysAddr_from_usize_ok by lia. run. done.
Qed.

(** [translate_va] of an address in a mapped page is the address with the same offset in the
    frame the page is mapped to; neither translation panics nor changes memory. *)
Theorem translate_va_correct (s : Mm) (pt : PageTable) (va e : Z) :
  pt_lookup s pt (VirtAddr_floor va) = Some e →
  PageTable_translate pt (VirtAddr_floor va) s = Ok (Some e, s) ∧
  PageTable_translate_va pt va s = Ok (Some (pte_ppn e * 4096 + va mod 4096), s).
Proof.
  intros H. split; [by apply translate_mapped|]. rewrite translate_va_eq.
  apply pt_lookup_node in H as (p & -> & ->). done.
Qed.

(** A state with one mapped page, for the witnesses. *)
Definition demo_pt0 : PageTable := {| root_ppn := 0x80300; frames := [0x80300] |}.

Lemma demo_mapped :
  ∃ pt s, PageTable_map demo_pt0 5 0x81000 0x16 (mm_bump demo_mm) = Ok (pt, s) ∧
    mm_inv s ∧ pt_inv s 0x80300 ∧ root_ppn pt = 0x80300 ∧
    pt_lookup s pt 5 = Some (PageTableEntry_new 0x81000 0xd7).
Proof.
  assert (mm_inv (mm_bump demo_mm)) as H0 by (apply mm_inv_bump; [apply demo_mm_inv|cbn; lia]).
  assert (pt_inv (mm_bump demo_mm) 0x80300) as P1 by (apply pt_inv_zero; [reflexivity|cbn; lia]).
  pose proof (PageTable_map_spec demo_pt0 _ 5 0x81000 0x16 P1 H0 ltac:(lia) ltac:(lia)) as Hm.
  destruct (PageTable_map demo_pt0 5 0x81000 0x16 (mm_bump demo_mm)) as [[pt s]|f|] eqn:E;
    [|vm_compute in E; discriminate..].
  exists pt, s. destruct Hm as [_ U]. pose proof (upd_root _ _ _ _ _ _ U) as Hr.
  pose proof (upd_pt _ _ _ _ _ _ U) as Hp. rewrite Hr in Hp.
  split_and!; [done|apply U|done|done|]. rewrite (upd_lookup _ _ _ _ _ _ U). reflexivity.
Qed.

Lemma translate_va_correct_witness :
  ∃ pt s, PageTable_translate_va pt 0x5abc s = Ok (Some 0x81000abc, s).
Proof.
  destruct demo_mapped as (pt & s & _ & _ & _ & _ & H). exists pt, s.
  apply (translate_va_correct s pt 0x5abc (PageTableEntry_new 0x81000 0xd7)). exact H.
Defined.

Lemma PageTable_unmap_mapped s pt vpn e :
  pt_lookup s pt vpn = Some e →
  ∃ p, node (mem s) (root_ppn pt) [idx0 vpn; idx1 vpn] = Some p ∧
       PageTable_unmap pt vpn s = Ok ((), leaf_state s p (idx2 vpn) 0).
Proof.
  intros H. pose proof (pt_lookup_node _ _ _ _ H) as (p & Hp & He). exists p. split; [done|].
  unfold PageTable_unmap. rewrite (bind_Ok _ _ _ _ _ (find_pte_eq pt _ s)), Hp.
  cbn [fmap option_fmap option_map]. run. cbn [fst snd].
  unfold pt_lookup, walk in H. rewrite Hp in H. destruct (Z.testbit _ 0); [|done]. run. done.
Qed.

(** after [unmap] has removed a page, [translate] and [translate_va] still succeed on it: they
    return the cleared entry, that is an address in physical frame 0, instead of [None]. *)
Theorem translate_after_unmap (s s' : Mm) (pt : PageTable) (va : Z) (u : unit) :
  mm_inv s → pt_inv s (root_ppn pt) → PageTable_unmap pt (VirtAddr_floor va) s = Ok (u, s') →
  pt_lookup s' pt (VirtAddr_floor va) = None ∧
  PageTable_translate pt (VirtAddr_floor va) s' = Ok (Some PageTableEntry_empty, s') ∧
  PageTable_translate_va pt va s' = Ok (Some (va mod 4096), s').
Proof.
  intros Hmm Hpt H. set (vpn := VirtAddr_floor va) in *.
  pose proof (PageTable_unmap_spec pt s vpn Hpt Hmm) as Hs.
  rewrite H in Hs. destruct Hs as ([e He] & U & _).
  apply PageTable_unmap_mapped in He as (p & Hp & He). rewrite He in H. injection H as _ <-.
  rewrite (upd_lookup _ _ _ _ _ _ U), decide_True by done.
  rewrite PageTable_translate_eq, translate_va_eq. fold vpn. cbn [mem leaf_state].
  change PageTableEntry_empty with 0.
  rewrite (node_wr_leaf s _ (idx0 vpn) (idx1 vpn)), Hp by auto with chaos.
  cbn [fmap option_fmap option_map].
  by rewrite rd_wr_same by (apply Hmm || apply good_idx2 || word).
Qed.

Lemma translate_after_unmap_witness :
  ∃ pt s', PageTable_translate_va pt 0x5abc s' = Ok (Some 0xabc, s').
Proof.
  destruct demo_mapped as (pt & s & _ & Hm & Hp & Hr & H). exists pt.
  destruct (PageTable_unmap_mapped s pt 5 _ H) as (p & _ & Hu).
  exists (leaf_state s p (idx2 5) 0).
  apply (translate_after_unmap s (leaf_state s p (idx2 5) 0) pt 0x5abc ());
    [exact Hm|rewrite Hr; exact Hp|exact Hu].
Defined.

(** ** User buffers *)

(** The byte at a virtual address, as the page table maps it. *)
Definition byte_at (s : Mm) (pt : PageTable) (a : Z) : option Z :=
  match pt_lookup s pt (a / 4096) with
  | Some e => mem s (pte_ppn e) !! Z.to_nat (a mod 4096)
  | None => None
  end.

Definition view_bytes (s : Mm) (v : view) : list Z :=
  slice (mem s (view_ppn v)) (Z.to_nat (view_lo v)) (Z.to_nat (view_hi v)).

Definition views_cover (s : Mm) (pt : PageTable) (start end_ : Z) (vs : list view) : Prop :=
  Some <$> (vs ≫= view_bytes s) = byte_at s pt <$> seqZ start (end_ - start) ∧
  Forall (λ v, 0 ≤ view_lo v < view_hi v ∧ view_hi v ≤ 4096) vs ∧
  foldr (λ v n, view_hi v - view_lo v + n) 0 vs = end_ - start.

Lemma page_bytes s pt start n e :
  mm_inv s → pt_lookup s pt (start / 4096) = Some e → 0 ≤ start → 0 ≤ n → start mod 4096 + n ≤ 4096 →
  Some <$> slice (mem s (pte_ppn e)) (Z.to_nat (start mod 4096)) (Z.to_nat (start mod 4096 + n))
  = byte_at s pt <$> seqZ start n.
Proof.
  intros Hmm Hl H0 Hn Hle. assert (0 ≤ start mod 4096 < 4096) by (apply Z.mod_pos_bound; lia).
  pose proof (mm_inv_len _ Hmm (pte_ppn e)) as Hlen.
  apply list_eq_lookup_lt.
  - rewrite !length_fmap, length_seqZ, length_slice by lia. lia.
  - intros i Hi. rewrite length_fmap, length_slice in Hi by lia.
    rewrite !list_lookup_fmap, lookup_slice by lia.
    rewrite (lookup_seqZ_lt start n i) by lia. simpl. unfold byte_at.
    replace ((start + Z.of_nat i) / 4096) with (start / 4096) by (Z.to_euclidean_division_equations; lia).
    replace ((start + Z.of_nat i) mod 4096) with (start mod 4096 + Z.of_nat i)
      by (Z.to_euclidean_division_equations; lia).
    rewrite Hl. rewrite Z2Nat.inj_add, Nat2Z.id by lia.
    destruct (lookup_lt_is_Some_2 (mem s (pte_ppn e)) (Z.to_nat (start mod 4096) + i)) as [b ->];
      [lia|done].
Qed.

(** One iteration of the loop, on a mapped page of the user half. *)
Lemma byte_buffer_step s pt start end_ acc e :
  mm_inv s → 0 ≤ start → start < end_ → end_ ≤ 2 ^ 38 →
  pt_lookup s pt (start / 4096) = Some e →
  let stop := Z.min ((start / 4096 + 1) * 4096) end_ in
  translated_byte_buffer_step pt end_ (start, acc) s
  = Ok (inl (usize_from_VirtAddr stop,
             acc ++ [{| view_ppn := pte_ppn e; view_lo := start mod 4096;
                        view_hi := start mod 4096 + (stop - start) |}]), s).
Proof.
  intros Hmm H0 Hlt Hend Hl stop. unfold translated_byte_buffer_step.
  rewrite (proj2 (Z.ltb_lt _ _)) by done.
  rewrite !VirtAddr_from_usize_eq by word. rewrite !bool_decide_true by lia. run.
  change (VirtAddr_floor start) with (start / 4096).
  rewrite (bind_Ok _ _ _ _ _ (translate_mapped _ _ _ _ Hl)). run.
  unfold page_step. assert (0 ≤ start / 4096 < 2 ^ 26) by (Z.to_euclidean_division_equations; lia).
  rewrite wadd_small, VirtAddr_from_vpn_eq by word. fold stop.
  rewrite !page_offset_mod. change PAGE_SIZE with 4096. unfold byte_slice.
  replace (stop mod 4096 =? 0) with (start mod 4096 + (stop - start) =? 4096).
  2: { destruct (Z.eqb_spec (start mod 4096 + (stop - start)) 4096);
       destruct (Z.eqb_spec (stop mod 4096) 0); try done; exfalso;
       unfold stop in *; Z.to_euclidean_division_equations; lia. }
  destruct (Z.eqb_spec (start mod 4096 + (stop - start)) 4096) as [Heq|Hne].
  - rewrite Heq, (proj2 (Z.leb_le (start mod 4096) 4096)) by (Z.to_euclidean_division_equations; lia).
    simpl andb. run. done.
  - replace (stop mod 4096) with (start mod 4096 + (stop - start))
      by (unfold stop in *; Z.to_euclidean_division_equations; lia).
    rewrite (proj2 (Z.leb_le _ _)), (proj2 (Z.leb_le _ 4096))
      by (unfold stop in *; Z.to_euclidean_division_equations; lia).
    simpl andb. run. done.
Qed.

Lemma byte_buffer_loop s pt end_ fuel : ∀ start acc,
  mm_inv s → 0 ≤ start → end_ ≤ 2 ^ 38 →
  (∀ a, start ≤ a < end_ → is_Some (pt_lookup s pt (a / 4096))) →
  (0 < fuel)%nat → (start < end_ → (end_ - 1) / 4096 - start / 4096 + 1 < Z.of_nat fuel) →
  ∃ vs, loopM fuel (translated_byte_buffer_step pt end_) (start, acc) s = Ok (acc ++ vs, s) ∧
    (start ≤ end_ → views_cover s pt start end_ vs).
Proof.
  induction fuel as [|fuel IH]; intros start acc Hmm H0 Hend Hmap Hf Hfuel; [lia|].
  cbn [loopM]. destruct (decide (start < end_)) as [Hlt|Hge].
  - destruct (Hmap start) as [e He]; [lia|]. specialize (Hfuel Hlt).
    pose proof (byte_buffer_step s pt start end_ acc e Hmm H0 Hlt Hend He) as Hstep. simpl in Hstep.
    set (stop := Z.min ((start / 4096 + 1) * 4096) end_) in *.
    assert (start < stop ≤ end_ ∧ start mod 4096 + (stop - start) ≤ 4096) as Hstop
      by (unfold stop; Z.to_euclidean_division_equations; lia).
    rewrite (bind_Ok _ _ _ _ _ Hstep). cbn beta iota.
    assert (0 < fuel)%nat as Hf0 by (Z.to_euclidean_division_equations; lia).
    set (w := {| view_ppn := pte_ppn e; view_lo := start mod 4096;
                 view_hi := start mod 4096 + (stop - start) |}).
    assert (∃ vs, loopM fuel (translated_byte_buffer_step pt end_)
        (usize_from_VirtAddr stop, acc ++ [w]) s = Ok ((acc ++ [w]) ++ vs, s) ∧
        views_cover s pt stop end_ vs) as (vs & Hvs & Hc & Hwf & Hsum).
    { rewrite usize_from_VirtAddr_eq by word. case_bool_decide as Hs38.
      - destruct (IH stop (acc ++ [w])) as (vs & Hvs & Hcov); try done; try lia.
        + intros a Ha. apply Hmap. lia.
        + unfold stop in *. Z.to_euclidean_division_equations. lia.
        + exists vs. split; [done|]. apply Hcov. lia.
      - assert (stop = end_) as Hse by lia. exists [].
        split; [|rewrite Hse; split_and!; [by rewrite Z.sub_diag|constructor|simpl; lia]].
        destruct fuel as [|fuel']; [lia|]. cbn [loopM]. unfold translated_byte_buffer_step.
        assert (0 ≤ stop mod 2 ^ 39) by (apply Z.mod_pos_bound; lia).
        rewrite (proj2 (Z.ltb_ge _ _)) by word. run. by rewrite app_nil_r. }
    rewrite <-app_assoc in Hvs. exists (w :: vs). split; [done|]. intros _. split_and!.
    + cbn [mbind list_bind]. rewrite fmap_app, Hc. unfold view_bytes, w. cbn [view_ppn view_lo view_hi].
      rewrite (page_bytes s pt start (stop - start) e) by (done || lia). rewrite <-fmap_app.
      replace (end_ - start) with ((stop - start) + (end_ - stop)) by lia.
      rewrite seqZ_app by lia. do 3 f_equal. lia.
    + constructor; [|done]. simpl. Z.to_euclidean_division_equations. lia.
    + simpl. rewrite Hsum. lia.
  - exists []. unfold translated_byte_buffer_step. rewrite (proj2 (Z.ltb_ge _ _)) by lia. run.
    rewrite app_nil_r. split; [done|]. intros. replace end_ with start by lia.
    split_and!; [by rewrite Z.sub_diag|constructor|simpl; lia].
Qed.

Lemma token_roundtrip pt :
  0 ≤ root_ppn pt < 2 ^ 44 →
  PageTable_from_token (PageTable_token pt) = Ok {| root_ppn := root_ppn pt; frames := [] |}.
Proof.
  intros H. unfold PageTable_from_token, PageTable_token.
  change (Z.shiftl 1 44 - 1) with (2 ^ 44 - 1). change (wshl 8 60) with (2 ^ 19 * 2 ^ 44).
  rewrite lor_disjoint_add, land_ones_mod, Z.add_comm, Z.mod_add, Z.mod_small by lia.
  by rewrite PhysPageNum_from_usize_ok by done.
Qed.

Lemma UserBuffer_len_acc vs acc :
  0 ≤ acc → Forall (λ v, 0 ≤ view_lo v < view_hi v ∧ view_hi v ≤ 4096) vs →
  acc + foldr (λ v n, view_hi v - view_lo v + n) 0 vs < W64 →
  foldl (λ total b, wadd total (view_hi b - view_lo b)) acc vs
  = acc + foldr (λ v n, view_hi v - view_lo v + n) 0 vs.
Proof.
  intros Ha Hwf. revert acc Ha. induction Hwf as [|v vs Hv Hvs IH]; intros acc Ha Hlt; simpl in *; [lia|].
  assert (0 ≤ foldr (λ v n, view_hi v - view_lo v + n) 0 vs).
  { clear -Hvs. induction Hvs; simpl; lia. }
  rewrite wadd_small by lia. rewrite IH by lia. lia.
Qed.

(** C34: [translated_byte_buffer] of a buffer of the user half whose pages are all mapped returns
    slices that are, in order, exactly the bytes at the addresses [ptr], ..., [ptr + len - 1] of
    the address space named by the token, each slice inside one frame and not empty, with total
    length [len]; it terminates, does not panic and changes nothing. *)
Theorem translated_byte_buffer_correct (s : Mm) (pt : PageTable) (ptr len : Z) :
  mm_inv s → 0 ≤ root_ppn pt < 2 ^ 44 → 0 ≤ ptr → 0 ≤ len → ptr + len ≤ 2 ^ 38 →
  (∀ a, ptr ≤ a < ptr + len → is_Some (pt_lookup s pt (a / 4096))) →
  ∃ vs, translated_byte_buffer (PageTable_token pt) ptr len s = Ok (vs, s) ∧
    Some <$> (vs ≫= view_bytes s) = byte_at s pt <$> seqZ ptr len ∧
    Forall (λ v, 0 ≤ view_lo v < view_hi v ∧ view_hi v ≤ 4096) vs ∧
    UserBuffer_len vs = len.
Proof.
  intros Hmm Hr H0 Hlen Hend Hmap. unfold translated_byte_buffer. rewrite token_roundtrip by done. run.
  rewrite wadd_small by word.
  destruct (byte_buffer_loop s {| root_ppn := root_ppn pt; frames := [] |} (ptr + len)
              (Z.to_nat (len / 4096 + 3)) ptr []) as (vs & Hvs & Hc & Hwf & Hsum); try done; try lia.
  - assert (0 ≤ len / 4096) by (apply Z.div_pos; lia). lia.
  - intros _. rewrite Z2Nat.id by (assert (0 ≤ len / 4096) by (apply Z.div_pos; lia); lia).
    Z.to_euclidean_division_equations. lia.
  - exists vs. split; [done|]. rewrite Z.add_simpl_l in *. split_and!; [done|done|].
    unfold UserBuffer_len. rewrite UserBuffer_len_acc; [lia|lia|done|]. word.
Qed.

Lemma translated_byte_buffer_correct_witness :
  ∃ pt s vs, translated_byte_buffer (PageTable_token pt) 0x5ffe 2 s = Ok (vs, s) ∧
    UserBuffer_len vs = 2.
Proof.
  destruct demo_mapped as (pt & s & _ & Hm & _ & Hr & H). exists pt, s.
  destruct (translated_byte_buffer_correct s pt 0x5ffe 2) as (vs & H1 & _ & _ & H2);
    [exact Hm|rewrite Hr; lia|lia|lia|lia| |exists vs; split; [exact H1|exact H2]].
  intros a Ha. replace (a / 4096) with 5 by (Z.to_euclidean_division_equations; lia).
  rewrite H. exists (PageTableEntry_new 0x81000 0xd7). reflexivity.
Defined.

(** ** Iterating over a user buffer *)

Fixpoint ub_collect (fuel : nat) (it : UserBufferIterator) : outcome (list (Z * Z)) :=
  match fuel with
  | O => NoFuel
  | S fuel' =>
      '(r, it') ← UserBufferIterator_next it;
      match r with
      | None => mret []
      | Some x => l ← ub_collect fuel' it'; mret (x :: l)
      end
  end.

Definition view_addrs (v : view) : list (Z * Z) :=
  (λ o, (view_ppn v, o)) <$> seqZ (view_lo v) (view_hi v - view_lo v).

Lemma ub_collect_from bufs (Hwf : Forall (λ v, 0 ≤ view_lo v < view_hi v ∧ view_hi v ≤ 4096) bufs) :
  ∀ n cur idx fuel b,
  bufs !! cur = Some b → 0 ≤ idx < view_hi b - view_lo b →
  n = length (drop (Z.to_nat idx) (view_addrs b) ++ (drop (S cur) bufs ≫= view_addrs)) →
  (n < fuel)%nat →
  ub_collect fuel {| ub_buffers := bufs; ub_current_buffer := cur; ub_current_idx := idx |}
  = Ok (drop (Z.to_nat idx) (view_addrs b) ++ (drop (S cur) bufs ≫= view_addrs)).
Proof.
  induction n as [|n IH]; intros cur idx fuel b Hb Hidx Hn Hf.
  { rewrite length_app, length_drop in Hn. unfold view_addrs in Hn at 1.
    rewrite length_fmap, length_seqZ in Hn. lia. }
  destruct fuel as [|fuel]; [lia|]. cbn [ub_collect]. unfold UserBufferIterator_next.
  cbn [ub_buffers ub_current_buffer ub_current_idx]. rewrite Hb, (proj2 (Z.ltb_lt _ _)) by lia.
  pose proof (Forall_lookup_1 _ _ _ _ Hwf Hb) as Hvb. simpl in Hvb. rewrite wadd_small by word.
  assert (drop (Z.to_nat idx) (view_addrs b)
    = (view_ppn b, view_lo b + idx) :: drop (Z.to_nat (idx + 1)) (view_addrs b)) as Hd.
  { rewrite (drop_S _ (view_ppn b, view_lo b + idx) (Z.to_nat idx)).
    - do 2 f_equal. lia.
    - unfold view_addrs. rewrite list_lookup_fmap, lookup_seqZ_lt by lia. simpl. do 2 f_equal. lia. }
  rewrite Hd in Hn |- *. simpl in Hn. simplify_eq.
  destruct (Z.eqb_spec (idx + 1) (view_hi b - view_lo b)) as [He|He].
  - assert (drop (Z.to_nat (idx + 1)) (view_addrs b) = []) as Hnil.
    { apply drop_ge. unfold view_addrs. rewrite length_fmap, length_seqZ. lia. }
    rewrite Hnil in *. cbn [app] in *. unfold mbind, outcome_bind at 1. cbn beta iota.
    destruct (bufs !! S cur) as [b'|] eqn:Hb'.
    + pose proof (Forall_lookup_1 _ _ _ _ Hwf Hb') as Hvb'. simpl in Hvb'.
      rewrite (drop_S bufs b' (S cur)) in * by done. cbn [mbind list_bind] in *.
      rewrite (IH (S cur) 0 fuel b') by (done || lia). done.
    + rewrite drop_ge by (by apply lookup_ge_None_1). destruct fuel as [|fuel]; [simpl in Hf; lia|].
      cbn [ub_collect]. unfold UserBufferIterator_next. cbn [ub_buffers ub_current_buffer].
      by rewrite Hb'.
  - unfold mbind, outcome_bind at 1. cbn beta iota.
    rewrite (IH cur (idx + 1) fuel b) by (done || lia). done.
Qed.

(** iterating over a [UserBuffer] of non-empty slices yields the address of every byte of
    every slice exactly once, in order, and then stops; it never indexes out of bounds. *)
Theorem user_buffer_iterates_bytes (vs : list view) (fuel : nat) :
  Forall (λ v, 0 ≤ view_lo v < view_hi v ∧ view_hi v ≤ 4096) vs →
  (length (vs ≫= view_addrs) < fuel)%nat →
  ub_collect fuel (UserBuffer_into_iter vs) = Ok (vs ≫= view_addrs).
Proof.
  intros Hwf Hf. destruct vs as [|b vs].
  - destruct fuel; [lia|done].
  - apply Forall_cons_1 in Hwf as Hb. destruct Hb as [Hb _].
    apply (ub_collect_from (b :: vs) Hwf _ 0 0 fuel b eq_refl ltac:(lia) eq_refl). done.
Qed.

Lemma user_buffer_iterates_bytes_witness :
  ub_collect 4 (UserBuffer_into_iter
    [{| view_ppn := 7; view_lo := 4094; view_hi := 4096 |}; {| view_ppn := 9; view_lo := 0; view_hi := 1 |}])
  = Ok [(7, 4094); (7, 4095); (9, 0)].
Proof.
  apply (user_buffer_iterates_bytes
    [{| view_ppn := 7; view_lo := 4094; view_hi := 4096 |}; {| view_ppn := 9; view_lo := 0; view_hi := 1 |}] 4).
  - repeat apply Forall_cons_2; simpl; (lia || apply Forall_nil_2).
  - vm_compute. lia.
Defined.
