(* ===== verification/MemorySet.v ===== *)
(** * Address spaces ([os/src/mm/memory_set.rs])

    A [MapArea] is a range of pages with the frames that back it; a [MemorySet] is a page table
    with its areas and the frames of the heap and of the mmap region.  A
    [BTreeMap<VirtPageNum, FrameTracker>] is a finite map, iterated in key order; replacing or
    removing a tracker drops it, which frees its frame.

    Code outside the repository is a parameter: the ELF file is what the [xmas_elf] parser reads
    from it ([ElfFile]), and the linker symbols of the kernel image are a record ([Symbols]). *)

From Stdlib Require Import ZArith Lia.
From stdpp Require Import functions prelude gmap sorting.
From S2P Require Import Prelude Config Address FrameAllocator PageTable.

Open Scope Z_scope.

(** ** Maps of frame trackers *)

Definition btree_le (a b : Z * Z) : Prop := a.1 ≤ b.1.
#[export] Instance btree_le_dec a b : Decision (btree_le a b).
Proof. unfold btree_le. apply _. Defined.

(** The entries of a [BTreeMap] in key order. *)
Definition btree_iter (g : gmap Z Z) : list (Z * Z) := merge_sort btree_le (map_to_list g).

Definition drop_option (o : option PhysPageNum) : M Mm unit :=
  match o with Some t => FrameTracker_drop t | None => mret () end.

(** [map.insert(vpn, frame);]: a replaced tracker is dropped. *)
Definition btree_insert (g : gmap Z Z) (vpn frame : Z) : M Mm (gmap Z Z) :=
  drop_option (g !! vpn);; mret (<[vpn := frame]> g).

(** [map.remove(&vpn);] *)
Definition btree_remove (g : gmap Z Z) (vpn : Z) : M Mm (gmap Z Z) :=
  drop_option (g !! vpn);; mret (delete vpn g).

Definition btree_drop (g : gmap Z Z) : M Mm unit := drop_frames (snd <$> btree_iter g).

(** ** Areas *)

Inductive MapType := Identical | Framed.
#[export] Instance MapType_eq_dec : EqDecision MapType.
Proof. solve_decision. Defined.

Definition MapPermission_R : Z := Z.shiftl 1 1.
Definition MapPermission_W : Z := Z.shiftl 1 2.
Definition MapPermission_X : Z := Z.shiftl 1 3.
Definition MapPermission_U : Z := Z.shiftl 1 4.

Record MapArea := {
  vpn_range : SimpleRange;
  data_frames : gmap Z Z;
  map_type : MapType;
  map_perm : Z;
}.

Definition MapArea_new (start_va end_va : VirtAddr) (ty : MapType) (perm : Z) : outcome MapArea :=
  r ← SimpleRange_new (VirtAddr_floor start_va) (VirtAddr_ceil end_va);
  mret {| vpn_range := r; data_frames := ∅; map_type := ty; map_perm := perm |}.

Definition MapArea_from_another (another : MapArea) : outcome MapArea :=
  r ← SimpleRange_new (range_l (vpn_range another)) (range_r (vpn_range another));
  mret {| vpn_range := r; data_frames := ∅; map_type := map_type another;
          map_perm := map_perm another |}.

Definition area_with_frames (a : MapArea) (g : gmap Z Z) : MapArea :=
  {| vpn_range := vpn_range a; data_frames := g; map_type := map_type a; map_perm := map_perm a |}.
Definition area_with_range (a : MapArea) (r : SimpleRange) : MapArea :=
  {| vpn_range := r; data_frames := data_frames a; map_type := map_type a; map_perm := map_perm a |}.

Definition MapArea_map_one (a : MapArea) (pt : PageTable) (vpn : VirtPageNum)
    : M Mm (MapArea * PageTable) :=
  '(a', ppn) ←
    match map_type a with
    | Identical => mret (a, wsub vpn KERNEL_SPACE_OFFSET)
    | Framed =>
        o ← frame_alloc;
        frame ← unwrap o;
        g ← btree_insert (data_frames a) vpn frame;
        mret (area_with_frames a g, frame)
    end;
  pte_flags ← unwrap (PTEFlags_from_bits (map_perm a));
  pt' ← PageTable_map pt vpn ppn pte_flags;
  mret (a', pt').

Definition MapArea_unmap_one (a : MapArea) (pt : PageTable) (vpn : VirtPageNum) : M Mm MapArea :=
  a' ← (if decide (map_type a = Framed)
        then g ← btree_remove (data_frames a) vpn; mret (area_with_frames a g)
        else mret a);
  PageTable_unmap pt vpn;;
  mret a'.

Definition MapArea_map (a : MapArea) (pt : PageTable) : M Mm (MapArea * PageTable) :=
  foldM (λ '(a, pt) vpn, MapArea_map_one a pt vpn) (a, pt) (range_pages (vpn_range a)).

Definition MapArea_unmap (a : MapArea) (pt : PageTable) : M Mm MapArea :=
  foldM (λ a vpn, MapArea_unmap_one a pt vpn) a (range_pages (vpn_range a)).

Definition MapArea_shrink_to (a : MapArea) (pt : PageTable) (new_end : VirtPageNum) : M Mm MapArea :=
  r ← lift (SimpleRange_new new_end (range_r (vpn_range a)));
  a' ← foldM (λ a vpn, MapArea_unmap_one a pt vpn) a (range_pages r);
  r' ← lift (SimpleRange_new (range_l (vpn_range a')) new_end);
  mret (area_with_range a' r').

Definition MapArea_append_to (a : MapArea) (pt : PageTable) (new_end : VirtPageNum)
    : M Mm (MapArea * PageTable) :=
  r ← lift (SimpleRange_new (range_r (vpn_range a)) new_end);
  '(a', pt') ← foldM (λ '(a, pt) vpn, MapArea_map_one a pt vpn) (a, pt) (range_pages r);
  r' ← lift (SimpleRange_new (range_l (vpn_range a')) new_end);
  mret (area_with_range a' r', pt').

(** [&data[lo..hi]] *)
Definition data_slice (data : list Z) (lo hi : Z) : outcome (list Z) :=
  if (lo <=? hi) && (hi <=? Z.of_nat (length data))
  then Ok (slice data (Z.to_nat lo) (Z.to_nat hi)) else Panic Bounds.

(** [ppn.get_bytes_array()[off..off + src.len()].copy_from_slice(src)] *)
Definition copy_into_page (ppn off : Z) (src : list Z) : M Mm unit :=
  if off + Z.of_nat (length src) <=? 4096 then
    s ← get;
    set_bytes_array ppn (splice (get_bytes_array s ppn) (Z.to_nat off) src)
  else panic Bounds.

(** One turn of the loop of [copy_data]; [inr] when the data is exhausted. *)
Definition MapArea_copy_data_step (pt : PageTable) (data : list Z) (st : Z * Z * Z)
    : M Mm (Z * Z * Z + unit) :=
  let '(start, page_offset, current_vpn) := st in
  let len := Z.of_nat (length data) in
  src ← lift (data_slice data start (Z.min len (wsub (wadd start PAGE_SIZE) page_offset)));
  o ← PageTable_translate pt current_vpn;
  e ← unwrap o;
  ppn ← lift (PageTableEntry_ppn e);
  copy_into_page ppn page_offset src;;
  let start := wadd start (wsub PAGE_SIZE page_offset) in
  if len <=? start then mret (inr ())
  else mret (inl (start, 0, page_step current_vpn)).

Definition MapArea_copy_data (a : MapArea) (pt : PageTable) (data : list Z) (offset : Z) : M Mm unit :=
  assertM (bool_decide (map_type a = Framed));;
  loopM (S (S (length data / 4096))) (MapArea_copy_data_step pt data)
    (0, offset, range_l (vpn_range a)).

Definition MapArea_is_conflict_with (a : MapArea) (start_va end_va : VirtAddr) : bool :=
  negb ((range_r (vpn_range a) <=? VirtAddr_floor start_va) ||
        (VirtAddr_ceil end_va <=? range_l (vpn_range a))).

Definition MapArea_drop (a : MapArea) : M Mm unit := btree_drop (data_frames a).

(** ** Memory sets *)

Record MemorySet := {
  page_table : PageTable;
  areas : list MapArea;
  heap_area : gmap Z Z;
  mmap_area : gmap Z Z;
  mmap_base : VirtAddr;
  mmap_end : VirtAddr;
}.

Definition ms_with_pt (ms : MemorySet) (pt : PageTable) : MemorySet :=
  {| page_table := pt; areas := areas ms; heap_area := heap_area ms; mmap_area := mmap_area ms;
     mmap_base := mmap_base ms; mmap_end := mmap_end ms |}.
Definition ms_with_areas (ms : MemorySet) (l : list MapArea) : MemorySet :=
  {| page_table := page_table ms; areas := l; heap_area := heap_area ms; mmap_area := mmap_area ms;
     mmap_base := mmap_base ms; mmap_end := mmap_end ms |}.
Definition ms_with_heap (ms : MemorySet) (g : gmap Z Z) : MemorySet :=
  {| page_table := page_table ms; areas := areas ms; heap_area := g; mmap_area := mmap_area ms;
     mmap_base := mmap_base ms; mmap_end := mmap_end ms |}.
Definition ms_with_mmap (ms : MemorySet) (g : gmap Z Z) : MemorySet :=
  {| page_table := page_table ms; areas := areas ms; heap_area := heap_area ms; mmap_area := g;
     mmap_base := mmap_base ms; mmap_end := mmap_end ms |}.
Definition ms_with_mmap_end (ms : MemorySet) (va : VirtAddr) : MemorySet :=
  {| page_table := page_table ms; areas := areas ms; heap_area := heap_area ms;
     mmap_area := mmap_area ms; mmap_base := mmap_base ms; mmap_end := va |}.

Definition MemorySet_with_table (pt : PageTable) : M Mm MemorySet :=
  b ← lift (VirtAddr_from_usize MMAP_BASE);
  e ← lift (VirtAddr_from_usize MMAP_BASE);
  mret {| page_table := pt; areas := []; heap_area := ∅; mmap_area := ∅; mmap_base := b; mmap_end := e |}.

Definition MemorySet_new_bare : M Mm MemorySet :=
  pt ← PageTable_new; MemorySet_with_table pt.

(** [kernel_root] is the root table of [KERNEL_SPACE]. *)
Definition MemorySet_new_process (kernel_root : PhysPageNum) : M Mm MemorySet :=
  pt ← PageTable_new_process kernel_root; MemorySet_with_table pt.

Definition MemorySet_token (ms : MemorySet) : Z := PageTable_token (page_table ms).

Definition MemorySet_push (ms : MemorySet) (map_area : MapArea) (data : option (list Z))
    : M Mm MemorySet :=
  '(a, pt) ← MapArea_map map_area (page_table ms);
  match data with
  | Some data => MapArea_copy_data a pt data 0
  | None => mret ()
  end;;
  mret (ms_with_areas (ms_with_pt ms pt) (areas ms ++ [a])).

Definition MemorySet_push_with_offset (ms : MemorySet) (map_area : MapArea) (offset : Z)
    (data : option (list Z)) : M Mm MemorySet :=
  '(a, pt) ← MapArea_map map_area (page_table ms);
  match data with
  | Some data => MapArea_copy_data a pt data offset
  | None => mret ()
  end;;
  mret (ms_with_areas (ms_with_pt ms pt) (areas ms ++ [a])).

Definition MemorySet_insert_framed_area (ms : MemorySet) (start_va end_va : VirtAddr) (perm : Z)
    : M Mm MemorySet :=
  a ← lift (MapArea_new start_va end_va Framed perm); MemorySet_push ms a None.

Definition MemorySet_insert_framed_area_with_data (ms : MemorySet) (start_va end_va : VirtAddr)
    (perm : Z) (data : list Z) : M Mm MemorySet :=
  a ← lift (MapArea_new start_va end_va Framed perm); MemorySet_push ms a (Some data).

Definition MemorySet_is_conflict_with_va (ms : MemorySet) (start_va end_va : VirtAddr) : bool :=
  existsb (λ a, MapArea_is_conflict_with a start_va end_va) (areas ms).

(** [Iterator::position] *)
Fixpoint position {A} (f : A → bool) (l : list A) : option nat :=
  match l with
  | [] => None
  | x :: l' => if f x then Some 0%nat else S <$> position f l'
  end.

(** Removing the area at [idx]: its pages are unmapped and the area is dropped. *)
Definition remove_area_at (ms : MemorySet) (idx : nat) : M Mm MemorySet :=
  a ← unwrap (areas ms !! idx);
  a' ← MapArea_unmap a (page_table ms);
  MapArea_drop a';;
  mret (ms_with_areas ms (take idx (areas ms) ++ drop (S idx) (areas ms))).

Definition MemorySet_remove_area_with_va (ms : MemorySet) (start_va end_va : VirtAddr)
    : M Mm (bool * MemorySet) :=
  match position (λ a, (range_l (vpn_range a) =? VirtAddr_floor start_va) &&
                       (range_r (vpn_range a) =? VirtAddr_ceil end_va)) (areas ms) with
  | Some idx => ms' ← remove_area_at ms idx; mret (true, ms')
  | None => mret (false, ms)
  end.

Definition MemorySet_remove_area_with_start_vpn (ms : MemorySet) (start_vpn : VirtPageNum)
    : M Mm MemorySet :=
  match position (λ a, range_l (vpn_range a) =? start_vpn) (areas ms) with
  | Some idx => remove_area_at ms idx
  | None => mret ms
  end.

Definition MemorySet_translate (ms : MemorySet) (vpn : VirtPageNum) : M Mm (option Z) :=
  PageTable_translate (page_table ms) vpn.

Definition MemorySet_recycle_data_pages (ms : MemorySet) : M Mm MemorySet :=
  foldM (λ _ a, MapArea_drop a) () (areas ms);;
  mret (ms_with_areas ms []).

Definition MemorySet_shrink_to (ms : MemorySet) (start new_end : VirtAddr) : M Mm (bool * MemorySet) :=
  match position (λ a, range_l (vpn_range a) =? VirtAddr_floor start) (areas ms) with
  | Some idx =>
      a ← unwrap (areas ms !! idx);
      a' ← MapArea_shrink_to a (page_table ms) (VirtAddr_ceil new_end);
      mret (true, ms_with_areas ms (<[idx := a']> (areas ms)))
  | None => mret (false, ms)
  end.

Definition MemorySet_append_to (ms : MemorySet) (start new_end : VirtAddr) : M Mm (bool * MemorySet) :=
  match position (λ a, range_l (vpn_range a) =? VirtAddr_floor start) (areas ms) with
  | Some idx =>
      a ← unwrap (areas ms !! idx);
      '(a', pt) ← MapArea_append_to a (page_table ms) (VirtAddr_ceil new_end);
      mret (true, ms_with_areas (ms_with_pt ms pt) (<[idx := a']> (areas ms)))
  | None => mret (false, ms)
  end.

(** Dropping a memory set drops its fields in order. *)
Definition MemorySet_drop (ms : MemorySet) : M Mm unit :=
  drop_frames (frames (page_table ms));;
  foldM (λ _ a, MapArea_drop a) () (areas ms);;
  btree_drop (heap_area ms);;
  btree_drop (mmap_area ms).

(** ** The kernel address space *)

Record Symbols := {
  stext : Z; etext : Z; srodata : Z; erodata : Z; sdata : Z; edata : Z;
  sbss_with_stack : Z; ebss : Z; ekernel : Z;
}.

(** [boards/qemu.rs]: the device registers *)
Definition MMIO : list (Z * Z) :=
  [(0x10000000, 0x1000); (0x10001000, 0x1000); (0x02000000, 0x10000); (0x0C000000, 0x400000)].

Definition push_identical (ms : MemorySet) (start_ end_ perm : Z) : M Mm MemorySet :=
  start_va ← lift (VirtAddr_from_usize start_);
  end_va ← lift (VirtAddr_from_usize end_);
  a ← lift (MapArea_new start_va end_va Identical perm);
  MemorySet_push ms a None.

Definition MemorySet_new_kernel (sy : Symbols) : M Mm MemorySet :=
  ms ← MemorySet_new_bare;
  ms ← push_identical ms (stext sy) (etext sy) (Z.lor MapPermission_R MapPermission_X);
  ms ← push_identical ms (srodata sy) (erodata sy) MapPermission_R;
  ms ← push_identical ms (sdata sy) (edata sy) (Z.lor MapPermission_R MapPermission_W);
  ms ← push_identical ms (sbss_with_stack sy) (ebss sy) (Z.lor MapPermission_R MapPermission_W);
  ms ← push_identical ms (ekernel sy) MEMORY_END (Z.lor MapPermission_R MapPermission_W);
  foldM (λ ms '(base, size),
    push_identical ms (wadd base (wshl KERNEL_SPACE_OFFSET PAGE_SIZE_BITS))
      (wadd (wadd base size) (wshl KERNEL_SPACE_OFFSET PAGE_SIZE_BITS))
      (Z.lor MapPermission_R MapPermission_W)) ms MMIO.

(** ** User address spaces *)

(** The load of [MapArea::from_another], [push] and the page copies for one area of the parent. *)
Definition copy_page (src_ppn dst_ppn : PhysPageNum) : M Mm unit :=
  s ← get; set_bytes_array dst_ppn (get_bytes_array s src_ppn).

Definition fork_area (user_space memory_set : MemorySet) (area : MapArea) : M Mm MemorySet :=
  if KERNEL_SPACE_OFFSET <? range_l (vpn_range area) then mret memory_set
  else
    new_area ← lift (MapArea_from_another area);
    memory_set ← MemorySet_push memory_set new_area None;
    foldM (λ _ vpn,
      so ← MemorySet_translate user_space vpn;
      se ← unwrap so;
      src_ppn ← lift (PageTableEntry_ppn se);
      d ← MemorySet_translate memory_set vpn;
      de ← unwrap d;
      dst_ppn ← lift (PageTableEntry_ppn de);
      copy_page src_ppn dst_ppn) () (range_pages (vpn_range area));;
    mret memory_set.

Definition PTEFlags_URW : Z := Z.lor (Z.lor PTEFlags_U PTEFlags_R) PTEFlags_W.
Definition PTEFlags_RWUX : Z :=
  Z.lor (Z.lor (Z.lor PTEFlags_R PTEFlags_W) PTEFlags_U) PTEFlags_X.

(** The copy of one page of the heap or of the mmap region; [is_heap] selects the map. *)
Definition fork_frame (is_heap : bool) (memory_set : MemorySet) (entry : Z * Z) : M Mm MemorySet :=
  let '(vpn, src_frame) := entry in
  o ← frame_alloc;
  dst_ppn ← unwrap o;
  pt ← PageTable_map (page_table memory_set) vpn dst_ppn PTEFlags_URW;
  let memory_set := ms_with_pt memory_set pt in
  memory_set ←
    (if is_heap
     then g ← btree_insert (heap_area memory_set) vpn dst_ppn; mret (ms_with_heap memory_set g)
     else g ← btree_insert (mmap_area memory_set) vpn dst_ppn; mret (ms_with_mmap memory_set g));
  copy_page src_frame dst_ppn;;
  mret memory_set.

Definition MemorySet_from_existed_user (kernel_root : PhysPageNum) (user_space : MemorySet)
    : M Mm MemorySet :=
  ms ← MemorySet_new_process kernel_root;
  let ms := ms_with_mmap_end ms (mmap_end user_space) in
  ms ← foldM (fork_area user_space) ms (areas user_space);
  ms ← foldM (fork_frame true) ms (btree_iter (heap_area user_space));
  foldM (fork_frame false) ms (btree_iter (mmap_area user_space)).

(** ** Heap and mmap *)

Definition MemorySet_map_heap_step (aim_addr : VirtAddr) (st : MemorySet * Z)
    : M Mm (MemorySet * Z + MemorySet) :=
  let '(ms, current_addr) := st in
  if aim_addr <=? current_addr then mret (inr ms)
  else
    o ← frame_alloc;
    frame ← unwrap o;
    pt ← PageTable_map (page_table ms) (VirtAddr_floor current_addr) frame PTEFlags_URW;
    g ← btree_insert (heap_area ms) (VirtAddr_floor current_addr) frame;
    next ← lift (VirtAddr_from_usize (wadd current_addr PAGE_SIZE));
    mret (inl (ms_with_heap (ms_with_pt ms pt) g, next)).

(** [map_heap] always returns 0; the result is the updated memory set. *)
Definition MemorySet_map_heap (ms : MemorySet) (current_addr aim_addr : VirtAddr)
    : M Mm (Z * MemorySet) :=
  ms' ← loopM (Z.to_nat ((aim_addr - current_addr) / 4096 + 2)) (MemorySet_map_heap_step aim_addr)
          (ms, current_addr);
  mret (0, ms').

Definition MAP_FIXED : Z := 0x10.
Definition MAP_ANONYMOUS : Z := 0x20.
Definition flags_contains (flags f : Z) : bool := Z.land flags f =? f.

(** [((x) + PAGE_SIZE - 1) & (!(PAGE_SIZE - 1))] *)
Definition page_align_up (x : Z) : Z :=
  Z.land (wsub (wadd x PAGE_SIZE) 1) (wnot (PAGE_SIZE - 1)).

Definition mmap_page (ms : MemorySet) (vpn : VirtPageNum) : M Mm MemorySet :=
  o ← frame_alloc;
  frame ← unwrap o;
  g ← btree_insert (mmap_area ms) vpn frame;
  pt ← PageTable_map (page_table ms) vpn frame PTEFlags_RWUX;
  mret (ms_with_pt (ms_with_mmap ms g) pt).

Definition mmap_fixed_page (ms : MemorySet) (vpn : VirtPageNum) : M Mm MemorySet :=
  match mmap_area ms !! vpn with
  | Some _ => mret ms
  | None => mmap_page ms vpn
  end.

Definition mmap_copy_step (pt : PageTable) (context : list Z) (len : Z) (st : Z * Z)
    : M Mm (Z * Z + unit) :=
  let '(start, current_vpn) := st in
  src ← lift (data_slice context start (Z.min len (wadd start PAGE_SIZE)));
  o ← PageTable_translate pt current_vpn;
  e ← unwrap o;
  ppn ← lift (PageTableEntry_ppn e);
  copy_into_page ppn 0 src;;
  let start := wadd start PAGE_SIZE in
  if len <=? start then mret (inr ()) else mret (inl (start, page_step current_vpn)).

Definition MemorySet_mmap (ms : MemorySet) (start_addr len offset : Z) (context : list Z) (flags : Z)
    : M Mm (Z * MemorySet) :=
  let fixed := flags_contains flags MAP_FIXED && negb (start_addr =? 0) in
  let start_addr_align := page_align_up (if fixed then start_addr else mmap_end ms) in
  let end_addr_align := page_align_up (wadd (if fixed then start_addr else mmap_end ms) len) in
  new_end ← lift (VirtAddr_from_usize (wadd end_addr_align PAGE_SIZE));
  let ms := ms_with_mmap_end ms new_end in
  start_va ← lift (VirtAddr_from_usize start_addr_align);
  end_va ← lift (VirtAddr_from_usize end_addr_align);
  vpn_range ← lift (SimpleRange_new (VirtAddr_floor start_va) (VirtAddr_floor end_va));
  ms ← foldM (if fixed then mmap_fixed_page else mmap_page) ms (range_pages vpn_range);
  (if flags_contains flags MAP_ANONYMOUS then mret ()
   else loopM (Z.to_nat (len / 4096 + 2)) (mmap_copy_step (page_table ms) context len)
          (offset, range_l vpn_range));;
  mret (as_isize start_addr_align, ms).

Definition MemorySet_munmap (ms : MemorySet) (start_addr len : Z) : M Mm (Z * MemorySet) :=
  let start_addr_align := page_align_up start_addr in
  let end_addr_align := page_align_up (wadd start_addr len) in
  start_va ← lift (VirtAddr_from_usize start_addr_align);
  end_va ← lift (VirtAddr_from_usize end_addr_align);
  vpn_range ← lift (SimpleRange_new (VirtAddr_floor start_va) (VirtAddr_floor end_va));
  g ← foldM btree_remove (mmap_area ms) (range_pages vpn_range);
  mret (0, ms_with_mmap ms g).

(** ** Loading an ELF file *)

(** What the [xmas_elf] parser gives: its accessors are the fields. *)
Inductive ProgramType := PtLoad | PtInterp | PtOther.
#[export] Instance ProgramType_eq_dec : EqDecision ProgramType.
Proof. solve_decision. Defined.

Record ProgramHeader := {
  ph_type : ProgramType;
  ph_virtual_addr : Z; ph_mem_size : Z; ph_offset : Z; ph_file_size : Z;
  ph_read : bool; ph_write : bool; ph_execute : bool;
}.

Record ElfFile := {
  elf_input : list Z;
  elf_magic : list Z;
  elf_ph_entry_size : Z; elf_ph_offset : Z; elf_entry_point : Z;
  elf_headers : list ProgramHeader;
}.

Record AuxHeader := { aux_type : Z; aux_value : Z }.
Definition AuxHeader_new (t v : Z) : AuxHeader := {| aux_type := t; aux_value := v |}.

Definition AT_NULL : Z := 0.
Definition AT_PHDR : Z := 3.
Definition AT_PHENT : Z := 4.
Definition AT_PHNUM : Z := 5.
Definition AT_PAGESIZE : Z := 6.
Definition AT_BASE : Z := 7.
Definition AT_FLAGS : Z := 8.
Definition AT_ENTRY : Z := 9.
Definition AT_NOELF : Z := 10.
Definition AT_UID : Z := 11.
Definition AT_EUID : Z := 12.
Definition AT_GID : Z := 13.
Definition AT_EGID : Z := 14.
Definition AT_PLATFORM : Z := 15.
Definition AT_HWCAP : Z := 16.
Definition AT_CLKTCK : Z := 17.
Definition AT_SECURE : Z := 23.
Definition AT_RANDOM : Z := 25.
Definition AT_EXECFN : Z := 31.

Definition elf_perm (ph : ProgramHeader) : Z :=
  let p := MapPermission_U in
  let p := if ph_read ph then Z.lor p MapPermission_R else p in
  let p := if ph_write ph then Z.lor p MapPermission_W else p in
  if ph_execute ph then Z.lor p MapPermission_X else p.

(** The loop body of [from_elf] over the program headers: the memory set, the end of the last
    loaded segment and the address of the first one. *)
Definition load_segment (elf : ElfFile) (st : MemorySet * Z * Z) (ph : ProgramHeader)
    : M Mm (MemorySet * Z * Z) :=
  let '(ms, max_end_vpn, head_va) := st in
  match ph_type ph with
  | PtLoad =>
      start_va ← lift (VirtAddr_from_usize (ph_virtual_addr ph));
      let page_offset := VirtAddr_page_offset start_va in
      end_va ← lift (VirtAddr_from_usize (wadd (ph_virtual_addr ph) (ph_mem_size ph)));
      let head_va := if head_va =? 0 then start_va else head_va in
      map_area ← lift (MapArea_new start_va end_va Framed (elf_perm ph));
      data ← lift (data_slice (elf_input elf) (ph_offset ph)
                     (wadd (ph_offset ph) (ph_file_size ph)));
      ms' ← (if page_offset =? 0 then MemorySet_push ms map_area (Some data)
             else MemorySet_push_with_offset ms map_area page_offset (Some data));
      mret (ms', range_r (vpn_range map_area), head_va)
  | PtInterp => panic Todo
  | PtOther => mret st
  end.

Definition elf_auxv (elf : ElfFile) : list AuxHeader :=
  [ AuxHeader_new AT_PHENT (elf_ph_entry_size elf);
    AuxHeader_new AT_PHNUM (Z.of_nat (length (elf_headers elf)));
    AuxHeader_new AT_PAGESIZE PAGE_SIZE;
    AuxHeader_new AT_FLAGS 0;
    AuxHeader_new AT_ENTRY (elf_entry_point elf);
    AuxHeader_new AT_UID 0;
    AuxHeader_new AT_EUID 0;
    AuxHeader_new AT_GID 0;
    AuxHeader_new AT_EGID 0;
    AuxHeader_new AT_PLATFORM 0;
    AuxHeader_new AT_HWCAP 0;
    AuxHeader_new AT_CLKTCK CLOCK_FREQ;
    AuxHeader_new AT_SECURE 0;
    AuxHeader_new AT_NOELF 0x112d ].

(** [from_elf]: [parse] is [xmas_elf::ElfFile::new].  Returns the memory set, the heap base, the
    top of the user stack, the entry point and the auxiliary vector. *)
Definition MemorySet_from_elf (kernel_root : PhysPageNum) (parse : list Z → option ElfFile)
    (elf_data : list Z) : M Mm (MemorySet * Z * Z * Z * list AuxHeader) :=
  ms ← MemorySet_new_process kernel_root;
  elf ← unwrap (parse elf_data);
  assertM (bool_decide (elf_magic elf = [0x7f; 0x45; 0x4c; 0x46]));;
  '(ms, max_end_vpn, head_va) ← foldM (load_segment elf) (ms, 0, 0) (elf_headers elf);
  let auxv := elf_auxv elf ++ [AuxHeader_new AT_BASE 0;
                               AuxHeader_new AT_PHDR (wadd head_va (elf_ph_offset elf))] in
  let max_end_va := VirtAddr_from_vpn max_end_vpn in
  let user_stack_bottom := wadd (usize_from_VirtAddr max_end_va) PAGE_SIZE in
  let user_stack_top := wadd user_stack_bottom USER_STACK_SIZE in
  let user_heap_base := wadd user_stack_top PAGE_SIZE in
  mret (ms, user_heap_base, user_stack_top, elf_entry_point elf, auxv).

(** ** The initial user stack

    [write_to_user_ptr] maps the frame that [token] gives for the address into the memory set at
    hand, whose table is the active one, and the write that follows goes through the MMU. *)

Definition mmu_store_byte (pt : PageTable) (va b : Z) : M Mm unit :=
  o ← PageTable_translate pt (VirtAddr_floor va);
  match o with
  | Some e =>
      v ← lift (PageTableEntry_is_valid e);
      w ← lift (PageTableEntry_writable e);
      ppn ← lift (PageTableEntry_ppn e);
      if (v : bool) && w then copy_into_page ppn (VirtAddr_page_offset va) [b] else panic PageFault
  | None => panic PageFault
  end.

Definition mmu_store (pt : PageTable) (va : Z) (bytes : list Z) : M Mm unit :=
  foldM (λ i b, mmu_store_byte pt (wadd va i) b;; mret (wadd i 1)) 0 bytes;; mret ().

Definition MemorySet_write_to_user_ptr (ms : MemorySet) (token ptr : Z) (bytes : list Z)
    : M Mm MemorySet :=
  user_pagetable ← lift (PageTable_from_token token);
  va ← lift (VirtAddr_from_usize ptr);
  o ← PageTable_translate_va user_pagetable va;
  pa ← unwrap o;
  pt ← PageTable_map_allow_cover (page_table ms) (VirtAddr_floor va) (PhysAddr_floor pa)
         (Z.lor PTEFlags_R PTEFlags_W);
  mmu_store pt va bytes;;
  mret (ms_with_pt ms pt).

Definition write_usize (ms : MemorySet) (token ptr w : Z) : M Mm MemorySet :=
  MemorySet_write_to_user_ptr ms token ptr (le_bytes 8 w).

(** The closure [push_stack]: strings are pushed downwards, the pointers end with a null. *)
Definition push_string (token : Z) (st : MemorySet * Z * list Z) (parm : list Z)
    : M Mm (MemorySet * Z * list Z) :=
  let '(ms, user_sp, ptr_vec) := st in
  let user_sp := wsub user_sp (Z.of_nat (length parm) + 1) in
  '(ms, p) ← foldM (λ '(ms, p) c,
      ms ← MemorySet_write_to_user_ptr ms token p [c]; mret (ms, wadd p 1)) (ms, user_sp) parm;
  ms ← MemorySet_write_to_user_ptr ms token p [0];
  mret (ms, user_sp, ptr_vec ++ [user_sp]).

Definition push_stack (token : Z) (ms : MemorySet) (parms : list (list Z)) (user_sp : Z)
    : M Mm (MemorySet * Z * list Z) :=
  '(ms, user_sp, ptr_vec) ← foldM (push_string token) (ms, user_sp, []) parms;
  mret (ms, user_sp, ptr_vec ++ [0]).

(** Writes of consecutive words upwards from an address. *)
Definition write_words (token : Z) (ms : MemorySet) (addr : Z) (words : list Z) : M Mm MemorySet :=
  '(ms, _) ← foldM (λ '(ms, addr) w,
      ms ← write_usize ms token addr w; mret (ms, wadd addr 8)) (ms, addr) words;
  mret ms.

Definition aux_words (auxv : list AuxHeader) : list Z :=
  auxv ≫= λ a, [aux_type a; aux_value a].

Definition align_down (x n : Z) : Z := wsub x (x mod n).

(** Returns the stack pointer, argc and the bases of argv, envp and the auxiliary vector. *)
Definition MemorySet_build_stack (ms : MemorySet) (user_sp : Z) (argv_vec envp_vec : list (list Z))
    (auxv_vec : list AuxHeader) (token : Z) : M Mm (MemorySet * (Z * Z * Z * Z * Z)) :=
  let user_sp := wsub user_sp 16 in
  '(ms, user_sp, envp) ← push_stack token ms envp_vec user_sp;
  let user_sp := align_down user_sp 8 in
  let argc := Z.of_nat (length argv_vec) in
  '(ms, user_sp, argv) ← push_stack token ms argv_vec user_sp;
  let user_sp := align_down user_sp 8 in
  let user_sp := wsub user_sp 16 in
  let auxv_vec := auxv_vec ++ [AuxHeader_new AT_RANDOM user_sp] in
  ms ← write_usize ms token user_sp 0x01020304050607;
  ms ← write_usize ms token (wadd user_sp 8) 0x08090a0b0c0d0e0f;
  let user_sp := align_down user_sp 16 in
  argv0 ← unwrap (argv !! 0%nat);
  let auxv_vec := auxv_vec ++ [AuxHeader_new AT_EXECFN argv0; AuxHeader_new AT_NULL 0] in
  let user_sp := wsub user_sp (Z.of_nat (length auxv_vec) * 16) in
  let aux_base := user_sp in
  ms ← write_words token ms aux_base (aux_words auxv_vec);
  let user_sp := wsub user_sp (Z.of_nat (length envp) * 8) in
  let envp_base := user_sp in
  ms ← write_words token ms envp_base envp;
  let user_sp := wsub user_sp (Z.of_nat (length argv) * 8) in
  let argv_base := user_sp in
  ms ← write_words token ms argv_base argv;
  let user_sp := wsub user_sp 8 in
  ms ← write_usize ms token user_sp argc;
  mret (ms, (user_sp, argc, argv_base, envp_base, aux_base)).
