(* ===== verification/MemorySetSpec.v ===== *)
(** * What address spaces promise

    Mapping and unmapping of areas, and loading of data into them. *)

From Stdlib Require Import ZArith Lia.
From stdpp Require Import functions prelude gmap sorting.
From S2P Require Import Prelude Config Address FrameAllocator PageTable PageTableSpec MemorySet.

Open Scope Z_scope.

(** ** Tables and data frames *)

Definition is_node (s : Mm) (pt : PageTable) (q : Z) : Prop :=
  ∃ path, good_path path ∧ node (mem s) (root_ppn pt) path = Some q.

(** A step of an address space: the table stays a well-formed tree, pages that are neither fresh
    nor tables keep their contents, and only fresh frames become tables. *)
Record as_step (pt pt' : PageTable) (s s' : Mm) : Prop := {
  as_mm : mm_inv s';
  as_pt : pt_inv s' (root_ppn pt');
  as_root : root_ppn pt' = root_ppn pt;
  as_cur : fa_current (fa s) ≤ fa_current (fa s');
  as_end : fa_end (fa s') = fa_end (fa s);
  as_frame : ∀ q, q < fa_current (fa s) → ¬ is_node s pt q → mem s' q = mem s q;
  as_nodes : ∀ q, q < fa_current (fa s) → is_node s' pt' q → is_node s pt q;
}.

Lemma as_step_refl pt s : mm_inv s → pt_inv s (root_ppn pt) → as_step pt pt s s.
Proof. by split. Qed.

Lemma as_step_trans pt1 pt2 pt3 s1 s2 s3 :
  as_step pt1 pt2 s1 s2 → as_step pt2 pt3 s2 s3 → as_step pt1 pt3 s1 s3.
Proof.
  intros [] []. split; try done; try congruence; try lia.
  - intros q Hq Hn. rewrite as_frame1 by (lia || naive_solver). auto.
  - intros q Hq Hn. apply as_nodes0; [lia|]. apply as_nodes1; [lia|done].
Qed.

Lemma pt_update_step pt pt' vpn new s s' : pt_update pt pt' vpn new s s' → as_step pt pt' s s'.
Proof.
  intros U. pose proof (upd_cur _ _ _ _ _ _ U).
  split; [apply U|apply U|apply U|lia|rewrite (upd_fa _ _ _ _ _ _ U); done|..].
  - intros q Hq Hn. apply (upd_frame _ _ _ _ _ _ U); [done|]. intros path Hpre Hnode.
    apply Hn. exists path. split; [by eapply prefix_good_path|done].
  - intros q Hq (path & Hg & Hnode). exists path. split; [done|]. by apply (upd_back _ _ _ _ _ _ U).
Qed.

(** Writing a page that is not a table changes no table and no translation. *)
Lemma data_write_step s pt p bytes :
  mm_inv s → pt_inv s (root_ppn pt) → ¬ is_node s pt p →
  length bytes = 4096%nat → Forall is_byte bytes →
  let s' := {| mem := <[p := bytes]> (mem s); fa := fa s |} in
  mm_inv s' ∧ pt_inv s' (root_ppn pt) ∧ (∀ v, pt_lookup s' pt v = pt_lookup s pt v) ∧
  (∀ q, is_node s' pt q ↔ is_node s pt q).
Proof.
  intros Hmm Hpt Hn Hl Hb s'.
  assert (∀ path, good_path path → node (mem s') (root_ppn pt) path = node (mem s) (root_ppn pt) path) as Hnode.
  { intros path Hg. apply node_agree; [done|]. intros path' q Hg' Hq. simpl.
    rewrite fn_lookup_insert_ne; [done|]. intros ->. apply Hn. by exists path'. }
  split_and!.
  - by apply mm_inv_set_page.
  - split.
    + intros path q Hg. rewrite Hnode by done. by apply Hpt.
    + intros path path' q Hg Hg'. rewrite !Hnode by done. by apply Hpt.
  - intros v. unfold pt_lookup, walk. rewrite Hnode by auto with chaos.
    destruct (node (mem s) (root_ppn pt) [idx0 v; idx1 v]) as [q|] eqn:Hq; [|done].
    rewrite (rd_pte_ext (mem s)); [done|]. simpl. rewrite fn_lookup_insert_ne; [done|]. intros ->.
    apply Hn. exists [idx0 v; idx1 v]. split; [auto with chaos|done].
  - intros q. split; intros (path & Hg & H); exists path; (split; [done|]).
    + by rewrite Hnode in H.
    + by rewrite Hnode.
Qed.

(** Allocating a frame changes no table and no translation either. *)
Lemma alloc_step s pt :
  mm_inv s → pt_inv s (root_ppn pt) → fa_current (fa s) < fa_end (fa s) →
  let s' := mm_bump s in
  as_step pt pt s s' ∧ (∀ v, pt_lookup s' pt v = pt_lookup s pt v) ∧
  ¬ is_node s' pt (fa_current (fa s)).
Proof.
  intros Hmm Hpt Hlt s'.
  assert (¬ is_node s pt (fa_current (fa s))) as Hn.
  { intros (path & Hg & Hp). by apply (node_not_fresh s _ Hpt path) in Hp. }
  destruct (data_write_step s pt (fa_current (fa s)) zero_page Hmm Hpt Hn) as (H1 & H2 & H3 & H4);
    [done|apply zero_page_byte|].
  split_and!.
  - split; try done; simpl.
    + by apply mm_inv_bump.
    + destruct H2 as [Hb Hi]. split; [|exact Hi]. intros path p Hg Hp. simpl.
      specialize (Hb path p Hg Hp). simpl in Hb. lia.
    + lia.
    + intros q Hq _. rewrite fn_lookup_insert_ne; [done|lia].
    + intros q _ Hq. by apply H4.
  - exact H3.
  - rewrite <-(H4 _) in Hn. exact Hn.
Qed.

(** ** Mapping framed pages *)

(** The pages [l] have been mapped to fresh, cleared, distinct frames recorded in the area, and
    nothing else has changed. *)
Record framed_map (l : list Z) (a a' : MapArea) (pt pt' : PageTable) (s s' : Mm) : Prop := {
  fm_step : as_step pt pt' s s';
  fm_bound : fa_current (fa s') ≤ fa_current (fa s) + 3 * Z.of_nat (length l);
  fm_recycled : fa_recycled (fa s') = fa_recycled (fa s);
  fm_area : vpn_range a' = vpn_range a ∧ map_type a' = map_type a ∧ map_perm a' = map_perm a;
  fm_old : ∀ v, v ∉ l → data_frames a' !! v = data_frames a !! v;
  fm_new : ∀ v, v ∈ l → ∃ p, data_frames a' !! v = Some p ∧
    fa_current (fa s) ≤ p < fa_current (fa s') ∧ mem s' p = zero_page ∧ ¬ is_node s' pt' p ∧
    pt_lookup s' pt' v = Some (PageTableEntry_new p (leaf_flags (map_perm a)));
  fm_other : ∀ v, canonical_vpn v → v ∉ l → pt_lookup s' pt' v = pt_lookup s pt v;
  fm_inj : ∀ v w p, v ∈ l → w ∈ l → data_frames a' !! v = Some p → data_frames a' !! w = Some p → v = w;
}.

Lemma PTEFlags_from_bits_some b : PTEFlags_from_bits b = Some b.
Proof. unfold PTEFlags_from_bits. change (255 - PTEFlags_all) with 0. by rewrite Z.land_0_r. Qed.

Lemma map_one_framed a pt vpn s :
  mm_inv s → pt_inv s (root_ppn pt) → map_type a = Framed → 0 ≤ map_perm a < 2 ^ 8 →
  canonical_vpn vpn → data_frames a !! vpn = None →
  match MapArea_map_one a pt vpn s with
  | Ok ((a', pt'), s') => pt_lookup s pt vpn = None ∧ framed_map [vpn] a a' pt pt' s s'
  | Panic f => is_Some (pt_lookup s pt vpn) ∨ fa_end (fa s) - fa_current (fa s) < 3
  | NoFuel => False
  end.
Proof.
  intros Hmm Hpt Hty Hperm Hv Hnone. unfold MapArea_map_one. rewrite Hty. run.
  pose proof (frame_alloc_eq s Hmm) as Ha. pose proof (fa_inv_le _ (mm_inv_fa _ Hmm)) as Hle.
  destruct (decide _) as [He|Hne]; rewrite (bind_Ok _ _ _ _ _ Ha); run; [right; lia|].
  unfold btree_insert. rewrite Hnone. simpl drop_option. run. rewrite PTEFlags_from_bits_some. run.
  set (p := fa_current (fa s)) in *. destruct (alloc_step s pt Hmm Hpt) as (St & Hl & Hn); [lia|].
  assert (0 ≤ p < 2 ^ 44) as Hp by (destruct (mm_inv_fa _ Hmm); unfold p; lia).
  pose proof (PageTable_map_spec pt (mm_bump s) vpn p (map_perm a)
    (as_pt _ _ _ _ St) (as_mm _ _ _ _ St) Hp Hperm) as Hm.
  destruct (PageTable_map pt vpn p (map_perm a) (mm_bump s)) as [[pt' s']|f|] eqn:E;
    [rewrite (bind_Ok _ _ _ _ _ E)|rewrite (bind_Panic _ _ _ _ E)|destruct Hm].
  2: { destruct Hm as [[_ Hm]|[_ Hm]]; [left; by rewrite <-Hl|right]. simpl in Hm. unfold p in *. lia. }
  cbn [mret M_ret]. destruct Hm as [Hnone' U]. split; [by rewrite <-Hl|].
  pose proof (pt_update_step _ _ _ _ _ _ U) as St'. pose proof (as_cur _ _ _ _ St') as Hc.
  pose proof (upd_cur _ _ _ _ _ _ U) as Hc'. simpl in Hc, Hc'. fold p in Hc, Hc'.
  split; [by eapply as_step_trans| | |done|..]; simpl.
  - fold p. lia.
  - by rewrite (upd_fa _ _ _ _ _ _ U).
  - intros v Hnv. rewrite lookup_insert_ne; [done|]. set_solver.
  - intros v ->%list_elem_of_singleton. exists p. rewrite lookup_insert_eq.
    split_and!; [done|fold p; lia|lia| | |].
    + rewrite (as_frame _ _ _ _ St'); [simpl; apply fn_lookup_insert|simpl; fold p; lia|done].
    + intros Hnode. apply Hn. apply (as_nodes _ _ _ _ St'); [simpl; fold p; lia|done].
    + rewrite (upd_lookup _ _ _ _ _ _ U). by rewrite decide_True.
  - intros v Hcv Hnv. rewrite (pt_update_canonical _ _ _ _ _ _ _ U) by done.
    rewrite decide_False by set_solver. apply Hl.
  - set_solver.
Qed.

Lemma map_one_area a pt v s a' pt' s' :
  MapArea_map_one a pt v s = Ok ((a', pt'), s') →
  vpn_range a' = vpn_range a ∧ map_type a' = map_type a ∧ map_perm a' = map_perm a.
Proof.
  unfold MapArea_map_one. intros H. apply bind_Ok_inv in H as ([a1 p] & s1 & H1 & H2).
  cbn beta iota in H2. inv_ok. destruct (map_type a) eqn:E; inv_ok; done.
Qed.

Lemma map_one_frames a pt v s a' pt' s' w :
  MapArea_map_one a pt v s = Ok ((a', pt'), s') → w ≠ v → data_frames a' !! w = data_frames a !! w.
Proof.
  unfold MapArea_map_one. intros H Hw. apply bind_Ok_inv in H as ([a1 p] & s1 & H1 & H2).
  cbn beta iota in H2. inv_ok. destruct (map_type a) eqn:E; inv_ok; [done|].
  unfold btree_insert in *. inv_ok. cbn. by rewrite lookup_insert_ne.
Qed.

Lemma framed_map_trans l1 l2 a a1 a2 pt pt1 pt2 s s1 s2 :
  framed_map l1 a a1 pt pt1 s s1 → framed_map l2 a1 a2 pt1 pt2 s1 s2 →
  (∀ v, v ∈ l1 → v ∉ l2) → Forall canonical_vpn l1 →
  framed_map (l1 ++ l2) a a2 pt pt2 s s2.
Proof.
  intros F1 F2 Hdis Hcan. pose proof (fm_step _ _ _ _ _ _ _ F1) as S1.
  pose proof (fm_step _ _ _ _ _ _ _ F2) as S2. pose proof (as_cur _ _ _ _ S1). pose proof (as_cur _ _ _ _ S2).
  destruct (fm_area _ _ _ _ _ _ _ F1) as (R1 & T1 & P1). destruct (fm_area _ _ _ _ _ _ _ F2) as (R2 & T2 & P2).
  assert (∀ v, v ∈ l1 → ∃ p, data_frames a2 !! v = Some p ∧ data_frames a1 !! v = Some p ∧
    fa_current (fa s) ≤ p < fa_current (fa s1) ∧ mem s2 p = zero_page ∧ ¬ is_node s2 pt2 p ∧
    pt_lookup s2 pt2 v = Some (PageTableEntry_new p (leaf_flags (map_perm a)))) as Hold.
  { intros v Hv. destruct (fm_new _ _ _ _ _ _ _ F1 v Hv) as (p & Hf & Hb & Hz & Hn & Hl).
    exists p. rewrite (fm_old _ _ _ _ _ _ _ F2) by auto. split_and!; try done; try lia.
    - rewrite (as_frame _ _ _ _ S2); [done|lia|done].
    - intros Hn'. apply Hn. apply (as_nodes _ _ _ _ S2); [lia|done].
    - rewrite (fm_other _ _ _ _ _ _ _ F2); [done| |auto]. rewrite Forall_forall in Hcan. auto. }
  split.
  - by eapply as_step_trans.
  - pose proof (fm_bound _ _ _ _ _ _ _ F1). pose proof (fm_bound _ _ _ _ _ _ _ F2).
    rewrite length_app. lia.
  - by rewrite (fm_recycled _ _ _ _ _ _ _ F2), (fm_recycled _ _ _ _ _ _ _ F1).
  - split_and!; congruence.
  - intros v Hv. rewrite (fm_old _ _ _ _ _ _ _ F2), (fm_old _ _ _ _ _ _ _ F1) by set_solver. done.
  - intros v [Hv|Hv]%elem_of_app.
    + destruct (Hold v Hv) as (p & ? & _ & ? & ? & ? & ?). exists p. split_and!; try done; lia.
    + destruct (fm_new _ _ _ _ _ _ _ F2 v Hv) as (p & ? & ? & ? & ? & ?). rewrite P1 in *.
      exists p. split_and!; try done; lia.
  - intros v Hc Hv. rewrite (fm_other _ _ _ _ _ _ _ F2), (fm_other _ _ _ _ _ _ _ F1) by set_solver. done.
  - assert (∀ v w p, v ∈ l1 → w ∈ l2 → data_frames a2 !! v = Some p → data_frames a2 !! w = Some p → False) as Hx.
    { intros v w p Hv Hw E1 E2. destruct (Hold v Hv) as (p1 & Hp1 & _ & ? & _).
      destruct (fm_new _ _ _ _ _ _ _ F2 w Hw) as (p2 & Hp2 & ? & _).
      assert (p = p1) by congruence. assert (p = p2) by congruence. lia. }
    intros v w p [Hv|Hv]%elem_of_app [Hw|Hw]%elem_of_app E1 E2.
    + destruct (Hold v Hv) as (p1 & Hp1 & Hq1 & _). destruct (Hold w Hw) as (p2 & Hp2 & Hq2 & _).
      apply (fm_inj _ _ _ _ _ _ _ F1 v w p); try done; congruence.
    + exfalso. eauto.
    + exfalso. eauto.
    + by apply (fm_inj _ _ _ _ _ _ _ F2 v w p).
Qed.

Lemma framed_map_nil a pt s : mm_inv s → pt_inv s (root_ppn pt) → framed_map [] a a pt pt s s.
Proof.
  intros. split; [by apply as_step_refl|simpl; lia|done|done|done|..]; intros; set_solver.
Qed.

Lemma map_pages_framed l : ∀ a pt s,
  mm_inv s → pt_inv s (root_ppn pt) → map_type a = Framed → 0 ≤ map_perm a < 2 ^ 8 →
  Forall canonical_vpn l → NoDup l → (∀ v, v ∈ l → data_frames a !! v = None) →
  match foldM (λ '(a, pt) vpn, MapArea_map_one a pt vpn) (a, pt) l s with
  | Ok ((a', pt'), s') =>
      (∀ v, v ∈ l → pt_lookup s pt v = None) ∧ framed_map l a a' pt pt' s s'
  | Panic f => (∃ v, v ∈ l ∧ is_Some (pt_lookup s pt v)) ∨
               fa_end (fa s) - fa_current (fa s) < 3 * Z.of_nat (length l)
  | NoFuel => False
  end.
Proof.
  induction l as [|x l IH]; intros a pt s Hmm Hpt Hty Hperm Hcan Hnd Hfr.
  { cbn. split; [set_solver|by apply framed_map_nil]. }
  apply Forall_cons in Hcan as [Hx Hcan]. apply NoDup_cons in Hnd as [Hxl Hnd]. cbn [foldM].
  pose proof (map_one_framed a pt x s Hmm Hpt Hty Hperm Hx) as H1.
  specialize (H1 ltac:(apply Hfr; set_solver)).
  destruct (MapArea_map_one a pt x s) as [[[a1 pt1] s1]|f|] eqn:E;
    [rewrite (bind_Ok _ _ _ _ _ E)|rewrite (bind_Panic _ _ _ _ E)|destruct H1].
  2: { destruct H1 as [?|?]; [left; exists x; set_solver|right; cbn [length]; lia]. }
  destruct H1 as [Hn1 F1]. pose proof (fm_step _ _ _ _ _ _ _ F1) as S1.
  destruct (fm_area _ _ _ _ _ _ _ F1) as (R1 & T1 & P1).
  assert (∀ v, v ∈ l → pt_lookup s1 pt1 v = pt_lookup s pt v) as Hl1.
  { intros v Hv. rewrite Forall_forall in Hcan. apply (fm_other _ _ _ _ _ _ _ F1); [auto|set_solver]. }
  pose proof (IH a1 pt1 s1 (as_mm _ _ _ _ S1) (as_pt _ _ _ _ S1)) as H2.
  rewrite T1, P1 in H2. specialize (H2 Hty Hperm Hcan Hnd).
  assert (∀ v, v ∈ l → data_frames a1 !! v = None) as Hfr1.
  { intros v Hv. rewrite (fm_old _ _ _ _ _ _ _ F1) by set_solver. apply Hfr. set_solver. }
  specialize (H2 Hfr1). cbn beta iota.
  destruct (foldM _ (a1, pt1) l s1) as [[[a2 pt2] s2]|f|]; [|destruct H2 as [(v & Hv & ?)|H2]|destruct H2].
  - destruct H2 as [Hn2 F2]. split.
    + intros v [->|Hv]%elem_of_cons; [done|]. rewrite <-Hl1 by done. auto.
    + change (x :: l) with ([x] ++ l). eapply framed_map_trans; [done|done|set_solver|].
      by rewrite Forall_singleton.
  - left. exists v. rewrite <-Hl1 by done. split; [set_solver|done].
  - right. pose proof (fm_bound _ _ _ _ _ _ _ F1) as Hb. pose proof (as_end _ _ _ _ S1).
    cbn [length] in *. lia.
Qed.

(** C28: mapping a new framed area maps every page of its range to a frame of its own that is
    fresh, cleared and recorded in the area, with the area's permissions; no other page of the
    address space changes.  It panics only when a page of the range is already mapped or fewer
    than three frames per page are left (one for the page, two for new tables). *)
Theorem area_map_correct (a : MapArea) (pt : PageTable) (s : Mm) :
  mm_inv s → pt_inv s (root_ppn pt) → map_type a = Framed → data_frames a = ∅ →
  0 ≤ map_perm a < 2 ^ 8 → Forall canonical_vpn (range_pages (vpn_range a)) →
  match MapArea_map a pt s with
  | Ok ((a', pt'), s') =>
      mm_inv s' ∧ pt_inv s' (root_ppn pt') ∧
      (∀ v, v ∈ range_pages (vpn_range a) → pt_lookup s pt v = None ∧
         ∃ p, data_frames a' !! v = Some p ∧
           fa_current (fa s) ≤ p < fa_current (fa s') ∧ get_bytes_array s' p = zero_page ∧
           pt_lookup s' pt' v = Some (PageTableEntry_new p (leaf_flags (map_perm a)))) ∧
      (∀ v w p, data_frames a' !! v = Some p → data_frames a' !! w = Some p → v = w) ∧
      (∀ v, canonical_vpn v → v ∉ range_pages (vpn_range a) →
         data_frames a' !! v = None ∧ pt_lookup s' pt' v = pt_lookup s pt v)
  | Panic f => (∃ v, v ∈ range_pages (vpn_range a) ∧ is_Some (pt_lookup s pt v)) ∨
      fa_end (fa s) - fa_current (fa s) < 3 * Z.of_nat (length (range_pages (vpn_range a)))
  | NoFuel => False
  end.
Proof.
  intros Hmm Hpt Hty Hemp Hperm Hcan. unfold MapArea_map.
  pose proof (map_pages_framed (range_pages (vpn_range a)) a pt s Hmm Hpt Hty Hperm Hcan
    (NoDup_seqZ _ _)) as H.
  rewrite Hemp in H. specialize (H ltac:(intros; apply lookup_empty)).
  destruct (foldM _ (a, pt) _ s) as [[[a' pt'] s']|f|]; [|done..]. destruct H as [Hn F].
  assert (∀ v, v ∉ range_pages (vpn_range a) → data_frames a' !! v = None) as Hout.
  { intros v Hv. rewrite (fm_old _ _ _ _ _ _ _ F), Hemp by done. apply lookup_empty. }
  pose proof (fm_step _ _ _ _ _ _ _ F) as St. split_and!; [apply St|apply St|..].
  - intros v Hv. split; [auto|]. destruct (fm_new _ _ _ _ _ _ _ F v Hv) as (p & ? & ? & ? & _ & ?). eauto.
  - intros v w p E1 E2. apply (fm_inj _ _ _ _ _ _ _ F v w p); try done; apply dec_stable; intros Hx.
    + rewrite Hout in E1; done.
    + rewrite Hout in E2; done.
  - intros v Hc Hv. split; [auto|]. by apply (fm_other _ _ _ _ _ _ _ F).
Qed.

Definition demo_area : MapArea :=
  {| vpn_range := {| range_l := 16; range_r := 18 |}; data_frames := ∅; map_type := Framed;
     map_perm := 0x1e |}.

Lemma demo_area_canonical : Forall canonical_vpn (range_pages (vpn_range demo_area)).
Proof.
  apply Forall_forall. intros v Hv. unfold range_pages in Hv. apply elem_of_seqZ in Hv.
  simpl in Hv. left. lia.
Qed.

Lemma demo_pt0_inv : mm_inv (mm_bump demo_mm) ∧ pt_inv (mm_bump demo_mm) (root_ppn demo_pt0).
Proof.
  split; [apply mm_inv_bump; [apply demo_mm_inv|cbn; lia]|].
  apply pt_inv_zero; [reflexivity|cbn; lia].
Qed.

Lemma area_map_correct_witness :
  ∃ a' pt' s', MapArea_map demo_area demo_pt0 (mm_bump demo_mm) = Ok ((a', pt'), s') ∧
    ∃ p, data_frames a' !! 17 = Some p ∧ pt_lookup s' pt' 17 = Some (PageTableEntry_new p 0xdf).
Proof.
  destruct demo_pt0_inv as [Hm Hp].
  pose proof (area_map_correct demo_area demo_pt0 (mm_bump demo_mm) Hm Hp eq_refl eq_refl
    ltac:(cbn; lia) demo_area_canonical) as H.
  destruct (MapArea_map demo_area demo_pt0 (mm_bump demo_mm)) as [[[a' pt'] s']|f|] eqn:E;
    [|vm_compute in E; discriminate..].
  exists a', pt', s'. split; [reflexivity|].
  destruct H as (_ & _ & H & _ & _). destruct (H 17) as (_ & p & H1 & _ & _ & H2).
  { apply elem_of_seqZ. cbn. lia. }
  exists p. split; [exact H1|exact H2].
Defined.

(** ** Unmapping framed pages *)

Lemma dealloc_step s pt p :
  mm_inv s → pt_inv s (root_ppn pt) → p < fa_current (fa s) → p ∉ fa_recycled (fa s) →
  frame_dealloc p s = Ok ((), mm_dealloc s p) ∧ as_step pt pt s (mm_dealloc s p) ∧
  ∀ v, pt_lookup (mm_dealloc s p) pt v = pt_lookup s pt v.
Proof.
  intros Hmm Hpt Hlt Hnr.
  assert (frame_dealloc p s = Ok ((), mm_dealloc s p)) as Hd.
  { rewrite frame_dealloc_eq, decide_False; [done|]. intros [?|?]; [lia|done]. }
  pose proof (frame_dealloc_Ok _ _ _ _ Hmm Hd) as (Hmm' & _).
  split_and!; [done| |done]. split; try done. split; apply Hpt.
Qed.

(** The pages [l], backed by the frames [fs] of the area, have been unmapped and freed in order. *)
Record framed_unmap (l fs : list Z) (a a' : MapArea) (pt : PageTable) (s s' : Mm) : Prop := {
  fu_step : as_step pt pt s s';
  fu_fa : fa_current (fa s') = fa_current (fa s);
  fu_recycled : fa_recycled (fa s') = fa_recycled (fa s) ++ fs;
  fu_area : vpn_range a' = vpn_range a ∧ map_type a' = map_type a ∧ map_perm a' = map_perm a;
  fu_frames : ∀ v, data_frames a' !! v = if decide (v ∈ l) then None else data_frames a !! v;
  fu_lookup : ∀ v, canonical_vpn v →
    pt_lookup s' pt v = if decide (v ∈ l) then None else pt_lookup s pt v;
}.

Lemma unmap_one_framed a pt v s p :
  mm_inv s → pt_inv s (root_ppn pt) → map_type a = Framed → canonical_vpn v →
  data_frames a !! v = Some p → is_Some (pt_lookup s pt v) →
  p < fa_current (fa s) → p ∉ fa_recycled (fa s) →
  ∃ a' s', MapArea_unmap_one a pt v s = Ok (a', s') ∧ framed_unmap [v] [p] a a' pt s s'.
Proof.
  intros Hmm Hpt Hty Hv Hf Hl Hlt Hnr. unfold MapArea_unmap_one, btree_remove.
  rewrite decide_True, Hf by done. simpl drop_option. run.
  destruct (dealloc_step s pt p Hmm Hpt Hlt Hnr) as (Hd & Sd & Ld).
  rewrite (bind_Ok _ _ _ _ _ Hd). run.
  pose proof (PageTable_unmap_spec pt _ v (as_pt _ _ _ _ Sd) (as_mm _ _ _ _ Sd)) as Hu.
  rewrite Ld in Hu.
  destruct (PageTable_unmap pt v (mm_dealloc s p)) as [[u s']|f|] eqn:E;
    [rewrite (bind_Ok _ _ _ _ _ E)|exfalso; destruct Hu as [Hu _], Hl; congruence|destruct Hu].
  destruct Hu as (_ & U & Hfa). eexists _, s'. split; [reflexivity|].
  pose proof (pt_update_step _ _ _ _ _ _ U) as Su.
  split; [by eapply as_step_trans|by rewrite Hfa|by rewrite Hfa|done|..]; simpl.
  - intros w. destruct (decide (w ∈ [v])) as [->%list_elem_of_singleton|Hne]; [apply lookup_delete_eq|].
    rewrite lookup_delete_ne; [done|]. set_solver.
  - intros w Hw. rewrite (pt_update_canonical _ _ _ _ _ _ _ U) by done.
    destruct (decide (w ∈ [v])) as [Hin|Hne].
    + rewrite decide_True by set_solver. done.
    + rewrite decide_False by set_solver. apply Ld.
Qed.

Lemma unmap_pages_framed l : ∀ fs a pt s,
  mm_inv s → pt_inv s (root_ppn pt) → map_type a = Framed → Forall canonical_vpn l → NoDup l →
  NoDup fs → Forall2 (λ v p, data_frames a !! v = Some p) l fs →
  (∀ v, v ∈ l → is_Some (pt_lookup s pt v)) →
  Forall (λ p, p < fa_current (fa s) ∧ p ∉ fa_recycled (fa s)) fs →
  ∃ a' s', foldM (λ a vpn, MapArea_unmap_one a pt vpn) a l s = Ok (a', s') ∧
    framed_unmap l fs a a' pt s s'.
Proof.
  induction l as [|x l IH]; intros fs a pt s Hmm Hpt Hty Hcan Hnd Hndf Hfs Hl Hp.
  { inv Hfs. exists a, s. split; [done|].
    split; [by apply as_step_refl|done|by rewrite app_nil_r|done|..]; intros; by rewrite decide_False by set_solver. }
  inv Hfs. rename y into p, l' into fs', H1 into Hx, H3 into Hfs.
  apply Forall_cons in Hcan as [Hcx Hcan]. apply NoDup_cons in Hnd as [Hxl Hnd].
  apply NoDup_cons in Hndf as [Hpf Hndf]. apply Forall_cons in Hp as [[Hpc Hpr] Hp].
  destruct (unmap_one_framed a pt x s p) as (a1 & s1 & E1 & U1); [done..|apply Hl; set_solver|done|done|].
  pose proof (fu_step _ _ _ _ _ _ _ U1) as S1. destruct (fu_area _ _ _ _ _ _ _ U1) as (R1 & T1 & P1).
  destruct (IH fs' a1 pt s1) as (a2 & s2 & E2 & U2); [apply S1|apply S1|congruence|done|done|done|..].
  - apply Forall2_same_length_lookup_2; [by eapply Forall2_length|]. intros i v q Hv Hq.
    rewrite (fu_frames _ _ _ _ _ _ _ U1), decide_False.
    + by apply (Forall2_lookup_lr _ _ _ i v q Hfs).
    + intros ->%list_elem_of_singleton. apply Hxl. by eapply list_elem_of_lookup_2.
  - intros v Hv. rewrite Forall_forall in Hcan.
    rewrite (fu_lookup _ _ _ _ _ _ _ U1) by auto. rewrite decide_False by set_solver. apply Hl. set_solver.
  - rewrite Forall_forall in Hp |- *. intros q Hq. destruct (Hp q Hq).
    rewrite (fu_fa _ _ _ _ _ _ _ U1), (fu_recycled _ _ _ _ _ _ _ U1). split; [done|]. set_solver.
  - exists a2, s2. cbn [foldM]. rewrite (bind_Ok _ _ _ _ _ E1). split; [done|].
    pose proof (fu_step _ _ _ _ _ _ _ U2) as S2. destruct (fu_area _ _ _ _ _ _ _ U2) as (R2 & T2 & P2).
    split; [by eapply as_step_trans|..].
    + by rewrite (fu_fa _ _ _ _ _ _ _ U2), (fu_fa _ _ _ _ _ _ _ U1).
    + by rewrite (fu_recycled _ _ _ _ _ _ _ U2), (fu_recycled _ _ _ _ _ _ _ U1), <-app_assoc.
    + split_and!; congruence.
    + intros v. rewrite (fu_frames _ _ _ _ _ _ _ U2), (fu_frames _ _ _ _ _ _ _ U1).
      destruct (decide (v ∈ l)), (decide (v ∈ [x])), (decide (v ∈ x :: l)); try done; set_solver.
    + intros v Hv. rewrite (fu_lookup _ _ _ _ _ _ _ U2), (fu_lookup _ _ _ _ _ _ _ U1) by done.
      destruct (decide (v ∈ l)), (decide (v ∈ [x])), (decide (v ∈ x :: l)); try done; set_solver.
Qed.

(** The frames an area records for a list of pages, in order. *)
Definition frames_of (a : MapArea) (l : list Z) : list Z := omap (λ v, data_frames a !! v) l.

Lemma frames_of_Forall2 a l :
  (∀ v, v ∈ l → is_Some (data_frames a !! v)) →
  Forall2 (λ v p, data_frames a !! v = Some p) l (frames_of a l).
Proof.
  unfold frames_of. induction l as [|x l IH]; intros H; simpl; [constructor|].
  destruct (H x) as [p Hp]; [set_solver|]. rewrite Hp. constructor; [done|]. apply IH. set_solver.
Qed.

Lemma frames_of_NoDup a l :
  NoDup l → (∀ v w p, v ∈ l → w ∈ l → data_frames a !! v = Some p → data_frames a !! w = Some p → v = w) →
  NoDup (frames_of a l).
Proof.
  unfold frames_of. induction 1 as [|x l Hx Hnd IH]; intros Hinj; simpl; [constructor|].
  destruct (data_frames a !! x) as [p|] eqn:E; [|apply IH; set_solver].
  apply NoDup_cons. split; [|apply IH; set_solver].
  rewrite list_elem_of_omap. intros (w & Hw & Ew). apply Hx. by rewrite (Hinj x w p) by set_solver.
Qed.

(** C29: mapping a framed area and then unmapping it succeeds and restores every translation of the
    address space; the frames freed are exactly the frames the area had, each of them once. *)
Theorem area_map_unmap_roundtrip (a a' : MapArea) (pt pt' : PageTable) (s s' : Mm) :
  mm_inv s → pt_inv s (root_ppn pt) → map_type a = Framed → data_frames a = ∅ →
  0 ≤ map_perm a < 2 ^ 8 → Forall canonical_vpn (range_pages (vpn_range a)) →
  MapArea_map a pt s = Ok ((a', pt'), s') →
  ∃ a'' s'', MapArea_unmap a' pt' s' = Ok (a'', s'') ∧
    (∀ v, canonical_vpn v → pt_lookup s'' pt' v = pt_lookup s pt v) ∧
    (∀ v, data_frames a'' !! v = None) ∧
    fa_recycled (fa s'')
    = fa_recycled (fa s) ++ frames_of a' (range_pages (vpn_range a)) ∧
    NoDup (frames_of a' (range_pages (vpn_range a))) ∧
    length (frames_of a' (range_pages (vpn_range a))) = length (range_pages (vpn_range a)).
Proof.
  intros Hmm Hpt Hty Hemp Hperm Hcan E. unfold MapArea_map, MapArea_unmap in *.
  set (l := range_pages (vpn_range a)) in *.
  pose proof (map_pages_framed l a pt s Hmm Hpt Hty Hperm Hcan (NoDup_seqZ _ _)) as H.
  rewrite Hemp in H. specialize (H ltac:(intros; apply lookup_empty)). rewrite E in H.
  destruct H as [Hn F]. pose proof (fm_step _ _ _ _ _ _ _ F) as St.
  destruct (fm_area _ _ _ _ _ _ _ F) as (R & T & P). rewrite R. fold l.
  assert (NoDup (frames_of a' l)) as Hnd.
  { apply frames_of_NoDup; [apply NoDup_seqZ|]. apply (fm_inj _ _ _ _ _ _ _ F). }
  assert (Forall2 (λ v p, data_frames a' !! v = Some p) l (frames_of a' l)) as HF.
  { apply frames_of_Forall2. intros v Hv. destruct (fm_new _ _ _ _ _ _ _ F v Hv) as (p & -> & _). eauto. }
  destruct (unmap_pages_framed l (frames_of a' l) a' pt' s') as (a'' & s'' & E2 & U);
    [apply St|apply St|congruence|done|apply NoDup_seqZ|done|done|..].
  - intros v Hv. destruct (fm_new _ _ _ _ _ _ _ F v Hv) as (p & _ & _ & _ & _ & ->). eauto.
  - apply Forall_forall. intros p Hp. unfold frames_of in Hp.
    apply list_elem_of_omap in Hp as (v & Hv & Ev). destruct (fm_new _ _ _ _ _ _ _ F v Hv) as (q & Eq & Hb & _).
    assert (p = q) as -> by congruence. split; [lia|]. rewrite (fm_recycled _ _ _ _ _ _ _ F). intros Hr.
    pose proof (fa_inv_rec _ (mm_inv_fa _ Hmm)) as Hrec. rewrite Forall_forall in Hrec.
    specialize (Hrec q Hr). simpl in Hrec. lia.
  - exists a'', s''. split; [exact E2|]. split_and!; try done.
    + intros v Hv. rewrite (fu_lookup _ _ _ _ _ _ _ U) by done. destruct (decide (v ∈ l)) as [Hin|Hni].
      * symmetry. auto.
      * by apply (fm_other _ _ _ _ _ _ _ F).
    + intros v. rewrite (fu_frames _ _ _ _ _ _ _ U). destruct (decide _); [done|].
      by rewrite (fm_old _ _ _ _ _ _ _ F), Hemp, lookup_empty.
    + by rewrite (fu_recycled _ _ _ _ _ _ _ U), (fm_recycled _ _ _ _ _ _ _ F).
    + symmetry. by eapply Forall2_length.
Qed.

Lemma area_map_unmap_roundtrip_witness :
  ∃ a' pt' s' a'' s'', MapArea_map demo_area demo_pt0 (mm_bump demo_mm) = Ok ((a', pt'), s') ∧
    MapArea_unmap a' pt' s' = Ok (a'', s'') ∧ pt_lookup s'' pt' 17 = None.
Proof.
  destruct demo_pt0_inv as [Hm Hp].
  destruct (MapArea_map demo_area demo_pt0 (mm_bump demo_mm)) as [[[a' pt'] s']|f|] eqn:E;
    [|vm_compute in E; discriminate..].
  destruct (area_map_unmap_roundtrip demo_area a' demo_pt0 pt' (mm_bump demo_mm) s' Hm Hp eq_refl
    eq_refl ltac:(cbn; lia) demo_area_canonical E) as (a'' & s'' & H1 & H2 & _).
  exists a', pt', s', a'', s''. split; [reflexivity|]. split; [exact H1|].
  rewrite H2 by (left; lia). vm_compute. reflexivity.
Defined.

(** ** Loading data *)

(** The pages [[lo, hi)] are mapped, page [v] to the data frame [g v], with no frame shared. *)
Record backed (s : Mm) (pt : PageTable) (lo hi : Z) (g : Z → Z) : Prop := {
  bk_mm : mm_inv s;
  bk_pt : pt_inv s (root_ppn pt);
  bk_lookup : ∀ v, lo ≤ v < hi → ∃ e, pt_lookup s pt v = Some e ∧ pte_ppn e = g v;
  bk_data : ∀ v, lo ≤ v < hi → ¬ is_node s pt (g v);
  bk_inj : ∀ v w, lo ≤ v < hi → lo ≤ w < hi → g v = g w → v = w;
}.

Lemma byte_at_backed s pt lo hi g a :
  backed s pt lo hi g → lo ≤ a / 4096 < hi →
  byte_at s pt a = mem s (g (a / 4096)) !! Z.to_nat (a mod 4096).
Proof. intros B Ha. unfold byte_at. destruct (bk_lookup _ _ _ _ _ B _ Ha) as (e & -> & ->). done. Qed.

(** What a copy of [data] to the address [base] does to the bytes of the area. *)
Record copied (lo hi : Z) (g : Z → Z) (pt : PageTable) (base : Z) (data : list Z) (s s' : Mm) : Prop := {
  cp_backed : backed s' pt lo hi g;
  cp_fa : fa s' = fa s;
  cp_lookup : ∀ v, pt_lookup s' pt v = pt_lookup s pt v;
  cp_frame : ∀ q, (∀ v, lo ≤ v < hi → g v ≠ q) → mem s' q = mem s q;
  cp_bytes : ∀ a, lo ≤ a / 4096 < hi →
    byte_at s' pt a
    = if decide (base ≤ a < base + Z.of_nat (length data)) then data !! Z.to_nat (a - base)
      else byte_at s pt a;
}.

Lemma copy_chunk s pt lo hi g v off src :
  backed s pt lo hi g → lo ≤ v < hi → 0 ≤ off → off + Z.of_nat (length src) ≤ 4096 →
  Forall is_byte src →
  ∃ s', copy_into_page (g v) off src s = Ok ((), s') ∧ copied lo hi g pt (v * 4096 + off) src s s'.
Proof.
  intros B Hv Hoff Hlen Hb. unfold copy_into_page. rewrite (proj2 (Z.leb_le _ _)) by done. run.
  unfold set_bytes_array, modify, set_mem, get_bytes_array. eexists. split; [reflexivity|].
  pose proof (mm_inv_len _ (bk_mm _ _ _ _ _ B) (g v)) as Hl.
  set (new := splice (mem s (g v)) (Z.to_nat off) src).
  assert (length new = 4096%nat) as Hnl by (unfold new; rewrite length_splice; lia).
  assert (Forall is_byte new) as Hnb by (apply Forall_splice; [apply (bk_mm _ _ _ _ _ B)|done]).
  destruct (data_write_step s pt (g v) new (bk_mm _ _ _ _ _ B) (bk_pt _ _ _ _ _ B)
    (bk_data _ _ _ _ _ B v Hv) Hnl Hnb) as (D1 & D2 & D3 & D4).
  assert (backed {| mem := <[g v := new]> (mem s); fa := fa s |} pt lo hi g) as B'.
  { split; [done|done|..].
    - intros w Hw. rewrite D3. by apply (bk_lookup _ _ _ _ _ B).
    - intros w Hw. rewrite D4. by apply (bk_data _ _ _ _ _ B).
    - apply (bk_inj _ _ _ _ _ B). }
  split; [done|done|done|..].
  - intros q Hq. simpl. rewrite fn_lookup_insert_ne; [done|auto].
  - intros a Ha. rewrite (byte_at_backed _ _ _ _ _ _ B'), (byte_at_backed _ _ _ _ _ _ B) by done. simpl.
    assert (0 ≤ a mod 4096 < 4096) by (apply Z.mod_pos_bound; lia).
    destruct (decide (a / 4096 = v)) as [Hav|Hne].
    + rewrite Hav, fn_lookup_insert. unfold new.
      assert (a = v * 4096 + a mod 4096) as Ea by (rewrite <-Hav; Z.to_euclidean_division_equations; lia).
      destruct (decide _) as [Hin|Hout].
      * rewrite lookup_splice_new by lia. f_equal. lia.
      * rewrite lookup_splice_old by lia. done.
    + rewrite fn_lookup_insert_ne by (intros Hg; apply Hne; symmetry; by apply (bk_inj _ _ _ _ _ B)).
      rewrite decide_False; [done|]. intros Hin. apply Hne. Z.to_euclidean_division_equations. lia.
Qed.

Lemma copied_app lo hi g pt base d1 d2 s s1 s2 :
  copied lo hi g pt base d1 s s1 → copied lo hi g pt (base + Z.of_nat (length d1)) d2 s1 s2 →
  copied lo hi g pt base (d1 ++ d2) s s2.
Proof.
  intros [B1 F1 L1 M1 C1] [B2 F2 L2 M2 C2]. split; [done|congruence|congruence|..].
  - intros q Hq. rewrite M2 by done. by apply M1.
  - intros a Ha. rewrite C2 by done. rewrite length_app. destruct (decide _) as [H2|H2].
    + rewrite decide_True by lia. rewrite lookup_app_r by lia. f_equal. lia.
    + rewrite C1 by done. destruct (decide _) as [H1|H1].
      * rewrite decide_True by lia. by rewrite lookup_app_l by lia.
      * by rewrite decide_False by lia.
Qed.

Lemma data_slice_ok data lo hi :
  0 ≤ lo ≤ hi → hi ≤ Z.of_nat (length data) →
  data_slice data lo hi = Ok (slice data (Z.to_nat lo) (Z.to_nat hi)).
Proof.
  intros. unfold data_slice. by rewrite (proj2 (Z.leb_le lo hi)), (proj2 (Z.leb_le hi _)) by lia.
Qed.

Lemma slice_app {A} (l : list A) i j :
  (i ≤ j ≤ length l)%nat → slice l i j ++ drop j l = drop i l.
Proof.
  intros. unfold slice. rewrite <-(take_drop (j - i) (drop i l)) at 2. f_equal.
  rewrite drop_drop. f_equal. lia.
Qed.

Lemma copy_data_step pt lo hi g data start off v s :
  let len := Z.of_nat (length data) in
  let stop := Z.min len (start + 4096 - off) in
  backed s pt lo hi g → Forall is_byte data → len ≤ 2 ^ 38 → 0 ≤ start ≤ len → 0 ≤ off < 4096 →
  lo ≤ v < hi → 0 ≤ v < 2 ^ 52 →
  ∃ s1, MapArea_copy_data_step pt data (start, off, v) s
        = Ok (if len <=? start + (4096 - off) then inr ()
              else inl (start + (4096 - off), 0, v + 1), s1) ∧
    copied lo hi g pt (v * 4096 + off) (slice data (Z.to_nat start) (Z.to_nat stop)) s s1.
Proof.
  intros len stop B Hb Hd Hs Ho Hv Hv52. unfold MapArea_copy_data_step, PAGE_SIZE. cbn beta iota zeta.
  fold len. rewrite (wadd_small start 4096), (wsub_small (start + 4096) off) by word. fold stop.
  rewrite data_slice_ok by lia. run. destruct (bk_lookup _ _ _ _ _ B v Hv) as (e & He & Hg).
  rewrite (bind_Ok _ _ _ _ _ (translate_mapped _ _ _ _ He)). run. rewrite Hg.
  destruct (copy_chunk s pt lo hi g v off (slice data (Z.to_nat start) (Z.to_nat stop)))
    as (s1 & E1 & C1); [done|lia|lia| |by apply Forall_slice|].
  { rewrite length_slice by lia. lia. }
  exists s1. rewrite (bind_Ok _ _ _ _ _ E1). cbn beta zeta.
  rewrite (wsub_small 4096 off), (wadd_small start) by word. unfold page_step.
  rewrite wadd_small by word. by destruct (len <=? _).
Qed.

Lemma copy_data_loop pt lo hi g data fuel : ∀ start off v s,
  backed s pt lo hi g → Forall is_byte data → Z.of_nat (length data) ≤ 2 ^ 38 →
  0 ≤ start ≤ Z.of_nat (length data) → 0 ≤ off < 4096 → lo ≤ v → 0 ≤ lo → hi < 2 ^ 52 →
  v * 4096 + off + (Z.of_nat (length data) - start) ≤ hi * 4096 → v < hi →
  off + Z.of_nat (length data) - start ≤ 4096 * Z.of_nat fuel → (0 < fuel)%nat →
  ∃ s', loopM fuel (MapArea_copy_data_step pt data) (start, off, v) s = Ok ((), s') ∧
    copied lo hi g pt (v * 4096 + off) (drop (Z.to_nat start) data) s s'.
Proof.
  induction fuel as [|fuel IH]; intros start off v s B Hb Hd Hs Ho Hv Hlo Hhi Hfit Hvh Hfuel Hf; [lia|].
  cbn [loopM]. destruct (copy_data_step pt lo hi g data start off v s) as (s1 & E1 & C1);
    [done|done|done|done|done|lia|lia|].
  set (len := Z.of_nat (length data)) in *. set (stop := Z.min len (start + 4096 - off)) in *.
  rewrite (bind_Ok _ _ _ _ _ E1).
  destruct (Z.leb_spec len (start + (4096 - off))) as [Hdone|Hmore].
  - exists s1. split; [done|]. replace (drop (Z.to_nat start) data)
      with (slice data (Z.to_nat start) (Z.to_nat stop)); [done|].
    unfold slice. rewrite take_ge; [done|]. rewrite length_drop. lia.
  - destruct (IH (start + (4096 - off)) 0 (v + 1) s1) as (s2 & E2 & C2);
      [apply C1|done|lia|lia|lia|lia|lia|lia|lia|lia|lia|lia|].
    exists s2. split; [done|]. rewrite <-(slice_app data (Z.to_nat start) (Z.to_nat stop)) by lia.
    eapply copied_app; [done|]. rewrite length_slice by lia.
    replace (v * 4096 + off + Z.of_nat (Z.to_nat stop - Z.to_nat start)) with ((v + 1) * 4096 + 0) by lia.
    replace (Z.to_nat stop) with (Z.to_nat (start + (4096 - off))) by lia. done.
Qed.

Lemma copy_data_copied (a : MapArea) (pt : PageTable) (data : list Z) (offset : Z)
    (g : Z → Z) (s : Mm) :
  let lo := range_l (vpn_range a) in
  let hi := range_r (vpn_range a) in
  backed s pt lo hi g → map_type a = Framed → Forall is_byte data → 0 ≤ lo → lo < hi → hi < 2 ^ 52 →
  0 ≤ offset < 4096 → Z.of_nat (length data) ≤ 2 ^ 38 →
  lo * 4096 + offset + Z.of_nat (length data) ≤ hi * 4096 →
  ∃ s', MapArea_copy_data a pt data offset s = Ok ((), s') ∧
    copied lo hi g pt (lo * 4096 + offset) data s s'.
Proof.
  intros lo hi B Hty Hb Hlo Hlt Hhi Ho Hd Hfit. unfold MapArea_copy_data.
  rewrite bool_decide_true by done. run. fold lo.
  destruct (copy_data_loop pt lo hi g data (S (S (length data / 4096))) 0 offset lo s)
    as (s' & E & C); try done; try lia; [|by exists s'].
  pose proof (Nat.div_mod (length data) 4096). pose proof (Nat.mod_upper_bound (length data) 4096). lia.
Qed.

Definition area_frame (a : MapArea) (v : Z) : Z := default 0 (data_frames a !! v).

Lemma elem_of_range_pages r v : v ∈ range_pages r ↔ range_l r ≤ v < range_r r.
Proof. unfold range_pages. rewrite elem_of_seqZ. lia. Qed.

Lemma framed_map_backed a a' pt pt' s s' :
  framed_map (range_pages (vpn_range a)) a a' pt pt' s s' → mm_inv s → 0 ≤ map_perm a < 2 ^ 8 →
  backed s' pt' (range_l (vpn_range a)) (range_r (vpn_range a)) (area_frame a').
Proof.
  intros F Hmm Hperm. pose proof (fm_step _ _ _ _ _ _ _ F) as St.
  pose proof (fa_inv_lo _ (mm_inv_fa _ Hmm)). pose proof (mm_inv_fa _ (as_mm _ _ _ _ St)) as [_ Hle Hhi _ _].
  assert (∀ v, range_l (vpn_range a) ≤ v < range_r (vpn_range a) →
    ∃ p, data_frames a' !! v = Some p ∧ 0 ≤ p < 2 ^ 44 ∧ ¬ is_node s' pt' p ∧
      pt_lookup s' pt' v = Some (PageTableEntry_new p (leaf_flags (map_perm a)))) as Hnew.
  { intros v Hv. apply elem_of_range_pages in Hv.
    destruct (fm_new _ _ _ _ _ _ _ F v Hv) as (p & ? & ? & _ & ? & ?). exists p. split_and!; try done; lia. }
  pose proof (leaf_flags_range _ Hperm). unfold area_frame. split; [apply St|apply St|..].
  - intros v Hv. destruct (Hnew v Hv) as (p & -> & ? & _ & ->). eexists. split; [done|].
    simpl. apply PTE_new_ppn; lia.
  - intros v Hv. by destruct (Hnew v Hv) as (p & -> & _ & ? & _).
  - intros v w Hv Hw. destruct (Hnew v Hv) as (p & Ep & _). destruct (Hnew w Hw) as (q & Eq & _).
    rewrite Ep, Eq. simpl. intros ->.
    apply (fm_inj _ _ _ _ _ _ _ F v w q); by (try apply elem_of_range_pages).
Qed.

Lemma framed_map_zero a a' pt pt' s s' va :
  framed_map (range_pages (vpn_range a)) a a' pt pt' s s' → mm_inv s → 0 ≤ map_perm a < 2 ^ 8 →
  range_l (vpn_range a) ≤ va / 4096 < range_r (vpn_range a) → byte_at s' pt' va = Some 0.
Proof.
  intros F Hmm Hperm Hva. pose proof (framed_map_backed _ _ _ _ _ _ F Hmm Hperm) as B.
  rewrite (byte_at_backed _ _ _ _ _ _ B) by done. unfold area_frame.
  destruct (fm_new _ _ _ _ _ _ _ F (va / 4096)) as (p & -> & _ & Hz & _); [by apply elem_of_range_pages|].
  simpl. rewrite Hz. apply lookup_replicate. split; [done|].
  assert (0 ≤ va mod 4096 < 4096) by (apply Z.mod_pos_bound; lia). lia.
Qed.

(** pushing a framed area with data (how [from_elf] loads a segment) maps the area's pages and
    fills them with the data from the given page offset on and zeros elsewhere; every other page
    keeps its translation.  When the data fits, the only failures are a page that is already
    mapped and exhausted memory. *)
Theorem push_loads_data (ms : MemorySet) (a : MapArea) (offset : Z) (data : list Z) (s : Mm) :
  let lo := range_l (vpn_range a) in
  let hi := range_r (vpn_range a) in
  let base := lo * 4096 + offset in
  mm_inv s → pt_inv s (root_ppn (page_table ms)) → map_type a = Framed → data_frames a = ∅ →
  0 ≤ map_perm a < 2 ^ 8 → 0 ≤ lo → lo < hi → hi ≤ 2 ^ 26 → 0 ≤ offset < 4096 → Forall is_byte data →
  base + Z.of_nat (length data) ≤ hi * 4096 →
  match MemorySet_push_with_offset ms a offset (Some data) s with
  | Ok (ms', s') =>
      mm_inv s' ∧ pt_inv s' (root_ppn (page_table ms')) ∧ length (areas ms') = S (length (areas ms)) ∧
      (∀ va, lo ≤ va / 4096 < hi →
         byte_at s' (page_table ms') va
         = if decide (base ≤ va < base + Z.of_nat (length data))
           then data !! Z.to_nat (va - base) else Some 0) ∧
      (∀ v, canonical_vpn v → ¬ (lo ≤ v < hi) →
         pt_lookup s' (page_table ms') v = pt_lookup s (page_table ms) v)
  | Panic f => (∃ v, lo ≤ v < hi ∧ is_Some (pt_lookup s (page_table ms) v)) ∨
               fa_end (fa s) - fa_current (fa s) < 3 * (hi - lo)
  | NoFuel => False
  end.
Proof.
  intros lo hi base Hmm Hpt Hty Hemp Hperm Hlo Hlt Hhi Ho Hb Hfit. unfold MemorySet_push_with_offset.
  assert (Forall canonical_vpn (range_pages (vpn_range a))) as Hcan.
  { apply Forall_forall. intros v Hv%elem_of_range_pages. fold lo hi in Hv. left. lia. }
  pose proof (map_pages_framed (range_pages (vpn_range a)) a (page_table ms) s Hmm Hpt Hty Hperm Hcan
    (NoDup_seqZ _ _)) as H.
  rewrite Hemp in H. specialize (H ltac:(intros; apply lookup_empty)). fold (MapArea_map a (page_table ms)) in H.
  destruct (MapArea_map a (page_table ms) s) as [[[a' pt'] s1]|f|] eqn:E; [|rewrite (bind_Panic _ _ _ _ E)|destruct H].
  2: { destruct H as [(v & Hv%elem_of_range_pages & ?)|H]; [by left; exists v|right].
       unfold range_pages in H. rewrite length_seqZ in H. fold lo hi in H. lia. }
  rewrite (bind_Ok _ _ _ _ _ E). destruct H as [_ F]. pose proof (fm_step _ _ _ _ _ _ _ F) as St.
  destruct (fm_area _ _ _ _ _ _ _ F) as (R & T & P).
  destruct (copy_data_copied a' pt' data offset (area_frame a') s1) as (s2 & E2 & C); rewrite ?R; fold lo hi;
    [by apply framed_map_backed with (a := a) (pt := page_table ms) (s := s)|congruence|done|lia|lia|lia|lia|lia|lia|].
  run. rewrite (bind_Ok _ _ _ _ _ E2). cbn [mret M_ret]. rewrite R in C. fold lo hi base in C.
  destruct C as [B' Hfa Hlk _ Hbytes]. split_and!; cbn [page_table areas ms_with_areas ms_with_pt].
  - apply B'.
  - apply B'.
  - rewrite length_app. simpl. lia.
  - intros va Hva. rewrite Hbytes by done. destruct (decide _); [done|].
    by apply (framed_map_zero a a' (page_table ms) pt' s s1).
  - intros v Hc Hnv. rewrite Hlk. apply (fm_other _ _ _ _ _ _ _ F); [done|]. by rewrite elem_of_range_pages.
Qed.

Definition demo_ms : MemorySet :=
  {| page_table := demo_pt0; areas := []; heap_area := ∅; mmap_area := ∅;
     mmap_base := MMAP_BASE; mmap_end := MMAP_BASE |}.

Lemma push_loads_data_witness :
  ∃ ms' s', MemorySet_push_with_offset demo_ms demo_area 4095 (Some [65; 66; 67]) (mm_bump demo_mm)
    = Ok (ms', s') ∧ byte_at s' (page_table ms') 0x11000 = Some 66.
Proof.
  destruct demo_pt0_inv as [Hm Hp].
  pose proof (push_loads_data demo_ms demo_area 4095 [65; 66; 67] (mm_bump demo_mm) Hm Hp eq_refl eq_refl)
    as H. cbv zeta in H.
  destruct (MemorySet_push_with_offset demo_ms demo_area 4095 (Some [65; 66; 67]) (mm_bump demo_mm))
    as [[ms' s']|f|] eqn:E; [|vm_compute in E; discriminate..].
  exists ms', s'. split; [reflexivity|].
  destruct H as (_ & _ & _ & H & _); [cbn; lia|cbn; lia|cbn; lia|cbn; lia|lia| |cbn; lia|].
  - repeat apply Forall_cons_2; unfold is_byte; (lia || apply Forall_nil_2).
  - rewrite H by (vm_compute; split; [discriminate|reflexivity]). reflexivity.
Defined.
