(* ===== verification/ForkSpec.v ===== *)
(** * Copying an address space ([MemorySet::from_existed_user])

    The child is built page by page.  [fork_inv] says what holds after each step: the parent's
    memory is untouched, the tables of the child's user half are fresh frames, and the pages copied
    so far have the contents and permissions of the plan. *)

From Stdlib Require Import ZArith Lia.
From stdpp Require Import functions prelude gmap sorting.
From S2P Require Import Prelude Config Address FrameAllocator PageTable PageTableSpec MemorySet MemorySetSpec.

Open Scope Z_scope.

(** ** User pages and the tables of the user half *)

Definition user_vpn (v : Z) : Prop := 0 ≤ v < 2 ^ 26.

Definition user_path (path : list Z) : Prop :=
  match path with [] => True | i :: _ => i < 256 end.

Definition is_unode (s : Mm) (pt : PageTable) (q : Z) : Prop :=
  ∃ path, good_path path ∧ user_path path ∧ node (mem s) (root_ppn pt) path = Some q.

Lemma user_vpn_canonical v : user_vpn v → canonical_vpn v.
Proof. unfold user_vpn. by left. Qed.

Lemma user_vpn_idx0 v : user_vpn v → idx0 v < 256.
Proof. unfold user_vpn, idx0. intros. Z.to_euclidean_division_equations. lia. Qed.

Lemma user_path_prefix v path :
  user_vpn v → path `prefix_of` [idx0 v; idx1 v] → user_path path.
Proof.
  intros Hv [k Hk]. destruct path as [|i path]; [done|]. simpl in *. simplify_eq.
  by apply user_vpn_idx0.
Qed.

(** ** The invariant of the copy

    [D] records the pages of the child made so far: permissions, frame and contents. *)

Abbreviation copies := (gmap Z (Z * Z * list Z)).

Section fork_invariant.
Context (kroot : Z).

Record fork_inv (cur0 : Z) (m0 : Z → list Z) (D : copies) (pt : PageTable) (s : Mm) : Prop := {
  fi_mm : mm_inv s;
  fi_pt : pt_inv s (root_ppn pt);
  fi_cur : 0 ≤ cur0 ≤ fa_current (fa s);
  fi_old : ∀ q, q < cur0 → mem s q = m0 q;
  fi_own : ∀ q, is_unode s pt q → cur0 ≤ q;
  fi_half : ∀ i, 256 ≤ i < 512 → child (mem s) (root_ppn pt) i = child m0 kroot i;
  fi_done : ∀ v perm p c, D !! v = Some (perm, p, c) →
    pt_lookup s pt v = Some (PageTableEntry_new p (leaf_flags perm)) ∧
    cur0 ≤ p < fa_current (fa s) ∧ ¬ is_node s pt p ∧ mem s p = c ∧
    user_vpn v ∧ 0 ≤ perm < 2 ^ 8;
  fi_undone : ∀ v, user_vpn v → D !! v = None → pt_lookup s pt v = None;
  fi_inj : ∀ v w perm perm' p c c',
    D !! v = Some (perm, p, c) → D !! w = Some (perm', p, c') → v = w;
}.

(** An update at a user page leaves the upper half of the root table alone. *)
Lemma user_update_half pt pt' v new s s' i :
  pt_update pt pt' v new s s' → user_vpn v → 256 ≤ i < 512 →
  child (mem s') (root_ppn pt') i = child (mem s) (root_ppn pt) i.
Proof.
  intros U Hv%user_vpn_idx0 Hi. assert (good_path [i]) as Hg by (apply good_path_1; unfold good_index; lia).
  pose proof (upd_keep _ _ _ _ _ _ U [i]) as Hkeep. pose proof (upd_back _ _ _ _ _ _ U [i]) as Hback.
  pose proof (upd_new _ _ _ _ _ _ U [i]) as Hnew. cbn in Hkeep, Hback, Hnew.
  destruct (child (mem s) (root_ppn pt) i) as [q|] eqn:Ei.
  - specialize (Hkeep q Hg eq_refl). by destruct (child (mem s') (root_ppn pt') i).
  - destruct (child (mem s') (root_ppn pt') i) as [q'|] eqn:Ei'; [exfalso|done].
    destruct (decide (q' < fa_current (fa s))) as [Hlt|Hge].
    + by specialize (Hback q' Hg Hlt eq_refl).
    + specialize (Hnew q' Hg ltac:(lia) eq_refl). apply prefix_cons_inv_1 in Hnew as ->. lia.
Qed.

Lemma pt_update_old cur0 m0 D pt pt' v new s s' :
  fork_inv cur0 m0 D pt s → user_vpn v → pt_update pt pt' v new s s' →
  (∀ q, q < cur0 → mem s' q = m0 q) ∧ (∀ q, is_unode s' pt' q → cur0 ≤ q).
Proof.
  intros I Hv U. pose proof (fi_cur _ _ _ _ _ I). split.
  - intros q Hq. rewrite (upd_frame _ _ _ _ _ _ U); [by apply (fi_old _ _ _ _ _ I)|lia|].
    intros path Hpre Hn. pose proof (fi_own _ _ _ _ _ I q) as Ho.
    assert (is_unode s pt q); [|naive_solver lia]. exists path.
    split_and!; [by eapply prefix_good_path|by eapply user_path_prefix|done].
  - intros q (path & Hg & Hu & Hn). destruct (decide (q < fa_current (fa s))); [|lia].
    apply (fi_own _ _ _ _ _ I). exists path. split_and!; [done|done|]. by apply (upd_back _ _ _ _ _ _ U).
Qed.

Lemma fork_inv_alloc cur0 m0 D pt s :
  fork_inv cur0 m0 D pt s → fa_current (fa s) < fa_end (fa s) →
  fork_inv cur0 m0 D pt (mm_bump s) ∧ ¬ is_node (mm_bump s) pt (fa_current (fa s)).
Proof.
  intros I Hlt. pose proof (fi_cur _ _ _ _ _ I) as Hc.
  destruct (alloc_step s pt (fi_mm _ _ _ _ _ I) (fi_pt _ _ _ _ _ I) Hlt) as (St & Hl & Hn).
  assert (∀ q, q < fa_current (fa s) → mem (mm_bump s) q = mem s q) as Hsame.
  { intros q Hq. simpl. rewrite fn_lookup_insert_ne; [done|lia]. }
  assert (∀ path q, good_path path → node (mem (mm_bump s)) (root_ppn pt) path = Some q →
    node (mem s) (root_ppn pt) path = Some q) as Hback.
  { intros path q Hg <-. symmetry. apply node_agree; [done|]. intros path' q' Hg' Hq'.
    apply Hsame. by eapply (pt_inv_bound _ _ (fi_pt _ _ _ _ _ I)). }
  split; [|done]. destruct I as [_ Hpt _ Hold Hown Hhalf Hdone Hund Hinj].
  split; [apply St|apply St|simpl; lia|..|done].
  - intros q Hq. rewrite Hsame by lia. auto.
  - intros q (path & Hg & Hu & Hnode). apply Hown. exists path. eauto.
  - intros i Hi. rewrite <-Hhalf by done. apply child_ext, rd_pte_ext, Hsame.
    by apply (pt_inv_bound _ _ Hpt [] _ good_path_nil).
  - intros v perm p c HD. destruct (Hdone v perm p c HD) as (Hp & Hb & Hnn & Hm & Hu & Hpm).
    rewrite Hl, Hsame by lia. split_and!; try done; try lia.
    + simpl. lia.
    + intros (path & Hg & Hnode). apply Hnn. exists path. eauto.
  - intros v Hv HD. rewrite Hl. auto.
Qed.

Lemma fork_inv_map cur0 m0 D pt pt' v perm p s s' :
  fork_inv cur0 m0 D pt s → user_vpn v → D !! v = None → 0 ≤ perm < 2 ^ 8 →
  cur0 ≤ p < fa_current (fa s) → ¬ is_node s pt p →
  (∀ w perm' q c, D !! w = Some (perm', q, c) → q ≠ p) →
  pt_update pt pt' v (Some (PageTableEntry_new p (leaf_flags perm))) s s' →
  fork_inv cur0 m0 (<[v := (perm, p, mem s p)]> D) pt' s'.
Proof.
  intros I Hv HD Hperm Hp Hn Hfresh U. pose proof (pt_update_step _ _ _ _ _ _ U) as St.
  destruct (pt_update_old _ _ _ _ _ _ _ _ _ I Hv U) as [Hold Hown].
  pose proof (as_cur _ _ _ _ St) as Hc. pose proof (fi_cur _ _ _ _ _ I) as Hc0.
  assert (∀ w, user_vpn w → pt_lookup s' pt' w = if decide (w = v)
    then Some (PageTableEntry_new p (leaf_flags perm)) else pt_lookup s pt w) as Hl.
  { intros w Hw. apply (pt_update_canonical _ _ _ _ _ _ _ U); by apply user_vpn_canonical. }
  assert (∀ q, q < fa_current (fa s) → ¬ is_node s pt q → ¬ is_node s' pt' q ∧ mem s' q = mem s q) as Hdata.
  { intros q Hq Hqn. split; [|by apply (as_frame _ _ _ _ St)].
    intros Hq'. apply Hqn. by apply (as_nodes _ _ _ _ St). }
  split; [apply St|apply St|lia|done|done|..].
  - intros i Hi. rewrite (user_update_half _ _ _ _ _ _ _ U) by done. by apply (fi_half _ _ _ _ _ I).
  - intros w perm' q c [[<- [= <- <- <-]]|[Hne Hw]]%lookup_insert_Some.
    + rewrite Hl, decide_True by done. destruct (Hdata p) as [? ->]; [lia|done|]. split_and!; try done; lia.
    + destruct (fi_done _ _ _ _ _ I w perm' q c Hw) as (Hq & Hb & Hqn & Hm & Hu & Hpm).
      rewrite Hl, decide_False by done. destruct (Hdata q) as [? ->]; [lia|done|]. split_and!; try done; lia.
  - intros w Hw [HDw ?]%lookup_insert_None. rewrite Hl, decide_False by done.
    by apply (fi_undone _ _ _ _ _ I).
  - intros w1 w2 pm1 pm2 q c1 c2 H1 H2. apply lookup_insert_Some in H1 as [[<- E1]|[N1 H1]],
      H2 as [[<- E2]|[N2 H2]]; simplify_eq; [done|..].
    + exfalso. by eapply Hfresh.
    + exfalso. by eapply Hfresh.
    + by eapply (fi_inj _ _ _ _ _ I).
Qed.

(** Overwriting the contents of a page of the child. *)
Lemma fork_inv_write cur0 m0 D pt v perm p c bytes s :
  fork_inv cur0 m0 D pt s → D !! v = Some (perm, p, c) →
  length bytes = 4096%nat → Forall is_byte bytes →
  fork_inv cur0 m0 (<[v := (perm, p, bytes)]> D) pt {| mem := <[p := bytes]> (mem s); fa := fa s |}.
Proof.
  intros I HD Hlen Hb. destruct (fi_done _ _ _ _ _ I v perm p c HD) as (Hp & Hpb & Hpn & _ & Hu & Hpm).
  destruct (data_write_step s pt p bytes (fi_mm _ _ _ _ _ I) (fi_pt _ _ _ _ _ I) Hpn Hlen Hb)
    as (D1 & D2 & D3 & D4). pose proof (fi_cur _ _ _ _ _ I).
  split; [done|done|done|..].
  - intros q Hq. simpl. rewrite fn_lookup_insert_ne by lia. by apply (fi_old _ _ _ _ _ I).
  - intros q (path & Hg & Hus & Hn). apply (fi_own _ _ _ _ _ I). exists path. split_and!; [done|done|].
    assert (is_node s pt q) as (path' & Hg' & Hn') by (apply D4; by exists path).
    rewrite <-Hn. symmetry. apply node_agree; [done|]. intros path2 q2 Hg2 Hq2. simpl.
    rewrite fn_lookup_insert_ne; [done|]. intros <-. apply Hpn. by exists path2.
  - intros i Hi. rewrite <-(fi_half _ _ _ _ _ I) by done. apply child_ext, rd_pte_ext. simpl.
    rewrite fn_lookup_insert_ne; [done|]. intros ->. apply Hpn. exists []. split; [apply good_path_nil|done].
  - intros w perm' q c' [[<- [= <- <- <-]]|[Hne Hw]]%lookup_insert_Some.
    + rewrite D3, D4. simpl. rewrite fn_lookup_insert. split_and!; try done; lia.
    + destruct (fi_done _ _ _ _ _ I w perm' q c' Hw) as (Hq & Hqb & Hqn & Hm & Hu' & Hpm').
      rewrite D3, D4. simpl. rewrite fn_lookup_insert_ne; [split_and!; try done; lia|].
      intros <-. apply Hne. by eapply (fi_inj _ _ _ _ _ I).
  - intros w Hw [HDw ?]%lookup_insert_None. rewrite D3. by apply (fi_undone _ _ _ _ _ I).
  - intros w1 w2 pm1 pm2 q c1 c2 H1 H2. apply lookup_insert_Some in H1 as [[<- E1]|[N1 H1]],
      H2 as [[<- E2]|[N2 H2]]; simplify_eq; [done|..]; by eapply (fi_inj _ _ _ _ _ I).
Qed.

(** ** Mapping the pages of one area *)

Lemma fork_add_page cur0 m0 D pt v perm s :
  fork_inv cur0 m0 D pt s → user_vpn v → D !! v = None → 0 ≤ perm < 2 ^ 8 →
  fa_current (fa s) < fa_end (fa s) →
  match PageTable_map pt v (fa_current (fa s)) perm (mm_bump s) with
  | Ok (pt', s') =>
      fork_inv cur0 m0 (<[v := (perm, fa_current (fa s), zero_page)]> D) pt' s' ∧
      fa_end (fa s') = fa_end (fa s) ∧ fa_current (fa s) < fa_current (fa s') ≤ fa_current (fa s) + 3
  | Panic f => fa_end (fa s) - fa_current (fa s) < 3
  | NoFuel => False
  end.
Proof.
  intros I Hv HD Hperm Hlt. destruct (fork_inv_alloc _ _ _ _ _ I Hlt) as [I1 Hn].
  pose proof (fi_cur _ _ _ _ _ I) as Hc. pose proof (mm_inv_fa _ (fi_mm _ _ _ _ _ I)) as [? ? ? _ _].
  pose proof (PageTable_map_spec pt (mm_bump s) v (fa_current (fa s)) perm (fi_pt _ _ _ _ _ I1)
    (fi_mm _ _ _ _ _ I1) ltac:(lia) Hperm) as H.
  destruct (PageTable_map pt v (fa_current (fa s)) perm (mm_bump s)) as [[pt' s']|f|]; [| |destruct H].
  - destruct H as [_ U]. pose proof (upd_cur _ _ _ _ _ _ U) as Hcur. simpl in Hcur.
    split; [|rewrite (upd_fa _ _ _ _ _ _ U); simpl; split; [done|lia]].
    replace zero_page with (mem (mm_bump s) (fa_current (fa s))) by (simpl; apply fn_lookup_insert).
    eapply fork_inv_map; [exact I1|done|done|done|simpl; lia|done| |exact U].
    intros w pm q c Hw. pose proof (fi_done _ _ _ _ _ I w pm q c Hw) as (_ & Hq & _). lia.
  - destruct H as [[_ [e He]]|[_ H]]; [|simpl in H; lia].
    by rewrite (fi_undone _ _ _ _ _ I1) in He.
Qed.

Lemma fork_map_pages cur0 m0 l : ∀ D a pt s,
  fork_inv cur0 m0 D pt s → Forall user_vpn l → NoDup l → map_type a = Framed →
  0 ≤ map_perm a < 2 ^ 8 → (∀ v, v ∈ l → D !! v = None ∧ data_frames a !! v = None) →
  match foldM (λ '(a, pt) vpn, MapArea_map_one a pt vpn) (a, pt) l s with
  | Ok ((a', pt'), s') => ∃ D', fork_inv cur0 m0 D' pt' s' ∧
      (∀ v, v ∈ l → ∃ p, D' !! v = Some (map_perm a, p, zero_page)) ∧
      (∀ v, v ∉ l → D' !! v = D !! v) ∧
      fa_end (fa s') = fa_end (fa s) ∧
      fa_current (fa s') ≤ fa_current (fa s) + 3 * Z.of_nat (length l)
  | Panic f => fa_end (fa s) - fa_current (fa s) < 3 * Z.of_nat (length l)
  | NoFuel => False
  end.
Proof.
  induction l as [|x l IH]; intros D a pt s I Hu Hnd Hty Hperm HD.
  { cbn. exists D. split_and!; try done; [set_solver|lia]. }
  apply Forall_cons in Hu as [Hx Hu]. apply NoDup_cons in Hnd as [Hxl Hnd]. cbn [foldM].
  destruct (HD x) as [HDx Hax]; [set_solver|].
  unfold MapArea_map_one at 2. rewrite Hty. run.
  pose proof (frame_alloc_eq s (fi_mm _ _ _ _ _ I)) as Ha.
  pose proof (fa_inv_le _ (mm_inv_fa _ (fi_mm _ _ _ _ _ I))) as Hle.
  destruct (decide _) as [He|Hne]; rewrite (bind_Ok _ _ _ _ _ Ha); run; [cbn [length]; lia|].
  unfold btree_insert. rewrite Hax. simpl drop_option. run. rewrite PTEFlags_from_bits_some. run.
  pose proof (fork_add_page _ _ _ _ x (map_perm a) s I Hx HDx Hperm ltac:(lia)) as H1.
  destruct (PageTable_map pt x (fa_current (fa s)) (map_perm a) (mm_bump s)) as [[pt1 s1]|f|] eqn:E;
    [rewrite (bind_Ok _ _ _ _ _ E)|rewrite (bind_Panic _ _ _ _ E); cbn [length]; lia|destruct H1].
  run. destruct H1 as (I1 & He1 & Hc1). set (p := fa_current (fa s)) in *.
  set (a1 := area_with_frames a (<[x := p]> (data_frames a))).
  pose proof (IH (<[x := (map_perm a, p, zero_page)]> D) a1 pt1 s1 I1 Hu Hnd Hty Hperm) as H2.
  assert (∀ v, v ∈ l → <[x := (map_perm a, p, zero_page)]> D !! v = None ∧ data_frames a1 !! v = None) as HD1.
  { intros v Hv. assert (x ≠ v) by set_solver. simpl. rewrite !lookup_insert_ne by done. apply HD. set_solver. }
  specialize (H2 HD1).
  destruct (foldM _ (a1, pt1) l s1) as [[[a2 pt2] s2]|f|]; [|cbn [length]; lia|done].
  destruct H2 as (D2 & I2 & Hin & Hout & He2 & Hc2). exists D2. split_and!; [done|..].
  - intros v [->|Hv]%elem_of_cons; [|auto]. exists p. rewrite Hout by done. by rewrite lookup_insert_eq.
  - intros v Hv. rewrite Hout by set_solver. rewrite lookup_insert_ne; [done|]. set_solver.
  - congruence.
  - cbn [length]. lia.
Qed.

(** ** Copying pages *)

Lemma parent_translate cur0 m0 D pt s s0 ptp v e :
  fork_inv cur0 m0 D pt s → m0 = mem s0 → cur0 = fa_current (fa s0) → pt_inv s0 (root_ppn ptp) →
  pt_lookup s0 ptp v = Some e → pt_lookup s ptp v = Some e.
Proof.
  intros I -> -> Hp Hl. rewrite <-Hl. unfold pt_lookup, walk.
  assert (∀ path q, good_path path → node (mem s0) (root_ppn ptp) path = Some q → mem s q = mem s0 q) as Hs.
  { intros path q Hg Hq. apply (fi_old _ _ _ _ _ I). by eapply pt_inv_bound. }
  rewrite (node_agree (mem s0)) by (done || auto with chaos).
  destruct (node (mem s0) (root_ppn ptp) [idx0 v; idx1 v]) as [q|] eqn:Hq; [|done].
  rewrite (rd_pte_ext (mem s0) (mem s)); [done|]. by apply (Hs [idx0 v; idx1 v]); auto with chaos.
Qed.

Lemma child_ppn cur0 m0 D pt s v perm p c :
  fork_inv cur0 m0 D pt s → D !! v = Some (perm, p, c) →
  ∃ e, pt_lookup s pt v = Some e ∧ pte_ppn e = p.
Proof.
  intros I HD. destruct (fi_done _ _ _ _ _ I v perm p c HD) as (Hl & Hb & _ & _ & _ & Hpm).
  eexists. split; [done|]. pose proof (fi_cur _ _ _ _ _ I). pose proof (leaf_flags_range perm Hpm).
  pose proof (mm_inv_fa _ (fi_mm _ _ _ _ _ I)) as [? ? ? _ _]. apply PTE_new_ppn; lia.
Qed.

Lemma fork_copy_page cur0 m0 D pt s v perm p c src :
  fork_inv cur0 m0 D pt s → D !! v = Some (perm, p, c) → src < cur0 →
  ∃ s', copy_page src p s = Ok ((), s') ∧ fork_inv cur0 m0 (<[v := (perm, p, m0 src)]> D) pt s' ∧ fa s' = fa s.
Proof.
  intros I HD Hs. unfold copy_page. run. unfold set_bytes_array, modify, set_mem, get_bytes_array.
  eexists. split; [reflexivity|]. split; [|done].
  rewrite <-(fi_old _ _ _ _ _ I src Hs). eapply fork_inv_write; [done|done|apply (fi_mm _ _ _ _ _ I)..].
Qed.

Section fork.
Context (s0 : Mm) (ptp : PageTable).
Abbreviation cur0 := (fa_current (fa s0)).
Abbreviation m0 := (mem s0).
Context (Hparent : pt_inv s0 (root_ppn ptp)).

(** The frame the parent has at a page. *)
Definition src_frame (v : Z) : Z :=
  match pt_lookup s0 ptp v with Some e => pte_ppn e | None => 0 end.

Lemma fork_copy_loop (user_space ms : MemorySet) perm l : ∀ D s,
  page_table user_space = ptp →
  fork_inv cur0 m0 D (page_table ms) s → NoDup l →
  (∀ v, v ∈ l → is_Some (pt_lookup s0 ptp v) ∧ src_frame v < cur0) →
  (∀ v, v ∈ l → ∃ p c, D !! v = Some (perm, p, c)) →
  ∃ D' s', foldM (λ _ vpn,
      so ← MemorySet_translate user_space vpn;
      se ← unwrap so;
      src_ppn ← lift (PageTableEntry_ppn se);
      d ← MemorySet_translate ms vpn;
      de ← unwrap d;
      dst_ppn ← lift (PageTableEntry_ppn de);
      copy_page src_ppn dst_ppn) () l s = Ok ((), s') ∧
    fork_inv cur0 m0 D' (page_table ms) s' ∧ fa s' = fa s ∧
    (∀ v, v ∈ l → ∃ p, D' !! v = Some (perm, p, m0 (src_frame v))) ∧
    (∀ v, v ∉ l → D' !! v = D !! v).
Proof.
  intros D s Hus. revert D s. induction l as [|x l IH]; intros D s I Hnd Hsrc HD.
  { exists D, s. split_and!; try done. set_solver. }
  apply NoDup_cons in Hnd as [Hxl Hnd]. cbn [foldM].
  destruct (Hsrc x) as [[e He] Hlt]; [set_solver|]. destruct (HD x) as (p & c & HDx); [set_solver|].
  unfold MemorySet_translate at 3 4. rewrite Hus. run.
  rewrite (bind_Ok _ _ _ _ _ (translate_mapped _ _ _ _
    (parent_translate _ _ _ _ _ s0 ptp x e I eq_refl eq_refl Hparent He))). run.
  destruct (child_ppn _ _ _ _ _ _ _ _ _ I HDx) as (de & Hde & Hp).
  rewrite (bind_Ok _ _ _ _ _ (translate_mapped _ _ _ _ Hde)). run. rewrite Hp.
  assert (src_frame x = pte_ppn e) as Hsf by (unfold src_frame; by rewrite He).
  destruct (fork_copy_page _ _ _ _ _ x perm p c (pte_ppn e) I HDx) as (s1 & E1 & I1 & F1); [congruence|].
  rewrite (bind_Ok _ _ _ _ _ E1). cbn beta.
  destruct (IH (<[x := (perm, p, m0 (pte_ppn e))]> D) s1 I1 Hnd) as (D' & s' & E2 & I2 & F2 & Hin & Hout).
  - intros v Hv. apply Hsrc. set_solver.
  - intros v Hv. rewrite lookup_insert_ne by set_solver. apply HD. set_solver.
  - exists D', s'. split_and!; [exact E2|done|congruence| |].
    + intros v [->|Hv]%elem_of_cons; [|auto]. exists p. rewrite Hout by done.
      by rewrite lookup_insert_eq, Hsf.
    + intros v Hv. rewrite Hout by set_solver. rewrite lookup_insert_ne; [done|set_solver].
Qed.

(** What holds after the pages of the plan [l] (page, source frame, permissions) are copied. *)
Definition copied_plan (l : list (Z * Z * Z)) (D D' : copies) : Prop :=
  (∀ v src perm, (v, src, perm) ∈ l → ∃ p, D' !! v = Some (perm, p, m0 src)) ∧
  (∀ v, v ∉ l.*1.*1 → D' !! v = D !! v).

Lemma copied_plan_app l1 l2 D D1 D2 :
  copied_plan l1 D D1 → copied_plan l2 D1 D2 → (∀ v, v ∈ l1.*1.*1 → v ∉ l2.*1.*1) →
  copied_plan (l1 ++ l2) D D2.
Proof.
  intros [H1 O1] [H2 O2] Hd. split.
  - intros v src perm [Hv|Hv]%elem_of_app; [|auto].
    destruct (H1 v src perm Hv) as [p Hp]. exists p. rewrite O2; [done|]. apply Hd.
    apply list_elem_of_fmap. exists (v, src). split; [done|]. apply list_elem_of_fmap. by exists (v, src, perm).
  - intros v Hv. rewrite !fmap_app in Hv. rewrite O2, O1 by set_solver. done.
Qed.

Definition area_plan (a : MapArea) : list (Z * Z * Z) :=
  (λ v, (v, src_frame v, map_perm a)) <$> range_pages (vpn_range a).

Definition area_ok (a : MapArea) : Prop :=
  map_type a = Framed ∧ 0 ≤ map_perm a < 2 ^ 8 ∧ range_l (vpn_range a) ≤ range_r (vpn_range a) ∧
  0 ≤ range_l (vpn_range a) ∧ range_r (vpn_range a) ≤ 2 ^ 26 ∧
  ∀ v, v ∈ range_pages (vpn_range a) → is_Some (pt_lookup s0 ptp v) ∧ src_frame v < cur0.

Lemma area_plan_pages a : (area_plan a).*1.*1 = range_pages (vpn_range a).
Proof. unfold area_plan. rewrite <-!list_fmap_compose. apply list_fmap_id. Qed.

(** The outcome of copying the plan [l], starting with the copies [D]. *)
Definition fork_outcome (l : list (Z * Z * Z)) (D : copies) (s : Mm)
    (o : outcome (MemorySet * Mm)) : Prop :=
  match o with
  | Ok (ms', s') => ∃ D', fork_inv cur0 m0 D' (page_table ms') s' ∧ copied_plan l D D' ∧
      fa_end (fa s') = fa_end (fa s) ∧
      fa_current (fa s') ≤ fa_current (fa s) + 3 * Z.of_nat (length l)
  | Panic f => fa_end (fa s) - fa_current (fa s) < 3 * Z.of_nat (length l)
  | NoFuel => False
  end.

Lemma fork_area_spec user_space ms a D s :
  page_table user_space = ptp → fork_inv cur0 m0 D (page_table ms) s → area_ok a →
  (∀ v, v ∈ range_pages (vpn_range a) → D !! v = None) →
  fork_outcome (area_plan a) D s (fork_area user_space ms a s).
Proof.
  intros Hus I (Hty & Hperm & Hle & Hlo & Hhi & Hsrc) HD. unfold fork_area, fork_outcome.
  rewrite (proj2 (Z.ltb_ge _ _)) by (unfold KERNEL_SPACE_OFFSET; lia).
  unfold MapArea_from_another, SimpleRange_new. rewrite (proj2 (Z.leb_le _ _)) by done.
  cbn [assertO mbind outcome_bind mret outcome_ret]. run.
  set (na := {| vpn_range := _; data_frames := _ |}).
  assert (range_pages (vpn_range na) = range_pages (vpn_range a)) as Hr by done.
  unfold MemorySet_push. run. unfold MapArea_map. rewrite Hr. set (l := range_pages (vpn_range a)) in *.
  assert (length (area_plan a) = length l) as -> by (unfold area_plan; by rewrite length_fmap).
  pose proof (fork_map_pages cur0 m0 l D na (page_table ms) s I) as H1.
  specialize (H1 ltac:(apply Forall_forall; intros v Hv%elem_of_range_pages; unfold user_vpn; lia)
    (NoDup_seqZ _ _) Hty Hperm ltac:(intros v Hv; split; [auto|apply lookup_empty])).
  destruct (foldM _ (na, page_table ms) l s) as [[[a1 pt1] s1]|f|] eqn:E1;
    [rewrite (bind_Ok _ _ _ _ _ E1)|rewrite (bind_Panic _ _ _ _ E1); exact H1|destruct H1].
  run. destruct H1 as (D1 & I1 & Hin1 & Hout1 & He1 & Hc1).
  set (ms1 := ms_with_areas (ms_with_pt ms pt1) (areas ms ++ [a1])).
  destruct (fork_copy_loop user_space ms1 (map_perm a) l D1 s1 Hus I1 (NoDup_seqZ _ _) Hsrc)
    as (D2 & s2 & E2 & I2 & F2 & Hin2 & Hout2).
  { intros v Hv. destruct (Hin1 v Hv) as [p Hp]. by exists p, zero_page. }
  rewrite (bind_Ok _ _ _ _ _ E2). cbn [mret M_ret]. exists D2. split_and!; [exact I2| |congruence|].
  - split.
    + intros v src perm (w & [= -> -> ->] & Hw)%list_elem_of_fmap. by apply Hin2.
    + rewrite area_plan_pages. fold l. intros v Hv. rewrite Hout2 by done. by apply Hout1.
  - rewrite F2. lia.
Qed.

Lemma fork_frame_spec (is_heap : bool) ms v src D s :
  fork_inv cur0 m0 D (page_table ms) s → user_vpn v → src < cur0 → D !! v = None →
  (if is_heap then heap_area ms else mmap_area ms) !! v = None →
  fork_outcome [(v, src, PTEFlags_URW)] D s (fork_frame is_heap ms (v, src) s) ∧
  ∀ ms' s', fork_frame is_heap ms (v, src) s = Ok (ms', s') →
    (∀ w, w ≠ v → (if is_heap then heap_area ms' else mmap_area ms') !! w
                  = (if is_heap then heap_area ms else mmap_area ms) !! w) ∧
    (if is_heap then mmap_area ms' = mmap_area ms else heap_area ms' = heap_area ms).
Proof.
  intros I Hv Hsrc HD Hnone. unfold fork_frame, fork_outcome. cbn beta iota.
  pose proof (frame_alloc_eq s (fi_mm _ _ _ _ _ I)) as Ha.
  pose proof (fa_inv_le _ (mm_inv_fa _ (fi_mm _ _ _ _ _ I))) as Hle.
  destruct (decide _) as [He|Hne]; rewrite (bind_Ok _ _ _ _ _ Ha); run; [split; [cbn; lia|done]|].
  pose proof (fork_add_page _ _ _ _ v PTEFlags_URW s I Hv HD ltac:(vm_compute; split; congruence) ltac:(lia)) as H1.
  destruct (PageTable_map (page_table ms) v (fa_current (fa s)) PTEFlags_URW (mm_bump s)) as [[pt1 s1]|f|] eqn:E1;
    [rewrite !(bind_Ok _ _ _ _ _ E1)|rewrite !(bind_Panic _ _ _ _ E1); split; [cbn; lia|done]|destruct H1].
  destruct H1 as (I1 & He1 & Hc1). set (p := fa_current (fa s)) in *.
  destruct (fork_copy_page _ _ _ _ _ v PTEFlags_URW p zero_page src I1) as (s2 & E2 & I2 & F2);
    [apply lookup_insert_eq|done|].
  assert (copied_plan [(v, src, PTEFlags_URW)] D (<[v := (PTEFlags_URW, p, m0 src)]>
    (<[v := (PTEFlags_URW, p, zero_page)]> D))) as Hcp.
  { split.
    - intros w sr pm [= -> -> ->]%list_elem_of_singleton. exists p. by rewrite lookup_insert_eq.
    - intros w Hw. simpl in Hw. rewrite !lookup_insert_ne by set_solver. done. }
  destruct is_heap; unfold btree_insert; cbn [heap_area mmap_area ms_with_pt]; rewrite Hnone;
    cbn [drop_option]; run; rewrite !(bind_Ok _ _ _ _ _ E2); cbn [mret M_ret].
  all: split; [eexists; split_and!; [exact I2|exact Hcp|congruence|rewrite F2; cbn [length]; lia]|].
  all: intros ms' s' [= <- <-]; cbn; split; [|done]; intros w Hw; by rewrite lookup_insert_ne.
Qed.

Lemma fork_area_frames user_space ms a s ms' s' :
  fork_area user_space ms a s = Ok (ms', s') →
  heap_area ms' = heap_area ms ∧ mmap_area ms' = mmap_area ms.
Proof.
  unfold fork_area, MemorySet_push. destruct (_ <? _); intros H; inv_ok; [done|].
  destruct a3 as [a' pt']. cbn beta iota in *. inv_ok. done.
Qed.

Lemma fork_outcome_app l1 l2 D s (o1 : outcome (MemorySet * Mm)) (k : MemorySet → M Mm MemorySet) :
  fork_outcome l1 D s o1 → (∀ v, v ∈ l1.*1.*1 → v ∉ l2.*1.*1) →
  (∀ ms' s' D', o1 = Ok (ms', s') → fork_inv cur0 m0 D' (page_table ms') s' → copied_plan l1 D D' →
     fork_outcome l2 D' s' (k ms' s')) →
  fork_outcome (l1 ++ l2) D s (match o1 with Ok (ms', s') => k ms' s' | Panic f => Panic f | NoFuel => NoFuel end).
Proof.
  intros H1 Hd H2. unfold fork_outcome in *. rewrite length_app.
  destruct o1 as [[ms1 s1]|f|]; [|lia|done]. destruct H1 as (D1 & I1 & C1 & He1 & Hc1).
  specialize (H2 ms1 s1 D1 eq_refl I1 C1).
  destruct (k ms1 s1) as [[ms2 s2]|f|]; [|lia|done]. destruct H2 as (D2 & I2 & C2 & He2 & Hc2).
  exists D2. split_and!; [done|by eapply copied_plan_app|congruence|lia].
Qed.

Lemma fork_areas_loop user_space l : ∀ ms D s,
  page_table user_space = ptp → fork_inv cur0 m0 D (page_table ms) s → Forall area_ok l →
  NoDup (l ≫= λ a, range_pages (vpn_range a)) →
  (∀ v, v ∈ (l ≫= λ a, range_pages (vpn_range a)) → D !! v = None) →
  fork_outcome (l ≫= area_plan) D s (foldM (fork_area user_space) ms l s) ∧
  ∀ ms' s', foldM (fork_area user_space) ms l s = Ok (ms', s') →
    heap_area ms' = heap_area ms ∧ mmap_area ms' = mmap_area ms.
Proof.
  induction l as [|a l IH]; intros ms D s Hus I Hok Hnd HD.
  { split; [|by intros ms' s' [= <- <-]]. exists D. split_and!; try done; simpl; [|lia].
    split; [set_solver|done]. }
  apply Forall_cons in Hok as [Ha Hok]. rewrite bind_cons in Hnd, HD.
  apply NoDup_app in Hnd as (Hnd1 & Hdis & Hnd2). cbn [foldM].
  assert (∀ b, (b ≫= area_plan).*1.*1 = b ≫= λ a, range_pages (vpn_range a)) as Hpages.
  { induction b as [|b bs IHb]; [done|]. cbn. by rewrite !fmap_app, area_plan_pages, <-IHb. }
  pose proof (fork_area_spec user_space ms a D s Hus I Ha ltac:(intros; apply HD; set_solver)) as H1.
  split.
  - rewrite bind_cons. unfold mbind at 2, M_bind.
    apply (fork_outcome_app _ _ _ _ _ (λ ms, foldM (fork_area user_space) ms l)); [exact H1|..].
    + rewrite area_plan_pages, Hpages. exact Hdis.
    + intros ms' s' D' _ I' [_ O']. apply IH; try done. intros v Hv. rewrite O'; [apply HD; set_solver|].
      rewrite area_plan_pages. intros Hv'. by apply (Hdis v).
  - intros ms' s' H. apply bind_Ok_inv in H as (ms1 & s1 & E1 & E2).
    apply fork_area_frames in E1 as Hf. destruct Hf as [Hh Hm].
    unfold fork_outcome in H1. rewrite E1 in H1. destruct H1 as (D1 & I1 & [_ O1] & _).
    destruct (IH ms1 D1 s1 Hus I1 Hok Hnd2) as [_ IH']; [|apply IH' in E2 as [-> ->]; done].
    intros v Hv. rewrite O1; [apply HD; set_solver|]. rewrite area_plan_pages. intros Hv'. by apply (Hdis v).
Qed.

Definition frame_plan (l : list (Z * Z)) : list (Z * Z * Z) := (λ x, (x, PTEFlags_URW)) <$> l.

Lemma frame_plan_pages l : (frame_plan l).*1 = l.
Proof. unfold frame_plan. rewrite <-list_fmap_compose. apply list_fmap_id. Qed.

Lemma fork_frames_loop (is_heap : bool) l : ∀ ms D s,
  fork_inv cur0 m0 D (page_table ms) s →
  Forall (λ x, user_vpn x.1 ∧ x.2 < cur0) l → NoDup l.*1 →
  (∀ v, v ∈ l.*1 → D !! v = None ∧ (if is_heap then heap_area ms else mmap_area ms) !! v = None) →
  fork_outcome (frame_plan l) D s (foldM (fork_frame is_heap) ms l s) ∧
  ∀ ms' s', foldM (fork_frame is_heap) ms l s = Ok (ms', s') →
    if is_heap then mmap_area ms' = mmap_area ms else heap_area ms' = heap_area ms.
Proof.
  induction l as [|[v src] l IH]; intros ms D s I Hok Hnd HD.
  { split; [|intros ms' s' [= <- <-]; by destruct is_heap]. exists D. split_and!; try done; simpl; [|lia].
    split; [set_solver|done]. }
  apply Forall_cons in Hok as [[Hv Hsrc] Hok]. cbn in Hv, Hsrc. rewrite fmap_cons in Hnd, HD.
  apply NoDup_cons in Hnd as [Hvl Hnd]. cbn in Hvl. destruct (HD v) as [HDv Hmv]; [cbn; set_solver|].
  destruct (fork_frame_spec is_heap ms v src D s I Hv Hsrc HDv Hmv) as [H1 H1'].
  assert (∀ ms1 s1 D1, fork_frame is_heap ms (v, src) s = Ok (ms1, s1) →
    copied_plan [(v, src, PTEFlags_URW)] D D1 →
    ∀ w, w ∈ l.*1 → D1 !! w = None ∧ (if is_heap then heap_area ms1 else mmap_area ms1) !! w = None) as Hnext.
  { intros ms1 s1 D1 E [_ O] w Hw. destruct (H1' _ _ E) as [Hs _].
    assert (w ≠ v) by (intros ->; done). rewrite O by set_solver.
    rewrite Hs by done. apply HD. set_solver. }
  cbn [foldM]. split.
  - change (frame_plan ((v, src) :: l)) with ([(v, src, PTEFlags_URW)] ++ frame_plan l).
    unfold mbind, M_bind.
    apply (fork_outcome_app _ _ _ _ _ (λ ms, foldM (fork_frame is_heap) ms l)); [exact H1|..].
    + rewrite frame_plan_pages. intros w ->%list_elem_of_singleton. done.
    + intros ms' s' D' E I' C'. apply IH; try done. by eapply Hnext.
  - intros ms' s' H. apply bind_Ok_inv in H as (ms1 & s1 & E1 & E2).
    destruct (H1' _ _ E1) as [_ Hk]. unfold fork_outcome in H1. rewrite E1 in H1.
    destruct H1 as (D1 & I1 & C1 & _).
    destruct (IH ms1 D1 s1 I1 Hok Hnd (Hnext _ _ _ E1 C1)) as [_ IH']. apply IH' in E2.
    destruct is_heap; congruence.
Qed.
End fork.

End fork_invariant.

Lemma elem_of_btree_iter g x : x ∈ btree_iter g ↔ g !! x.1 = Some x.2.
Proof.
  unfold btree_iter. rewrite merge_sort_Permutation. destruct x. apply elem_of_map_to_list.
Qed.

Lemma btree_iter_NoDup g : NoDup (btree_iter g).*1.
Proof. unfold btree_iter. rewrite merge_sort_Permutation. apply NoDup_fst_map_to_list. Qed.

Lemma fork_inv_new_process s k pt :
  mm_inv s → pt_inv s k → fa_current (fa s) < fa_end (fa s) → root_ppn pt = fa_current (fa s) →
  fork_inv k (fa_current (fa s)) (mem s) ∅ pt (np_state s k).
Proof.
  intros Hmm Hk Hlt Hr. pose proof (fa_inv_lo _ (mm_inv_fa _ Hmm)).
  split; rewrite ?Hr; [by apply np_mm_inv|by apply np_pt_inv|simpl; lia|..].
  - intros q Hq. apply np_mem_other. lia.
  - intros q (path & Hg & Hu & Hn). rewrite Hr, np_node in Hn by done.
    destruct path as [|i path]; [simplify_eq; lia|]. simpl in Hu.
    by rewrite (proj2 (Z.ltb_lt _ _)) in Hn by done.
  - intros i Hi. rewrite np_child by (done || (unfold good_index; lia)). by rewrite (proj2 (Z.ltb_ge _ _)) by lia.
  - intros v perm p c Hv. by rewrite lookup_empty in Hv.
  - intros v Hv _. rewrite (np_lookup s k Hmm Hk v {| root_ppn := k; frames := [] |} pt) by done.
    by rewrite (proj2 (Z.ltb_lt _ _)) by (by apply user_vpn_idx0).
  - intros v w perm perm' p c c' Hv. by rewrite lookup_empty in Hv.
Qed.

(** The pages a fork copies: page, source frame and permissions in the child. *)
Definition fork_plan (s : Mm) (parent : MemorySet) : list (Z * Z * Z) :=
  (areas parent ≫= area_plan s (page_table parent)) ++
  frame_plan (btree_iter (heap_area parent)) ++ frame_plan (btree_iter (mmap_area parent)).

(** A user address space that can be forked: its areas are framed user areas whose pages are
    mapped, its heap and mmap pages are user pages, no page is in two of them, and every source
    frame has been allocated. *)
Record forkable (s : Mm) (parent : MemorySet) : Prop := {
  fk_pt : pt_inv s (root_ppn (page_table parent));
  fk_areas : Forall (area_ok s (page_table parent)) (areas parent);
  fk_heap : ∀ v p, heap_area parent !! v = Some p → user_vpn v ∧ p < fa_current (fa s);
  fk_mmap : ∀ v p, mmap_area parent !! v = Some p → user_vpn v ∧ p < fa_current (fa s);
  fk_disjoint : NoDup (fork_plan s parent).*1.*1;
}.

Lemma areas_plan_pages s pt (l : list MapArea) :
  (l ≫= area_plan s pt).*1.*1 = l ≫= λ a, range_pages (vpn_range a).
Proof. induction l as [|a l IH]; [done|]. cbn. by rewrite !fmap_app, area_plan_pages, <-IH. Qed.

Lemma fork_plan_pages s parent :
  (fork_plan s parent).*1.*1
  = (areas parent ≫= λ a, range_pages (vpn_range a)) ++
    (btree_iter (heap_area parent)).*1 ++ (btree_iter (mmap_area parent)).*1.
Proof. unfold fork_plan. by rewrite !fmap_app, areas_plan_pages, !frame_plan_pages. Qed.

Lemma btree_iter_ok (g : gmap Z Z) c :
  (∀ v p, g !! v = Some p → user_vpn v ∧ p < c) → Forall (λ x, user_vpn x.1 ∧ x.2 < c) (btree_iter g).
Proof. intros H. apply Forall_forall. intros x Hx%elem_of_btree_iter. auto. Qed.

Lemma from_existed_user_outcome k parent s :
  mm_inv s → pt_inv s k → forkable s parent → fa_current (fa s) < fa_end (fa s) →
  fork_outcome k s (fork_plan s parent) ∅ (np_state s k) (MemorySet_from_existed_user k parent s).
Proof.
  intros Hmm Hk [Hp Ha Hh Hm Hnd] Hlt. rewrite fork_plan_pages in Hnd.
  apply NoDup_app in Hnd as (Hnd1 & Hd1 & Hnd2). apply NoDup_app in Hnd2 as (Hnd2 & Hd2 & Hnd3).
  unfold MemorySet_from_existed_user, MemorySet_new_process.
  pose proof (PageTable_new_process_eq s k Hmm) as Hnp. rewrite decide_False in Hnp by lia. run.
  rewrite (bind_Ok _ _ _ _ _ Hnp). unfold MemorySet_with_table.
  change (VirtAddr_from_usize MMAP_BASE) with (Ok MMAP_BASE). run.
  set (ms0 := ms_with_mmap_end _ _).
  pose proof (fork_inv_new_process s k (page_table ms0) Hmm Hk Hlt eq_refl) as I0.
  destruct (fork_areas_loop k s (page_table parent) Hp parent (areas parent) ms0 ∅ (np_state s k) eq_refl I0 Ha Hnd1)
    as [H1 H1']; [intros; apply lookup_empty|].
  unfold mbind at 1, M_bind, fork_plan.
  apply (fork_outcome_app k s _ Hp _ _ _ _ _ (λ ms,
    foldM (fork_frame true) ms (btree_iter (heap_area parent)) ≫= λ ms,
    foldM (fork_frame false) ms (btree_iter (mmap_area parent)))); [exact H1|..].
  { rewrite areas_plan_pages, fmap_app, fmap_app, !frame_plan_pages. exact Hd1. }
  intros ms1 s1 D1 E1 I1 [_ O1]. apply H1' in E1 as [Hh1 Hm1].
  assert (∀ v, v ∈ (btree_iter (heap_area parent)).*1 ++ (btree_iter (mmap_area parent)).*1 → D1 !! v = None) as HD1.
  { intros v Hv. rewrite O1; [apply lookup_empty|]. rewrite areas_plan_pages. intros Hv'. by apply (Hd1 v). }
  destruct (fork_frames_loop k s (page_table parent) Hp true (btree_iter (heap_area parent)) ms1 D1 s1 I1)
    as [H2 H2']; [by apply btree_iter_ok|done| |].
  { intros v Hv. split; [apply HD1; set_solver|]. rewrite Hh1. apply lookup_empty. }
  unfold mbind, M_bind.
  apply (fork_outcome_app k s _ Hp _ _ _ _ _ (λ ms,
    foldM (fork_frame false) ms (btree_iter (mmap_area parent)))); [exact H2|by rewrite !frame_plan_pages|].
  intros ms2 s2 D2 E2 I2 [_ O2]. apply H2' in E2. cbn in E2.
  apply (fork_frames_loop k s (page_table parent) Hp false); [done|by apply btree_iter_ok|done|].
  intros v Hv. rewrite frame_plan_pages in O2. split.
  - rewrite O2; [apply HD1; set_solver|]. intros Hv'. by apply (Hd2 v).
  - rewrite E2, Hm1. apply lookup_empty.
Qed.

(** C7: [fork] copies an address space: in the child every page of the parent's areas, heap and
    mmap region is mapped to a frame of its own that was free before and holds the same bytes, no
    other user page is mapped, and no page that existed before is changed, so that parent, kernel
    and child share no user page.  Area pages keep the area's permissions; heap and mmap pages are
    mapped user-readable and writable.  The only failure is exhausted memory. *)
Theorem fork_copies_address_space (s : Mm) (kernel_root : Z) (parent : MemorySet) :
  mm_inv s → pt_inv s kernel_root → forkable s parent →
  match MemorySet_from_existed_user kernel_root parent s with
  | Ok (child, s') =>
      mm_inv s' ∧ pt_inv s' (root_ppn (page_table child)) ∧
      (∀ q, q < fa_current (fa s) → get_bytes_array s' q = get_bytes_array s q) ∧
      (∃ frame_of : Z → Z,
         (∀ v src perm, (v, src, perm) ∈ fork_plan s parent →
            pt_lookup s' (page_table child) v
            = Some (PageTableEntry_new (frame_of v) (leaf_flags perm)) ∧
            fa_current (fa s) ≤ frame_of v < fa_current (fa s') ∧
            get_bytes_array s' (frame_of v) = get_bytes_array s src) ∧
         (∀ v w, v ∈ (fork_plan s parent).*1.*1 → w ∈ (fork_plan s parent).*1.*1 →
            frame_of v = frame_of w → v = w)) ∧
      (∀ v, user_vpn v → v ∉ (fork_plan s parent).*1.*1 →
         pt_lookup s' (page_table child) v = None)
  | Panic f => fa_end (fa s) - fa_current (fa s) < 1 + 3 * Z.of_nat (length (fork_plan s parent))
  | NoFuel => False
  end.
Proof.
  intros Hmm Hk Hf. pose proof (fa_inv_le _ (mm_inv_fa _ Hmm)) as Hle.
  destruct (decide (fa_current (fa s) = fa_end (fa s))) as [He|Hne].
  { unfold MemorySet_from_existed_user, MemorySet_new_process.
    pose proof (PageTable_new_process_eq s kernel_root Hmm) as Hnp. rewrite decide_True in Hnp by done.
    run. rewrite (bind_Panic _ _ _ _ Hnp). lia. }
  pose proof (from_existed_user_outcome kernel_root parent s Hmm Hk Hf ltac:(lia)) as H.
  unfold fork_outcome in H. cbn [fa np_state mm_bump fa_set_current fa_current fa_end] in H.
  destruct (MemorySet_from_existed_user kernel_root parent s) as [[child s']|f|]; [|lia|done].
  destruct H as (D & I & [Hin Hout] & _ & _).
  assert (∀ v, v ∈ (fork_plan s parent).*1.*1 → ∃ src perm p, D !! v = Some (perm, p, mem s src)) as Hpl.
  { intros v ([v' src] & -> & ([[v2 src2] perm] & [= -> ->] & Hv)%list_elem_of_fmap)%list_elem_of_fmap.
    destruct (Hin _ _ _ Hv) as [p Hp]. by exists src2, perm, p. }
  split_and!; [apply I|apply I|apply (fi_old _ _ _ _ _ _ I)| |].
  - exists (λ v, match D !! v with Some (_, p, _) => p | None => 0 end). split.
    + intros v src perm Hv. destruct (Hin v src perm Hv) as [p Hp]. rewrite Hp.
      destruct (fi_done _ _ _ _ _ _ I v perm p _ Hp) as (H1 & H2 & _ & H3 & _).
      split; [exact H1|]. split; [exact H2|exact H3].
    + intros v w Hv Hw. destruct (Hpl v Hv) as (src & perm & p & Hp).
      destruct (Hpl w Hw) as (src' & perm' & p' & Hp'). rewrite Hp, Hp'. intros ->.
      by eapply (fi_inj _ _ _ _ _ _ I).
  - intros v Hv Hn. apply (fi_undone _ _ _ _ _ _ I); [done|]. rewrite Hout by done. apply lookup_empty.
Qed.

Lemma fork_copies_address_space_witness :
  ∃ s parent child s' p, areas parent ≠ [] ∧
    MemorySet_from_existed_user 0x80300 parent s = Ok (child, s') ∧
    pt_lookup s' (page_table child) 17 = Some (PageTableEntry_new p 0xdf).
Proof.
  destruct demo_pt0_inv as [Hm Hp].
  pose proof (map_pages_framed (range_pages (vpn_range demo_area)) demo_area demo_pt0 _ Hm Hp eq_refl
    ltac:(cbn; lia) demo_area_canonical (NoDup_seqZ _ _) ltac:(intros; apply lookup_empty)) as H.
  destruct (foldM _ (demo_area, demo_pt0) _ (mm_bump demo_mm)) as [[[a pt] s]|f|] eqn:E.
  2: { exfalso. destruct H as [(v & _ & [e He])|H]; [|vm_compute in H; discriminate H].
       unfold pt_lookup in He. rewrite walk_zero in He by (reflexivity || auto with chaos). discriminate He. }
  2: { destruct H. }
  destruct H as [_ F]. pose proof (fm_step _ _ _ _ _ _ _ F) as St.
  pose proof (as_root _ _ _ _ St) as Hr. destruct (fm_area _ _ _ _ _ _ _ F) as (R & T & P).
  pose proof (fm_bound _ _ _ _ _ _ _ F) as Hb. pose proof (as_end _ _ _ _ St) as He.
  pose proof (as_pt _ _ _ _ St) as Hpt.
  set (parent := {| page_table := pt; areas := [a]; heap_area := ∅; mmap_area := ∅;
                    mmap_base := MMAP_BASE; mmap_end := MMAP_BASE |}).
  assert ((fork_plan s parent).*1.*1 = [16; 17]) as Hpages.
  { rewrite fork_plan_pages. cbn [areas parent]. cbn [mbind list_bind]. rewrite R. vm_compute. reflexivity. }
  assert (∀ v, v ∈ range_pages (vpn_range demo_area) → ∃ q, pt_lookup s pt v = Some (PageTableEntry_new q 0xdf)
    ∧ 0 ≤ q < 2 ^ 44 ∧ q < fa_current (fa s)) as Hl.
  { intros v Hv. destruct (fm_new _ _ _ _ _ _ _ F v Hv) as (q & _ & Hq & _ & _ & ->). exists q.
    split; [reflexivity|]. pose proof (mm_inv_fa _ (as_mm _ _ _ _ St)) as [? ? ? _ _].
    change (fa_current (fa (mm_bump demo_mm))) with 0x80301 in Hq. lia. }
  assert (forkable s parent) as Hf.
  { split; [exact Hpt| |intros v p Hv; change ((∅ : gmap Z Z) !! v = Some p) in Hv; by rewrite lookup_empty in Hv..|].
    - apply Forall_singleton. unfold area_ok. rewrite R, T, P. cbn. split_and!; try lia; [done|].
      intros v Hv. destruct (Hl v Hv) as (q & Hq & Hq44 & Hqc). rewrite Hq. split; [eauto|].
      unfold src_frame. rewrite Hq, PTE_new_ppn by lia. done.
    - rewrite Hpages. apply NoDup_cons. split; [rewrite list_elem_of_singleton; lia|]. apply NoDup_singleton. }
  pose proof (fork_copies_address_space s 0x80300 parent (as_mm _ _ _ _ St)) as Hmain.
  rewrite Hr in Hpt. specialize (Hmain Hpt Hf).
  destruct (MemorySet_from_existed_user 0x80300 parent s) as [[child s']|f|] eqn:Ef.
  - destruct Hmain as (_ & _ & _ & (fr & Hfr & _) & _). exists s, parent, child, s', (fr 17).
    split; [discriminate|]. split; [exact Ef|].
    destruct (Hfr 17 (src_frame s pt 17) 0x1e) as [Hx _]; [|exact Hx].
    apply elem_of_app. left. cbn [areas parent mbind list_bind]. rewrite app_nil_r.
    apply list_elem_of_fmap. exists 17. rewrite R, P. split; [reflexivity|].
    apply elem_of_range_pages. cbn. lia.
  - exfalso. assert (length (fork_plan s parent) = 2%nat) as Hlen.
    { rewrite <-(length_fmap fst), <-(length_fmap fst), Hpages. reflexivity. }
    rewrite Hlen in Hmain. vm_compute (range_pages _) in Hb.
    change (fa_current (fa (mm_bump demo_mm))) with 0x80301 in Hb.
    change (fa_end (fa (mm_bump demo_mm))) with 0x80340 in He. simpl length in Hb. lia.
  - destruct Hmain.
Defined.
