(* ===== verification/MmapSpec.v ===== *)
(** * The mmap region ([MemorySet::mmap], [MemorySet::munmap])

    Anonymous mappings, and what [munmap] leaves behind. *)

From Stdlib Require Import ZArith Lia.
From stdpp Require Import functions prelude gmap sorting.
From S2P Require Import Prelude Config Address FrameAllocator PageTable PageTableSpec MemorySet MemorySetSpec.

Open Scope Z_scope.

Lemma land_page_mask y : 0 ≤ y < W64 → Z.land y (wnot (PAGE_SIZE - 1)) = y / 4096 * 4096.
Proof.
  intros Hy. change (wnot (PAGE_SIZE - 1)) with (Z.shiftl (Z.ones 52) 12).
  replace (y / 4096 * 4096) with (Z.shiftl (Z.shiftr y 12) 12)
    by (rewrite Z.shiftl_mul_pow2, Z.shiftr_div_pow2 by lia; done).
  apply Z.bits_inj'. intros i Hi. rewrite Z.land_spec, !Z.shiftl_spec by done.
  destruct (decide (i < 12)); [by rewrite !(Z.testbit_neg_r _ (i - 12)), andb_false_r by lia|].
  rewrite Z.shiftr_spec by lia. replace (i - 12 + 12) with i by lia.
  destruct (decide (i < 64)).
  - by rewrite Z.ones_spec_low, andb_true_r by lia.
  - replace (Z.testbit y i) with false; [done|]. symmetry.
    rewrite <-(Z.mod_small y (2 ^ 64)) by (unfold W64 in Hy; lia). apply Z.mod_pow2_bits_high. lia.
Qed.

Lemma page_align_up_eq x : 0 ≤ x → x + 4096 < W64 → page_align_up x = (x + 4095) / 4096 * 4096.
Proof.
  intros. unfold page_align_up. rewrite (wadd_small x PAGE_SIZE) by (unfold PAGE_SIZE; lia).
  rewrite wsub_small by (unfold PAGE_SIZE; lia). rewrite land_page_mask by (unfold PAGE_SIZE; lia).
  unfold PAGE_SIZE. do 2 f_equal. lia.
Qed.

(** ** Mapping pages of the region is mapping pages of a framed area *)

Definition mmap_as_area (ms : MemorySet) : MapArea :=
  {| vpn_range := {| range_l := 0; range_r := 0 |}; data_frames := mmap_area ms;
     map_type := Framed; map_perm := PTEFlags_RWUX |}.

Lemma mmap_page_area ms v s :
  mmap_page ms v s
  = match MapArea_map_one (mmap_as_area ms) (page_table ms) v s with
    | Ok ((a, pt), s') => Ok (ms_with_pt (ms_with_mmap ms (data_frames a)) pt, s')
    | Panic f => Panic f
    | NoFuel => NoFuel
    end.
Proof.
  unfold mmap_page, MapArea_map_one. cbn [map_type mmap_as_area]. run.
  unfold mbind, M_bind. destruct (frame_alloc s) as [[o s1]| |]; [|done..].
  destruct (unwrap o s1) as [[p s2]| |]; [|done..]. cbn [data_frames mmap_as_area].
  destruct (btree_insert (mmap_area ms) v p s2) as [[g s3]| |]; [|done..].
  cbn [mret M_ret map_perm]. rewrite PTEFlags_from_bits_some. cbn [unwrap unwrapO lift].
  change (map_perm (mmap_as_area ms)) with PTEFlags_RWUX.
  by destruct (PageTable_map (page_table ms) v p PTEFlags_RWUX s3) as [[pt s4]| |].
Qed.

Lemma mmap_pages_area l : ∀ ms s,
  foldM mmap_page ms l s
  = match foldM (λ '(a, pt) vpn, MapArea_map_one a pt vpn) (mmap_as_area ms, page_table ms) l s with
    | Ok ((a, pt), s') => Ok (ms_with_pt (ms_with_mmap ms (data_frames a)) pt, s')
    | Panic f => Panic f
    | NoFuel => NoFuel
    end.
Proof.
  induction l as [|x l IH]; intros ms s; [by destruct ms|]. cbn [foldM].
  unfold mbind, M_bind. rewrite mmap_page_area.
  destruct (MapArea_map_one (mmap_as_area ms) (page_table ms) x s) as [[[a pt] s1]| |] eqn:E; [|done..].
  rewrite IH. cbn [page_table ms_with_pt].
  replace (mmap_as_area (ms_with_pt (ms_with_mmap ms (data_frames a)) pt)) with a; [done|].
  apply map_one_area in E as (R & T & P). destruct a; cbn in *. by subst.
Qed.

(** C32: an anonymous [mmap] without a fixed address returns the page-aligned end of the region so
    far, maps every page of the new range to a fresh cleared frame of its own, readable, writable
    and executable by the user, keeps every other translation, and leaves one unmapped page before
    the next mapping.  It fails only when a page of the range is already mapped or memory runs
    out. *)
Theorem mmap_anonymous_correct (ms : MemorySet) (len offset flags : Z) (context : list Z) (s : Mm) :
  let start := (mmap_end ms + 4095) / 4096 in
  let stop := (mmap_end ms + len + 4095) / 4096 in
  mm_inv s → pt_inv s (root_ppn (page_table ms)) →
  0 ≤ mmap_end ms → 0 ≤ len → mmap_end ms + len + 8192 ≤ 2 ^ 38 →
  (∀ v, start ≤ v < stop → mmap_area ms !! v = None) →
  flags_contains flags MAP_FIXED = false → flags_contains flags MAP_ANONYMOUS = true →
  match MemorySet_mmap ms 0 len offset context flags s with
  | Ok ((addr, ms'), s') =>
      addr = start * 4096 ∧ mmap_end ms' = stop * 4096 + 4096 ∧
      mm_inv s' ∧ pt_inv s' (root_ppn (page_table ms')) ∧
      (∀ v, start ≤ v < stop → ∃ p, mmap_area ms' !! v = Some p ∧
         fa_current (fa s) ≤ p ∧ get_bytes_array s' p = zero_page ∧
         pt_lookup s' (page_table ms') v
         = Some (PageTableEntry_new p (leaf_flags PTEFlags_RWUX))) ∧
      (∀ v, canonical_vpn v → ¬ (start ≤ v < stop) →
         pt_lookup s' (page_table ms') v = pt_lookup s (page_table ms) v)
  | Panic f => (∃ v, start ≤ v < stop ∧ is_Some (pt_lookup s (page_table ms) v)) ∨
               fa_end (fa s) - fa_current (fa s) < 3 * (stop - start)
  | NoFuel => False
  end.
Proof.
  intros start stop Hmm Hpt H0 Hlen Hend Hfree Hfix Hanon. unfold MemorySet_mmap.
  rewrite Hfix, Hanon. cbn [andb negb]. cbv zeta.
  rewrite (wadd_small (mmap_end ms) len) by word. rewrite !page_align_up_eq by word.
  fold start. fold stop. assert (0 ≤ start ≤ stop ∧ stop ≤ 2 ^ 26 - 1) as Hss
    by (unfold start, stop; Z.to_euclidean_division_equations; lia).
  unfold PAGE_SIZE. rewrite (wadd_small (stop * 4096)) by word.
  rewrite !VirtAddr_from_usize_eq by word. rewrite !bool_decide_true by lia. run.
  unfold VirtAddr_floor, PAGE_SIZE. rewrite !Z.div_mul by lia.
  unfold SimpleRange_new. rewrite (proj2 (Z.leb_le _ _)) by lia.
  cbn [assertO mbind outcome_bind mret outcome_ret]. run.
  set (r := {| range_l := start; range_r := stop |}).
  set (ms0 := ms_with_mmap_end ms (stop * 4096 + 4096)).
  assert (Forall canonical_vpn (range_pages r)) as Hcan.
  { apply Forall_forall. intros v Hv%elem_of_range_pages. simpl in Hv. left. lia. }
  pose proof (map_pages_framed (range_pages r) (mmap_as_area ms0) (page_table ms0) s Hmm Hpt eq_refl
    ltac:(vm_compute; split; congruence) Hcan (NoDup_seqZ _ _)) as H.
  specialize (H ltac:(intros v Hv%elem_of_range_pages; by apply Hfree)).
  pose proof (mmap_pages_area (range_pages r) ms0 s) as E.
  destruct (foldM _ (mmap_as_area ms0, page_table ms0) _ s) as [[[a pt] s1]|f|];
    [rewrite (bind_Ok _ _ _ _ _ E)|rewrite (bind_Panic _ _ _ _ E)|destruct H].
  - run. unfold as_isize. rewrite (proj2 (Z.ltb_lt _ _)) by lia. cbn [mret M_ret].
    destruct H as [_ F]. pose proof (fm_step _ _ _ _ _ _ _ F) as St. cbn.
    split_and!; [done|done|apply St|apply St|..].
    + intros v Hv. destruct (fm_new _ _ _ _ _ _ _ F v) as (p & ? & ? & ? & _ & ?);
        [by apply elem_of_range_pages|]. exists p. split_and!; try done; lia.
    + intros v Hc Hv. apply (fm_other _ _ _ _ _ _ _ F); [done|]. by rewrite elem_of_range_pages.
  - destruct H as [(v & Hv%elem_of_range_pages & ?)|H]; [by left; exists v|right].
    unfold range_pages in H. rewrite length_seqZ in H. simpl in H. lia.
Qed.

Lemma mmap_anonymous_correct_witness :
  ∃ ms' s', MemorySet_mmap demo_ms 0 5000 0 [] 0x22 (mm_bump demo_mm) = Ok ((0x20000000, ms'), s') ∧
    mmap_end ms' = 0x20003000.
Proof.
  destruct demo_pt0_inv as [Hm Hp].
  pose proof (mmap_anonymous_correct demo_ms 5000 0 0x22 [] (mm_bump demo_mm) Hm Hp) as H. cbv zeta in H.
  destruct (MemorySet_mmap demo_ms 0 5000 0 [] 0x22 (mm_bump demo_mm)) as [[[addr ms'] s']|f|] eqn:E;
    [|vm_compute in E; discriminate..].
  destruct H as (-> & He & _);
    [vm_compute; congruence|lia|vm_compute; congruence|intros; apply lookup_empty|reflexivity|reflexivity|].
  exists ms', s'. split; [reflexivity|rewrite He; reflexivity].
Defined.

(** One page of the region is removed: its tracker is dropped, nothing else happens. *)
Lemma munmap_page ms v p s :
  mm_inv s → 0 ≤ v < 2 ^ 26 → mmap_area ms !! v = Some p →
  p < fa_current (fa s) → p ∉ fa_recycled (fa s) →
  MemorySet_munmap ms (v * 4096) 4096 s
  = Ok ((0, ms_with_mmap ms (delete v (mmap_area ms))), mm_dealloc s p).
Proof.
  intros Hmm Hv Hp Hc Hr. unfold MemorySet_munmap.
  rewrite (wadd_small (v * 4096)) by word. rewrite !page_align_up_eq by word.
  replace ((v * 4096 + 4095) / 4096) with v by (Z.to_euclidean_division_equations; lia).
  replace ((v * 4096 + 4096 + 4095) / 4096) with (v + 1) by (Z.to_euclidean_division_equations; lia).
  rewrite !VirtAddr_from_usize_eq by word. rewrite !bool_decide_true by lia. run.
  unfold VirtAddr_floor, PAGE_SIZE. rewrite !Z.div_mul by lia.
  unfold SimpleRange_new. rewrite (proj2 (Z.leb_le _ _)) by lia.
  cbn [assertO mbind outcome_bind mret outcome_ret]. run.
  replace (range_pages {| range_l := v; range_r := v + 1 |}) with [v]
    by (unfold range_pages; simpl; replace (v + 1 - v) with 1 by lia; done).
  cbn [foldM]. unfold btree_remove. rewrite Hp. cbn [drop_option]. run.
  assert (frame_dealloc p s = Ok ((), mm_dealloc s p)) as Hd.
  { rewrite frame_dealloc_eq, decide_False; [done|]. intros [?|?]; [lia|done]. }
  unfold FrameTracker_drop. rewrite (bind_Ok _ _ _ _ _ Hd). run. done.
Qed.

(** [munmap] frees the frames of the pages it removes but keeps their translations: after
    unmapping a mapped page its frame is on the recycled stack while the page table still maps the
    page to it, and mapping the same page again with [MAP_FIXED] panics. *)
Theorem munmap_keeps_translations (ms : MemorySet) (v p : Z) (context : list Z) (s : Mm) :
  mm_inv s → pt_inv s (root_ppn (page_table ms)) → 0 < v < 2 ^ 26 - 1 →
  mmap_area ms !! v = Some p → is_Some (pt_lookup s (page_table ms) v) →
  p < fa_current (fa s) → p ∉ fa_recycled (fa s) → 3 ≤ fa_end (fa s) - fa_current (fa s) →
  ∃ ms' s', MemorySet_munmap ms (v * 4096) 4096 s = Ok ((0, ms'), s') ∧
    mmap_area ms' !! v = None ∧ p ∈ fa_recycled (fa s') ∧
    (∀ w, pt_lookup s' (page_table ms') w = pt_lookup s (page_table ms) w) ∧
    MemorySet_mmap ms' (v * 4096) 4096 0 context 0x30 s' = Panic Assert.
Proof.
  intros Hmm Hpt Hv Hp Hl Hc Hr Hmem. eexists _, (mm_dealloc s p).
  split; [apply munmap_page; (done || lia)|].
  destruct (dealloc_step s (page_table ms) p Hmm Hpt Hc Hr) as (_ & Sd & Ld).
  split_and!; [apply lookup_delete_eq|simpl; set_solver|exact Ld|].
  unfold MemorySet_mmap. change (flags_contains 0x30 MAP_FIXED) with true.
  rewrite (proj2 (Z.eqb_neq _ _)) by lia. cbn [andb negb]. cbv zeta.
  rewrite (wadd_small (v * 4096)) by word. rewrite !page_align_up_eq by word.
  replace ((v * 4096 + 4095) / 4096) with v by (Z.to_euclidean_division_equations; lia).
  replace ((v * 4096 + 4096 + 4095) / 4096) with (v + 1) by (Z.to_euclidean_division_equations; lia).
  unfold PAGE_SIZE at 1. rewrite (wadd_small ((v + 1) * 4096)) by word.
  rewrite !VirtAddr_from_usize_eq by word. rewrite !bool_decide_true by lia. run.
  unfold VirtAddr_floor, PAGE_SIZE. rewrite !Z.div_mul by lia.
  unfold SimpleRange_new. rewrite (proj2 (Z.leb_le _ _)) by lia.
  cbn [assertO mbind outcome_bind mret outcome_ret]. run.
  replace (range_pages {| range_l := v; range_r := v + 1 |}) with [v]
    by (unfold range_pages; simpl; replace (v + 1 - v) with 1 by lia; done).
  cbn [foldM]. unfold mmap_fixed_page.
  cbn [mmap_area ms_with_mmap_end ms_with_mmap]. rewrite lookup_delete_eq. run.
  apply bind_Panic. unfold mmap_page. cbn [mmap_area ms_with_mmap_end ms_with_mmap page_table].
  pose proof (frame_alloc_eq _ (as_mm _ _ _ _ Sd)) as Ha. cbn [fa mm_dealloc fa_current fa_end] in Ha.
  rewrite decide_False in Ha by lia. rewrite (bind_Ok _ _ _ _ _ Ha). run.
  unfold btree_insert. rewrite lookup_delete_eq. cbn [drop_option]. run. apply bind_Panic.
  destruct (alloc_step _ _ (as_mm _ _ _ _ Sd) (as_pt _ _ _ _ Sd)) as (Sa & La & _); [simpl; lia|].
  pose proof (mm_inv_fa _ Hmm) as [? ? ? _ _].
  pose proof (PageTable_map_spec (page_table ms) (mm_bump (mm_dealloc s p)) v (fa_current (fa s)) PTEFlags_RWUX
    (as_pt _ _ _ _ Sa) (as_mm _ _ _ _ Sa) ltac:(lia) ltac:(vm_compute; split; congruence)) as Hm.
  rewrite La, Ld in Hm. simpl in Hm.
  destruct (PageTable_map (page_table ms) v _ _ _) as [[pt' s']|f|].
  - destruct Hm as [Hn _], Hl. congruence.
  - destruct Hm as [[-> _]|[_ Hm]]; [done|lia].
  - destruct Hm.
Qed.

Lemma munmap_keeps_translations_witness :
  ∃ ms' s', MemorySet_mmap ms' 0x20000000 4096 0 [] 0x30 s' = Panic Assert ∧
    mmap_area ms' !! 0x20000 = None.
Proof.
  destruct demo_pt0_inv as [Hm Hp].
  pose proof (map_one_framed (mmap_as_area demo_ms) demo_pt0 0x20000 (mm_bump demo_mm) Hm Hp eq_refl
    ltac:(vm_compute; split; congruence) ltac:(left; lia) (lookup_empty _)) as H.
  destruct (MapArea_map_one (mmap_as_area demo_ms) demo_pt0 0x20000 (mm_bump demo_mm))
    as [[[a pt] s]|f|] eqn:E; [|vm_compute in E; discriminate..].
  destruct H as [_ F]. pose proof (fm_step _ _ _ _ _ _ _ F) as St.
  destruct (fm_new _ _ _ _ _ _ _ F 0x20000) as (p & H1 & H2 & _ & _ & H3); [by apply list_elem_of_singleton|].
  pose proof (fm_bound _ _ _ _ _ _ _ F) as Hb. pose proof (as_end _ _ _ _ St) as He.
  destruct (munmap_keeps_translations (ms_with_pt (ms_with_mmap demo_ms (data_frames a)) pt) 0x20000 p [] s)
    as (ms' & s' & _ & Hn & _ & _ & Hx).
  - apply St.
  - apply St.
  - lia.
  - exact H1.
  - cbn. rewrite H3. eauto.
  - lia.
  - rewrite (fm_recycled _ _ _ _ _ _ _ F). vm_compute. intros Hx. inversion Hx.
  - rewrite He. cbn [length] in Hb. change (fa_current (fa (mm_bump demo_mm))) with 0x80301 in Hb.
    change (fa_end (fa (mm_bump demo_mm))) with 0x80340. lia.
  - exists ms', s'. split; [exact Hx|exact Hn].
Defined.
