(* ===== verification/Pipe.v ===== *)
(** * Pipes ([os/src/fs/pipe.rs])

    The ring buffer, the two ends and the read and write loops.  A turn of a loop runs without
    interruption (the buffer is borrowed exclusively); between turns the process is suspended and
    other processes run, so that the loops are modelled turn by turn.  A [Weak<Pipe>] is upgraded
    by looking at the number of strong references to that end.  The buffers are slices of user
    memory, which the kernel reaches through the page table that is active in that turn. *)

From Stdlib Require Import ZArith Lia.
From stdpp Require Import prelude.
From S2P Require Import Prelude.

Open Scope Z_scope.

Definition RING_BUFFER_SIZE : Z := 3200.

Inductive RingBufferStatus := RbFull | RbEmpty | RbNormal.
#[export] Instance RingBufferStatus_eq_dec : EqDecision RingBufferStatus.
Proof. solve_decision. Defined.

(** [Option<Weak<Pipe>>]: [None], or a weak pointer to the write or read end *)
Inductive end_id := WriteEnd | ReadEnd.

Record PipeRingBuffer := {
  rb_arr : list Z;
  rb_head : Z;
  rb_tail : Z;
  rb_status : RingBufferStatus;
  rb_write_end : option end_id;
  rb_read_end : option end_id;
}.

Definition PipeRingBuffer_new : PipeRingBuffer :=
  {| rb_arr := replicate (Z.to_nat RING_BUFFER_SIZE) 0; rb_head := 0; rb_tail := 0;
     rb_status := RbEmpty; rb_write_end := None; rb_read_end := None |}.

Definition PipeRingBuffer_set_write_end (rb : PipeRingBuffer) (e : end_id) : PipeRingBuffer :=
  {| rb_arr := rb_arr rb; rb_head := rb_head rb; rb_tail := rb_tail rb; rb_status := rb_status rb;
     rb_write_end := Some e; rb_read_end := rb_read_end rb |}.

Definition PipeRingBuffer_write_byte (byte : Z) (rb : PipeRingBuffer) : outcome PipeRingBuffer :=
  if (0 <=? rb_tail rb) && (rb_tail rb <? Z.of_nat (length (rb_arr rb))) then
    let arr := <[Z.to_nat (rb_tail rb) := byte]> (rb_arr rb) in
    let tail := wadd (rb_tail rb) 1 mod RING_BUFFER_SIZE in
    Ok {| rb_arr := arr; rb_head := rb_head rb; rb_tail := tail;
          rb_status := if tail =? rb_head rb then RbFull else RbNormal;
          rb_write_end := rb_write_end rb; rb_read_end := rb_read_end rb |}
  else Panic Bounds.

Definition PipeRingBuffer_read_byte (rb : PipeRingBuffer) : outcome (Z * PipeRingBuffer) :=
  match rb_arr rb !! Z.to_nat (rb_head rb) with
  | Some c =>
      let head := wadd (rb_head rb) 1 mod RING_BUFFER_SIZE in
      Ok (c, {| rb_arr := rb_arr rb; rb_head := head; rb_tail := rb_tail rb;
                rb_status := if head =? rb_tail rb then RbEmpty else RbNormal;
                rb_write_end := rb_write_end rb; rb_read_end := rb_read_end rb |})
  | None => Panic Bounds
  end.

Definition PipeRingBuffer_available_read (rb : PipeRingBuffer) : Z :=
  if decide (rb_status rb = RbEmpty) then 0
  else if rb_head rb <? rb_tail rb then wsub (rb_tail rb) (rb_head rb)
  else wsub (wadd (rb_tail rb) RING_BUFFER_SIZE) (rb_head rb).

Definition PipeRingBuffer_available_write (rb : PipeRingBuffer) : Z :=
  if decide (rb_status rb = RbFull) then 0
  else wsub RING_BUFFER_SIZE (PipeRingBuffer_available_read rb).

(** ** The pipe object: the shared buffer and the strong counts of its two ends *)

Record PipeState := {
  ring : PipeRingBuffer;
  write_refs : nat;
  read_refs : nat;
}.

Definition set_ring (st : PipeState) (rb : PipeRingBuffer) : PipeState :=
  {| ring := rb; write_refs := write_refs st; read_refs := read_refs st |}.

(** [weak.upgrade().is_none()] *)
Definition upgrade_is_none (st : PipeState) (e : end_id) : bool :=
  match e with
  | WriteEnd => (write_refs st =? 0)%nat
  | ReadEnd => (read_refs st =? 0)%nat
  end.

Definition all_write_ends_closed (st : PipeState) : outcome bool :=
  e ← unwrapO (rb_write_end (ring st)); mret (upgrade_is_none st e).
Definition all_read_ends_closed (st : PipeState) : outcome bool :=
  e ← unwrapO (rb_read_end (ring st)); mret (upgrade_is_none st e).

(** [Pipe]: an end, with its [readable] and [writable] fields *)
Record Pipe := { pipe_readable : bool; pipe_writable : bool }.
Definition read_end_with_buffer : Pipe := {| pipe_readable := true; pipe_writable := false |}.
Definition write_end_with_buffer : Pipe := {| pipe_readable := false; pipe_writable := true |}.

(** [make_pipe]: both ends with one strong reference each; only the write end is registered. *)
Definition make_pipe : Pipe * Pipe * PipeState :=
  (read_end_with_buffer, write_end_with_buffer,
   {| ring := PipeRingBuffer_set_write_end PipeRingBuffer_new WriteEnd;
      write_refs := 1; read_refs := 1 |}).

(** [clone]/[drop] of an [Arc] to an end *)
Definition clone_write_end (st : PipeState) : PipeState :=
  {| ring := ring st; write_refs := S (write_refs st); read_refs := read_refs st |}.
Definition drop_write_end (st : PipeState) : PipeState :=
  {| ring := ring st; write_refs := pred (write_refs st); read_refs := read_refs st |}.

(** ** Reading and writing *)

(** What a read or a write of a pipe works on besides the pipe: the buffer is a slice of the calling
    process, which the kernel reaches through the page table that [satp] names.  [pw_map] are the
    page tables of the address spaces, from virtual to physical addresses, and [pw_mem] is the
    physical memory. *)
Record PipeWorld := {
  pw_pipe : PipeState;
  pw_satp : nat;
  pw_map : nat → Z → option Z;
  pw_mem : Z → Z;
}.
#[export] Instance PipeWorld_settable : Settable PipeWorld := λ w,
  {| pw_pipe := pw_pipe w; pw_satp := pw_satp w; pw_map := pw_map w; pw_mem := pw_mem w |}.

(** [*byte_ref] of the slices, for reading and for writing *)
Definition load_byte (va : Z) : M PipeWorld Z :=
  w ← get;
  match pw_map w (pw_satp w) va with
  | Some pa => mret (pw_mem w pa)
  | None => panic PageFault
  end.
Definition store_byte (va b : Z) : M PipeWorld unit :=
  w ← get;
  match pw_map w (pw_satp w) va with
  | Some pa => put w <| pw_mem := λ x, if x =? pa then b else pw_mem w x |>
  | None => panic PageFault
  end.

(** [for _ in 0..loop_read { .. }] over a slice of [want] bytes at [buf], of which [got] are
    written: [inl] when the loop ends, [inr] on a [return]. *)
Fixpoint read_bytes (n : nat) (buf : Z) (want : nat) (got : list Z) : M PipeWorld (list Z + list Z) :=
  match n with
  | O => mret (inl got)
  | S n' =>
      if (length got <? want)%nat then
        w ← get;
        '(b, rb) ← lift (PipeRingBuffer_read_byte (ring (pw_pipe w)));
        put w <| pw_pipe ::= λ st, set_ring st rb |>;;
        store_byte (buf + Z.of_nat (length got)) b;;
        let got := got ++ [b] in
        if (length got =? want)%nat then mret (inr got) else read_bytes n' buf want got
      else mret (inr got)
  end.

(** One turn of the loop of [Pipe::read]: the bytes read so far, and whether the call returns. *)
Definition Pipe_read_turn (buf : Z) (want : nat) (got : list Z) : M PipeWorld (list Z + list Z) :=
  w ← get;
  let loop_read := PipeRingBuffer_available_read (ring (pw_pipe w)) in
  if loop_read =? 0 then
    closed ← lift (all_write_ends_closed (pw_pipe w));
    if (closed : bool) then mret (inr got) else mret (inl got)
  else read_bytes (Z.to_nat loop_read) buf want got.

(** The loop of [Pipe::write] over a slice of [len] bytes at [buf]; [sent] are the bytes it has
    put into the pipe. *)
Fixpoint write_bytes (n : nat) (buf : Z) (len : nat) (sent : list Z) : M PipeWorld (list Z + list Z) :=
  match n with
  | O => mret (inl sent)
  | S n' =>
      if (length sent <? len)%nat then
        b ← load_byte (buf + Z.of_nat (length sent));
        w ← get;
        rb ← lift (PipeRingBuffer_write_byte b (ring (pw_pipe w)));
        put w <| pw_pipe ::= λ st, set_ring st rb |>;;
        let sent := sent ++ [b] in
        if (length sent =? len)%nat then mret (inr sent) else write_bytes n' buf len sent
      else mret (inr sent)
  end.

(** One turn of the loop of [Pipe::write]: the bytes sent so far, and whether it returns. *)
Definition Pipe_write_turn (buf : Z) (len : nat) (sent : list Z) : M PipeWorld (list Z + list Z) :=
  w ← get;
  let loop_write := PipeRingBuffer_available_write (ring (pw_pipe w)) in
  if loop_write =? 0 then mret (inl sent)
  else write_bytes (Z.to_nat loop_write) buf len sent.

(** [trap::wait_return]: the address space of the process that resumes becomes the active one.
    [Pipe::read] calls it when it resumes; [Pipe::write] does not, and neither does the switch of
    tasks. *)
Definition activate (space : nat) : M PipeWorld unit := modify (λ w, w <| pw_satp := space |>).

(** [Pipe::read] when no other process touches the pipe meanwhile: it spins while the pipe is
    empty and a write end is open. *)
Definition Pipe_read (fuel : nat) (buf : Z) (want : nat) : M PipeWorld (list Z) :=
  loopM fuel (Pipe_read_turn buf want) [].

(** [Pipe::read_all]: reads of 512 bytes into an array on the kernel stack, at [buf], until one
    returns nothing. *)
Definition Pipe_read_all (fuel : nat) (buf : Z) : M PipeWorld (list Z) :=
  loopM fuel (λ v, chunk ← Pipe_read fuel buf 512;
                   match chunk with [] => mret (inr v) | _ :: _ => mret (inl (v ++ chunk)) end) [].

Definition Pipe_hang_up (p : Pipe) (st : PipeState) : outcome bool :=
  if pipe_readable p then all_write_ends_closed st else all_read_ends_closed st.
Definition Pipe_r_ready (st : PipeState) : bool := negb (bool_decide (rb_status (ring st) = RbEmpty)).
Definition Pipe_w_ready (st : PipeState) : bool := negb (bool_decide (rb_status (ring st) = RbFull)).

(** * Lemmas *)

(** The bytes in the buffer, oldest first. *)
Definition contents (rb : PipeRingBuffer) : list Z :=
  (λ i, rb_arr rb !!! Z.to_nat ((rb_head rb + Z.of_nat i) mod RING_BUFFER_SIZE))
    <$> seq 0 (Z.to_nat (PipeRingBuffer_available_read rb)).

Record rb_inv (rb : PipeRingBuffer) : Prop := {
  rbi_len : length (rb_arr rb) = 3200%nat;
  rbi_head : 0 ≤ rb_head rb < 3200;
  rbi_tail : 0 ≤ rb_tail rb < 3200;
  rbi_status : rb_status rb = RbNormal ↔ rb_head rb ≠ rb_tail rb;
}.

Lemma available_read_eq rb :
  rb_inv rb →
  PipeRingBuffer_available_read rb
  = match rb_status rb with
    | RbEmpty => 0
    | RbFull => 3200
    | RbNormal => (rb_tail rb - rb_head rb) mod 3200
    end.
Proof.
  intros [Hl Hh Ht Hs]. unfold PipeRingBuffer_available_read, RING_BUFFER_SIZE.
  destruct (rb_status rb) eqn:E; simpl.
  - assert (rb_head rb = rb_tail rb) as ->. { apply dec_stable. intros H. by apply Hs in H. }
    rewrite Z.ltb_irrefl, wadd_small, wsub_small by word. lia.
  - done.
  - assert (rb_head rb ≠ rb_tail rb) by (by apply Hs).
    destruct (Z.ltb_spec (rb_head rb) (rb_tail rb)).
    + rewrite wsub_small by word. rewrite Z.mod_small; lia.
    + rewrite wadd_small, wsub_small by word.
      apply Z.mod_unique with (q := -1); lia.
Qed.

Lemma available_read_range rb : rb_inv rb → 0 ≤ PipeRingBuffer_available_read rb ≤ 3200.
Proof.
  intros Hi. rewrite available_read_eq by done.
  pose proof (Z.mod_pos_bound (rb_tail rb - rb_head rb) 3200).
  destruct (rb_status rb); lia.
Qed.

Lemma length_contents rb :
  rb_inv rb → Z.of_nat (length (contents rb)) = PipeRingBuffer_available_read rb.
Proof.
  intros Hi. unfold contents. rewrite length_fmap, length_seq.
  pose proof (available_read_range rb Hi). lia.
Qed.

Lemma available_write_eq rb :
  rb_inv rb → PipeRingBuffer_available_write rb = 3200 - Z.of_nat (length (contents rb)).
Proof.
  intros Hi. rewrite length_contents by done. unfold PipeRingBuffer_available_write, RING_BUFFER_SIZE.
  pose proof (available_read_range rb Hi). destruct (decide _) as [E|E].
  - rewrite available_read_eq, E by done. done.
  - rewrite wsub_small by word. done.
Qed.

Lemma available_status rb :
  rb_inv rb →
  (PipeRingBuffer_available_read rb = 0 ↔ rb_status rb = RbEmpty) ∧
  (PipeRingBuffer_available_read rb = 3200 ↔ rb_status rb = RbFull).
Proof.
  intros Hi. rewrite available_read_eq by done. destruct Hi as [_ Hh Ht Hs].
  assert (rb_status rb = RbNormal → 0 < (rb_tail rb - rb_head rb) mod 3200 < 3200) as Hn.
  { intros E. apply Hs in E. pose proof (Z.mod_pos_bound (rb_tail rb - rb_head rb) 3200).
    assert ((rb_tail rb - rb_head rb) mod 3200 ≠ 0); [|lia].
    intros H0%Z.mod_divide; [|lia]. destruct H0 as [k Hk]. lia. }
  destruct (rb_status rb); split; split; intros; try done; try lia; specialize (Hn eq_refl); lia.
Qed.

Lemma tail_position rb :
  rb_inv rb → rb_tail rb = (rb_head rb + PipeRingBuffer_available_read rb) mod 3200.
Proof.
  intros Hi. rewrite available_read_eq by done. destruct Hi as [_ Hh Ht Hs].
  destruct (rb_status rb) eqn:E.
  - assert (rb_head rb = rb_tail rb) as ->. { apply dec_stable. intros H. by apply Hs in H. }
    apply Z.mod_unique with (q := 1); lia.
  - assert (rb_head rb = rb_tail rb) as ->. { apply dec_stable. intros H. by apply Hs in H. }
    rewrite Z.add_0_r, Z.mod_small; lia.
  - rewrite Z.add_mod_idemp_r by lia. replace (rb_head rb + (rb_tail rb - rb_head rb)) with (rb_tail rb) by lia.
    rewrite Z.mod_small; lia.
Qed.

Lemma ring_pos_inj h a b :
  0 ≤ a < 3200 → 0 ≤ b < 3200 → (h + a) mod 3200 = (h + b) mod 3200 → a = b.
Proof. intros. Z.to_euclidean_division_equations. lia. Qed.

(** Writing a byte into a buffer that is not full appends it. *)
Lemma write_byte_spec b rb :
  rb_inv rb → (length (contents rb) < 3200)%nat →
  ∃ rb', PipeRingBuffer_write_byte b rb = Ok rb' ∧ rb_inv rb' ∧ contents rb' = contents rb ++ [b] ∧
    rb_write_end rb' = rb_write_end rb ∧ rb_read_end rb' = rb_read_end rb.
Proof.
  intros Hi Hlt. pose proof (length_contents rb Hi) as Hlen. pose proof (tail_position rb Hi) as Htail.
  pose proof Hi as [Hl Hh Ht Hs]. set (n := PipeRingBuffer_available_read rb) in *.
  unfold PipeRingBuffer_write_byte. rewrite Hl.
  rewrite (proj2 (Z.leb_le _ _)), (proj2 (Z.ltb_lt _ _)) by lia. cbn [andb].
  eexists. split; [reflexivity|]. unfold RING_BUFFER_SIZE. rewrite wadd_small by word.
  set (tail' := (rb_tail rb + 1) mod 3200). assert (0 ≤ tail' < 3200) by (apply Z.mod_pos_bound; lia).
  set (rb' := {| rb_arr := _ |}). assert (rb_inv rb') as Hi'.
  { split; simpl; [by rewrite length_insert|done|done|].
    destruct (Z.eqb_spec tail' (rb_head rb)); split; intros; congruence || done. }
  assert (PipeRingBuffer_available_read rb' = n + 1) as Hn'.
  { rewrite (available_read_eq rb' Hi'). simpl.
    assert (tail' = (rb_head rb + (n + 1)) mod 3200) as Et.
    { unfold tail'. rewrite Htail, Zplus_mod_idemp_l. f_equal. lia. }
    destruct (Z.eqb_spec tail' (rb_head rb)); rewrite Et in *; Z.to_euclidean_division_equations; lia. }
  split_and!; [done| |done|done].
  unfold contents. rewrite Hn'. fold n. replace (Z.to_nat (n + 1)) with (Z.to_nat n + 1)%nat by lia.
  rewrite seq_app, fmap_app. simpl. f_equal.
  - apply list_fmap_ext. intros i x [-> Hx]%lookup_seq. simpl. unfold RING_BUFFER_SIZE.
    rewrite list_lookup_total_insert_ne; [done|]. rewrite Htail. intros E.
    apply Z2Nat.inj in E; [|apply Z.mod_pos_bound; lia..].
    apply ring_pos_inj in E; lia.
  - unfold RING_BUFFER_SIZE. rewrite Z2Nat.id by lia. rewrite <-Htail, list_lookup_total_insert_eq by lia. done.
Qed.

(** Reading a byte from a buffer that is not empty removes the oldest one. *)
Lemma read_byte_spec rb b l :
  rb_inv rb → contents rb = b :: l →
  ∃ rb', PipeRingBuffer_read_byte rb = Ok (b, rb') ∧ rb_inv rb' ∧ contents rb' = l ∧
    rb_write_end rb' = rb_write_end rb ∧ rb_read_end rb' = rb_read_end rb.
Proof.
  intros Hi Hc. pose proof (length_contents rb Hi) as Hlen. pose proof (tail_position rb Hi) as Htail.
  pose proof (available_read_range rb Hi) as Hr. rewrite Hc in Hlen. cbn [length] in Hlen.
  pose proof Hi as [Hl Hh Ht Hs]. set (n := PipeRingBuffer_available_read rb) in *.
  unfold contents in Hc. fold n in Hc. destruct (Z.to_nat n) as [|k] eqn:Ek; [lia|].
  cbn [seq fmap list_fmap] in Hc. injection Hc as Hb Hrest.
  unfold RING_BUFFER_SIZE in *. rewrite Z.add_0_r, Z.mod_small in Hb by lia.
  unfold PipeRingBuffer_read_byte.
  destruct (lookup_lt_is_Some_2 (rb_arr rb) (Z.to_nat (rb_head rb))) as [c Ec]; [lia|].
  rewrite Ec. apply list_lookup_total_correct in Ec. rewrite Ec in Hb. subst c.
  eexists. split; [reflexivity|]. unfold RING_BUFFER_SIZE. rewrite wadd_small by word.
  set (head' := (rb_head rb + 1) mod 3200). assert (0 ≤ head' < 3200) by (apply Z.mod_pos_bound; lia).
  set (rb' := {| rb_arr := _ |}). assert (rb_inv rb') as Hi'.
  { split; simpl; [done|done|done|]. destruct (Z.eqb_spec head' (rb_tail rb)); split; intros; congruence || done. }
  assert (PipeRingBuffer_available_read rb' = n - 1) as Hn'.
  { rewrite (available_read_eq rb' Hi'). simpl. unfold head' in *.
    destruct (Z.eqb_spec ((rb_head rb + 1) mod 3200) (rb_tail rb)); rewrite Htail in *;
      Z.to_euclidean_division_equations; lia. }
  split_and!; [done| |done|done].
  unfold contents. rewrite Hn'. replace (Z.to_nat (n - 1)) with k by lia. rewrite <-Hrest.
  rewrite <-fmap_S_seq, <-list_fmap_compose. apply list_fmap_ext. intros i x [-> Hx]%lookup_seq. simpl.
  unfold RING_BUFFER_SIZE, head'. rewrite Zplus_mod_idemp_l. do 3 f_equal. lia.
Qed.

(** ** Turns *)

(** What holds of every pipe made by [make_pipe]: only the write end is registered. *)
Record pipe_inv (st : PipeState) : Prop := {
  pi_ring : rb_inv (ring st);
  pi_write : rb_write_end (ring st) = Some WriteEnd;
  pi_read : rb_read_end (ring st) = None;
}.

Lemma make_pipe_inv : pipe_inv (make_pipe.2) ∧ contents (ring (make_pipe.2)) = [].
Proof. repeat split; simpl; try lia; done. Qed.

(** A turn keeps the reference counts. *)
Definition same_refs (st st' : PipeState) : Prop :=
  write_refs st' = write_refs st ∧ read_refs st' = read_refs st.

(** The [n] bytes at [va] in an address space, when they are all mapped. *)
Fixpoint peek (pt : Z → option Z) (m : Z → Z) (va : Z) (n : nat) : option (list Z) :=
  match n with
  | O => Some []
  | S n => match pt va with Some pa => (m pa ::.) <$> peek pt m (va + 1) n | None => None end
  end.
Fixpoint backed (pt : Z → option Z) (va : Z) (n : nat) : bool :=
  match n with
  | O => true
  | S n => match pt va with Some _ => backed pt (va + 1) n | None => false end
  end.
(** The memory after the bytes [bs] have been stored at [va] in an address space. *)
Fixpoint poke (pt : Z → option Z) (va : Z) (bs : list Z) (m : Z → Z) : Z → Z :=
  match bs with
  | [] => m
  | b :: bs =>
      poke pt (va + 1) bs
        (match pt va with Some pa => λ x, if x =? pa then b else m x | None => m end)
  end.

Abbreviation active w := (pw_map w (pw_satp w)).

Lemma read_bytes_spec n : ∀ buf want got w,
  pipe_inv (pw_pipe w) → (n ≤ length (contents (ring (pw_pipe w))))%nat →
  let k := (n `min` (want - length got))%nat in
  let bs := take k (contents (ring (pw_pipe w))) in
  let va := buf + Z.of_nat (length got) in
  if backed (active w) va k then
    ∃ st', read_bytes n buf want got w
           = Ok ((if decide (n = 0 ∨ length got + n < want)%nat then inl else inr) (got ++ bs),
                 w <| pw_pipe := st' |> <| pw_mem := poke (active w) va bs (pw_mem w) |>) ∧
      pipe_inv st' ∧ same_refs (pw_pipe w) st' ∧
      contents (ring st') = drop k (contents (ring (pw_pipe w)))
  else read_bytes n buf want got w = Panic PageFault.
Proof.
  induction n as [|n IH]; intros buf want got w Hi Hn k bs va.
  { exists (pw_pipe w). rewrite decide_True by lia. unfold bs, k. simpl. rewrite take_0, app_nil_r, drop_0.
    by destruct w. }
  cbn [read_bytes]. destruct (Nat.ltb_spec (length got) want) as [Hlt|Hge].
  2: { unfold bs, k. replace (S n `min` (want - length got))%nat with 0%nat by lia. cbn [backed].
       exists (pw_pipe w). rewrite decide_False by lia. rewrite take_0, app_nil_r, drop_0. by destruct w. }
  unfold bs. clear bs. run. destruct (contents (ring (pw_pipe w))) as [|b l] eqn:Ec; [simpl in Hn; lia|].
  destruct (read_byte_spec _ b l (pi_ring _ Hi) Ec) as (rb & E & Hrb & Hc & Hw & Hr).
  rewrite E. run. unfold store_byte. run. unfold k in *. clear k.
  replace (S n `min` (want - length got))%nat with (S (n `min` (want - (length got + 1))))%nat by lia.
  cbn [backed take drop]. fold va. set (w0 := set_field pw_pipe _ w) in *. change (active w0) with (active w).
  destruct (active w va) as [pa|] eqn:Ea; [|by run]. run.
  set (w1 := set_field pw_mem _ _). set (st1 := set_ring (pw_pipe w) rb).
  assert (pipe_inv (pw_pipe w1)) as Hi1 by (change (pipe_inv st1); destruct Hi; split; simpl; congruence || done).
  rewrite length_app. cbn [length]. destruct (Nat.eqb_spec (length got + 1) want) as [Hw1|Hw1].
  - replace (want - (length got + 1))%nat with 0%nat by lia. rewrite Nat.min_0_r. cbn [backed take drop].
    exists st1. rewrite decide_False by lia. cbn [poke]. rewrite Ea. by split_and!.
  - specialize (IH buf want (got ++ [b]) w1 Hi1). rewrite length_app in IH. cbn [length] in IH.
    simpl ring in IH. rewrite Hc in IH. replace (buf + Z.of_nat (length got + 1)) with (va + 1) in IH by lia.
    specialize (IH ltac:(simpl in Hn; lia)). cbn zeta in IH. simpl in IH. simpl.
    destruct (backed _ _ _); [|exact IH]. destruct IH as (st2 & E2 & Hi2 & Hs2 & Hc2).
    exists st2. rewrite E2, Ea, <-app_assoc. split_and!; [|done|done|exact Hc2].
    clear - Hlt Hw1. do 2 f_equal. case_decide as Hd1; case_decide as Hd2; [done|exfalso; lia..|done].
Qed.

Lemma write_bytes_spec n : ∀ buf len sent w,
  pipe_inv (pw_pipe w) → (n + length (contents (ring (pw_pipe w))) ≤ 3200)%nat →
  let k := (n `min` (len - length sent))%nat in
  match peek (active w) (pw_mem w) (buf + Z.of_nat (length sent)) k with
  | Some bs =>
      ∃ st', write_bytes n buf len sent w
             = Ok ((if decide (n = 0 ∨ length sent + n < len)%nat then inl else inr) (sent ++ bs),
                   w <| pw_pipe := st' |>) ∧
        pipe_inv st' ∧ same_refs (pw_pipe w) st' ∧
        contents (ring st') = contents (ring (pw_pipe w)) ++ bs
  | None => write_bytes n buf len sent w = Panic PageFault
  end.
Proof.
  induction n as [|n IH]; intros buf len sent w Hi Hn k.
  { exists (pw_pipe w). rewrite decide_True by lia. rewrite !app_nil_r. by destruct w. }
  cbn [write_bytes]. destruct (Nat.ltb_spec (length sent) len) as [Hlt|Hge].
  2: { unfold k. replace (S n `min` (len - length sent))%nat with 0%nat by lia. cbn [peek].
       exists (pw_pipe w). rewrite decide_False by lia. rewrite !app_nil_r. by destruct w. }
  unfold k. clear k. replace (S n `min` (len - length sent))%nat with (S (n `min` (len - (length sent + 1))))%nat by lia.
  unfold load_byte. run. set (va := buf + Z.of_nat (length sent)). cbn [peek].
  destruct (active w va) as [pa|] eqn:Ea; [|by run]. run. set (b := pw_mem w pa).
  destruct (write_byte_spec b _ (pi_ring _ Hi)) as (rb & E & Hrb & Hc & Hw & Hr); [lia|].
  rewrite E. run. set (w1 := set_field pw_pipe _ _). set (st1 := set_ring (pw_pipe w) rb).
  assert (pipe_inv (pw_pipe w1)) as Hi1 by (change (pipe_inv st1); destruct Hi; split; simpl; congruence || done).
  rewrite length_app. cbn [length]. destruct (Nat.eqb_spec (length sent + 1) len) as [Hw1|Hw1].
  - replace (len - (length sent + 1))%nat with 0%nat by lia. rewrite Nat.min_0_r. cbn [peek fmap option_fmap option_map].
    exists st1. rewrite decide_False by lia. by split_and!.
  - specialize (IH buf len (sent ++ [b]) w1 Hi1). rewrite length_app in IH. cbn [length] in IH.
    simpl ring in IH. rewrite Hc, length_app in IH.
    replace (buf + Z.of_nat (length sent + 1)) with (va + 1) in IH by lia.
    specialize (IH ltac:(simpl; lia)). cbn zeta in IH. simpl in IH.
    destruct (peek _ _ _ _) as [bs|]; cbn [fmap option_fmap option_map]; [|exact IH].
    destruct IH as (st2 & E2 & Hi2 & Hs2 & Hc2).
    exists st2. rewrite E2, <-app_assoc. rewrite <-app_assoc in Hc2. split_and!; [|done|done|exact Hc2].
    clear - Hlt Hw1. do 2 f_equal. case_decide as Hd1; case_decide as Hd2; [done|exfalso; lia..|done].
Qed.

Lemma read_turn_spec buf want got w :
  pipe_inv (pw_pipe w) →
  let l := contents (ring (pw_pipe w)) in
  let k := (length l `min` (want - length got))%nat in
  let va := buf + Z.of_nat (length got) in
  if backed (active w) va k then
    ∃ st', Pipe_read_turn buf want got w
           = Ok ((match l with
                  | [] => if (write_refs (pw_pipe w) =? 0)%nat then inr else inl
                  | _ => if decide (length got + length l < want)%nat then inl else inr
                  end) (got ++ take k l),
                 w <| pw_pipe := st' |> <| pw_mem := poke (active w) va (take k l) (pw_mem w) |>) ∧
      pipe_inv st' ∧ same_refs (pw_pipe w) st' ∧ contents (ring st') = drop k l
  else Pipe_read_turn buf want got w = Panic PageFault.
Proof.
  intros Hi l k va. unfold Pipe_read_turn. run. pose proof (length_contents _ (pi_ring _ Hi)) as Hl. fold l in Hl.
  destruct (Z.eqb_spec (PipeRingBuffer_available_read (ring (pw_pipe w))) 0) as [H0|Hne].
  - assert (l = []) as El by (apply length_zero_iff_nil; lia). unfold k. rewrite El. cbn [length Nat.min backed].
    unfold all_write_ends_closed. rewrite (pi_write _ Hi).
    cbn [unwrapO mbind outcome_bind mret outcome_ret upgrade_is_none]. run. exists (pw_pipe w).
    rewrite app_nil_r. fold l. rewrite El.
    split_and!; [destruct w; by destruct (write_refs _ =? 0)%nat|done|done|done].
  - pose proof (read_bytes_spec (length l) buf want got w Hi (le_n _)) as Hb. cbn zeta in Hb. fold l k va in Hb.
    replace (Z.to_nat (PipeRingBuffer_available_read (ring (pw_pipe w)))) with (length l) by lia.
    destruct (backed _ _ _); [|exact Hb]. destruct Hb as (st' & E & Hi' & Hs & Hc).
    exists st'. rewrite E. split_and!; [|done|done|exact Hc].
    destruct l as [|x l'] eqn:El; [simpl in Hl; lia|].
    do 2 f_equal. case_decide; case_decide; try done; exfalso; simpl in *; lia.
Qed.

(** The capacity as a number of bytes. *)
Definition ring_capacity : nat := Z.to_nat RING_BUFFER_SIZE.

Lemma write_turn_spec buf len sent w :
  pipe_inv (pw_pipe w) →
  let n := (ring_capacity - length (contents (ring (pw_pipe w))))%nat in
  match peek (active w) (pw_mem w) (buf + Z.of_nat (length sent)) (n `min` (len - length sent)) with
  | Some bs =>
      ∃ st', Pipe_write_turn buf len sent w
             = Ok ((if decide (n = 0 ∨ length sent + n < len)%nat then inl else inr) (sent ++ bs),
                   w <| pw_pipe := st' |>) ∧
        pipe_inv st' ∧ same_refs (pw_pipe w) st' ∧ contents (ring st') = contents (ring (pw_pipe w)) ++ bs
  | None => Pipe_write_turn buf len sent w = Panic PageFault
  end.
Proof.
  intros Hi n. unfold n, ring_capacity, RING_BUFFER_SIZE. clear n.
  set (n := (_ - _)%nat). unfold Pipe_write_turn. run. rewrite available_write_eq by apply Hi.
  pose proof (length_contents _ (pi_ring _ Hi)) as Hl. pose proof (available_read_range _ (pi_ring _ Hi)) as Hr.
  destruct (Z.eqb_spec (3200 - Z.of_nat (length (contents (ring (pw_pipe w))))) 0) as [H0|Hne].
  - assert (n = 0%nat) as Hn0 by lia. rewrite Hn0. cbn [Nat.min peek].
    exists (pw_pipe w). rewrite decide_True by lia. rewrite !app_nil_r. by destruct w.
  - replace (Z.to_nat (3200 - Z.of_nat (length (contents (ring (pw_pipe w)))))) with n by lia.
    apply write_bytes_spec; [done|lia].
Qed.

(** ** The ring buffer is a bounded queue *)

Inductive ring_op := OpWrite (byte : Z) | OpRead.

(** An operation under the guard its callers test: nothing happens on a full or an empty buffer. *)
Definition ring_exec (op : ring_op) (rb : PipeRingBuffer) : outcome (option Z * PipeRingBuffer) :=
  match op with
  | OpWrite b =>
      if PipeRingBuffer_available_write rb =? 0 then Ok (None, rb)
      else rb' ← PipeRingBuffer_write_byte b rb; Ok (Some b, rb')
  | OpRead =>
      if PipeRingBuffer_available_read rb =? 0 then Ok (None, rb)
      else '(b, rb') ← PipeRingBuffer_read_byte rb; Ok (Some b, rb')
  end.
Fixpoint ring_run (ops : list ring_op) (rb : PipeRingBuffer) : outcome (list (option Z) * PipeRingBuffer) :=
  match ops with
  | [] => Ok ([], rb)
  | op :: ops => '(o, rb) ← ring_exec op rb; '(os, rb) ← ring_run ops rb; Ok (o :: os, rb)
  end.

(** The specification: a queue of at most 3200 bytes. *)
Definition fifo_exec (op : ring_op) (q : list Z) : option Z * list Z :=
  match op, q with
  | OpWrite b, _ => if (3200 <=? length q)%nat then (None, q) else (Some b, q ++ [b])
  | OpRead, [] => (None, [])
  | OpRead, b :: q => (Some b, q)
  end.
Fixpoint fifo_run (ops : list ring_op) (q : list Z) : list (option Z) * list Z :=
  match ops with
  | [] => ([], q)
  | op :: ops => let '(o, q) := fifo_exec op q in let '(os, q) := fifo_run ops q in (o :: os, q)
  end.

Lemma ring_exec_refines op rb :
  rb_inv rb →
  ∃ rb', ring_exec op rb = Ok ((fifo_exec op (contents rb)).1, rb') ∧ rb_inv rb' ∧
    contents rb' = (fifo_exec op (contents rb)).2.
Proof.
  intros Hi. pose proof (length_contents rb Hi) as Hl. pose proof (available_read_range rb Hi) as Hr.
  destruct op as [b|]; cbn [ring_exec fifo_exec].
  - rewrite available_write_eq by done.
    destruct (Z.eqb_spec (3200 - Z.of_nat (length (contents rb))) 0) as [H0|H0].
    + exists rb. destruct (Nat.leb_spec 3200 (length (contents rb))); [done|lia].
    + destruct (Nat.leb_spec 3200 (length (contents rb))); [lia|].
      destruct (write_byte_spec b rb Hi) as (rb' & E & Hi' & Hc & _); [lia|].
      exists rb'. by rewrite E.
  - destruct (contents rb) as [|b q] eqn:Ec; simpl in Hl.
    + rewrite <-Hl. exists rb. done.
    + rewrite (proj2 (Z.eqb_neq _ _)) by lia.
      destruct (read_byte_spec rb b q Hi Ec) as (rb' & E & Hi' & Hc & _). exists rb'. by rewrite E.
Qed.

Lemma ring_run_refines ops : ∀ rb,
  rb_inv rb →
  ∃ rb', ring_run ops rb = Ok ((fifo_run ops (contents rb)).1, rb') ∧ rb_inv rb' ∧
    contents rb' = (fifo_run ops (contents rb)).2.
Proof.
  induction ops as [|op ops IH]; intros rb Hi; cbn [ring_run fifo_run]; [by exists rb|].
  destruct (ring_exec_refines op rb Hi) as (rb1 & E1 & Hi1 & Hc1). rewrite E1.
  destruct (fifo_exec op (contents rb)) as [o q]. simpl in Hc1. subst q.
  destruct (IH rb1 Hi1) as (rb2 & E2 & Hi2 & Hc2). cbn [mbind outcome_bind]. rewrite E2.
  destruct (fifo_run ops (contents rb1)) as [os q]. by exists rb2.
Qed.

(** The ring buffer of a pipe refines a queue of at most 3200 bytes: any sequence of guarded
    writes and reads on a new buffer neither panics nor loses, duplicates or reorders a byte, and
    the counters [available_read] and [available_write] are the length and the free space. *)
Theorem ring_buffer_refines_queue ops :
  ∃ rb, ring_run ops PipeRingBuffer_new = Ok ((fifo_run ops []).1, rb) ∧
    contents rb = (fifo_run ops []).2 ∧
    PipeRingBuffer_available_read rb = Z.of_nat (length (fifo_run ops []).2) ∧
    PipeRingBuffer_available_write rb = 3200 - Z.of_nat (length (fifo_run ops []).2).
Proof.
  assert (rb_inv PipeRingBuffer_new) as Hi by (split; simpl; lia || done).
  destruct (ring_run_refines ops _ Hi) as (rb & E & Hi' & Hc).
  replace (contents PipeRingBuffer_new) with (@nil Z) in * by reflexivity.
  exists rb. rewrite <-Hc, length_contents, available_write_eq, length_contents by done. done.
Qed.

(** ** A reader and a writer *)

(** A read and a write in progress on one pipe.  The reader, a process with the address space
    [c_reader], wants [c_want] bytes at [c_rbuf] and has [c_got]; the writer writes the [c_len] bytes at
    [c_wbuf] and has put [c_sent] into the pipe.  A flag records that a call has returned. *)
Record conn := {
  c_world : PipeWorld;
  c_reader : nat;
  c_rbuf : Z;
  c_want : nat;
  c_got : list Z;
  c_read_returned : bool;
  c_wbuf : Z;
  c_len : nat;
  c_sent : list Z;
  c_write_returned : bool;
}.
#[export] Instance conn_settable : Settable conn := λ c,
  {| c_world := c_world c; c_reader := c_reader c; c_rbuf := c_rbuf c; c_want := c_want c;
     c_got := c_got c; c_read_returned := c_read_returned c; c_wbuf := c_wbuf c; c_len := c_len c;
     c_sent := c_sent c; c_write_returned := c_write_returned c |}.

Definition returned {A} (r : A + A) : bool := match r with inl _ => false | inr _ => true end.
Definition so_far {A} (r : A + A) : A := match r with inl a | inr a => a end.

(** The scheduler picks either process, which runs one turn of its loop, the reader in its own
    address space and the writer in the one that is active; or it picks other processes, which
    activate any address space and may change page tables and memory, but not the pipe. *)
Inductive pipe_step : conn → conn → Prop :=
  | step_read c r w' :
      c_read_returned c = false →
      (activate (c_reader c);; Pipe_read_turn (c_rbuf c) (c_want c) (c_got c)) (c_world c) = Ok (r, w') →
      pipe_step c c <| c_world := w' |> <| c_got := so_far r |> <| c_read_returned := returned r |>
  | step_write c r w' :
      c_write_returned c = false →
      Pipe_write_turn (c_wbuf c) (c_len c) (c_sent c) (c_world c) = Ok (r, w') →
      pipe_step c c <| c_world := w' |> <| c_sent := so_far r |> <| c_write_returned := returned r |>
  | step_other c w' :
      pw_pipe w' = pw_pipe (c_world c) →
      pipe_step c c <| c_world := w' |>.

Definition pipe_of (c : conn) : PipeState := pw_pipe (c_world c).
Definition stream (c : conn) : list Z := c_got c ++ contents (ring (pipe_of c)).

(** What a call guarantees once it has returned. *)
Record conn_inv (c : conn) : Prop := {
  ci_pipe : pipe_inv (pipe_of c);
  ci_got : (length (c_got c) ≤ c_want c)%nat;
  ci_sent : (length (c_sent c) ≤ c_len c)%nat;
  ci_read : c_read_returned c = true →
            length (c_got c) = c_want c ∨ write_refs (pipe_of c) = 0%nat;
  ci_write : c_write_returned c = true → length (c_sent c) = c_len c;
}.

Lemma length_peek pt m n : ∀ va bs, peek pt m va n = Some bs → length bs = n.
Proof.
  induction n as [|n IH]; intros va bs; cbn [peek]; [by intros [= <-]|].
  destruct (pt va); [|done]. intros (bs' & E%IH & ->)%fmap_Some. simpl. congruence.
Qed.

(** The bytes a step adds to those sent are bytes the active address space shows at that place. *)
Definition sends (c c' : conn) (bs : list Z) : Prop :=
  c_sent c' = c_sent c ++ bs ∧
  (bs = [] ∨ peek (active (c_world c)) (pw_mem (c_world c)) (c_wbuf c + Z.of_nat (length (c_sent c))) (length bs)
             = Some bs).
Definition same_calls (c c' : conn) : Prop :=
  c_want c' = c_want c ∧ c_len c' = c_len c ∧ c_wbuf c' = c_wbuf c ∧
  write_refs (pipe_of c') = write_refs (pipe_of c).

Lemma read_step_inv c r w' :
  conn_inv c →
  (activate (c_reader c);; Pipe_read_turn (c_rbuf c) (c_want c) (c_got c)) (c_world c) = Ok (r, w') →
  let c' := c <| c_world := w' |> <| c_got := so_far r |> <| c_read_returned := returned r |> in
  conn_inv c' ∧ stream c' = stream c ∧ same_calls c c'.
Proof.
  intros [Hp Hg Hsn Hr Hw] E c'. unfold activate in E. revert E. run. set (w := set_field pw_satp _ _). intros E.
  pose proof (read_turn_spec (c_rbuf c) (c_want c) (c_got c) w Hp) as Ht. cbn zeta in Ht.
  change (pw_pipe w) with (pipe_of c) in Ht.
  set (l := contents (ring (pipe_of c))) in *. set (k := (length l `min` (c_want c - length (c_got c)))%nat) in *.
  destruct (backed _ _ k); [|congruence]. destruct Ht as (st' & E' & Hp' & [Hs _] & Hc).
  rewrite E in E'. injection E' as Er Ew.
  assert (pipe_of c' = st') as Hst by (unfold c', pipe_of; cbn; by rewrite Ew).
  assert (c_got c' = c_got c ++ take k l) as Hgot.
  { unfold c'. cbn. rewrite Er. destruct l; [by destruct (_ =? _)%nat|by case_decide]. }
  split; [split|split; [|split_and!]]; rewrite ?Hst, ?Hgot; try done.
  - change (c_want c') with (c_want c). rewrite length_app, length_take. lia.
  - change (c_read_returned c') with (returned r). change (c_want c') with (c_want c). rewrite Er, length_app, length_take, Hs.
    destruct l as [|x l'] eqn:El.
    + destruct (Nat.eqb_spec (write_refs (pipe_of c)) 0); [by right|done].
    + case_decide as Hd; [done|]. intros _. left. unfold k. clear - Hd Hg. cbn [length] in *. lia.
  - unfold stream. rewrite Hgot, Hst, Hc. fold l. by rewrite <-app_assoc, take_drop.
Qed.

Lemma write_step_inv c r w' :
  conn_inv c → Pipe_write_turn (c_wbuf c) (c_len c) (c_sent c) (c_world c) = Ok (r, w') →
  let c' := c <| c_world := w' |> <| c_sent := so_far r |> <| c_write_returned := returned r |> in
  ∃ bs, conn_inv c' ∧ sends c c' bs ∧ stream c' = stream c ++ bs ∧ same_calls c c'.
Proof.
  intros [Hp Hg Hsn Hr Hw] E c'. pose proof (write_turn_spec (c_wbuf c) (c_len c) (c_sent c) (c_world c) Hp) as Ht.
  cbn zeta in Ht. fold (pipe_of c) in Ht. set (n := (ring_capacity - _)%nat) in Ht.
  destruct (peek _ _ _ _) as [bs|] eqn:Ep; [|congruence]. destruct Ht as (st' & E' & Hp' & [Hs _] & Hc).
  rewrite E in E'. injection E' as Er Ew. pose proof (length_peek _ _ _ _ _ Ep) as Hl.
  assert (pipe_of c' = st') as Hst by (unfold c', pipe_of; cbn; by rewrite Ew).
  assert (c_sent c' = c_sent c ++ bs) as Hsent by (unfold c'; cbn; rewrite Er; by case_decide).
  exists bs. split; [split|split_and!]; rewrite ?Hst, ?Hsent; try done.
  - change (c_len c') with (c_len c). rewrite length_app, Hl. lia.
  - change (c_read_returned c') with (c_read_returned c). rewrite Hs. done.
  - change (c_write_returned c') with (returned r). change (c_len c') with (c_len c).
    rewrite Er, length_app, Hl. case_decide; [done|]. intros _. lia.
  - split; [done|]. right. rewrite Hl. exact Ep.
  - unfold stream. rewrite Hst, Hc. fold (pipe_of c). by rewrite app_assoc.
  - split_and!; [done..|]. by rewrite Hst.
Qed.

Lemma pipe_step_inv c c' :
  conn_inv c → pipe_step c c' →
  ∃ bs, conn_inv c' ∧ sends c c' bs ∧ stream c' = stream c ++ bs ∧ same_calls c c'.
Proof.
  intros Hi Hstep. destruct Hstep as [c r w' _ E|c r w' _ E|c w' E].
  - destruct (read_step_inv _ _ _ Hi E) as (? & Hs & ?). exists []. unfold sends. rewrite !app_nil_r.
    by split_and!; [| |left| |].
  - by apply write_step_inv.
  - exists []. unfold sends. rewrite !app_nil_r. destruct Hi. assert (pipe_of (c <| c_world := w' |>) = pipe_of c) as Hp by exact E.
    split_and!; [split; by rewrite ?Hp|done|by left|unfold stream; by rewrite Hp|].
    split_and!; [done..|by rewrite Hp].
Qed.

Lemma pipe_steps_inv c c' :
  rtc pipe_step c c' → conn_inv c →
  ∃ bs, conn_inv c' ∧ c_sent c' = c_sent c ++ bs ∧ stream c' = stream c ++ bs ∧ same_calls c c'.
Proof.
  induction 1 as [c|c1 c2 c3 H12 _ IH]; intros Hi.
  { exists []. rewrite !app_nil_r. by split_and!. }
  destruct (pipe_step_inv _ _ Hi H12) as (b1 & Hi2 & [Hs2 _] & Hst2 & Hc2).
  destruct (IH Hi2) as (b2 & Hi3 & Hs3 & Hst3 & Hc3). exists (b1 ++ b2).
  rewrite Hs3, Hst3, Hs2, Hst2, !app_assoc. destruct Hc2 as (? & ? & ? & ?), Hc3 as (? & ? & ? & ?).
  unfold same_calls. split_and!; congruence || done.
Qed.

(** The active address space shows the message at the place the writer reads from. *)
Definition shows (message : list Z) (c : conn) : Prop :=
  peek (active (c_world c)) (pw_mem (c_world c)) (c_wbuf c) (length message) = Some message.

Lemma peek_app pt m n : ∀ va bs k l, peek pt m va n = Some bs → (k + l ≤ n)%nat →
  peek pt m (va + Z.of_nat k) l = Some (take l (drop k bs)).
Proof.
  induction n as [|n IH]; intros va bs k l; cbn [peek].
  { intros [= <-] ?. replace l with 0%nat by lia. done. }
  destruct (pt va) as [pa|] eqn:Ea; [|done]. intros (bs' & E & ->)%fmap_Some Hkl.
  destruct k as [|k].
  - destruct l as [|l]; [done|]. rewrite Z.add_0_r. cbn [peek drop take]. rewrite Ea.
    pose proof (IH (va + 1) bs' 0%nat l E ltac:(lia)) as H. rewrite Z.add_0_r in H. by rewrite H.
  - cbn [drop]. rewrite <-(IH (va + 1) bs' k l E) by lia. f_equal. lia.
Qed.

Lemma shown_steps_inv message c c' :
  rtc (λ c c', shows message c ∧ pipe_step c c') c c' → conn_inv c → c_len c = length message →
  c_sent c = take (length (c_sent c)) message → c_sent c' = take (length (c_sent c')) message.
Proof.
  induction 1 as [c|c1 c2 c3 [Hs H12] _ IH]; intros Hi Hl Hp; [done|].
  destruct (pipe_step_inv _ _ Hi H12) as (bs & Hi2 & [Hs2 Hb] & _ & (_ & Hl2 & _)).
  apply IH; [done|congruence|]. rewrite Hs2, length_app.
  pose proof (ci_sent _ Hi2) as Hle. rewrite Hs2, Hl2, Hl, length_app in Hle.
  destruct Hb as [->|Hb]; [by rewrite app_nil_r, Nat.add_0_r|].
  rewrite (peek_app _ _ _ _ _ _ _ Hs) in Hb by lia. injection Hb as Hb.
  rewrite <-take_take_drop, <-Hp. by rewrite Hb.
Qed.

(** A read of [want] bytes and a write of [len] bytes that have just been called. *)
Definition conn_start (w : PipeWorld) (reader : nat) (rbuf : Z) (want : nat) (wbuf : Z) (len : nat) : conn :=
  {| c_world := w; c_reader := reader; c_rbuf := rbuf; c_want := want; c_got := [];
     c_read_returned := false; c_wbuf := wbuf; c_len := len; c_sent := []; c_write_returned := false |}.

Lemma conn_start_inv w reader rbuf want wbuf len :
  pipe_inv (pw_pipe w) → conn_inv (conn_start w reader rbuf want wbuf len).
Proof. intros Hi. split; simpl; [done|lia|lia|done|done]. Qed.

(** C5: However the scheduler interleaves a reader and a writer of one pipe and other processes, no
    byte is lost, duplicated or reordered: the bytes read and those in the buffer are always the
    initial contents followed by the bytes the writer has loaded from its slice.  A read that has
    returned got all the bytes it asked for unless every write end is closed, and a write that has
    returned has put as many bytes into the pipe as its slice has.  The bytes loaded are the message
    when the active address space shows the message at the address of the slice in every turn: the
    writer does not activate its own address space when it resumes. *)
Theorem pipe_preserves_stream w reader rbuf want wbuf len c :
  pipe_inv (pw_pipe w) → rtc pipe_step (conn_start w reader rbuf want wbuf len) c →
  let old := contents (ring (pw_pipe w)) in
  c_got c ++ contents (ring (pipe_of c)) = old ++ c_sent c ∧
  (c_read_returned c = true → c_got c = take want (old ++ c_sent c) ∨ write_refs (pipe_of c) = 0%nat) ∧
  (c_write_returned c = true → length (c_sent c) = len) ∧
  (∀ message, len = length message →
     rtc (λ c c', shows message c ∧ pipe_step c c') (conn_start w reader rbuf want wbuf len) c →
     c_sent c = take (length (c_sent c)) message).
Proof.
  intros Hi Hsteps old. pose proof (conn_start_inv w reader rbuf want wbuf len Hi) as H0.
  destruct (pipe_steps_inv _ _ Hsteps H0) as (bs & Hinv & Hs & Hst & (Hw & Hl & _)).
  unfold stream in Hst. cbn [c_sent c_got c_want c_len conn_start app] in Hs, Hst, Hw, Hl.
  change (pipe_of (conn_start _ _ _ _ _ _)) with (pw_pipe w) in Hst. fold old in Hst. subst bs. rewrite <-Hst. split_and!; [done| | |].
  - intros Hret. destruct (ci_read _ Hinv Hret) as [Hg|]; [left|by right].
    by rewrite take_app_length' by congruence.
  - intros Hret. rewrite (ci_write _ Hinv Hret). done.
  - intros message -> Hshown. by apply (shown_steps_inv _ _ _ Hshown).
Qed.

(** ** A complete transfer *)

(** The writer and the reader run in alternation until the read returns. *)
Fixpoint pipe_transfer (fuel : nat) (wbuf : Z) (len : nat) (sent : list Z)
    (reader : nat) (rbuf : Z) (want : nat) (got : list Z) : M PipeWorld (list Z) :=
  match fuel with
  | O => noFuel
  | S fuel =>
      s ← (if (length sent <? len)%nat then Pipe_write_turn wbuf len sent else mret (inr sent));
      activate reader;;
      r ← Pipe_read_turn rbuf want got;
      match r with
      | inr got => mret got
      | inl got => pipe_transfer fuel wbuf len (so_far s) reader rbuf want got
      end
  end.

Lemma poke_ne pt bs : ∀ va m pa,
  (∀ j, (j < length bs)%nat → pt (va + Z.of_nat j) ≠ Some pa) → poke pt va bs m pa = m pa.
Proof.
  induction bs as [|b bs IH]; intros va m pa Hne; cbn [poke]; [done|].
  rewrite IH.
  - specialize (Hne 0%nat ltac:(simpl; lia)). rewrite Z.add_0_r in Hne. destruct (pt va) as [pa'|]; [|done].
    destruct (Z.eqb_spec pa pa'); [congruence|done].
  - intros j Hj. specialize (Hne (S j) ltac:(simpl; lia)). by replace (va + 1 + Z.of_nat j) with (va + Z.of_nat (S j)) by lia.
Qed.

Lemma peek_ext pt m m' n : ∀ va,
  (∀ i pa, (i < n)%nat → pt (va + Z.of_nat i) = Some pa → m pa = m' pa) → peek pt m va n = peek pt m' va n.
Proof.
  induction n as [|n IH]; intros va He; cbn [peek]; [done|].
  rewrite (IH (va + 1)).
  - destruct (pt va) as [pa|] eqn:Ea; [|done]. by rewrite (He 0%nat pa) by (rewrite ?Z.add_0_r; done || lia).
  - intros i pa Hi Hpa. apply (He (S i)); [lia|]. by replace (va + Z.of_nat (S i)) with (va + 1 + Z.of_nat i) by lia.
Qed.

Lemma peek_poke pt bs : ∀ va m,
  backed pt va (length bs) = true →
  (∀ i j, (i < length bs)%nat → (j < length bs)%nat → pt (va + Z.of_nat i) = pt (va + Z.of_nat j) → i = j) →
  peek pt (poke pt va bs m) va (length bs) = Some bs.
Proof.
  induction bs as [|b bs IH]; intros va m Hb Hinj; [done|]. cbn [length peek poke backed] in *.
  destruct (pt va) as [pa|] eqn:Ea; [|done]. rewrite IH; [|done|].
  - cbn. do 2 f_equal. rewrite poke_ne; [by rewrite Z.eqb_refl|]. intros j Hj Ej.
    specialize (Hinj 0%nat (S j) ltac:(lia) ltac:(lia)). rewrite Z.add_0_r, Ea in Hinj.
    replace (va + Z.of_nat (S j)) with (va + 1 + Z.of_nat j) in Hinj by lia. by specialize (Hinj (eq_sym Ej)).
  - intros i j Hi Hj E. specialize (Hinj (S i) (S j) ltac:(lia) ltac:(lia)).
    replace (va + Z.of_nat (S i)) with (va + 1 + Z.of_nat i) in Hinj by lia.
    replace (va + Z.of_nat (S j)) with (va + 1 + Z.of_nat j) in Hinj by lia. specialize (Hinj E). lia.
Qed.

Lemma peek_join pt m n : ∀ va l k r,
  peek pt m va n = Some l → peek pt m (va + Z.of_nat n) k = Some r → peek pt m va (n + k) = Some (l ++ r).
Proof.
  induction n as [|n IH]; intros va l k r; cbn [peek Nat.add].
  { rewrite Z.add_0_r. by intros [= <-] ->. }
  destruct (pt va); [|done]. intros (l' & E & ->)%fmap_Some Hr.
  rewrite (IH (va + 1) l' k r E); [done|]. rewrite <-Hr. f_equal. lia.
Qed.

Lemma backed_sub pt n : ∀ va k l, backed pt va n = true → (k + l ≤ n)%nat → backed pt (va + Z.of_nat k) l = true.
Proof.
  induction n as [|n IH]; intros va k l Hb Hle; [by replace l with 0%nat by lia|]. cbn [backed] in Hb.
  destruct (pt va) eqn:Ea; [|done]. destruct k as [|k].
  - destruct l as [|l]; [done|]. rewrite Z.add_0_r. cbn [backed]. rewrite Ea.
    pose proof (IH (va + 1) 0%nat l Hb ltac:(lia)) as H. by rewrite Z.add_0_r in H.
  - rewrite <-(IH (va + 1) k l Hb) by lia. f_equal. lia.
Qed.

(** The slice of the reader: mapped, to different bytes, and apart from what the address space of
    the reader has at the address of the slice of the writer. *)
Record reader_buffer (pt : Z → option Z) (rbuf wbuf : Z) (n : nat) : Prop := {
  rbuf_backed : backed pt rbuf n = true;
  rbuf_inj : ∀ i j, (i < n)%nat → (j < n)%nat → pt (rbuf + Z.of_nat i) = pt (rbuf + Z.of_nat j) → i = j;
  rbuf_apart : ∀ i j, (i < n)%nat → (j < n)%nat → pt (rbuf + Z.of_nat i) ≠ pt (wbuf + Z.of_nat j);
}.

(** Between two rounds of a transfer of [n] bytes: the pipe is empty and the slice of the reader
    starts with the bytes read so far. *)
Record transfer_inv (reader : nat) (rbuf wbuf : Z) (n : nat) (got : list Z) (w : PipeWorld) : Prop := {
  ti_pipe : pipe_inv (pw_pipe w);
  ti_empty : contents (ring (pw_pipe w)) = [];
  ti_buffer : reader_buffer (pw_map w reader) rbuf wbuf n;
  ti_got : peek (pw_map w reader) (pw_mem w) rbuf (length got) = Some got;
}.

(** A store into the slice of the reader, behind the bytes read so far. *)
Lemma transfer_store pt rbuf wbuf n got bs m :
  reader_buffer pt rbuf wbuf n → (length got + length bs ≤ n)%nat →
  let m' := poke pt (rbuf + Z.of_nat (length got)) bs m in
  (peek pt m rbuf (length got) = Some got → peek pt m' rbuf (length (got ++ bs)) = Some (got ++ bs)) ∧
  (∀ k l, (k + l ≤ n)%nat → peek pt m' (wbuf + Z.of_nat k) l = peek pt m (wbuf + Z.of_nat k) l).
Proof.
  intros [Hb Hinj Hap] Hn m'. assert (∀ i, rbuf + Z.of_nat (length got) + Z.of_nat i = rbuf + Z.of_nat (length got + i)) as Ha by lia.
  split.
  - intros Hg. rewrite length_app. apply peek_join.
    + rewrite <-Hg. apply peek_ext. intros i pa Hi Hpa. apply poke_ne. intros j Hj. rewrite Ha, <-Hpa. intros E.
      apply Hinj in E; lia.
    + apply peek_poke; [by apply (backed_sub _ n)|]. intros i j Hi Hj. rewrite !Ha. intros E. apply Hinj in E; lia.
  - intros k l Hk. apply peek_ext. intros i pa Hi Hpa. apply poke_ne. intros j Hj. rewrite Ha, <-Hpa.
    replace (wbuf + Z.of_nat k + Z.of_nat i) with (wbuf + Z.of_nat (k + i)) by lia. apply Hap; lia.
Qed.

Lemma ring_capacity_pos : (0 < ring_capacity)%nat.
Proof. unfold ring_capacity, RING_BUFFER_SIZE. lia. Qed.

Lemma transfer_round fuel reader rbuf wbuf n sent got rest w :
  transfer_inv reader rbuf wbuf n got w → length sent = length got → (length got < n)%nat →
  peek (active w) (pw_mem w) (wbuf + Z.of_nat (length got)) (n - length got) = Some rest →
  let k := (ring_capacity `min` (n - length got))%nat in
  let got' := got ++ take k rest in
  ∃ w', pipe_transfer (S fuel) wbuf n sent reader rbuf n got w
        = (if decide (length got + k < n)%nat
           then pipe_transfer fuel wbuf n (sent ++ take k rest) reader rbuf n got' w' else Ok (got', w')) ∧
    transfer_inv reader rbuf wbuf n got' w' ∧ pw_map w' = pw_map w ∧ pw_satp w' = reader ∧
    ∀ j l, (j + l ≤ n)%nat → peek (pw_map w reader) (pw_mem w') (wbuf + Z.of_nat j) l
                             = peek (pw_map w reader) (pw_mem w) (wbuf + Z.of_nat j) l.
Proof.
  intros [Hi Hc Hb Hg] Hsent Hlt Hp k got'. pose proof ring_capacity_pos as Hcap. pose proof (length_peek _ _ _ _ _ Hp) as Hlr.
  assert (length (take k rest) = k) as Hk by (rewrite length_take; lia).
  pose proof (write_turn_spec wbuf n sent w Hi) as Hw. cbn zeta in Hw. rewrite Hc, Hsent in Hw.
  cbn [length app] in Hw. rewrite Nat.sub_0_r in Hw. fold k in Hw.
  pose proof (peek_app _ _ _ _ _ 0 k Hp ltac:(lia)) as Hpk. rewrite Z.add_0_r, drop_0 in Hpk. rewrite Hpk in Hw.
  destruct Hw as (st1 & E1 & Hi1 & _ & Hc1). cbn [pipe_transfer].
  rewrite (proj2 (Nat.ltb_lt _ _)) by lia. erewrite bind_Ok by exact E1. unfold activate. run.
  set (w1 := set_field pw_satp _ _). pose proof (read_turn_spec rbuf n got w1 Hi1) as Hr. cbn zeta in Hr.
  change (pw_pipe w1) with st1 in Hr. rewrite Hc1, Hk in Hr. change (active w1) with (pw_map w reader) in Hr.
  replace (k `min` (n - length got))%nat with k in Hr by lia.
  rewrite (backed_sub _ n) in Hr by (apply Hb || lia). destruct Hr as (st2 & E2 & Hi2 & _ & Hc2).
  rewrite firstn_firstn, Nat.min_id in E2. rewrite drop_ge in Hc2 by lia.
  destruct (transfer_store _ _ _ _ got (take k rest) (pw_mem w) Hb) as [Hs1 Hs2]; [lia|].
  assert (∀ X Y : list Z → list Z + list Z, match take k rest with [] => X | _ :: _ => Y end = Y) as Hne.
  { intros. destruct (take k rest); [simpl in Hk; lia|done]. }
  rewrite Hne in E2. eexists. split_and!; [erewrite bind_Ok by exact E2| | | |].
  - fold got'. destruct (decide (length got + k < n)%nat); [|done]. by case_decide.
  - split; [exact Hi2|exact Hc2|exact Hb|exact (Hs1 Hg)].
  - done.
  - done.
  - exact Hs2.
Qed.

(** Once the address space of the reader is active it stays so. *)
Lemma pipe_transfer_spec fuel : ∀ reader rbuf wbuf n sent got rest w,
  transfer_inv reader rbuf wbuf n got w → pw_satp w = reader → length sent = length got → (length got < n)%nat →
  peek (active w) (pw_mem w) (wbuf + Z.of_nat (length got)) (n - length got) = Some rest →
  (n - length got ≤ fuel * ring_capacity)%nat →
  ∃ w', pipe_transfer fuel wbuf n sent reader rbuf n got w = Ok (got ++ rest, w') ∧
    transfer_inv reader rbuf wbuf n (got ++ rest) w' ∧ pw_map w' = pw_map w.
Proof.
  induction fuel as [|fuel IH]; intros reader rbuf wbuf n sent got rest w Ht Hsat Hsent Hlt Hp Hf; [lia|].
  pose proof ring_capacity_pos as Hcap.
  destruct (transfer_round fuel _ _ _ _ sent _ _ _ Ht Hsent Hlt Hp) as (w1 & E1 & Ht1 & Hm1 & Hs1 & Hv1).
  rewrite E1. pose proof (length_peek _ _ _ _ _ Hp) as Hlr. set (k := (ring_capacity `min` _)%nat) in *.
  assert (length (take k rest) = k) as Hk by (rewrite length_take; lia). clear E1.
  destruct (decide _) as [Hd|Hd].
  - destruct (IH reader rbuf wbuf n (sent ++ take k rest) (got ++ take k rest) (drop k rest) w1) as (w2 & E2 & Ht2 & Hm2);
      [done|done|by rewrite !length_app, Hsent|rewrite length_app; lia| |rewrite length_app; lia|].
    + rewrite length_app, Hk, Hs1, Hm1, Hv1 by lia. rewrite Hsat in Hp.
      replace (wbuf + Z.of_nat (length got + k)) with (wbuf + Z.of_nat (length got) + Z.of_nat k) by lia.
      rewrite (peek_app _ _ _ _ _ _ _ Hp) by lia. f_equal. apply take_ge. rewrite length_drop. lia.
    + exists w2. rewrite <-app_assoc, take_drop in *. split_and!; [done|done|congruence].
  - exists w1. rewrite take_ge in * by lia. done.
Qed.

(** C23: A writer and a reader of one pipe that alternate on it when it is empty complete their
    transfer: after at most [length message / 3200 + 1] rounds the read returns as many bytes as
    the message has, which are in the slice of the reader, and the pipe is empty again.  The first
    3200 bytes are those of the message.  What follows are the bytes the address space of the reader
    has at the address of the message, [other]: the writer resumes while that address space is
    active.  So the message arrives when it fits into the buffer or when both address spaces show
    the same bytes. *)
Theorem pipe_transfer_delivers w reader rbuf wbuf message other :
  let n := length message in
  let delivered := take ring_capacity message ++ drop ring_capacity other in
  pipe_inv (pw_pipe w) → contents (ring (pw_pipe w)) = [] → message ≠ [] →
  peek (active w) (pw_mem w) wbuf n = Some message →
  ((ring_capacity < n)%nat → peek (pw_map w reader) (pw_mem w) wbuf n = Some other) →
  length other = n →
  reader_buffer (pw_map w reader) rbuf wbuf n →
  ∃ w', pipe_transfer (n / ring_capacity + 1) wbuf n [] reader rbuf n [] w = Ok (delivered, w') ∧
    contents (ring (pw_pipe w')) = [] ∧
    peek (pw_map w reader) (pw_mem w') rbuf n = Some delivered ∧
    ((n ≤ ring_capacity)%nat ∨ other = message → delivered = message).
Proof.
  intros n delivered Hi Hc Hne Hp Ho Ho' Hb.
  assert (transfer_inv reader rbuf wbuf n [] w) as Ht by by split.
  assert (0 < n)%nat as Hn by (unfold n; destruct message; simpl; [done|lia]).
  pose proof (Nat.div_mod_eq n ring_capacity) as Hdiv. pose proof (Nat.mod_upper_bound n ring_capacity) as Hmod.
  pose proof ring_capacity_pos as Hcap.
  destruct (transfer_round (n / ring_capacity) reader rbuf wbuf n [] [] message w Ht eq_refl Hn) as (w1 & E1 & Ht1 & Hm1 & Hs1 & Hv1).
  { by rewrite Z.add_0_r, Nat.sub_0_r. }
  cbn [length app] in *. rewrite Nat.sub_0_r, Nat.add_0_l in *. rewrite Nat.add_1_r, E1. clear E1.
  destruct (decide _) as [Hd|Hd].
  - replace (ring_capacity `min` n)%nat with ring_capacity%nat in * by lia. specialize (Ho ltac:(lia)).
    assert (length (take ring_capacity message) = ring_capacity%nat) as Hl by (rewrite length_take; fold n; lia).
    destruct (pipe_transfer_spec (n / ring_capacity) reader rbuf wbuf n (take ring_capacity message) (take ring_capacity message) (drop ring_capacity other) w1)
      as (w2 & E2 & [_ Hc2 _ Hg2] & Hm2); [done|done|done|lia| |lia|].
    + rewrite Hl, Hs1, Hm1, Hv1 by lia. replace (wbuf + Z.of_nat ring_capacity) with (wbuf + Z.of_nat 0 + Z.of_nat ring_capacity) by lia.
      pose proof (length_peek _ _ _ _ _ Ho). rewrite <-(Z.add_0_r wbuf) in Ho. change 0 with (Z.of_nat 0) in Ho.
      rewrite (peek_app _ _ _ _ _ _ _ Ho) by lia. f_equal. apply take_ge. rewrite length_drop. lia.
    + exists w2. split_and!; [exact E2|exact Hc2| |].
      * fold delivered in Hg2. rewrite <-Hg2, Hm2, Hm1. f_equal. unfold delivered. rewrite length_app, length_drop, Hl, (length_peek _ _ _ _ _ Ho). lia.
      * intros [?| ->]; [lia|]. apply take_drop.
  - rewrite take_ge in Ht1 by (fold n; lia). destruct Ht1 as [_ Hc1 _ Hg1]. exists w1.
    assert (delivered = message) as Hdel.
    { unfold delivered. rewrite drop_ge by lia. rewrite take_ge by (fold n; lia). by rewrite app_nil_r. }
    rewrite Hdel, take_ge by (fold n; lia). by rewrite <-Hm1.
Qed.

(** The two ends of a pipe are not symmetric: [hang_up] of a read end says whether all write
    ends are closed, but [hang_up] of a write end panics, on every pipe that reads and writes on a
    new pipe can lead to, because the read end is never registered in the buffer. *)
Theorem write_end_hang_up_panics w reader rbuf want wbuf len c :
  pw_pipe w = make_pipe.2 → rtc pipe_step (conn_start w reader rbuf want wbuf len) c →
  Pipe_hang_up write_end_with_buffer (pipe_of c) = Panic Unwrap ∧
  Pipe_hang_up read_end_with_buffer (pipe_of c) = Ok (write_refs (pipe_of c) =? 0)%nat.
Proof.
  intros Hw Hsteps. destruct (pipe_steps_inv _ _ Hsteps) as (bs & [Hp _ _ _ _] & _).
  { apply conn_start_inv. rewrite Hw. apply make_pipe_inv. }
  unfold Pipe_hang_up, all_read_ends_closed, all_write_ends_closed.
  by rewrite (pi_read _ Hp), (pi_write _ Hp).
Qed.

(** ** Draining a closed pipe *)

Lemma Pipe_read_closed fuel buf want w :
  pipe_inv (pw_pipe w) → write_refs (pw_pipe w) = 0%nat → backed (active w) buf want = true →
  (1 < fuel)%nat → (0 < want)%nat →
  let l := contents (ring (pw_pipe w)) in
  ∃ w', Pipe_read fuel buf want w = Ok (take want l, w') ∧ pipe_inv (pw_pipe w') ∧
    write_refs (pw_pipe w') = 0%nat ∧ active w' = active w ∧ contents (ring (pw_pipe w')) = drop want l.
Proof.
  intros Hi Hw Hb Hf Hwant l. destruct fuel as [|[|fuel]]; [lia..|]. unfold Pipe_read. cbn [loopM].
  pose proof (read_turn_spec buf want [] w Hi) as H1. cbn [length app] in H1. rewrite Nat.sub_0_r, Hw in H1. fold l in H1.
  cbn zeta in H1. rewrite (backed_sub _ want _ 0) in H1 by (done || lia). destruct H1 as (st1 & E1 & Hi1 & [Hs1 _] & Hc1).
  erewrite bind_Ok by exact E1. clear E1. set (w1 := set_field pw_mem _ _). rewrite Hw in Hs1.
  destruct l as [|b l'] eqn:El.
  { exists w1. rewrite drop_nil in *. rewrite (take_nil want). by split_and!. }
  rewrite <-El in *. cbn [Nat.eqb]. case_decide as Hd.
  - rewrite drop_ge in Hc1 by lia. pose proof (read_turn_spec buf want (take (length l `min` want) l) w1 Hi1) as H2.
    cbn zeta in H2. change (pw_pipe w1) with st1 in H2. rewrite Hc1, Hs1 in H2. cbn [length Nat.min backed Nat.eqb drop] in H2.
    destruct H2 as (st2 & E2 & Hi2 & [Hs2 _] & Hc2). cbn iota. erewrite bind_Ok by exact E2.
    eexists. rewrite take_nil, app_nil_r, drop_ge, !take_ge by lia. split_and!; [reflexivity|exact Hi2|exact (eq_trans Hs2 Hs1)|done|exact Hc2].
  - exists w1. replace (length l `min` want)%nat with want in * by lia. by split_and!.
Qed.

Lemma Pipe_read_all_closed n : ∀ rounds fuel buf v w,
  pipe_inv (pw_pipe w) → write_refs (pw_pipe w) = 0%nat → backed (active w) buf 512 = true → (1 < fuel)%nat →
  (length (contents (ring (pw_pipe w))) ≤ n * 512)%nat → (n < rounds)%nat →
  ∃ w', loopM rounds (λ v, chunk ← Pipe_read fuel buf 512;
                     match chunk with [] => mret (inr v) | _ :: _ => mret (inl (v ++ chunk)) end) v w
        = Ok (v ++ contents (ring (pw_pipe w)), w') ∧ contents (ring (pw_pipe w')) = [].
Proof.
  induction n as [|n IH]; intros rounds fuel buf v w Hi Hw Hb Hf Hn Hr;
    (destruct rounds as [|rounds]; [lia|]); cbn [loopM];
    destruct (Pipe_read_closed fuel buf 512 w Hi Hw Hb Hf) as (w1 & E1 & Hi1 & Hw1 & Ha1 & Hc1); [lia| |lia|];
    rewrite bind_bind; erewrite bind_Ok by exact E1.
  - destruct (contents (ring (pw_pipe w))) as [|b l] eqn:Ec; [|simpl in Hn; lia].
    rewrite take_nil. run. exists w1. by rewrite app_nil_r.
  - destruct (take 512 (contents (ring (pw_pipe w)))) as [|b l] eqn:Et.
    + assert (contents (ring (pw_pipe w)) = []) as Ec.
      { destruct (contents (ring (pw_pipe w))); [done|]. by rewrite firstn_cons in Et. }
      rewrite Ec in *. run. exists w1. by rewrite app_nil_r.
    + run. rewrite <-Et.
      destruct (IH rounds fuel buf (v ++ take 512 (contents (ring (pw_pipe w)))) w1) as (w2 & E2 & Hc2);
        [done|done|by rewrite Ha1|lia| |lia|].
      { rewrite Hc1, length_drop. lia. }
      exists w2. rewrite E2, Hc1, <-app_assoc, take_drop. done.
Qed.

(** On a pipe whose write ends are all closed [read_all] terminates, returns every byte left in
    the buffer and leaves it empty; the loop needs at most eight reads of 512 bytes. *)
Theorem pipe_read_all_drains buf w :
  pipe_inv (pw_pipe w) → write_refs (pw_pipe w) = 0%nat → backed (active w) buf 512 = true →
  ∃ w', Pipe_read_all 8 buf w = Ok (contents (ring (pw_pipe w)), w') ∧ contents (ring (pw_pipe w')) = [].
Proof.
  intros Hi Hw Hb. apply (Pipe_read_all_closed 7 8 8 buf [] w); [done|done|done|lia| |lia].
  pose proof (length_contents _ (pi_ring _ Hi)). pose proof (available_read_range _ (pi_ring _ Hi)). lia.
Qed.

(** ** Witnesses *)

(** Address spaces of one megabyte each, one after the other in physical memory. *)
Definition example_world (st : PipeState) : PipeWorld :=
  {| pw_pipe := st; pw_satp := 0; pw_map := λ s va, Some (va + 1000003 * Z.of_nat s);
     pw_mem := λ pa, pa mod 256 |}.

Lemma pipe_preserves_stream_witness : ∃ c,
  rtc pipe_step (conn_start (example_world (make_pipe.2)) 1 0 2 7 3) c ∧ c_write_returned c = true ∧
  c_got c ++ contents (ring (pipe_of c)) = c_sent c ∧ c_sent c = [7; 8; 9].
Proof.
  pose proof (write_turn_spec 7 3 [] (example_world (make_pipe.2)) (proj1 make_pipe_inv)) as Hw.
  destruct Hw as (st' & E & _).
  eexists. assert (∀ P Q : Prop, P → (P → Q) → P ∧ Q) as Hand by tauto. apply Hand.
  - eapply rtc_once, step_write; [reflexivity|exact E].
  - intros Hsteps. apply Hand; [reflexivity|]. intros Hret.
    split; [|reflexivity].
    exact (proj1 (pipe_preserves_stream (example_world (make_pipe.2)) _ _ _ _ _ _ (proj1 make_pipe_inv) Hsteps)).
Defined.

Lemma pipe_transfer_delivers_witness :
  let message := (λ i, Z.of_nat i mod 256) <$> seq 0 3202 in
  let w := example_world (make_pipe.2) in
  ∃ w', pipe_transfer 2 0 3202 [] 1 65536 3202 [] w = Ok (take 3200 message ++ [195; 196], w') ∧
    contents (ring (pw_pipe w')) = [].
Proof.
  intros message w.
  destruct (pipe_transfer_delivers w 1 65536 0 message ((λ i, (Z.of_nat i + 1000003) mod 256) <$> seq 0 3202)
              (proj1 make_pipe_inv) (proj2 make_pipe_inv)) as (w' & E & Hc & _).
  - discriminate.
  - vm_compute. reflexivity.
  - intros _. vm_compute. reflexivity.
  - vm_compute. reflexivity.
  - split; [vm_compute; reflexivity|intros i j _ _ [= E]; lia|].
    intros i j _ Hj [= E]. change (length message) with 3202%nat in Hj. lia.
  - exists w'. split; [|exact Hc]. vm_cast_no_check E.
Defined.

Lemma write_end_hang_up_panics_witness :
  Pipe_hang_up write_end_with_buffer (make_pipe.2) = Panic Unwrap ∧
  Pipe_hang_up read_end_with_buffer (make_pipe.2) = Ok false.
Proof.
  exact (write_end_hang_up_panics (example_world (make_pipe.2)) 1 0 0 0 0 _ eq_refl (rtc_refl _ _)).
Defined.

Lemma pipe_read_all_drains_witness : ∃ w',
  Pipe_read_all 8 4096 (example_world (drop_write_end (make_pipe.2))) = Ok ([], w') ∧
  contents (ring (pw_pipe w')) = [].
Proof.
  apply (pipe_read_all_drains 4096 (example_world (drop_write_end (make_pipe.2)))); [|reflexivity|reflexivity].
  destruct make_pipe_inv as [[H1 H2 H3] _]. split; [exact H1|exact H2|exact H3].
Defined.
