(* ===== verification/BlockCache.v ===== *)
(** * The block cache ([os/src/block/])

    [BlockDevice] is the trait of [block_dev.rs]; what its clients rely on is [BlockDeviceOk].  The
    manager of [block_cache.rs] keeps at most sixteen blocks behind [Arc]s, which are modelled as
    references into a store with their strong counts, since eviction depends on the counts.  The
    manager looks blocks up by number only, whatever the device, so that the model has one device.
    Clients use the cache through [bc_read] and [bc_modify]; [BlockStore] is the interface they
    see, and the cache implements it over any device that satisfies [BlockDeviceOk]. *)

From Stdlib Require Import ZArith Lia.
From stdpp Require Import functions prelude gmap.
From S2P Require Import Prelude.

Open Scope Z_scope.

Definition BLOCK_SZ : Z := 512.
Definition BLOCK_CACHE_SIZE : nat := 16.

(** ** The device *)

Class BlockDevice (D : Type) := {
  read_block : Z → M D (list Z);
  write_block : Z → list Z → M D unit;
}.

(** A device that stores what is written to each of its blocks. *)
Class BlockDeviceOk (D : Type) `{!BlockDevice D} := {
  disk : D → Z → list Z;
  dev_wf : D → Prop;
  has_block : Z → Prop;
  disk_length d id : dev_wf d → has_block id → length (disk d id) = 512%nat;
  read_block_ok d id :
    dev_wf d → has_block id →
    ∃ d', read_block id d = Ok (disk d id, d') ∧ dev_wf d' ∧ ∀ i, disk d' i = disk d i;
  write_block_ok d id buf :
    dev_wf d → has_block id → length buf = 512%nat →
    ∃ d', write_block id buf d = Ok ((), d') ∧ dev_wf d' ∧
      ∀ i, disk d' i = if decide (i = id) then buf else disk d i;
}.

(** ** Blocks, references and the manager *)

Record BlockCache := {
  bc_cache : list Z;
  bc_block_id : Z;
  bc_modified : bool;
}.

Section manager.
Context {D : Type} `{!BlockDevice D}.

Record CacheState := {
  arcs : gmap nat (BlockCache * nat);   (* the shared blocks, with their strong counts *)
  queue : list (Z * nat);               (* [BlockCacheManager::queue] *)
  dev : D;
}.

Definition set_arcs (a : gmap nat (BlockCache * nat)) (s : CacheState) : CacheState :=
  {| arcs := a; queue := queue s; dev := dev s |}.
Definition set_queue (q : list (Z * nat)) (s : CacheState) : CacheState :=
  {| arcs := arcs s; queue := q; dev := dev s |}.
Definition set_dev (d : D) (s : CacheState) : CacheState :=
  {| arcs := arcs s; queue := queue s; dev := d |}.

Definition on_dev {A} (m : M D A) : M CacheState A := λ s,
  match m (dev s) with
  | Ok (a, d) => Ok (a, set_dev d s)
  | Panic f => Panic f
  | NoFuel => NoFuel
  end.

Definition BlockCache_new (block_id : Z) : M D BlockCache :=
  cache ← read_block block_id;
  mret {| bc_cache := cache; bc_block_id := block_id; bc_modified := false |}.

Definition BlockCache_sync (c : BlockCache) : M D BlockCache :=
  if bc_modified c then
    write_block (bc_block_id c) (bc_cache c);;
    mret {| bc_cache := bc_cache c; bc_block_id := bc_block_id c; bc_modified := false |}
  else mret c.

Definition BlockCache_drop (c : BlockCache) : M D unit := BlockCache_sync c;; mret ().

(** [Arc::new], [Arc::clone], [Arc::strong_count] and the drop of an [Arc] *)
Definition arc_new (c : BlockCache) : M CacheState nat :=
  s ← get;
  let h := fresh (dom (arcs s)) in
  put (set_arcs (<[h := (c, 1%nat)]> (arcs s)) s);;
  mret h.
Definition arc_clone (h : nat) : M CacheState unit :=
  s ← get;
  '(c, n) ← unwrap (arcs s !! h);
  put (set_arcs (<[h := (c, S n)]> (arcs s)) s).
Definition strong_count (s : CacheState) (h : nat) : nat :=
  match arcs s !! h with Some (_, n) => n | None => 0 end.
Definition arc_drop (h : nat) : M CacheState unit :=
  s ← get;
  '(c, n) ← unwrap (arcs s !! h);
  if (n =? 1)%nat then
    put (set_arcs (delete h (arcs s)) s);;
    on_dev (BlockCache_drop c)
  else put (set_arcs (<[h := (c, pred n)]> (arcs s)) s).

(** [addr_of_offset], [get_ref] and [get_mut] on the bytes of a block *)
Definition BlockCache_check (offset size : Z) (c : BlockCache) : outcome unit :=
  if negb (wadd offset size <=? BLOCK_SZ) then Panic Assert
  else if negb (offset <? Z.of_nat (length (bc_cache c))) then Panic Bounds else Ok ().

Definition BlockCache_get_ref (offset size : Z) (c : BlockCache) : outcome (list Z) :=
  _ ← BlockCache_check offset size c;
  Ok (slice (bc_cache c) (Z.to_nat offset) (Z.to_nat (offset + size))).

Definition BlockCache_read {V} (offset size : Z) (f : list Z → V) (c : BlockCache) : outcome V :=
  x ← BlockCache_get_ref offset size c; Ok (f x).

(** The closure gets the bytes and gives a result and the new bytes. *)
Definition BlockCache_modify {V} (offset size : Z) (f : list Z → V * list Z) (c : BlockCache)
    : outcome (V * BlockCache) :=
  x ← BlockCache_get_ref offset size c;
  let '(v, y) := f x in
  Ok (v, {| bc_cache := splice (bc_cache c) (Z.to_nat offset) y; bc_block_id := bc_block_id c;
            bc_modified := true |}).

(** [BlockCacheManager::get_block_cache] *)
Definition make_room : M CacheState unit :=
  s ← get;
  if (length (queue s) =? BLOCK_CACHE_SIZE)%nat then
    match list_find (λ p : Z * nat, strong_count s p.2 = 1%nat) (queue s) with
    | Some (idx, p) => put (set_queue (delete idx (queue s)) s);; arc_drop (p.2)
    | None => panic Explicit
    end
  else mret ().

Definition get_block_cache (block_id : Z) : M CacheState nat :=
  s ← get;
  match list_find (λ p : Z * nat, p.1 = block_id) (queue s) with
  | Some (_, p) => arc_clone (p.2);; mret (p.2)
  | None =>
      make_room;;
      c ← on_dev (BlockCache_new block_id);
      h ← arc_new c;
      arc_clone h;;
      modify (λ s, set_queue (queue s ++ [(block_id, h)]) s);;
      mret h
  end.

(** [block_cache_sync_all] *)
Definition sync_one (h : nat) : M CacheState unit :=
  s ← get;
  '(c, n) ← unwrap (arcs s !! h);
  c' ← on_dev (BlockCache_sync c);
  modify (λ s, set_arcs (<[h := (c', n)]> (arcs s)) s).
Definition block_cache_sync_all : M CacheState unit :=
  s ← get;
  foldM (λ _ p, sync_one (p.2)) () (queue s).

(** [get_block_cache(id, bdev).lock().read(offset, f)], the reference dropped at the end of the
    statement, and the same with [modify] *)
Definition bc_read {V} (block_id offset size : Z) (f : list Z → V) : M CacheState V :=
  h ← get_block_cache block_id;
  s ← get;
  '(c, _) ← unwrap (arcs s !! h);
  v ← lift (BlockCache_read offset size f c);
  arc_drop h;;
  mret v.
Definition bc_modify {V} (block_id offset size : Z) (f : list Z → V * list Z) : M CacheState V :=
  h ← get_block_cache block_id;
  s ← get;
  '(c, n) ← unwrap (arcs s !! h);
  '(v, c') ← lift (BlockCache_modify offset size f c);
  put (set_arcs (<[h := (c', n)]> (arcs s)) s);;
  arc_drop h;;
  mret v.
End manager.

Arguments CacheState D : clear implicits.

(** * Coherence *)

Section coherence.
Context {D : Type} `{!BlockDevice D, !BlockDeviceOk D}.
Implicit Types (s : CacheState D).

(** What a client sees of block [id]: the cached bytes, or the bytes of the device. *)
Definition bview s (id : Z) : list Z :=
  match list_find (λ p : Z * nat, p.1 = id) (queue s) with
  | Some (_, p) => match arcs s !! p.2 with Some (c, _) => bc_cache c | None => [] end
  | None => disk (dev s) id
  end.

(** A cached block is the one it claims to be, and is clean unless marked modified. *)
Record entry_ok (d : D) (id : Z) (c : BlockCache) (n : nat) : Prop := {
  eo_id : bc_block_id c = id;
  eo_len : length (bc_cache c) = 512%nat;
  eo_has : has_block id;
  eo_count : (1 ≤ n)%nat;
  eo_clean : bc_modified c = false → bc_cache c = disk d id;
}.

Record cache_inv s : Prop := {
  cv_dev : dev_wf (dev s);
  cv_size : (length (queue s) ≤ BLOCK_CACHE_SIZE)%nat;
  cv_ids : NoDup ((queue s).*1);
  cv_handles : NoDup ((queue s).*2);
  cv_entry id h : (id, h) ∈ queue s → ∃ c n, arcs s !! h = Some (c, n) ∧ entry_ok (dev s) id c n;
  cv_dom h : is_Some (arcs s !! h) → h ∈ (queue s).*2;
}.

Lemma find_queue s id h :
  cache_inv s → (id, h) ∈ queue s → ∃ i, list_find (λ p : Z * nat, p.1 = id) (queue s) = Some (i, (id, h)).
Proof.
  intros Hi Hin. apply list_elem_of_lookup_1 in Hin as [i Hl]. exists i. apply list_find_Some.
  split_and!; [done|done|]. intros j [id' h'] Hj Hlt Heq. simpl in Heq. subst id'.
  assert (j = i); [|lia]. eapply (NoDup_lookup (queue s).*1); [apply Hi| |];
    rewrite list_lookup_fmap; [rewrite Hj|rewrite Hl]; done.
Qed.

Lemma find_queue_inv s id i p :
  list_find (λ p : Z * nat, p.1 = id) (queue s) = Some (i, p) → p.1 = id ∧ (id, p.2) ∈ queue s.
Proof.
  intros (Hl & Hp & _)%list_find_Some. split; [done|]. apply list_elem_of_lookup_2 in Hl.
  destruct p. simpl in *. by subst.
Qed.

Lemma not_queued s id :
  id ∉ (queue s).*1 → list_find (λ p : Z * nat, p.1 = id) (queue s) = None.
Proof.
  intros Hni. apply list_find_None, Forall_forall. intros p Hp Heq. apply Hni. subst id.
  apply list_elem_of_fmap. by exists p.
Qed.

Lemma bview_queued s id h c n :
  cache_inv s → (id, h) ∈ queue s → arcs s !! h = Some (c, n) → bview s id = bc_cache c.
Proof.
  intros Hi Hin Hc. destruct (find_queue s id h Hi Hin) as [i E]. unfold bview. rewrite E. simpl. by rewrite Hc.
Qed.

Lemma bview_not_queued s id : id ∉ (queue s).*1 → bview s id = disk (dev s) id.
Proof. intros H. unfold bview. by rewrite not_queued. Qed.

(** Two states whose caches and devices agree on a block show the same bytes. *)
Lemma bview_ext s s' id :
  cache_inv s → cache_inv s' →
  (∀ h c n, (id, h) ∈ queue s → arcs s !! h = Some (c, n) →
     ∃ c' n', (id, h) ∈ queue s' ∧ arcs s' !! h = Some (c', n') ∧ bc_cache c' = bc_cache c) →
  (id ∉ (queue s).*1 → (id ∉ (queue s').*1) ∧ disk (dev s') id = disk (dev s) id) →
  bview s' id = bview s id.
Proof.
  intros Hi Hi' Hq Hn. destruct (decide (id ∈ (queue s).*1)) as [Hin|Hni].
  - apply list_elem_of_fmap in Hin as ([id' h] & -> & Hin). simpl in *.
    destruct (cv_entry s Hi id' h Hin) as (c & n & Hc & _).
    destruct (Hq h c n Hin Hc) as (c' & n' & Hin' & Hc' & E).
    rewrite (bview_queued s id' h c n), (bview_queued s' id' h c' n') by done. done.
  - destruct (Hn Hni) as [Hni' E]. by rewrite !bview_not_queued.
Qed.

Lemma handle_inj s id id' h : cache_inv s → (id, h) ∈ queue s → (id', h) ∈ queue s → id = id'.
Proof.
  intros Hi (i & Hl)%list_elem_of_lookup_1 (j & Hl')%list_elem_of_lookup_1.
  assert (i = j) as ->.
  { eapply (NoDup_lookup (queue s).*2); [apply Hi| |]; rewrite list_lookup_fmap; [rewrite Hl|rewrite Hl']; done. }
  congruence.
Qed.

Lemma id_inj s id h h' : cache_inv s → (id, h) ∈ queue s → (id, h') ∈ queue s → h = h'.
Proof.
  intros Hi H1 H2. destruct (find_queue s id h Hi H1) as [i E1], (find_queue s id h' Hi H2) as [j E2]. congruence.
Qed.

(** Writing a block back makes it clean and changes no view. *)
Lemma sync_spec d c :
  dev_wf d → has_block (bc_block_id c) → length (bc_cache c) = 512%nat →
  (bc_modified c = false → bc_cache c = disk d (bc_block_id c)) →
  ∃ d', BlockCache_sync c d
        = Ok ({| bc_cache := bc_cache c; bc_block_id := bc_block_id c; bc_modified := false |}, d') ∧
    dev_wf d' ∧ ∀ i, disk d' i = if decide (i = bc_block_id c) then bc_cache c else disk d i.
Proof.
  intros Hd Hh Hl Hcl. unfold BlockCache_sync. destruct (bc_modified c) eqn:E.
  - destruct (write_block_ok d (bc_block_id c) (bc_cache c) Hd Hh Hl) as (d' & E' & Hd' & Hdisk).
    exists d'. erewrite bind_Ok by exact E'. by split_and!.
  - exists d. split_and!; [|done|].
    + destruct c; simpl in *. by subst.
    + intros i. case_decide as Hi; [|done]. subst i. symmetry. by apply Hcl.
Qed.

Lemma on_dev_Ok {A} (m : M D A) s a d : m (dev s) = Ok (a, d) → on_dev m s = Ok (a, set_dev d s).
Proof. intros E. unfold on_dev. by rewrite E. Qed.

(** Replacing a cached block by another for the same number, the device following suit. *)
Lemma cache_inv_update s d h id c n c' n' :
  cache_inv s → (id, h) ∈ queue s → arcs s !! h = Some (c, n) →
  dev_wf d → (∀ i, i ≠ id → disk d i = disk (dev s) i) →
  entry_ok d id c' n' →
  let s' := set_dev d (set_arcs (<[h := (c', n')]> (arcs s)) s) in
  cache_inv s' ∧ bview s' id = bc_cache c' ∧ ∀ i, i ≠ id → bview s' i = bview s i.
Proof.
  intros Hi Hin Hc Hd Hdisk Hok s'.
  assert (cache_inv s') as Hi'.
  { destruct Hi as [H1 H2 H3 H4 H5 H6]. split; simpl; [done..| |].
    - intros id1 h1 Hin1. destruct (decide (h1 = h)) as [->|Hne].
      + exists c', n'. rewrite lookup_insert_eq. split; [done|].
        rewrite (handle_inj s id1 id h); [done|by split|done|done].
      + rewrite lookup_insert_ne by done. destruct (H5 id1 h1 Hin1) as (c1 & n1 & Hc1 & [E1 E2 E3 E4 E5]).
        exists c1, n1. split; [done|]. split; [done..|]. simpl.
        rewrite Hdisk; [done|]. intros ->. apply Hne. eapply id_inj; [by split|done..].
    - intros h1. destruct (decide (h1 = h)) as [->|Hne].
      + intros _. apply list_elem_of_fmap. by exists (id, h).
      + rewrite lookup_insert_ne by done. apply H6. }
  split_and!; [done| |].
  - apply (bview_queued s' id h c' n'); [done|done|]. simpl. apply lookup_insert_eq.
  - intros i Hne. apply bview_ext; [done|done| |].
    + intros h1 c1 n1 Hin1 Hc1. exists c1, n1. simpl. split; [done|].
      rewrite lookup_insert_ne; [done|]. intros <-. apply Hne. by apply (handle_inj s i id h).
    + intros Hni. simpl. split; [done|]. by apply Hdisk.
Qed.

Lemma sync_one_spec s id h :
  cache_inv s → (id, h) ∈ queue s →
  ∃ s', sync_one h s = Ok ((), s') ∧ cache_inv s' ∧ queue s' = queue s ∧
    (∀ h', strong_count s' h' = strong_count s h') ∧ (∀ i, bview s' i = bview s i) ∧
    disk (dev s') id = bview s id ∧ (∀ i, i ≠ id → disk (dev s') i = disk (dev s) i).
Proof.
  intros Hi Hin. destruct (cv_entry s Hi id h Hin) as (c & n & Hc & [E1 E2 E3 E4 E5]). subst id.
  destruct (sync_spec (dev s) c) as (d & E & Hd & Hdisk); [apply Hi|done..|].
  unfold sync_one. run. rewrite Hc. run. erewrite bind_Ok by (by apply on_dev_Ok).
  eexists. split; [reflexivity|]. pose proof (bview_queued s _ h c n Hi Hin Hc) as Hv.
  destruct (cache_inv_update s d h _ c n {| bc_cache := bc_cache c; bc_block_id := bc_block_id c; bc_modified := false |} n Hi Hin Hc Hd)
    as (Hi' & Hv' & Hvo).
  { intros i Hne. rewrite Hdisk. by rewrite decide_False. }
  { split; simpl; [done..|]. intros _. rewrite Hdisk. by rewrite decide_True. }
  split_and!; [exact Hi'|done| | | |].
  - intros h'. unfold strong_count. simpl. destruct (decide (h' = h)) as [->|];
      [by rewrite lookup_insert_eq, Hc|by rewrite lookup_insert_ne].
  - intros i. destruct (decide (i = bc_block_id c)) as [->|]; [by rewrite Hv|by apply Hvo].
  - simpl. rewrite Hdisk, decide_True by done. done.
  - intros i Hne. simpl. rewrite Hdisk. by rewrite decide_False.
Qed.

Lemma sync_list_spec l : ∀ s,
  cache_inv s → (∀ id h, (id, h) ∈ l → (id, h) ∈ queue s) →
  ∃ s', foldM (λ _ p, sync_one (p.2)) () l s = Ok ((), s') ∧ cache_inv s' ∧ queue s' = queue s ∧
    (∀ h', strong_count s' h' = strong_count s h') ∧ (∀ i, bview s' i = bview s i) ∧
    ∀ i, disk (dev s') i = if decide (i ∈ l.*1) then bview s i else disk (dev s) i.
Proof.
  induction l as [|[id h] l IH]; intros s Hi Hl; cbn [foldM].
  { exists s. split_and!; [done..|]. intros i. rewrite decide_False; [done|]. simpl. apply not_elem_of_nil. }
  destruct (sync_one_spec s id h Hi) as (s1 & E1 & Hi1 & Hq1 & Hn1 & Hv1 & Hd1 & Ho1); [apply Hl; left|].
  simpl. erewrite bind_Ok by exact E1.
  destruct (IH s1 Hi1) as (s2 & E2 & Hi2 & Hq2 & Hn2 & Hv2 & Hd2).
  { intros id' h' H'. rewrite Hq1. apply Hl. by right. }
  exists s2. split_and!; [exact E2|done|congruence|congruence|congruence|].
  intros i. rewrite Hd2, Hv1. simpl. destruct (decide (i ∈ l.*1)) as [Hin|Hni].
  - rewrite decide_True; [done|]. by right.
  - destruct (decide (i = id)) as [->|Hne].
    + rewrite decide_True; [done|]. left.
    + rewrite decide_False; [by apply Ho1|]. rewrite elem_of_cons. tauto.
Qed.

Lemma sync_all_spec s :
  cache_inv s →
  ∃ s', block_cache_sync_all s = Ok ((), s') ∧ cache_inv s' ∧ queue s' = queue s ∧
    (∀ h', strong_count s' h' = strong_count s h') ∧ (∀ i, bview s' i = bview s i) ∧
    ∀ i, disk (dev s') i = bview s i.
Proof.
  intros Hi. unfold block_cache_sync_all. run.
  destruct (sync_list_spec (queue s) s Hi) as (s' & E & Hi' & Hq & Hn & Hv & Hd); [done|].
  exists s'. split_and!; [done..|]. intros i. rewrite Hd. case_decide as Hin; [done|].
  symmetry. by apply bview_not_queued.
Qed.

(** Taking an unreferenced block out of the queue writes it back. *)
Lemma evict_spec s l1 l2 id h c :
  cache_inv s → queue s = l1 ++ (id, h) :: l2 → arcs s !! h = Some (c, 1%nat) →
  ∃ s', arc_drop h (set_queue (l1 ++ l2) s) = Ok ((), s') ∧ cache_inv s' ∧
    queue s' = l1 ++ l2 ∧ arcs s' = delete h (arcs s) ∧ ∀ i, bview s' i = bview s i.
Proof.
  intros Hi Hq Hc. assert ((id, h) ∈ queue s) as Hin by (rewrite Hq; set_solver).
  destruct (cv_entry s Hi id h Hin) as (c0 & n0 & Hc0 & [E1 E2 E3 E4 E5]).
  rewrite Hc in Hc0. injection Hc0 as <- <-.
  destruct (sync_spec (dev s) c) as (d & E & Hd & Hdisk); [apply Hi|by rewrite E1|done|by rewrite E1|].
  rewrite E1 in Hdisk.
  pose proof (cv_ids s Hi) as Hids. pose proof (cv_handles s Hi) as Hhs.
  rewrite Hq, <-Permutation_middle, fmap_cons, NoDup_cons in Hids.
  rewrite Hq, <-Permutation_middle, fmap_cons, NoDup_cons in Hhs.
  destruct Hids as [Hnid Hids], Hhs as [Hnh Hhs].
  assert (∀ i k, (i, k) ∈ l1 ++ l2 → (i, k) ∈ queue s ∧ i ≠ id ∧ k ≠ h) as Hsub.
  { intros i k Hik. split_and!.
    - rewrite Hq. apply elem_of_app in Hik as [?|?]; apply elem_of_app; [by left|right; by right].
    - intros ->. apply Hnid. apply list_elem_of_fmap. by exists (id, k).
    - intros ->. apply Hnh. apply list_elem_of_fmap. by exists (i, h). }
  set (s' := set_dev d (set_arcs (delete h (arcs s)) (set_queue (l1 ++ l2) s))).
  assert (cache_inv s') as Hi'.
  { split; simpl; [done| |done|done| |].
    - pose proof (cv_size s Hi) as Hsz. rewrite Hq in Hsz. rewrite length_app in *. simpl in Hsz. lia.
    - intros i k Hik. destruct (Hsub i k Hik) as (Hik' & Hni & Hnk).
      destruct (cv_entry s Hi i k Hik') as (c1 & n1 & Hc1 & [F1 F2 F3 F4 F5]).
      exists c1, n1. rewrite lookup_delete_ne by done. split; [done|]. split; [done..|].
      rewrite Hdisk, decide_False by done. done.
    - intros k [x Hk]. destruct (decide (k = h)) as [->|Hne]; [by rewrite lookup_delete_eq in Hk|].
      rewrite lookup_delete_ne in Hk by done.
      assert (k ∈ (queue s).*2) as Hkq by (apply Hi; by exists x).
      rewrite Hq, fmap_app, fmap_cons in Hkq. rewrite fmap_app. cbn [snd] in Hkq.
      rewrite elem_of_app, elem_of_cons in Hkq. apply elem_of_app. tauto. }
  exists s'. split_and!; [|done|done|done|].
  - unfold arc_drop. run. cbn [arcs set_queue]. rewrite Hc. run. cbn [Nat.eqb]. run.
    apply on_dev_Ok. cbn [dev set_arcs set_queue]. unfold BlockCache_drop. by erewrite bind_Ok by exact E.
  - intros i. destruct (decide (i = id)) as [->|Hne].
    + rewrite (bview_queued s id h c 1) by done. rewrite bview_not_queued by done. simpl.
      rewrite Hdisk, decide_True by done. done.
    + apply bview_ext; [done|done| |].
      * intros k c1 n1 Hik Hc1. exists c1, n1. simpl.
        assert (k ≠ h). { intros ->. apply Hne. by apply (handle_inj s i id h). }
        rewrite lookup_delete_ne by done. split_and!; [|done|done].
        rewrite Hq in Hik. rewrite elem_of_app, elem_of_cons in Hik. apply elem_of_app.
        destruct Hik as [?|[?|?]]; [by left|congruence|by right].
      * intros Hni. simpl. split; [|by rewrite Hdisk, decide_False].
        rewrite Hq, fmap_app, fmap_cons in Hni. rewrite fmap_app. rewrite elem_of_app, elem_of_cons in *. tauto.
Qed.

(** Loading a block that is not cached. *)
Definition load_block (block_id : Z) : M (CacheState D) nat :=
  c ← on_dev (BlockCache_new block_id);
  h ← arc_new c;
  arc_clone h;;
  modify (λ s, set_queue (queue s ++ [(block_id, h)]) s);;
  mret h.

Lemma load_spec s id :
  cache_inv s → has_block id → id ∉ (queue s).*1 → (length (queue s) < BLOCK_CACHE_SIZE)%nat →
  ∃ h c s', load_block id s = Ok (h, s') ∧ cache_inv s' ∧ queue s' = queue s ++ [(id, h)] ∧
    arcs s !! h = None ∧ arcs s' = <[h := (c, 2%nat)]> (arcs s) ∧ ∀ i, bview s' i = bview s i.
Proof.
  intros Hi Hh Hni Hlen. destruct (read_block_ok (dev s) id) as (d & E & Hd & Hdisk); [apply Hi|done|].
  set (c := {| bc_cache := disk (dev s) id; bc_block_id := id; bc_modified := false |}).
  set (h := fresh (dom (arcs s))).
  assert (arcs s !! h = None) as Hfresh by (apply not_elem_of_dom, is_fresh).
  set (s' := {| arcs := <[h := (c, 2%nat)]> (arcs s); queue := queue s ++ [(id, h)]; dev := d |}).
  assert (h ∉ (queue s).*2) as Hnh.
  { intros ([i k] & -> & Hin)%list_elem_of_fmap. destruct (cv_entry s Hi i k Hin) as (? & ? & Hc & _).
    simpl in Hfresh. congruence. }
  assert (cache_inv s') as Hi'.
  { split; simpl; [done| | | | |].
    - rewrite length_app. simpl. lia.
    - rewrite fmap_app. apply NoDup_app. split_and!; [apply Hi| |apply NoDup_singleton].
      intros x Hx ->%list_elem_of_singleton. done.
    - rewrite fmap_app. apply NoDup_app. split_and!; [apply Hi| |apply NoDup_singleton].
      intros x Hx ->%list_elem_of_singleton. done.
    - intros i k [Hin|[= -> ->]%list_elem_of_singleton]%elem_of_app.
      + destruct (cv_entry s Hi i k Hin) as (c1 & n1 & Hc1 & [F1 F2 F3 F4 F5]). exists c1, n1.
        rewrite lookup_insert_ne by congruence. split; [done|]. split; [done..|]. by rewrite Hdisk.
      + exists c, 2%nat. rewrite lookup_insert_eq. split; [done|]. split; simpl; [done| |done|lia|].
        * apply disk_length; [apply Hi|done].
        * intros _. by rewrite Hdisk.
    - intros k. rewrite fmap_app, elem_of_app. destruct (decide (k = h)) as [->|]; [right; left|].
      rewrite lookup_insert_ne by done. intros Hk. left. by apply Hi. }
  exists h, c, s'. split_and!; [|done|done|done|done|].
  - unfold load_block. erewrite bind_Ok.
    2: { apply on_dev_Ok. unfold BlockCache_new. erewrite bind_Ok by exact E. reflexivity. }
    unfold arc_new, arc_clone. run. cbn [arcs set_arcs set_dev]. fold h. rewrite lookup_insert_eq. run.
    rewrite insert_insert_eq. reflexivity.
  - intros i. destruct (decide (i = id)) as [->|Hne].
    { rewrite (bview_not_queued s id) by done. rewrite (bview_queued s' id h c 2); [done|done| |].
      - simpl. apply elem_of_app. right. by apply list_elem_of_singleton.
      - simpl. apply lookup_insert_eq. }
    apply bview_ext; [done|done| |].
    + intros k c1 n1 Hin Hc1. exists c1, n1. simpl. rewrite lookup_insert_ne by congruence.
      split_and!; [|done|done]. apply elem_of_app. by left.
    + intros Hni'. simpl. split; [|by apply Hdisk].
      rewrite fmap_app, elem_of_app. intros [?|?%list_elem_of_singleton]; done.
Qed.

(** A cached block that nobody but the manager refers to. *)
Definition evictable s : Prop := ∃ id h, (id, h) ∈ queue s ∧ strong_count s h = 1%nat.

Lemma make_room_spec s :
  cache_inv s → (length (queue s) < BLOCK_CACHE_SIZE)%nat ∨ evictable s →
  ∃ s', make_room s = Ok ((), s') ∧ cache_inv s' ∧ (length (queue s') < BLOCK_CACHE_SIZE)%nat ∧
    (∀ i, bview s' i = bview s i) ∧ (∀ p, p ∈ queue s' → p ∈ queue s) ∧
    (∀ i k, (i, k) ∈ queue s → (i, k) ∈ queue s' ∨ strong_count s k = 1%nat) ∧
    (∀ k, is_Some (arcs s' !! k) → arcs s' !! k = arcs s !! k).
Proof.
  intros Hi Hroom. unfold make_room. run.
  destruct (Nat.eqb_spec (length (queue s)) BLOCK_CACHE_SIZE) as [Hfull|Hnf].
  2: { exists s. pose proof (cv_size s Hi). split_and!; [done|done|lia|done|done|by left|done]. }
  destruct (list_find _ (queue s)) as [[idx [id h]]|] eqn:Ef.
  - apply list_find_Some in Ef as (Hl & Hc & _). simpl in Hc.
    pose proof (list_elem_of_lookup_2 _ _ _ Hl) as Hin.
    destruct (cv_entry s Hi id h Hin) as (c & n & Hch & _).
    unfold strong_count in Hc. rewrite Hch in Hc. subst n.
    pose proof (take_drop_middle _ _ _ Hl) as Hq. symmetry in Hq.
    destruct (evict_spec s _ _ id h c Hi Hq Hch) as (s' & E & Hi' & Hq' & Ha & Hv).
    exists s'. run. cbn [snd]. rewrite delete_take_drop. split_and!; [exact E|done| |done| | |].
    + rewrite Hq'. rewrite Hq in Hfull. rewrite length_app in *. simpl in Hfull. lia.
    + intros p. rewrite Hq', Hq, !elem_of_app, elem_of_cons. rewrite <-Hq. tauto.
    + intros i k. rewrite Hq', Hq, !elem_of_app, elem_of_cons. rewrite <-Hq.
      intros [?|[[= -> ->]|?]]; [by left; left|right|by left; right]. unfold strong_count. by rewrite Hch.
    + intros k. rewrite Ha. destruct (decide (k = h)) as [->|]; [rewrite lookup_delete_eq; by intros [? ?]|].
      by rewrite lookup_delete_ne.
  - exfalso. apply list_find_None in Ef. destruct Hroom as [?|(id & h & Hin & Hc)]; [lia|].
    rewrite Forall_forall in Ef. by apply (Ef (id, h) Hin).
Qed.

Lemma entry_ok_count d id c n n' : entry_ok d id c n → (1 ≤ n')%nat → entry_ok d id c n'.
Proof. intros [] ?. by split. Qed.

Lemma set_count_spec s id h c n n' :
  cache_inv s → (id, h) ∈ queue s → arcs s !! h = Some (c, n) → (1 ≤ n')%nat →
  let s' := set_arcs (<[h := (c, n')]> (arcs s)) s in
  cache_inv s' ∧ (∀ i, bview s' i = bview s i) ∧
  strong_count s' h = n' ∧ (∀ k, k ≠ h → strong_count s' k = strong_count s k).
Proof.
  intros Hi Hin Hc Hn s'. destruct (cv_entry s Hi id h Hin) as (c0 & n0 & Hc0 & Hok).
  rewrite Hc in Hc0. injection Hc0 as <- <-.
  destruct (cache_inv_update s (dev s) h id c n c n' Hi Hin Hc) as (Hi' & Hv & Hvo);
    [apply Hi|done|by eapply entry_ok_count|].
  split_and!; [exact Hi'| | |].
  - intros i. destruct (decide (i = id)) as [->|]; [|by apply Hvo].
    rewrite (bview_queued s id h c n) by done. exact Hv.
  - unfold strong_count, s'. simpl. by rewrite lookup_insert_eq.
  - intros k Hk. unfold strong_count, s'. simpl. by rewrite lookup_insert_ne.
Qed.

Lemma get_block_cache_spec s id :
  cache_inv s → has_block id →
  id ∈ (queue s).*1 ∨ (length (queue s) < BLOCK_CACHE_SIZE)%nat ∨ evictable s →
  ∃ h s', get_block_cache id s = Ok (h, s') ∧ cache_inv s' ∧ (id, h) ∈ queue s' ∧
    (∀ i, bview s' i = bview s i) ∧
    strong_count s' h = S (1 `max` strong_count s h) ∧
    (∀ i k, (i, k) ∈ queue s' → k ≠ h → (i, k) ∈ queue s ∧ strong_count s' k = strong_count s k) ∧
    (∀ i k, (i, k) ∈ queue s → (1 < strong_count s k)%nat → (i, k) ∈ queue s').
Proof.
  intros Hi Hh Hroom. unfold get_block_cache. run.
  destruct (list_find _ (queue s)) as [[idx p]|] eqn:Ef.
  - apply find_queue_inv in Ef as [_ Hin]. destruct p as [id' h]. cbn [fst snd] in *. clear id'.
    destruct (cv_entry s Hi id h Hin) as (c & n & Hc & Hok).
    destruct (set_count_spec s id h c n (S n) Hi Hin Hc) as (Hi' & Hv & Hn & Hno); [lia|].
    exists h, (set_arcs (<[h := (c, S n)]> (arcs s)) s). split_and!; [|done|done|done| | |].
    + unfold arc_clone. run. rewrite Hc. by run.
    + rewrite Hn. unfold strong_count. rewrite Hc. pose proof (eo_count _ _ _ _ Hok). lia.
    + intros i k Hik Hk. split; [done|by apply Hno].
    + done.
  - assert (id ∉ (queue s).*1) as Hni.
    { intros ([i k] & -> & Hik)%list_elem_of_fmap. destruct (find_queue s i k Hi Hik) as [? E].
      simpl in Ef. congruence. }
    destruct (make_room_spec s Hi) as (s1 & E1 & Hi1 & Hlen1 & Hv1 & Hq1 & Hk1 & Ha1); [tauto|].
    erewrite bind_Ok by exact E1.
    destruct (load_spec s1 id Hi1 Hh) as (h & c & s2 & E2 & Hi2 & Hq2 & Hf2 & Ha2 & Hv2); [|done|].
    { intros Hin. apply Hni. apply list_elem_of_fmap in Hin as (p & -> & Hp).
      apply list_elem_of_fmap. exists p. auto. }
    exists h, s2. split_and!; [exact E2|done| |congruence| | |].
    + rewrite Hq2. apply elem_of_app. right. by apply list_elem_of_singleton.
    + unfold strong_count at 1. rewrite Ha2, lookup_insert_eq.
      assert (strong_count s h ≤ 1)%nat; [|lia]. unfold strong_count. destruct (arcs s !! h) as [[c0 n0]|] eqn:E; [|lia].
      assert (h ∈ (queue s).*2) as Hq by (apply Hi; by eexists).
      apply list_elem_of_fmap in Hq as ([i k] & -> & Hik). cbn [snd] in *.
      destruct (Hk1 i k Hik) as [Hin|Hc]; [|unfold strong_count in Hc; rewrite E in Hc; lia].
      destruct (cv_entry s1 Hi1 i k Hin) as (? & ? & ? & _). congruence.
    + intros i k. rewrite Hq2. intros [Hin|[= -> ->]%list_elem_of_singleton]%elem_of_app Hne; [|done].
      split; [auto|]. unfold strong_count. rewrite Ha2, lookup_insert_ne by done.
      destruct (cv_entry s1 Hi1 i k Hin) as (c1 & n1 & Hc1 & _). by rewrite <-Ha1, Hc1 by (by eexists).
    + intros i k Hik Hc. rewrite Hq2. apply elem_of_app. left.
      destruct (Hk1 i k Hik) as [?|?]; [done|lia].
Qed.

(** The manager panics exactly when sixteen other blocks are all in use. *)
Lemma get_block_cache_panics s id :
  id ∉ (queue s).*1 → length (queue s) = BLOCK_CACHE_SIZE → (∀ i k, (i, k) ∈ queue s → strong_count s k ≠ 1%nat) →
  get_block_cache id s = Panic Explicit.
Proof.
  intros Hni Hlen Hc. unfold get_block_cache. run. rewrite not_queued by done.
  unfold make_room. run. rewrite Hlen, Nat.eqb_refl.
  destruct (list_find _ (queue s)) as [[idx [i k]]|] eqn:Ef; [|by run].
  apply list_find_Some in Ef as (Hl & Hck & _). exfalso.
  exact (Hc i k (list_elem_of_lookup_2 _ _ _ Hl) Hck).
Qed.

(** Nobody but the manager refers to a cached block. *)
Definition idle s : Prop := ∀ i k, (i, k) ∈ queue s → strong_count s k = 1%nat.

Lemma idle_get s id :
  cache_inv s → idle s → has_block id →
  ∃ h c s', get_block_cache id s = Ok (h, s') ∧ cache_inv s' ∧ (id, h) ∈ queue s' ∧
    arcs s' !! h = Some (c, 2%nat) ∧ bc_cache c = bview s id ∧ (∀ i, bview s' i = bview s i) ∧
    (∀ i k, (i, k) ∈ queue s' → k ≠ h → strong_count s' k = 1%nat).
Proof.
  intros Hi Hidle Hh. destruct (get_block_cache_spec s id Hi Hh) as (h & s' & E & Hi' & Hin & Hv & Hn & Ho & _).
  { destruct (queue s) as [|[i k] q] eqn:Eq; [right; left; simpl; unfold BLOCK_CACHE_SIZE; lia|].
    right. right. assert ((i, k) ∈ queue s) as Hik by (rewrite Eq; left). exists i, k. split; [done|]. by apply (Hidle i). }
  destruct (cv_entry s' Hi' id h Hin) as (c & n & Hc & Hok).
  assert (n = 2%nat) as ->.
  { unfold strong_count in Hn at 1. rewrite Hc in Hn. rewrite Hn.
    assert (strong_count s h ≤ 1)%nat; [|lia]. unfold strong_count. destruct (arcs s !! h) as [[c0 n0]|] eqn:E0; [|lia].
    assert (h ∈ (queue s).*2) as Hq by (apply Hi; by eexists).
    apply list_elem_of_fmap in Hq as ([i k] & -> & Hik). specialize (Hidle i k Hik).
    unfold strong_count in Hidle. cbn [snd] in *. rewrite E0 in Hidle. lia. }
  exists h, c, s'. split_and!; [done..| |done|].
  - rewrite <-Hv. symmetry. by apply (bview_queued s' id h c 2).
  - intros i k Hik Hne. destruct (Ho i k Hik Hne) as [Hik' ->]. by apply (Hidle i).
Qed.

Lemma idle_put s id h c c' :
  cache_inv s → (id, h) ∈ queue s → arcs s !! h = Some (c, 2%nat) →
  (∀ i k, (i, k) ∈ queue s → k ≠ h → strong_count s k = 1%nat) →
  entry_ok (dev s) id c' 2 →
  ∃ s', arc_drop h (set_arcs (<[h := (c', 2%nat)]> (arcs s)) s) = Ok ((), s') ∧ cache_inv s' ∧ idle s' ∧
    bview s' id = bc_cache c' ∧ ∀ i, i ≠ id → bview s' i = bview s i.
Proof.
  intros Hi Hin Hc Ho Hok.
  destruct (cache_inv_update s (dev s) h id c 2 c' 1 Hi Hin Hc) as (Hi' & Hv & Hvo);
    [apply Hi|done|eapply entry_ok_count; [done|lia]|].
  eexists. split_and!; [|exact Hi'| |exact Hv|exact Hvo].
  - unfold arc_drop. run. cbn [arcs set_arcs]. rewrite lookup_insert_eq. run. cbn [Nat.eqb].
    rewrite insert_insert_eq. by destruct s.
  - intros i k Hik. unfold strong_count. simpl. destruct (decide (k = h)) as [->|Hne];
      [by rewrite lookup_insert_eq|]. rewrite lookup_insert_ne by done. by apply (Ho i).
Qed.

Lemma check_ok offset size c :
  0 ≤ offset → 0 < size → offset + size ≤ 512 → length (bc_cache c) = 512%nat →
  BlockCache_get_ref offset size c = Ok (slice (bc_cache c) (Z.to_nat offset) (Z.to_nat (offset + size))).
Proof.
  intros H1 H2 H3 Hl. unfold BlockCache_get_ref, BlockCache_check, BLOCK_SZ. rewrite wadd_small by word.
  rewrite Hl, (proj2 (Z.leb_le _ _)), (proj2 (Z.ltb_lt _ _)) by lia. done.
Qed.

Lemma bc_read_spec {V} s id offset size (f : list Z → V) :
  cache_inv s → idle s → has_block id → 0 ≤ offset → 0 < size → offset + size ≤ 512 →
  ∃ s', bc_read id offset size f s
        = Ok (f (slice (bview s id) (Z.to_nat offset) (Z.to_nat (offset + size))), s') ∧
    cache_inv s' ∧ idle s' ∧ ∀ i, bview s' i = bview s i.
Proof.
  intros Hi Hidle Hh H1 H2 H3.
  destruct (idle_get s id Hi Hidle Hh) as (h & c & s1 & E1 & Hi1 & Hin & Hc & Hcv & Hv & Ho).
  destruct (cv_entry s1 Hi1 id h Hin) as (c0 & n0 & Hc0 & Hok). rewrite Hc in Hc0. injection Hc0 as <- <-.
  destruct (idle_put s1 id h c c Hi1 Hin Hc Ho Hok) as (s2 & E2 & Hi2 & Hidle2 & Hv2 & Hvo2).
  exists s2. unfold bc_read. erewrite bind_Ok by exact E1. run. rewrite Hc. run.
  unfold BlockCache_read. rewrite check_ok by (done || apply Hok). rewrite Hcv.
  cbn [mbind outcome_bind]. run. rewrite insert_id in E2 by done.
  replace (set_arcs (arcs s1) s1) with s1 in E2 by (by destruct s1). erewrite bind_Ok by exact E2.
  split_and!; [done..|]. intros i. rewrite <-Hv. destruct (decide (i = id)) as [->|]; [|by apply Hvo2].
  rewrite Hv2. symmetry. by apply (bview_queued s1 id h c 2).
Qed.

Lemma bc_modify_spec {V} s id offset size (f : list Z → V * list Z) :
  cache_inv s → idle s → has_block id → 0 ≤ offset → 0 < size → offset + size ≤ 512 →
  let x := slice (bview s id) (Z.to_nat offset) (Z.to_nat (offset + size)) in
  length (f x).2 = Z.to_nat size →
  ∃ s', bc_modify id offset size f s = Ok ((f x).1, s') ∧ cache_inv s' ∧ idle s' ∧
    ∀ i, bview s' i = if decide (i = id) then splice (bview s id) (Z.to_nat offset) (f x).2 else bview s i.
Proof.
  intros Hi Hidle Hh H1 H2 H3 x Hlen.
  destruct (idle_get s id Hi Hidle Hh) as (h & c & s1 & E1 & Hi1 & Hin & Hc & Hcv & Hv & Ho).
  destruct (cv_entry s1 Hi1 id h Hin) as (c0 & n0 & Hc0 & Hok). rewrite Hc in Hc0. injection Hc0 as <- <-.
  pose proof (eo_len _ _ _ _ Hok) as Hl.
  destruct (idle_put s1 id h c {| bc_cache := splice (bc_cache c) (Z.to_nat offset) (f x).2;
      bc_block_id := bc_block_id c; bc_modified := true |} Hi1 Hin Hc Ho) as (s2 & E2 & Hi2 & Hidle2 & Hv2 & Hvo2).
  { destruct Hok as [F1 F2 F3 F4 F5]. split; simpl; [done| |done|done|done].
    rewrite length_splice by lia. done. }
  exists s2. unfold bc_modify. erewrite bind_Ok by exact E1. run. rewrite Hc. run.
  unfold BlockCache_modify. rewrite check_ok by done. rewrite Hcv. fold x.
  cbn [mbind outcome_bind]. destruct (f x) as [v y]. cbn [fst snd] in *. run. rewrite Hcv in E2.
  erewrite bind_Ok by exact E2. split_and!; [done..|]. intros i. case_decide as Hid.
  - subst i. rewrite Hv2. simpl. by rewrite Hcv.
  - rewrite <-Hv. by apply Hvo2.
Qed.
End coherence.

(** * The interface of the file systems *)

Class BlockStore (S : Type) := {
  bs_read {V : Type} : Z → Z → Z → (list Z → V) → M S V;
  bs_modify {V : Type} : Z → Z → Z → (list Z → V * list Z) → M S V;
}.

(** Reads return what the last modification of those bytes stored. *)
Class BlockStoreOk (S : Type) `{!BlockStore S} := {
  bs_view : S → Z → list Z;
  bs_wf : S → Prop;
  bs_has : Z → Prop;
  bs_length s id : bs_wf s → bs_has id → length (bs_view s id) = 512%nat;
  bs_read_ok {V : Type} s id offset size (f : list Z → V) :
    bs_wf s → bs_has id → 0 ≤ offset → 0 < size → offset + size ≤ 512 →
    ∃ s', bs_read id offset size f s
          = Ok (f (slice (bs_view s id) (Z.to_nat offset) (Z.to_nat (offset + size))), s') ∧
      bs_wf s' ∧ ∀ i, bs_view s' i = bs_view s i;
  bs_modify_ok {V : Type} s id offset size (f : list Z → V * list Z) :
    bs_wf s → bs_has id → 0 ≤ offset → 0 < size → offset + size ≤ 512 →
    let x := slice (bs_view s id) (Z.to_nat offset) (Z.to_nat (offset + size)) in
    length (f x).2 = Z.to_nat size →
    ∃ s', bs_modify id offset size f s = Ok ((f x).1, s') ∧ bs_wf s' ∧
      ∀ i, bs_view s' i = if decide (i = id) then splice (bs_view s id) (Z.to_nat offset) (f x).2
                          else bs_view s i;
}.

#[export] Instance cache_store D `{!BlockDevice D} : BlockStore (CacheState D) :=
  {| bs_read := @bc_read D _; bs_modify := @bc_modify D _ |}.

#[export] Program Instance cache_store_ok D `{!BlockDevice D, !BlockDeviceOk D} : BlockStoreOk (CacheState D) :=
  {| bs_view := bview; bs_wf := λ s, cache_inv s ∧ idle s; bs_has := has_block |}.
Next Obligation.
  intros D BD BDo s id [Hi Hidle] Hh. destruct (idle_get s id Hi Hidle Hh) as (h & c & s' & _ & Hi' & Hin & Hc & <- & _).
  destruct (cv_entry s' Hi' id h Hin) as (c0 & n0 & Hc0 & Hok). rewrite Hc in Hc0. injection Hc0 as <- <-. apply Hok.
Qed.
Next Obligation.
  intros D BD BDo V s id offset size f [Hi Hidle] Hh H1 H2 H3.
  destruct (bc_read_spec s id offset size f Hi Hidle Hh H1 H2 H3) as (s' & E & ? & ? & ?). by exists s'.
Qed.
Next Obligation.
  intros D BD BDo V s id offset size f [Hi Hidle] Hh H1 H2 H3 x Hx.
  destruct (bc_modify_spec s id offset size f Hi Hidle Hh H1 H2 H3 Hx) as (s' & E & ? & ? & ?). by exists s'.
Qed.

(** * Theorems *)

Section theorems.
Context {D : Type} `{!BlockDevice D, !BlockDeviceOk D}.
Implicit Types (s : CacheState D).

(** What file systems ask of the cache. *)
Inductive block_op :=
  | OpRead (id offset size : Z)
  | OpWrite (id offset : Z) (bytes : list Z)
  | OpSync.

Definition block_op_ok (op : block_op) : Prop :=
  match op with
  | OpRead id offset size => has_block id ∧ 0 ≤ offset ∧ 0 < size ∧ offset + size ≤ 512
  | OpWrite id offset bytes => has_block id ∧ 0 ≤ offset ∧ bytes ≠ [] ∧ offset + Z.of_nat (length bytes) ≤ 512
  | OpSync => True
  end.

Definition cache_exec (op : block_op) : M (CacheState D) (list Z) :=
  match op with
  | OpRead id offset size => bc_read id offset size (λ x, x)
  | OpWrite id offset bytes => bc_modify id offset (Z.of_nat (length bytes)) (λ _, ([], bytes))
  | OpSync => block_cache_sync_all;; mret []
  end.

(** The same on an uncached disk. *)
Definition disk_exec (op : block_op) (d : Z → list Z) : list Z * (Z → list Z) :=
  match op with
  | OpRead id offset size => (slice (d id) (Z.to_nat offset) (Z.to_nat (offset + size)), d)
  | OpWrite id offset bytes =>
      ([], λ i, if decide (i = id) then splice (d id) (Z.to_nat offset) bytes else d i)
  | OpSync => ([], d)
  end.

Fixpoint cache_run (ops : list block_op) : M (CacheState D) (list (list Z)) :=
  match ops with
  | [] => mret []
  | op :: ops => r ← cache_exec op; rs ← cache_run ops; mret (r :: rs)
  end.
Fixpoint disk_run (ops : list block_op) (d : Z → list Z) : list (list Z) * (Z → list Z) :=
  match ops with
  | [] => ([], d)
  | op :: ops => let '(r, d) := disk_exec op d in let '(rs, d) := disk_run ops d in (r :: rs, d)
  end.

Lemma cache_exec_refines op s (d : Z → list Z) :
  cache_inv s → idle s → block_op_ok op → (∀ i, bview s i = d i) →
  ∃ s', cache_exec op s = Ok ((disk_exec op d).1, s') ∧ cache_inv s' ∧ idle s' ∧
    ∀ i, bview s' i = (disk_exec op d).2 i.
Proof.
  intros Hi Hidle Hop Hd. destruct op as [id offset size|id offset bytes|]; cbn [cache_exec disk_exec fst snd].
  - destruct Hop as (Hh & H1 & H2 & H3).
    destruct (bc_read_spec s id offset size (λ x, x) Hi Hidle Hh H1 H2 H3) as (s' & E & Hi' & Hid' & Hv).
    exists s'. rewrite E, Hd. split_and!; [done..|]. congruence.
  - destruct Hop as (Hh & H1 & H2 & H3). assert (length bytes ≠ 0%nat) by (by destruct bytes).
    destruct (bc_modify_spec s id offset (Z.of_nat (length bytes)) (λ _, ([] : list Z, bytes)) Hi Hidle Hh)
      as (s' & E & Hi' & Hid' & Hv); [done|lia|done|simpl; lia|].
    exists s'. split_and!; [exact E|done..|]. intros i. rewrite Hv. simpl. by rewrite !Hd.
  - destruct (sync_all_spec s Hi) as (s' & E & Hi' & Hq & Hn & Hv & _).
    exists s'. erewrite bind_Ok by exact E. split_and!; [done|done| |congruence].
    intros i k Hik. rewrite Hn. rewrite Hq in Hik. by apply (Hidle i).
Qed.

Lemma cache_run_refines ops : ∀ s (d : Z → list Z),
  cache_inv s → idle s → Forall block_op_ok ops → (∀ i, bview s i = d i) →
  ∃ s', cache_run ops s = Ok ((disk_run ops d).1, s') ∧ cache_inv s' ∧ idle s' ∧
    ∀ i, bview s' i = (disk_run ops d).2 i.
Proof.
  induction ops as [|op ops IH]; intros s d Hi Hidle Hops Hd; cbn [cache_run disk_run]; [by exists s|].
  apply Forall_cons in Hops as [Hop Hops].
  destruct (cache_exec_refines op s d Hi Hidle Hop Hd) as (s1 & E1 & Hi1 & Hid1 & Hv1).
  destruct (disk_exec op d) as [r d1]. cbn [fst snd] in *.
  destruct (IH s1 d1 Hi1 Hid1 Hops Hv1) as (s2 & E2 & Hi2 & Hid2 & Hv2).
  destruct (disk_run ops d1) as [rs d2]. cbn [fst snd] in *.
  exists s2. erewrite bind_Ok by exact E1. erewrite bind_Ok by exact E2. done.
Qed.

(** A cache with nothing in it. *)
Definition empty_cache (d : D) : CacheState D := {| arcs := ∅; queue := []; dev := d |}.

Lemma empty_cache_inv d : dev_wf d → cache_inv (empty_cache d) ∧ idle (empty_cache d).
Proof.
  intros Hd. split.
  - split; simpl; [done|lia|constructor|constructor| |].
    + intros id h []%not_elem_of_nil.
    + intros h. rewrite lookup_empty. intros [? [=]].
  - intros i k []%not_elem_of_nil.
Qed.

(** C3: The block cache is transparent: any sequence of reads, writes and [sync_all]s through it
    runs without a panic and returns what the same sequence on an uncached disk returns, however
    blocks are loaded, evicted and written back; and when it is followed by
    [block_cache_sync_all] the device holds exactly the blocks of the uncached disk. *)
Theorem block_cache_transparent (d : D) ops :
  dev_wf d → Forall block_op_ok ops →
  ∃ s s', cache_run ops (empty_cache d) = Ok ((disk_run ops (disk d)).1, s) ∧
    (length (queue s) ≤ 16)%nat ∧
    block_cache_sync_all s = Ok ((), s') ∧ ∀ i, disk (dev s') i = (disk_run ops (disk d)).2 i.
Proof.
  intros Hd Hops. destruct (empty_cache_inv d Hd) as [Hi Hidle].
  destruct (cache_run_refines ops _ (disk d) Hi Hidle Hops) as (s & E & Hi' & _ & Hv); [done|].
  destruct (sync_all_spec s Hi') as (s' & E' & _ & _ & _ & _ & Hdisk).
  exists s, s'. split_and!; [exact E|apply Hi'|exact E'|]. intros i. by rewrite Hdisk.
Qed.

(** A block that a client refers to is not evicted: whatever block is requested next, it stays
    in the cache behind the same reference with the same bytes, so that a request for it returns
    that reference and two clients of one block share it. *)
Theorem held_block_is_shared s id h id' :
  cache_inv s → has_block id' → (id, h) ∈ queue s → (1 < strong_count s h)%nat →
  (id' ∈ (queue s).*1 ∨ (length (queue s) < 16)%nat ∨ evictable s) →
  ∃ h' s1 s2, get_block_cache id' s = Ok (h', s1) ∧ get_block_cache id s1 = Ok (h, s2) ∧
    bview s2 id = bview s id ∧ (strong_count s h < strong_count s2 h)%nat.
Proof.
  intros Hi Hh Hin Hc Hroom.
  destruct (get_block_cache_spec s id' Hi Hh Hroom) as (h' & s1 & E1 & Hi1 & Hin1 & Hv1 & Hn1 & Ho1 & Hk1).
  pose proof (Hk1 id h Hin Hc) as Hq1.
  destruct (cv_entry s1 Hi1 id h Hq1) as (c & n & Hch & Hok).
  destruct (get_block_cache_spec s1 id Hi1) as (h2 & s2 & E2 & Hi2 & Hin2 & Hv2 & Hn2 & Ho2 & Hk2).
  { apply Hok. }
  { left. apply list_elem_of_fmap. by exists (id, h). }
  assert (strong_count s h ≤ strong_count s1 h)%nat as Hle.
  { destruct (decide (h = h')) as [->|Hne]; [rewrite Hn1; lia|].
    destruct (Ho1 id h Hq1 Hne) as [_ ->]. lia. }
  assert (h2 = h) as ->.
  { assert ((id, h) ∈ queue s2) as Hq2 by (apply Hk2; [done|lia]). by apply (id_inj s2 id). }
  exists h', s1, s2. split_and!; [done|done|by rewrite Hv2, Hv1|lia].
Qed.

(** [get_block_cache] panics when, and only when, the block is not cached and all the sixteen
    cached blocks are referred to by clients. *)
Theorem get_block_cache_panics_iff s id :
  cache_inv s → has_block id →
  ((∃ f, get_block_cache id s = Panic f) ↔
   (id ∉ (queue s).*1) ∧ length (queue s) = 16%nat ∧ ∀ i h, (i, h) ∈ queue s → (1 < strong_count s h)%nat).
Proof.
  intros Hi Hh. split.
  - intros [f E].
    assert (¬ (id ∈ (queue s).*1 ∨ (length (queue s) < BLOCK_CACHE_SIZE)%nat ∨ evictable s)) as Hn.
    { intros Hroom. destruct (get_block_cache_spec s id Hi Hh Hroom) as (? & ? & E' & _). congruence. }
    pose proof (cv_size s Hi) as Hsz. unfold BLOCK_CACHE_SIZE in *. split_and!; [tauto|lia|].
    intros i h Hin. destruct (cv_entry s Hi i h Hin) as (c & n & Hc & Hok).
    pose proof (eo_count _ _ _ _ Hok). assert (strong_count s h = n) as Hsc by (unfold strong_count; by rewrite Hc).
    destruct (decide (n = 1%nat)); [|lia]. exfalso. apply Hn. right. right. exists i, h. by rewrite Hsc.
  - intros (Hni & Hlen & Hc). exists Explicit. apply get_block_cache_panics; [done|done|].
    intros i k Hik. specialize (Hc i k Hik). lia.
Qed.
End theorems.

(** ** A device in memory, for the witnesses *)

Abbreviation RamDisk := (gmap Z (list Z)) (only parsing).
Definition ram_block (d : RamDisk) (id : Z) : list Z := default (replicate 512 0) (d !! id).
#[export] Instance ram_device : BlockDevice RamDisk :=
  {| read_block := λ id d, Ok (ram_block d id, d);
     write_block := λ id buf d, Ok ((), <[id := buf]> d) |}.
#[export] Program Instance ram_device_ok : BlockDeviceOk RamDisk :=
  {| disk := ram_block; dev_wf := λ d, map_Forall (λ _ b, length b = 512%nat) d; has_block := λ _, True |}.
Next Obligation.
  intros d id Hd _. unfold ram_block. destruct (d !! id) eqn:E; [by apply Hd in E|apply length_replicate].
Qed.
Next Obligation. intros d id Hd _. by exists d. Qed.
Next Obligation.
  intros d id buf Hd _ Hl. exists (<[id := buf]> d). split_and!; [done|by apply map_Forall_insert_2|].
  intros i. unfold ram_block. case_decide as Hi; [subst; by rewrite lookup_insert_eq|by rewrite lookup_insert_ne].
Qed.

Definition demo_ops : list block_op := [OpWrite 3 10 [1; 2; 3]; OpSync; OpRead 3 11 2].

Lemma block_cache_transparent_witness : ∃ s s',
  cache_run demo_ops (empty_cache (∅ : RamDisk)) = Ok ([[]; []; [2; 3]], s) ∧ (length (queue s) ≤ 16)%nat ∧
  block_cache_sync_all s = Ok ((), s') ∧ ∀ i, disk (dev s') i = (disk_run demo_ops (disk (∅ : RamDisk))).2 i.
Proof.
  assert ([[]; []; [2; 3]] = (disk_run demo_ops (disk (∅ : RamDisk))).1) as -> by (vm_compute; reflexivity).
  apply (block_cache_transparent (∅ : RamDisk) demo_ops); [apply map_Forall_empty|].
  repeat constructor; simpl; lia || done.
Defined.

(** A cache whose first block is in use. *)
Definition demo_held : CacheState RamDisk :=
  match get_block_cache 5 (empty_cache (∅ : RamDisk)) with Ok (_, s) => s | _ => empty_cache ∅ end.

Lemma demo_held_inv : cache_inv demo_held ∧ (5, 0%nat) ∈ queue demo_held.
Proof.
  assert (dev_wf (∅ : RamDisk)) as Hd by apply map_Forall_empty.
  destruct (empty_cache_inv (∅ : RamDisk) Hd) as [Hi Hidle].
  destruct (idle_get _ 5 Hi Hidle I) as (h & c & s' & E & Hi' & _). unfold demo_held at 1. rewrite E.
  split; [done|]. vm_compute. left.
Qed.

Lemma held_block_is_shared_witness : ∃ h' s1 s2,
  get_block_cache 9 demo_held = Ok (h', s1) ∧ get_block_cache 5 s1 = Ok (0%nat, s2) ∧
  bview s2 5 = bview demo_held 5 ∧ (strong_count demo_held 0 < strong_count s2 0)%nat.
Proof.
  apply (held_block_is_shared demo_held 5 0 9); [apply demo_held_inv|exact I|apply demo_held_inv| |].
  - vm_compute. lia.
  - right. left. vm_compute. lia.
Defined.

Lemma get_block_cache_panics_iff_witness :
  (∃ f, get_block_cache 5 demo_held = Panic f) ↔
  (5 ∉ (queue demo_held).*1) ∧ length (queue demo_held) = 16%nat ∧
  ∀ i h, (i, h) ∈ queue demo_held → (1 < strong_count demo_held h)%nat.
Proof. apply (get_block_cache_panics_iff demo_held 5); [apply demo_held_inv|exact I]. Defined.
