(* ===== verification/Drivers.v ===== *)
(** * Block-device drivers ([os/src/drivers/block/])

    [VirtIOBlock] over the crate [virtio_drivers], a parameter that is given by the operations the
    driver calls, and [SDCard] over the interface [Vf2SdDriver] of the library [visionfive2-sd], which
    [SdCard.v] implements and [SdSpec.v] proves to keep [Vf2SdDriverOk].  Both drivers implement the
    byte-addressed trait [BlockDevice] of the library [ext4_rs] ([read_offset], [write_offset]);
    [VirtIOBlock] also implements the kernel's own [BlockDevice].  The last part is the DMA
    allocation the virtio crate asks the kernel for. *)

From Stdlib Require Import ZArith Lia.
From stdpp Require Import functions prelude gmap.
From S2P Require Import Prelude Config Address FrameAllocator BlockCache.

Open Scope Z_scope.

(** [ext4_rs::BLOCK_SIZE] *)
Definition BLOCK_SIZE : Z := 4096.

(** ** The virtio block device *)

(** [VirtIOBlk::read_blocks] into a buffer of a given length ([None] for [Err]) and
    [VirtIOBlk::write_blocks] ([false] for [Err]) *)
Class VirtIOBlk (T : Type) := {
  read_blocks : Z → nat → T → option (list Z) * T;
  write_blocks : Z → list Z → T → bool * T;
}.

Section virtio.
Context {T : Type} `{!VirtIOBlk T}.

Definition try_read (block_id : Z) (len : nat) : M T (option (list Z)) := λ t, Ok (read_blocks block_id len t).

(** The loop [while res.is_err()]; [n] is [10 - times]. *)
Fixpoint read_retry (n : nat) (block_id : Z) : M T (list Z) :=
  res ← try_read block_id 512;
  match n with
  | O => panic Explicit
  | S n' => match res with Some buf => mret buf | None => read_retry n' block_id end
  end.

Definition VirtIOBlock_read_block (block_id : Z) : M T (list Z) :=
  res ← try_read block_id 512;
  match res with Some buf => mret buf | None => read_retry 10 block_id end.

Definition VirtIOBlock_write_block (block_id : Z) (buf : list Z) : M T unit := λ t,
  let '(ok, t') := write_blocks block_id buf t in
  if ok then Ok ((), t') else Panic Unwrap.

(** [read_blocks(..).expect(..)] *)
Definition read_expect (block_id : Z) (len : nat) : M T (list Z) :=
  res ← try_read block_id len; unwrap res.

Definition VirtIOBlock_read_offset (offset : Z) : M T (list Z) :=
  buf ← read_expect (offset / BLOCK_SZ) (Z.to_nat BLOCK_SIZE);
  mret (drop (Z.to_nat (offset mod BLOCK_SZ)) buf).

Definition write_offset_turn (offset : Z) (data : list Z) (write_size : Z) : M T (Z + unit) :=
  if write_size <? Z.of_nat (length data) then
    let block_id := wadd offset write_size / BLOCK_SZ in
    let block_offset := wadd offset write_size mod BLOCK_SZ in
    let copy_size := Z.min (Z.of_nat (length data) - write_size) (BLOCK_SZ - block_offset) in
    buf ← read_expect block_id (Z.to_nat BLOCK_SZ);
    let buf := splice buf (Z.to_nat block_offset)
                 (slice data (Z.to_nat write_size) (Z.to_nat (write_size + copy_size))) in
    VirtIOBlock_write_block block_id buf;;
    mret (inl (write_size + copy_size))
  else mret (inr ()).

(** Every turn writes at least one byte. *)
Definition VirtIOBlock_write_offset (offset : Z) (data : list Z) : M T unit :=
  loopM (S (length data)) (write_offset_turn offset data) 0.

#[export] Instance virtio_device : BlockDevice T :=
  {| read_block := VirtIOBlock_read_block; write_block := VirtIOBlock_write_block |}.
End virtio.

(** The documented behaviour of the crate: a read fills the buffer with consecutive sectors, a write
    stores them.  [faults] is the number of reads that fail before the next one that succeeds.  The disk is ideal in that it
    has no capacity: every sector number can be read and written. *)
Class VirtIOBlkOk (T : Type) `{!VirtIOBlk T} := {
  sector : T → Z → list Z;
  faults : T → nat;
  sector_length t id : length (sector t id) = 512%nat;
  read_fault t id len :
    (0 < faults t)%nat →
    ∃ t', read_blocks id len t = (None, t') ∧ faults t' = pred (faults t) ∧ ∀ i, sector t' i = sector t i;
  read_success t id n :
    faults t = 0%nat →
    ∃ t', read_blocks id (512 * n) t = (Some (mjoin (sector t <$> seqZ id (Z.of_nat n))), t') ∧
      ∀ i, sector t' i = sector t i;
  write_success t id buf :
    length buf = 512%nat →
    ∃ t', write_blocks id buf t = (true, t') ∧
      ∀ i, sector t' i = if decide (i = id) then buf else sector t i;
}.

(** ** The SD card: [Vf2SdDriver::read_block] into a buffer and [write_block], on one block *)

Class Vf2SdDriver (T : Type) := {
  sd_read_block : Z → list Z → M T (list Z);
  sd_write_block : Z → list Z → M T unit;
}.

Section sdcard.
Context {T : Type} `{!Vf2SdDriver T}.

Definition sd_read_step : Z * list Z → nat → M T (Z * list Z) := λ '(block_id, buf) _,
  b ← sd_read_block block_id (replicate 512 0);
  mret (wadd block_id 1, buf ++ b).
Definition SDCard_read_offset (offset : Z) : M T (list Z) :=
  '(_, buf) ← foldM sd_read_step (offset / BLOCK_SZ, []) (seq 0 8);
  mret (drop (Z.to_nat (offset mod BLOCK_SZ)) buf).

Definition sd_write_step (data : list Z) : Z * nat → nat → M T (Z * nat) := λ '(block_id, data_offset) _,
  if (data_offset + 512 <=? length data)%nat
  then sd_write_block block_id (slice data data_offset (data_offset + 512));; mret (wadd block_id 1, data_offset + 512)%nat
  else panic Bounds.
Definition SDCard_write_offset (offset : Z) (data : list Z) : M T unit :=
  _ ← foldM (sd_write_step data) (offset / BLOCK_SZ, 0%nat) (seq 0 8);
  mret ().
End sdcard.

(** What the driver of the SD card promises, in the states that are ready: sectors of 512 bytes that
    reads return and writes replace.  [SdSpec] shows that the driver of [SdCard] keeps it. *)
Class Vf2SdDriverOk (T : Type) `{!Vf2SdDriver T} := {
  sd_sector : T → Z → list Z;
  sd_ready : T → Prop;
  sd_sector_length t id : sd_ready t → length (sd_sector t id) = 512%nat;
  sd_read_ok t id buf :
    sd_ready t → 0 ≤ id < 2 ^ 32 → length buf = 512%nat →
    ∃ t', sd_read_block id buf t = Ok (sd_sector t id, t') ∧ sd_ready t' ∧ ∀ i, sd_sector t' i = sd_sector t i;
  sd_write_ok t id buf :
    sd_ready t → 0 ≤ id < 2 ^ 32 → length buf = 512%nat → Forall is_byte buf →
    ∃ t', sd_write_block id buf t = Ok ((), t') ∧ sd_ready t' ∧
      ∀ i, sd_sector t' i = if decide (i = id) then buf else sd_sector t i;
}.

(** ** DMA memory ([VirtioHal]) *)

(** [frames] is dropped at the end of the function. *)
Definition dma_alloc (pages : nat) : M Mm (PhysAddr * KernelAddr) :=
  '(frames, root_ppn) ← frame_alloc_contiguous pages;
  let pa := PhysAddr_from_ppn root_ppn in
  drop_frames frames;;
  mret (pa, KernelAddr_from_pa pa).

Definition dma_dealloc (paddr : Z) (pages : nat) : M Mm Z :=
  pa ← lift (PhysAddr_from_usize paddr);
  ppn_base ← lift (PhysPageNum_from_pa pa);
  _ ← foldM (λ ppn_base _, frame_dealloc ppn_base;; mret (wadd ppn_base 1)) ppn_base (seq 0 pages);
  mret 0.

Definition mmio_phys_to_virt (paddr : Z) : outcome KernelAddr :=
  pa ← PhysAddr_from_usize paddr; mret (KernelAddr_from_pa pa).

(** * Reads with retries *)

Section retries.
Context {T : Type} `{!VirtIOBlk T}.

(** The results of the next [n] reads of a block, and the first that succeeds. *)
Fixpoint attempts (n : nat) (block_id : Z) (t : T) : list (option (list Z)) :=
  match n with
  | O => []
  | S n' => let '(r, t') := read_blocks block_id 512 t in r :: attempts n' block_id t'
  end.
Definition first_success (l : list (option (list Z))) : option (list Z) := head (omap (λ r, r) l).

Lemma read_retry_spec n block_id t :
  match first_success (attempts n block_id t) with
  | Some buf => ∃ t', read_retry n block_id t = Ok (buf, t')
  | None => read_retry n block_id t = Panic Explicit
  end.
Proof.
  revert t. induction n as [|n IH]; intros t; cbn [attempts read_retry].
  - unfold try_read, mbind, M_bind. by destruct (read_blocks block_id 512 t).
  - unfold try_read at 1 2. unfold mbind, M_bind. destruct (read_blocks block_id 512 t) as [[buf|] t'].
    + cbn. by exists t'.
    + apply (IH t').
Qed.

(** [VirtIOBlock::read_block] returns the result of the first of eleven attempts that succeeds
    and panics when all eleven fail; a success of the eleventh retry comes too late, since the
    retry counter is tested before the result. *)
Theorem virtio_read_retries block_id t :
  match first_success (attempts 11 block_id t) with
  | Some buf => ∃ t', VirtIOBlock_read_block block_id t = Ok (buf, t')
  | None => VirtIOBlock_read_block block_id t = Panic Explicit
  end.
Proof.
  change 11%nat with (S 10). cbn [attempts]. unfold VirtIOBlock_read_block, try_read, mbind, M_bind.
  destruct (read_blocks block_id 512 t) as [[buf|] t'].
  - by exists t'.
  - apply (read_retry_spec 10 block_id t').
Qed.
End retries.

(** A device that recovers within ten reads is a faithful block device. *)
Section device.
Context {T : Type} `{!VirtIOBlk T, !VirtIOBlkOk T}.

Lemma one_sector (t : T) id : mjoin (sector t <$> seqZ id (Z.of_nat 1)) = sector t id.
Proof. rewrite seqZ_cons by lia. cbn. apply app_nil_r. Qed.

Lemma read_retry_recovers n block_id (t : T) :
  (faults t < n)%nat →
  ∃ t', read_retry n block_id t = Ok (sector t block_id, t') ∧ ∀ i, sector t' i = sector t i.
Proof.
  revert t. induction n as [|n IH]; intros t Hn; [lia|]. cbn [read_retry].
  destruct (faults t) as [|f] eqn:Ef.
  - destruct (read_success t block_id 1 Ef) as (t' & E & Hs). exists t'.
    unfold try_read at 1, mbind, M_bind. change 512%nat with (512 * 1)%nat. rewrite E.
    by rewrite one_sector.
  - destruct (read_fault t block_id 512) as (t' & E & Hf & Hs); [lia|].
    unfold try_read at 1, mbind, M_bind. rewrite E.
    destruct (IH t') as (t2 & E2 & Hs2); [lia|]. exists t2. rewrite <-(Hs block_id), <-E2.
    split; [done|]. intros i. by rewrite Hs2, Hs.
Qed.

Lemma read_block_recovers block_id (t : T) :
  (faults t ≤ 10)%nat →
  ∃ t', VirtIOBlock_read_block block_id t = Ok (sector t block_id, t') ∧ ∀ i, sector t' i = sector t i.
Proof.
  intros Hf. destruct (read_retry_recovers 11 block_id t) as (t' & E & Hs); [lia|].
  exists t'. split; [|done]. rewrite <-E. reflexivity.
Qed.
End device.

Program Definition virtio_device_ok T `{!VirtIOBlk T, !VirtIOBlkOk T} (Hf : ∀ t : T, (faults t ≤ 10)%nat)
    : BlockDeviceOk T :=
  {| disk := sector; dev_wf := λ _, True; has_block := λ _, True |}.
Next Obligation. intros. apply sector_length. Qed.
Next Obligation.
  intros T VT VTo Hf t id _ _. destruct (read_block_recovers id t (Hf t)) as (t' & E & Hs). by exists t'.
Qed.
Next Obligation.
  intros T VT VTo Hf t id buf _ _ Hl. destruct (write_success t id buf Hl) as (t' & E & Hs). exists t'.
  split; [|done]. cbn. unfold VirtIOBlock_write_block. by rewrite E.
Qed.

(** * Byte-addressed access *)

Section offsets.
Context {T : Type} `{!VirtIOBlk T, !VirtIOBlkOk T}.
(** [read_offset] and [write_offset] do not retry. *)
Context (Hff : ∀ t : T, faults t = 0%nat).
Implicit Types (t : T).

Definition disk_byte t (i : Z) : Z := sector t (i / 512) !!! Z.to_nat (i mod 512).

Lemma read_expect_spec t id n :
  ∃ t', read_expect id (512 * n) t = Ok (mjoin (sector t <$> seqZ id (Z.of_nat n)), t') ∧
    ∀ i, sector t' i = sector t i.
Proof.
  destruct (read_success t id n (Hff t)) as (t' & E & Hs). exists t'. split; [|done].
  unfold read_expect, try_read, mbind, M_bind. by rewrite E.
Qed.

Lemma write_offset_turn_spec offset data w t :
  0 ≤ offset → 0 ≤ w < Z.of_nat (length data) → offset + Z.of_nat (length data) < W64 →
  ∃ c t', write_offset_turn offset data w t = Ok (inl (w + c), t') ∧
    0 < c ∧ w + c ≤ Z.of_nat (length data) ∧
    ∀ i, disk_byte t' i = if decide (offset + w ≤ i < offset + w + c) then data !!! Z.to_nat (i - offset)
                          else disk_byte t i.
Proof.
  intros Ho Hw Hmax. unfold write_offset_turn. rewrite (proj2 (Z.ltb_lt _ _)) by lia.
  rewrite wadd_small by word. unfold BLOCK_SZ. set (p := offset + w).
  set (c := Z.min (Z.of_nat (length data) - w) (512 - p mod 512)). exists c.
  pose proof (Z.mod_pos_bound p 512). assert (0 < c ∧ w + c ≤ Z.of_nat (length data) ∧ p mod 512 + c ≤ 512) by lia.
  destruct (read_expect_spec t (p / 512) 1) as (t1 & E1 & Hs1). rewrite one_sector in E1.
  change (Z.to_nat 512) with (512 * 1)%nat. erewrite bind_Ok by exact E1.
  set (new := slice data (Z.to_nat w) (Z.to_nat (w + c))).
  assert (length new = Z.to_nat c) as Hnew by (unfold new; rewrite length_slice; lia).
  pose proof (sector_length t (p / 512)) as Hl. set (old := sector t (p / 512)) in *.
  destruct (write_success t1 (p / 512) (splice old (Z.to_nat (p mod 512)) new)) as (t2 & E2 & Hs2).
  { rewrite length_splice; lia. }
  exists t2. split; [|split_and!; [lia|lia|]].
  { unfold VirtIOBlock_write_block, mbind, M_bind. by rewrite E2. }
  intros i. unfold disk_byte. rewrite Hs2. destruct (decide (i / 512 = p / 512)) as [Hb|Hb].
  - case_decide as Hr.
    + apply list_lookup_total_correct. rewrite lookup_splice_new by (Z.to_euclidean_division_equations; lia).
      unfold new. rewrite lookup_slice by (Z.to_euclidean_division_equations; lia).
      rewrite (list_lookup_lookup_total_lt data) by (Z.to_euclidean_division_equations; lia).
      f_equal. f_equal. Z.to_euclidean_division_equations; lia.
    + rewrite !list_lookup_total_alt, lookup_splice_old by (Z.to_euclidean_division_equations; lia).
      unfold old. by rewrite Hb.
  - rewrite Hs1. rewrite decide_False; [done|]. intros Hr. apply Hb. Z.to_euclidean_division_equations; lia.
Qed.

Lemma write_offset_done offset data t :
  write_offset_turn offset data (Z.of_nat (length data)) t = Ok (inr (), t).
Proof. unfold write_offset_turn. by rewrite Z.ltb_irrefl. Qed.

Lemma write_offset_loop fuel offset data : ∀ w t,
  0 ≤ offset → 0 ≤ w ≤ Z.of_nat (length data) → offset + Z.of_nat (length data) < W64 →
  Z.of_nat (length data) - w < Z.of_nat fuel →
  ∃ t', loopM fuel (write_offset_turn offset data) w t = Ok ((), t') ∧
    ∀ i, disk_byte t' i = if decide (offset + w ≤ i < offset + Z.of_nat (length data))
                          then data !!! Z.to_nat (i - offset) else disk_byte t i.
Proof.
  induction fuel as [|fuel IH]; intros w t Ho Hw Hmax Hf; [lia|]. cbn [loopM].
  destruct (decide (w = Z.of_nat (length data))) as [->|Hne].
  - exists t. erewrite bind_Ok by apply write_offset_done. split; [done|].
    intros i. rewrite decide_False by lia. done.
  - destruct (write_offset_turn_spec offset data w t) as (c & t1 & E1 & Hc & Hle & Hb1); [lia..|].
    erewrite bind_Ok by exact E1. destruct (IH (w + c) t1) as (t2 & E2 & Hb2); [lia..|].
    exists t2. split; [exact E2|]. intros i. rewrite Hb2, Hb1.
    repeat case_decide; done || lia.
Qed.

Lemma mjoin_lookup t id n k :
  (k < n * 512)%nat →
  mjoin (sector t <$> seqZ id (Z.of_nat n)) !! k = Some (disk_byte t (id * 512 + Z.of_nat k)).
Proof.
  revert id k. induction n as [|n IH]; intros id k Hk; [lia|].
  rewrite seqZ_cons by lia. replace (Z.pred (Z.of_nat (S n))) with (Z.of_nat n) by lia.
  rewrite fmap_cons. cbn [mjoin list_join]. pose proof (sector_length t id) as Hl.
  destruct (decide (k < 512)%nat) as [Hlt|Hge].
  - rewrite lookup_app_l by lia. rewrite (list_lookup_lookup_total_lt (sector t id)) by lia.
    unfold disk_byte. do 2 f_equal; [|]; Z.to_euclidean_division_equations; f_equal; lia.
  - rewrite lookup_app_r by lia. rewrite Hl, IH by lia. do 2 f_equal. lia.
Qed.

Lemma mjoin_length t id n : length (mjoin (sector t <$> seqZ id (Z.of_nat n))) = (n * 512)%nat.
Proof.
  revert id. induction n as [|n IH]; intros id; [done|].
  rewrite seqZ_cons by lia. replace (Z.pred (Z.of_nat (S n))) with (Z.of_nat n) by lia.
  rewrite fmap_cons. cbn [mjoin list_join]. rewrite length_app, IH, sector_length. lia.
Qed.

Lemma read_offset_spec offset t :
  0 ≤ offset →
  ∃ l t', VirtIOBlock_read_offset offset t = Ok (l, t') ∧
    length l = Z.to_nat (4096 - offset mod 512) ∧
    (∀ k, (k < length l)%nat → l !! k = Some (disk_byte t (offset + Z.of_nat k))) ∧
    ∀ i, disk_byte t' i = disk_byte t i.
Proof.
  intros Ho. destruct (read_expect_spec t (offset / 512) 8) as (t' & E & Hs).
  pose proof (Z.mod_pos_bound offset 512). pose proof (mjoin_length t (offset / 512) 8) as Hl.
  eexists _, t'. unfold VirtIOBlock_read_offset, BLOCK_SZ, BLOCK_SIZE.
  change (Z.to_nat 4096) with (512 * 8)%nat. erewrite bind_Ok by exact E. split_and!; [reflexivity| | |].
  - rewrite length_drop, Hl. lia.
  - intros k. rewrite length_drop, Hl. intros Hk. rewrite lookup_drop, mjoin_lookup by lia.
    do 2 f_equal. Z.to_euclidean_division_equations; lia.
  - intros i. unfold disk_byte. by rewrite Hs.
Qed.

(** C36: On a device without read errors [write_offset] terminates and stores exactly the given
    bytes at the given byte offset, whatever its alignment, keeping every other byte of the disk;
    [read_offset] then returns them, up to the end of the eight sectors that it reads.  The disk is
    that of [VirtIOBlkOk], which has every sector. *)
Theorem virtio_offset_roundtrip offset data t :
  0 ≤ offset → offset + Z.of_nat (length data) < W64 →
  ∃ t1 t2 l, VirtIOBlock_write_offset offset data t = Ok ((), t1) ∧
    (∀ i, disk_byte t1 i = if decide (offset ≤ i < offset + Z.of_nat (length data))
                           then data !!! Z.to_nat (i - offset) else disk_byte t i) ∧
    VirtIOBlock_read_offset offset t1 = Ok (l, t2) ∧ length l = Z.to_nat (4096 - offset mod 512) ∧
    ∀ k, (k < length l `min` length data)%nat → l !! k = data !! k.
Proof.
  intros Ho Hmax. destruct (write_offset_loop (S (length data)) offset data 0 t) as (t1 & E1 & Hb1); [lia..|].
  destruct (read_offset_spec offset t1 Ho) as (l & t2 & E2 & Hl & Hk & _).
  exists t1, t2, l. rewrite Z.add_0_r in Hb1. split_and!; [exact E1|exact Hb1|exact E2|exact Hl|].
  intros k Hlt. rewrite Hk, Hb1 by lia. rewrite decide_True by lia.
  rewrite (list_lookup_lookup_total_lt data) by lia. do 2 f_equal. lia.
Qed.
End offsets.

(** * The SD card *)

Section sdcard_spec.
Context {T : Type} `{!Vf2SdDriver T, !Vf2SdDriverOk T}.

Lemma sd_write_prefix data n l : ∀ b off (t : T),
  (off + 512 * length l ≤ n ≤ length data)%nat →
  foldM (sd_write_step (take n data)) (b, off) l t = foldM (sd_write_step data) (b, off) l t.
Proof.
  induction l as [|x l IH]; intros b off t Hle; cbn [foldM length] in *; [done|].
  unfold mbind, M_bind. unfold sd_write_step at 1 3. rewrite length_take.
  destruct (Nat.leb_spec (off + 512) (n `min` length data)); [|lia].
  destruct (Nat.leb_spec (off + 512) (length data)); [|lia].
  assert (slice (take n data) off (off + 512) = slice data off (off + 512)) as ->.
  { unfold slice. rewrite skipn_firstn_comm, firstn_firstn. f_equal. lia. }
  unfold mbind, M_bind. destruct (sd_write_block _ _ t) as [[u t']| |]; [|done..]. apply IH. lia.
Qed.

Lemma wadd_1 b : 0 ≤ b < 2 ^ 32 → wadd b 1 = b + 1.
Proof. intros H. unfold wadd, wrap, W64. rewrite Z.mod_small; lia. Qed.

(** The blocks of the data are written one after the other, until one is missing. *)
Lemma sd_write_blocks data l : Forall is_byte data → ∀ b off (t : T),
  sd_ready t → 0 ≤ b → b + Z.of_nat (length l) ≤ 2 ^ 32 →
  if (off + 512 * length l <=? length data)%nat then
    ∃ t' r, foldM (sd_write_step data) (b, off) l t = Ok (r, t') ∧ sd_ready t' ∧
      ∀ i, sd_sector t' i = if decide (b ≤ i < b + Z.of_nat (length l))
                            then slice data (off + 512 * Z.to_nat (i - b)) (off + 512 * Z.to_nat (i - b) + 512)
                            else sd_sector t i
  else l ≠ [] → foldM (sd_write_step data) (b, off) l t = Panic Bounds.
Proof.
  intros Hd. induction l as [|x l IH]; intros b off t Ht Hb Hm; cbn [foldM length] in *.
  { destruct (Nat.leb_spec (off + 512 * 0) (length data)); [|done]. exists t, (b, off). split_and!; [done..|].
    intros i. by rewrite decide_False by lia. }
  assert (sd_write_step data (b, off) x t =
            if (off + 512 <=? length data)%nat then
              (sd_write_block b (slice data off (off + 512));; mret (wadd b 1, off + 512)%nat) t
            else Panic Bounds) as Estep by (unfold sd_write_step; by destruct (off + 512 <=? length data)%nat).
  destruct (Nat.leb_spec (off + 512) (length data)) as [Hle|Hgt].
  2: { destruct (Nat.leb_spec (off + 512 * S (length l)) (length data)); [lia|]. intros _. by apply bind_Panic. }
  destruct (sd_write_ok t b (slice data off (off + 512))) as (t1 & E1 & Ht1 & Hs1); [done|lia|unfold slice; rewrite length_take, length_drop; lia|by apply Forall_slice|].
  rewrite (bind_Ok _ _ _ _ _ E1), wadd_1 in Estep by lia.
  specialize (IH (b + 1) (off + 512)%nat t1 Ht1 ltac:(lia) ltac:(lia)).
  replace (off + 512 * S (length l))%nat with (off + 512 + 512 * length l)%nat by lia.
  destruct (Nat.leb_spec (off + 512 + 512 * length l) (length data)).
  - destruct IH as (t' & r & E & Ht' & Hs'). exists t', r. split_and!; [by rewrite (bind_Ok _ _ _ _ _ Estep)|done|].
    intros i. rewrite Hs', Hs1. destruct (decide (i = b)) as [->|].
    + rewrite decide_False, decide_True, Z.sub_diag by lia. by rewrite !Nat.add_0_r.
    + destruct (decide (b + 1 ≤ i < b + 1 + Z.of_nat (length l))).
      * rewrite decide_True by lia.
        by replace (off + 512 + 512 * Z.to_nat (i - (b + 1)))%nat with (off + 512 * Z.to_nat (i - b))%nat by lia.
      * by rewrite decide_False by lia.
  - intros _. rewrite (bind_Ok _ _ _ _ _ Estep). apply IH. intros ->. cbn in *. lia.
Qed.

(** [SDCard::write_offset] is only right for whole aligned blocks: shorter data panics on the
    slice, and otherwise the driver writes the first 4096 bytes at the offset rounded down to a
    sector, as if the remainder of the offset and the rest of the data were not there. *)
Theorem sdcard_write_offset_rounds offset data (t : T) :
  sd_ready t → Forall is_byte data → 0 ≤ offset < 2 ^ 41 - 4096 →
  ((length data < 4096)%nat → SDCard_write_offset offset data t = Panic Bounds) ∧
  ((4096 ≤ length data)%nat →
   SDCard_write_offset offset data t = SDCard_write_offset (offset - offset mod 512) (take 4096 data) t ∧
   ∃ t', SDCard_write_offset offset data t = Ok ((), t') ∧ sd_ready t' ∧
     ∀ i, sd_sector t' i = if decide (offset / 512 ≤ i < offset / 512 + 8)
                           then slice data (512 * Z.to_nat (i - offset / 512)) (512 * Z.to_nat (i - offset / 512) + 512)
                           else sd_sector t i).
Proof.
  intros Ht Hd Ho. unfold SDCard_write_offset, BLOCK_SZ.
  pose proof (sd_write_blocks data (seq 0 8) Hd (offset / 512) 0 t Ht) as H. rewrite length_seq in H.
  specialize (H ltac:(Z.to_euclidean_division_equations; lia) ltac:(Z.to_euclidean_division_equations; lia)). split; intros Hl.
  - destruct (Nat.leb_spec (0 + 512 * 8) (length data)); [lia|]. by rewrite (bind_Panic _ _ _ Bounds) by by apply H.
  - replace ((offset - offset mod 512) / 512) with (offset / 512) by (Z.to_euclidean_division_equations; lia).
    split.
    + unfold mbind, M_bind. rewrite sd_write_prefix; [done|]. rewrite length_seq. lia.
    + destruct (Nat.leb_spec (0 + 512 * 8) (length data)); [|lia]. destruct H as (t' & r & E & Ht' & Hs).
      exists t'. split_and!; [by rewrite (bind_Ok _ _ _ _ _ E)|done|exact Hs].
Qed.

(** The sectors are read one after the other. *)
Lemma sd_read_blocks l : ∀ b buf (t : T),
  sd_ready t → 0 ≤ b → b + Z.of_nat (length l) ≤ 2 ^ 32 →
  ∃ t' r, foldM sd_read_step (b, buf) l t = Ok ((r, buf ++ mjoin (sd_sector t <$> seqZ b (Z.of_nat (length l)))), t') ∧
    sd_ready t' ∧ ∀ i, sd_sector t' i = sd_sector t i.
Proof.
  induction l as [|x l IH]; intros b buf t Ht Hb Hm; cbn [foldM length] in *.
  { exists t, b. by rewrite app_nil_r. }
  destruct (sd_read_ok t b (replicate 512 0)) as (t1 & E1 & Ht1 & Hs1); [done|lia|apply length_replicate|].
  assert (sd_read_step (b, buf) x t = Ok ((b + 1, buf ++ sd_sector t b), t1)) as E.
  { unfold sd_read_step. by rewrite (bind_Ok _ _ _ _ _ E1), wadd_1 by lia. }
  destruct (IH (b + 1) (buf ++ sd_sector t b) t1 Ht1) as (t' & r & E' & Ht' & Hs'); [lia..|].
  exists t', r. split_and!; [|done|intros i; by rewrite Hs', Hs1]. rewrite (bind_Ok _ _ _ _ _ E), E'.
  rewrite (seqZ_cons b) by lia. cbn [fmap list_fmap mjoin list_join]. rewrite <-app_assoc.
  replace (Z.pred (Z.of_nat (S (length l)))) with (Z.of_nat (length l)) by lia. rewrite <-Z.add_1_r.
  assert (sd_sector t1 <$> seqZ (b + 1) (Z.of_nat (length l)) = sd_sector t <$> seqZ (b + 1) (Z.of_nat (length l))) as ->; [|done].
  apply list_fmap_ext. intros ???. apply Hs1.
Qed.

(** [SDCard::read_offset] returns the bytes of the card from the offset to the end of the eighth sector after it. *)
Theorem sdcard_read_offset_contents offset (t : T) :
  sd_ready t → 0 ≤ offset < 2 ^ 41 - 4096 →
  ∃ t', SDCard_read_offset offset t =
          Ok (drop (Z.to_nat (offset mod 512)) (mjoin (sd_sector t <$> seqZ (offset / 512) 8)), t') ∧
    sd_ready t' ∧ ∀ i, sd_sector t' i = sd_sector t i.
Proof.
  intros Ht Ho. destruct (sd_read_blocks (seq 0 8) (offset / 512) [] t Ht) as (t' & r & E & Ht' & Hs);
    [rewrite ?length_seq; Z.to_euclidean_division_equations; lia..|].
  exists t'. split_and!; [|done..]. unfold SDCard_read_offset, BLOCK_SZ. by rewrite (bind_Ok _ _ _ _ _ E).
Qed.
End sdcard_spec.

(** * DMA memory *)

Lemma PhysAddr_page_offset_mod pa : PhysAddr_page_offset pa = pa mod 4096.
Proof. exact (land_ones_mod pa 12 ltac:(lia)). Qed.

Lemma drop_frames_spec l : ∀ s,
  NoDup l → (∀ p, p ∈ l → p < fa_current (fa s) ∧ p ∉ fa_recycled (fa s)) →
  ∃ s', drop_frames l s = Ok ((), s') ∧ fa_current (fa s') = fa_current (fa s) ∧
    fa_recycled (fa s') = fa_recycled (fa s) ++ l.
Proof.
  unfold drop_frames, FrameTracker_drop. induction l as [|p l IH]; intros s Hnd Hl; cbn [foldM].
  { exists s. by rewrite app_nil_r. }
  apply NoDup_cons in Hnd as [Hp Hnd]. destruct (Hl p) as [H1 H2]; [left|].
  pose proof (frame_dealloc_eq p s) as E. rewrite decide_False in E by (intros [?|?]; [lia|done]).
  erewrite bind_Ok by exact E. destruct (IH (mm_dealloc s p) Hnd) as (s' & E' & Hc & Hr).
  { intros q Hq. simpl. destruct (Hl q) as [? ?]; [by right|]. split; [done|].
    rewrite elem_of_app, list_elem_of_singleton. intros [?|?]; [done|congruence]. }
  exists s'. split_and!; [done|done|]. rewrite Hr. simpl. by rewrite <-app_assoc.
Qed.

(** DMA memory is given back as soon as it is handed out: [dma_alloc] drops the frame trackers,
    so that its pages count as free while the device uses them (they are not handed out again only
    because the allocator never reuses a frame), and [dma_dealloc] of the region panics. *)
Theorem dma_dealloc_panics pages s :
  mm_inv s → (0 < pages)%nat → Z.of_nat pages ≤ fa_end (fa s) - fa_current (fa s) →
  ∃ pa ka s', dma_alloc pages s = Ok ((pa, ka), s') ∧
    pa = fa_current (fa s) * 4096 ∧
    fa_recycled (fa s') = fa_recycled (fa s) ++ seqZ (fa_current (fa s)) (Z.of_nat pages) ∧
    dma_dealloc pa pages s' = Panic Explicit.
Proof.
  intros Hs Hp Hroom. pose proof (mm_inv_fa _ Hs) as Hfa. destruct Hfa as [H0 H1 H2 Hnd Hrec].
  pose proof (frame_alloc_contiguous_cases pages s Hs) as Hc. unfold dma_alloc.
  destruct (frame_alloc_contiguous pages s) as [[[ts root] s1]| |] eqn:E; [|destruct Hc; lia|done].
  destruct Hc as (_ & -> & -> & _ & Hfa1 & _). erewrite bind_Ok by exact E. cbn beta iota.
  destruct (drop_frames_spec (seqZ (fa_current (fa s)) (Z.of_nat pages)) s1) as (s2 & E2 & Hc2 & Hr2).
  { apply NoDup_seqZ. }
  { intros p Hin%elem_of_seqZ. rewrite Hfa1. simpl. split; [lia|]. intros Hin'.
    rewrite Forall_forall in Hrec. apply Hrec in Hin'. lia. }
  erewrite bind_Ok by exact E2. rewrite Hfa1 in Hc2, Hr2. simpl in Hc2, Hr2.
  assert (PhysAddr_from_ppn (fa_current (fa s)) = fa_current (fa s) * 4096) as Hpa.
  { unfold PhysAddr_from_ppn, wshl. rewrite Z.shiftl_mul_pow2 by (vm_compute; done).
    change (2 ^ PAGE_SIZE_BITS) with 4096. rewrite wrap_small by word. done. }
  eexists _, _, s2. split_and!; [reflexivity|done|done|].
  unfold dma_dealloc. rewrite Hpa, PhysAddr_from_usize_ok by lia. run.
  assert (PhysPageNum_from_pa (fa_current (fa s) * 4096) = Ok (fa_current (fa s))) as ->.
  { unfold PhysPageNum_from_pa, PhysAddr_floor. rewrite PhysAddr_page_offset_mod.
    unfold PAGE_SIZE. rewrite Z.mod_mul, Z.div_mul by lia. done. }
  run. destruct pages as [|n]; [lia|]. cbn [seq foldM]. rewrite bind_bind, bind_bind.
  pose proof (frame_dealloc_eq (fa_current (fa s)) s2) as Ed. rewrite decide_True in Ed.
  { by rewrite (bind_Panic _ _ _ Explicit). }
  right. rewrite Hr2, elem_of_app, elem_of_seqZ. lia.
Qed.

(** ** Devices in memory, for the witnesses *)

Definition ram_sector (t : gmap Z (list Z)) (id : Z) : list Z :=
  take 512 (default [] (t !! id) ++ replicate 512 0).
Definition ram_virtio : VirtIOBlk (gmap Z (list Z)) :=
  {| read_blocks := λ id len t, (Some (mjoin (ram_sector t <$> seqZ id (Z.of_nat (len / 512)))), t);
     write_blocks := λ id buf t, (true, <[id := buf]> t) |}.
Program Definition ram_virtio_ok : @VirtIOBlkOk (gmap Z (list Z)) ram_virtio :=
  {| sector := ram_sector; faults := λ _, 0%nat |}.
Next Obligation. intros t id. unfold ram_sector. rewrite length_take, length_app, length_replicate. lia. Qed.
Next Obligation. intros t id len H. simpl in H. lia. Qed.
Next Obligation.
  intros t id n _. exists t. split; [|done]. unfold read_blocks, ram_virtio.
  by rewrite Nat.mul_comm, Nat.div_mul by lia.
Qed.
Next Obligation.
  intros t id buf Hl. exists (<[id := buf]> t). split; [done|]. intros i. unfold ram_sector.
  case_decide as Hi; [|by rewrite lookup_insert_ne]. subst i. rewrite lookup_insert_eq. simpl.
  rewrite take_app_le by lia. by rewrite take_ge by lia.
Qed.

Lemma virtio_offset_roundtrip_witness : ∃ t1 t2 l,
  @VirtIOBlock_write_offset _ ram_virtio 1022 [1; 2; 3] ∅ = Ok ((), t1) ∧
  (∀ i, @disk_byte _ ram_virtio ram_virtio_ok t1 i
        = if decide (1022 ≤ i < 1022 + 3) then [1; 2; 3] !!! Z.to_nat (i - 1022)
          else @disk_byte _ ram_virtio ram_virtio_ok ∅ i) ∧
  @VirtIOBlock_read_offset _ ram_virtio 1022 t1 = Ok (l, t2) ∧ length l = Z.to_nat (4096 - 1022 mod 512) ∧
  ∀ k, (k < length l `min` 3)%nat → l !! k = [1; 2; 3] !! k.
Proof.
  exact (@virtio_offset_roundtrip _ ram_virtio ram_virtio_ok (λ _, eq_refl) 1022 [1; 2; 3] ∅
           ltac:(lia) ltac:(vm_compute; reflexivity)).
Defined.

Definition ram_sd : Vf2SdDriver (gmap Z (list Z)) :=
  {| sd_read_block := λ id buf t, Ok (ram_sector t id, t); sd_write_block := λ id buf t, Ok ((), <[id := buf]> t) |}.
Program Definition ram_sd_ok : @Vf2SdDriverOk _ ram_sd := {| sd_sector := ram_sector; sd_ready := λ _, True |}.
Next Obligation. intros t id _. apply (@sector_length _ _ ram_virtio_ok). Qed.
Next Obligation. intros t id buf _ _ _. by exists t. Qed.
Next Obligation.
  intros t id buf _ _ Hl _. exists (<[id := buf]> t). split_and!; [done..|].
  destruct (@write_success _ _ ram_virtio_ok t id buf Hl) as (t' & E & H). by injection E as <-.
Qed.

Lemma sdcard_write_offset_rounds_witness :
  @SDCard_write_offset _ ram_sd 100 [1; 2; 3] ∅ = Panic Bounds ∧
  ∃ t', @SDCard_write_offset _ ram_sd 100 (replicate 4096 7) ∅ = Ok ((), t').
Proof.
  split.
  - apply (proj1 (@sdcard_write_offset_rounds _ ram_sd ram_sd_ok 100 [1; 2; 3] ∅ I ltac:(repeat constructor; unfold is_byte; lia) ltac:(lia))). cbn [length]. lia.
  - destruct (proj2 (@sdcard_write_offset_rounds _ ram_sd ram_sd_ok 100 (replicate 4096 7) ∅ I ltac:(apply Forall_replicate; unfold is_byte; lia) ltac:(lia)))
      as (_ & t' & E & _); [rewrite length_replicate; lia|]. by exists t'.
Defined.

Lemma sdcard_read_offset_contents_witness : ∃ t', @SDCard_read_offset _ ram_sd 100 ∅ = Ok (replicate 3996 0, t').
Proof.
  destruct (@sdcard_read_offset_contents _ ram_sd ram_sd_ok 100 ∅ I ltac:(lia)) as (t' & E & _). exists t'.
  rewrite E. vm_compute. reflexivity.
Defined.

Lemma dma_dealloc_panics_witness : ∃ pa ka s',
  dma_alloc 2 (booted (λ _, zero_page) 0x80300 0x80400) = Ok ((pa, ka), s') ∧ pa = 0x80300 * 4096 ∧
  fa_recycled (fa s') = [] ++ seqZ 0x80300 2 ∧ dma_dealloc pa 2 s' = Panic Explicit.
Proof.
  apply (dma_dealloc_panics 2 (booted (λ _, zero_page) 0x80300 0x80400)); [|lia|vm_compute; discriminate].
  apply booted_inv; try lia; [done|intros _; apply zero_page_byte].
Defined.
