(* ===== verification/Fat32Layout.v ===== *)
(** * On-disk structures of FAT32 ([os/src/fs/fat32/super_block.rs], [dentry.rs])

    The super block and the short and long directory entries, with the bytes they occupy ([repr(C)];
    the fields of the super block fall on their natural alignment).  A Rust string is the list of
    its characters, by code point; its length and its slices count the bytes of its UTF-8 encoding. *)

From Stdlib Require Import ZArith Lia.
From stdpp Require Import functions prelude.
From S2P Require Import Prelude.

Open Scope Z_scope.

(** ** Strings *)

Definition str : Type := list Z.

(** [char::len_utf8], [str::len] *)
Definition char_len (c : Z) : nat :=
  if c <? 0x80 then 1 else if c <? 0x800 then 2 else if c <? 0x10000 then 3 else 4.
Definition str_len (s : str) : nat := sum_list (char_len <$> s).

(** [s.split_at(n)], [None] when byte [n] is not a character boundary *)
Fixpoint str_split_at (s : str) (n : nat) : option (str * str) :=
  match n, s with
  | O, _ => Some ([], s)
  | S _, [] => None
  | S _, c :: s' =>
      if (char_len c <=? n)%nat then
        match str_split_at s' (n - char_len c) with Some (a, b) => Some (c :: a, b) | None => None end
      else None
  end.

(** [&s[i..j]] *)
Definition str_slice (s : str) (i j : nat) : outcome str :=
  match str_split_at s i with
  | Some (_, r) => match str_split_at r (j - i) with Some (a, _) => Ok a | None => Panic Bounds end
  | None => Panic Bounds
  end.

(** [char::from_u32] *)
Definition char_from_u32 (v : Z) : option Z :=
  if (v <? 0xD800) || ((0xDFFF <? v) && (v <? 0x110000)) then Some v else None.

Definition is_ascii_uppercase (c : Z) : bool := (65 <=? c) && (c <=? 90).

(** ** The super block *)

(** The fields of [Fat32SBLayout] that the kernel reads, at their offsets in the boot sector *)
Record Fat32SBLayout := {
  sbl_bytes_per_sector : list Z;
  sbl_sectors_per_cluster : Z;
  sbl_reserved_sectors_cnt : Z;
  sbl_fat_cnt : Z;
  sbl_total_sectors_32 : Z;
  sbl_fat_size_32 : Z;
  sbl_root_cluster : Z;
  sbl_fs_type : list Z;
}.

Definition SBLayout_size : Z := 92.
Definition SBLayout_of_bytes (b : list Z) : Fat32SBLayout :=
  {| sbl_bytes_per_sector := slice b 11 13;
     sbl_sectors_per_cluster := b !!! 13%nat;
     sbl_reserved_sectors_cnt := le_word (slice b 14 16);
     sbl_fat_cnt := b !!! 16%nat;
     sbl_total_sectors_32 := le_word (slice b 32 36);
     sbl_fat_size_32 := le_word (slice b 36 40);
     sbl_root_cluster := le_word (slice b 44 48);
     sbl_fs_type := slice b 82 90 |}.

(** [b"FAT32   "] *)
Definition FAT32_TYPE : list Z := [70; 65; 84; 51; 50; 32; 32; 32].
Definition Fat32SBLayout_is_valid (l : Fat32SBLayout) : bool := bool_decide (sbl_fs_type l = FAT32_TYPE).

Record Fat32SB := {
  bytes_per_sector : Z;
  sectors_per_cluster : Z;
  reserved_sectors_cnt : Z;
  fat_cnt : Z;
  total_sectors_32 : Z;
  fat_size_32 : Z;
  root_cluster : Z;
}.

Definition Fat32SB_from_layout (l : Fat32SBLayout) : Fat32SB :=
  {| bytes_per_sector := Z.lor (sbl_bytes_per_sector l !!! 0%nat) (Z.shiftl (sbl_bytes_per_sector l !!! 1%nat) 8);
     sectors_per_cluster := sbl_sectors_per_cluster l;
     reserved_sectors_cnt := sbl_reserved_sectors_cnt l;
     fat_cnt := sbl_fat_cnt l;
     total_sectors_32 := sbl_total_sectors_32 l;
     fat_size_32 := sbl_fat_size_32 l;
     root_cluster := sbl_root_cluster l |}.

Definition Fat32SB_root_sector (sb : Fat32SB) : Z :=
  wadd (reserved_sectors_cnt sb) (wmul (fat_cnt sb) (fat_size_32 sb)).

(** ** Short entries *)

Definition FA_SYSTEM : Z := 4.
Definition FA_VOLUME_ID : Z := 8.
Definition FA_DIRECTORY : Z := 16.
Definition FA_ARCHIVE : Z := 32.
(** [FileAttributes::from_bits_truncate] *)
Definition FileAttributes_from_bits_truncate (v : Z) : Z := Z.land v 0x3F.

Record Fat32DentryLayout := {
  dl_name : list Z;
  dl_ext : list Z;
  dl_attr : Z;
  dl_reserved : Z;
  dl_create_time_ms : Z;
  dl_create_time : Z;
  dl_create_date : Z;
  dl_last_access_date : Z;
  dl_start_cluster_high : Z;
  dl_last_modify_time : Z;
  dl_last_modify_date : Z;
  dl_start_cluster_low : Z;
  dl_file_size : Z;
}.

Definition DENTRY_SIZE : Z := 32.
Definition DentryLayout_of_bytes (b : list Z) : Fat32DentryLayout :=
  {| dl_name := slice b 0 8; dl_ext := slice b 8 11; dl_attr := b !!! 11%nat; dl_reserved := b !!! 12%nat;
     dl_create_time_ms := b !!! 13%nat; dl_create_time := le_word (slice b 14 16);
     dl_create_date := le_word (slice b 16 18); dl_last_access_date := le_word (slice b 18 20);
     dl_start_cluster_high := le_word (slice b 20 22); dl_last_modify_time := le_word (slice b 22 24);
     dl_last_modify_date := le_word (slice b 24 26); dl_start_cluster_low := le_word (slice b 26 28);
     dl_file_size := le_word (slice b 28 32) |}.
Definition DentryLayout_bytes (l : Fat32DentryLayout) : list Z :=
  dl_name l ++ dl_ext l ++ [dl_attr l; dl_reserved l; dl_create_time_ms l] ++
  le_bytes 2 (dl_create_time l) ++ le_bytes 2 (dl_create_date l) ++ le_bytes 2 (dl_last_access_date l) ++
  le_bytes 2 (dl_start_cluster_high l) ++ le_bytes 2 (dl_last_modify_time l) ++
  le_bytes 2 (dl_last_modify_date l) ++ le_bytes 2 (dl_start_cluster_low l) ++ le_bytes 4 (dl_file_size l).

(** The loop over the characters of the name: 46 is the dot. *)
Fixpoint short_name (cs : str) (i : nat) (name ext : list Z) (name_capital ext_capital : bool)
    : list Z * list Z * bool * bool :=
  match cs with
  | [] => (name, ext, name_capital, ext_capital)
  | c :: cs =>
      if c =? 46 then short_name cs 8 name ext name_capital ext_capital
      else if (i <? 8)%nat then
        short_name cs (S i) (<[i := as_u8 c]> name) ext (name_capital || is_ascii_uppercase c) ext_capital
      else if (i <? 11)%nat then
        short_name cs (S i) name (<[(i - 8)%nat := as_u8 c]> ext) name_capital
          (ext_capital || is_ascii_uppercase c)
      else (name, ext, name_capital, ext_capital)
  end.

Definition Fat32DentryLayout_new (file_name : str) (attr start_cluster file_size : Z) : Fat32DentryLayout :=
  let '(name, ext, name_capital, ext_capital) :=
    short_name file_name 0 (replicate 8 0) (replicate 3 0) false false in
  {| dl_name := name; dl_ext := ext; dl_attr := attr;
     dl_reserved := Z.lor (if (name_capital : bool) then 8 else 0) (if (ext_capital : bool) then 16 else 0);
     dl_create_time_ms := 0; dl_create_time := 0; dl_create_date := 0; dl_last_access_date := 0;
     dl_start_cluster_high := as_u16 (Z.shiftr start_cluster 16);
     dl_last_modify_time := 0; dl_last_modify_date := 0;
     dl_start_cluster_low := as_u16 start_cluster; dl_file_size := file_size |}.

Definition DentryLayout_is_long (l : Fat32DentryLayout) : bool := Z.land (dl_attr l) 0x0F =? 0x0F.
Definition DentryLayout_is_deleted (l : Fat32DentryLayout) : bool := dl_name l !!! 0%nat =? 0xE5.
Definition DentryLayout_is_empty (l : Fat32DentryLayout) : bool := dl_name l !!! 0%nat =? 0.
Definition DentryLayout_attr (l : Fat32DentryLayout) : Z := FileAttributes_from_bits_truncate (dl_attr l).
Definition DentryLayout_start_cluster_id (l : Fat32DentryLayout) : Z :=
  Z.lor (as_u32 (Z.shiftl (dl_start_cluster_high l) 16)) (dl_start_cluster_low l).
Definition DentryLayout_with_name (l : Fat32DentryLayout) (name : list Z) : Fat32DentryLayout :=
  {| dl_name := name; dl_ext := dl_ext l; dl_attr := dl_attr l; dl_reserved := dl_reserved l;
     dl_create_time_ms := dl_create_time_ms l; dl_create_time := dl_create_time l;
     dl_create_date := dl_create_date l; dl_last_access_date := dl_last_access_date l;
     dl_start_cluster_high := dl_start_cluster_high l; dl_last_modify_time := dl_last_modify_time l;
     dl_last_modify_date := dl_last_modify_date l; dl_start_cluster_low := dl_start_cluster_low l;
     dl_file_size := dl_file_size l |}.
Definition DentryLayout_set_deleted (l : Fat32DentryLayout) : Fat32DentryLayout :=
  DentryLayout_with_name l (<[0%nat := 0xE5]> (dl_name l)).
Definition DentryLayout_with_size (l : Fat32DentryLayout) (size : Z) : Fat32DentryLayout :=
  {| dl_name := dl_name l; dl_ext := dl_ext l; dl_attr := dl_attr l; dl_reserved := dl_reserved l;
     dl_create_time_ms := dl_create_time_ms l; dl_create_time := dl_create_time l;
     dl_create_date := dl_create_date l; dl_last_access_date := dl_last_access_date l;
     dl_start_cluster_high := dl_start_cluster_high l; dl_last_modify_time := dl_last_modify_time l;
     dl_last_modify_date := dl_last_modify_date l; dl_start_cluster_low := dl_start_cluster_low l;
     dl_file_size := size |}.

(** [for i in units { if i == stop { break } name.push(char::from_u32(i).unwrap()) }]: the
    characters, and whether the stop unit was met *)
Fixpoint push_until (stop : Z) (units : list Z) : outcome (str * bool) :=
  match units with
  | [] => Ok ([], false)
  | u :: units =>
      if u =? stop then Ok ([], true)
      else c ← unwrapO (char_from_u32 u);
           '(s, fin) ← push_until stop units;
           Ok (c :: s, fin)
  end.

Definition DentryLayout_name (l : Fat32DentryLayout) : outcome str :=
  '(name, _) ← push_until 0x20 (dl_name l);
  '(ext, _) ← push_until 0x20 (dl_ext l);
  Ok (name ++ 46 :: ext).

(** ** Long entries *)

Record Fat32LDentryLayout := {
  ld_order : Z;
  ld_name1 : list Z;
  ld_attr : Z;
  ld_reserved : Z;
  ld_checksum : Z;
  ld_name2 : list Z;
  ld_start_cluster : Z;
  ld_name3 : list Z;
}.

(** Arrays of little-endian [u16] *)
Fixpoint le_units (b : list Z) : list Z :=
  match b with x :: y :: b' => le_word [x; y] :: le_units b' | _ => [] end.
Definition units_bytes (us : list Z) : list Z := us ≫= le_bytes 2.

Definition LDentryLayout_of_bytes (b : list Z) : Fat32LDentryLayout :=
  {| ld_order := b !!! 0%nat; ld_name1 := le_units (slice b 1 11); ld_attr := b !!! 11%nat;
     ld_reserved := b !!! 12%nat; ld_checksum := b !!! 13%nat; ld_name2 := le_units (slice b 14 26);
     ld_start_cluster := le_word (slice b 26 28); ld_name3 := le_units (slice b 28 32) |}.
Definition LDentryLayout_bytes (l : Fat32LDentryLayout) : list Z :=
  [ld_order l] ++ units_bytes (ld_name1 l) ++ [ld_attr l; ld_reserved l; ld_checksum l] ++
  units_bytes (ld_name2 l) ++ le_bytes 2 (ld_start_cluster l) ++ units_bytes (ld_name3 l).

(** The loop over the characters; the fourteenth is out of the bounds of [name3]. *)
Fixpoint long_name (cs : str) (i : nat) (name1 name2 name3 : list Z) : outcome (list Z * list Z * list Z) :=
  match cs with
  | [] => Ok (name1, name2, name3)
  | c :: cs =>
      if (i <? 5)%nat then long_name cs (S i) (<[i := as_u16 c]> name1) name2 name3
      else if (i <? 11)%nat then long_name cs (S i) name1 (<[(i - 5)%nat := as_u16 c]> name2) name3
      else if (i <? 13)%nat then long_name cs (S i) name1 name2 (<[(i - 11)%nat := as_u16 c]> name3)
      else Panic Bounds
  end.

Definition Fat32LDentryLayout_new (order : Z) (name : str) (is_end : bool) : outcome Fat32LDentryLayout :=
  '(name1, name2, name3) ← long_name name 0 (replicate 5 0) (replicate 6 0) (replicate 2 0);
  Ok {| ld_order := if is_end then Z.lor order 0x40 else order; ld_name1 := name1; ld_attr := 0x0F;
        ld_reserved := 0; ld_checksum := 0; ld_name2 := name2; ld_start_cluster := 0; ld_name3 := name3 |}.

Definition u8_pair (lo hi : Z) : Z := Z.lor lo (Z.shiftl hi 8).
Definition LDentry_from_short_layout (l : Fat32DentryLayout) : option Fat32LDentryLayout :=
  if negb (Z.land (dl_attr l) 0x0F =? 0x0F) then None
  else
    let n i := dl_name l !!! i%nat in
    let e i := dl_ext l !!! i%nat in
    Some {| ld_order := n 0%nat;
            ld_name1 := [u8_pair (n 1%nat) (n 2%nat); u8_pair (n 3%nat) (n 4%nat);
                         u8_pair (n 5%nat) (n 6%nat); u8_pair (n 7%nat) (e 0%nat);
                         u8_pair (e 1%nat) (e 2%nat)];
            ld_attr := dl_attr l; ld_reserved := dl_reserved l; ld_checksum := dl_create_time_ms l;
            ld_name2 := [dl_create_time l; dl_create_date l; dl_last_access_date l;
                         dl_start_cluster_high l; dl_last_modify_time l; dl_last_modify_date l];
            ld_start_cluster := dl_start_cluster_low l;
            ld_name3 := [as_u16 (dl_file_size l); as_u16 (Z.shiftr (dl_file_size l) 16)] |}.

Definition LDentry_is_end (l : Fat32LDentryLayout) : bool := negb (Z.land (ld_order l) 0x40 =? 0).
Definition LDentry_is_deleted (l : Fat32LDentryLayout) : bool := ld_order l =? 0xE5.
Definition LDentry_is_empty (l : Fat32LDentryLayout) : bool := ld_order l =? 0.
Definition LDentry_is_valid (l : Fat32LDentryLayout) : bool :=
  negb (LDentry_is_end l) && negb (LDentry_is_deleted l) && negb (LDentry_is_empty l).
Definition LDentry_with_order (l : Fat32LDentryLayout) (order : Z) : Fat32LDentryLayout :=
  {| ld_order := order; ld_name1 := ld_name1 l; ld_attr := ld_attr l; ld_reserved := ld_reserved l;
     ld_checksum := ld_checksum l; ld_name2 := ld_name2 l; ld_start_cluster := ld_start_cluster l;
     ld_name3 := ld_name3 l |}.

Definition LDentry_name (l : Fat32LDentryLayout) : outcome str :=
  '(s1, fin) ← push_until 0 (ld_name1 l);
  if (fin : bool) then Ok s1
  else '(s2, fin) ← push_until 0 (ld_name2 l);
       if (fin : bool) then Ok (s1 ++ s2)
       else '(s3, _) ← push_until 0 (ld_name3 l); Ok (s1 ++ s2 ++ s3).

(** * Lemmas *)

Lemma le_u16_roundtrip v : 0 ≤ v < 2 ^ 16 → le_word (le_bytes 2 v) = v.
Proof. apply (le_word_le_bytes 2). Qed.
Lemma le_u32_roundtrip v : 0 ≤ v < 2 ^ 32 → le_word (le_bytes 4 v) = v.
Proof. apply (le_word_le_bytes 4). Qed.

Record dentry_wf (l : Fat32DentryLayout) : Prop := {
  dw_name : length (dl_name l) = 8%nat;
  dw_ext : length (dl_ext l) = 3%nat;
  dw_u16 : Forall (λ v, 0 ≤ v < 2 ^ 16)
    [dl_create_time l; dl_create_date l; dl_last_access_date l; dl_start_cluster_high l;
     dl_last_modify_time l; dl_last_modify_date l; dl_start_cluster_low l];
  dw_size : 0 ≤ dl_file_size l < 2 ^ 32;
}.

Lemma length_DentryLayout_bytes l : dentry_wf l → length (DentryLayout_bytes l) = 32%nat.
Proof.
  intros [H1 H2 _ _]. unfold DentryLayout_bytes. rewrite !length_app, H1, H2. cbn [length le_bytes]. done.
Qed.

Lemma DentryLayout_roundtrip l : dentry_wf l → DentryLayout_of_bytes (DentryLayout_bytes l) = l.
Proof.
  intros [H1 H2 H3 H4]. destruct l as [name ext a r ms f1 f2 f3 f4 f5 f6 f7 sz]. simpl in *.
  rewrite !Forall_cons in H3. destruct H3 as (? & ? & ? & ? & ? & ? & ? & _).
  do 8 (destruct name as [|? name]; [discriminate|]). destruct name; [|discriminate].
  do 3 (destruct ext as [|? ext]; [discriminate|]). destruct ext; [|discriminate].
  unfold DentryLayout_bytes, DentryLayout_of_bytes, slice. simpl dl_name. simpl dl_ext.
  cbn [app take drop Nat.sub lookup_total list_lookup_total le_bytes dl_attr dl_reserved dl_create_time_ms dl_create_time
       dl_create_date dl_last_access_date dl_start_cluster_high dl_last_modify_time dl_last_modify_date
       dl_start_cluster_low dl_file_size].
  f_equal; by first [apply le_u16_roundtrip|apply le_u32_roundtrip].
Qed.

Definition is_u16 (v : Z) : Prop := 0 ≤ v < 2 ^ 16.

Lemma units_bytes_cons u us : units_bytes (u :: us) = le_bytes 2 u ++ units_bytes us.
Proof. done. Qed.

Lemma le_units_roundtrip us : Forall is_u16 us → le_units (units_bytes us) = us.
Proof.
  induction 1 as [|u us Hu Hus IH]; [done|]. rewrite units_bytes_cons. cbn [le_bytes app le_units].
  rewrite IH. f_equal. by apply le_u16_roundtrip.
Qed.

Lemma length_units_bytes us : length (units_bytes us) = (2 * length us)%nat.
Proof.
  induction us as [|u us IH]; [done|]. rewrite units_bytes_cons, length_app, IH, length_le_bytes. cbn [length]. lia.
Qed.

Record ldentry_wf (l : Fat32LDentryLayout) : Prop := {
  lw_name1 : length (ld_name1 l) = 5%nat;
  lw_name2 : length (ld_name2 l) = 6%nat;
  lw_name3 : length (ld_name3 l) = 2%nat;
  lw_units : Forall is_u16 (ld_name1 l ++ ld_name2 l ++ ld_name3 l);
  lw_start : is_u16 (ld_start_cluster l);
}.

Lemma length_LDentryLayout_bytes l : ldentry_wf l → length (LDentryLayout_bytes l) = 32%nat.
Proof.
  intros [H1 H2 H3 _ _]. unfold LDentryLayout_bytes.
  rewrite !length_app, !length_units_bytes, H1, H2, H3, length_le_bytes. done.
Qed.

Lemma slice_app_mid {A} (a b c : list A) i j :
  length a = i → (i + length b)%nat = j → slice (a ++ b ++ c) i j = b.
Proof.
  intros <- <-. unfold slice. rewrite drop_app_length.
  replace (length a + length b - length a)%nat with (length b) by lia. by rewrite take_app_length.
Qed.

Lemma LDentryLayout_roundtrip l : ldentry_wf l → LDentryLayout_of_bytes (LDentryLayout_bytes l) = l.
Proof.
  intros [H1 H2 H3 H4 H5]. destruct l as [o n1 a r ck n2 sc n3]. simpl in *.
  rewrite !Forall_app in H4. destruct H4 as (Hu1 & Hu2 & Hu3).
  unfold LDentryLayout_of_bytes, LDentryLayout_bytes.
  cbn [ld_order ld_name1 ld_attr ld_reserved ld_checksum ld_name2 ld_start_cluster ld_name3].
  set (b1 := units_bytes n1). set (b2 := units_bytes n2). set (b3 := units_bytes n3).
  assert (length b1 = 10%nat) as L1 by (unfold b1; rewrite length_units_bytes; lia).
  assert (length b2 = 12%nat) as L2 by (unfold b2; rewrite length_units_bytes; lia).
  assert (length b3 = 4%nat) as L3 by (unfold b3; rewrite length_units_bytes; lia).
  f_equal.
  - rewrite (slice_app_mid [o]) by (simpl; lia). by apply le_units_roundtrip.
  - apply list_lookup_total_correct. rewrite (app_assoc [o]), lookup_app_r by (simpl; lia). simpl length. by rewrite L1.
  - apply list_lookup_total_correct. rewrite (app_assoc [o]), lookup_app_r by (simpl; lia). simpl length. by rewrite L1.
  - apply list_lookup_total_correct. rewrite (app_assoc [o]), lookup_app_r by (simpl; lia). simpl length. by rewrite L1.
  - rewrite (app_assoc [o]), (app_assoc ([o] ++ b1)).
    rewrite slice_app_mid by (rewrite ?length_app; simpl; lia). by apply le_units_roundtrip.
  - rewrite (app_assoc [o]), (app_assoc ([o] ++ b1)), (app_assoc _ b2).
    rewrite slice_app_mid by (rewrite ?length_app, ?length_le_bytes; simpl; lia). by apply le_u16_roundtrip.
  - rewrite (app_assoc [o]), (app_assoc ([o] ++ b1)), (app_assoc _ b2), (app_assoc _ (le_bytes 2 sc)).
    rewrite <-(app_nil_r b3). rewrite slice_app_mid by (rewrite ?length_app, ?length_le_bytes; simpl; lia).
    by apply le_units_roundtrip.
Qed.

(** ** Long names *)

Lemma splice_app {A} (l1 l2 k : list A) : splice (l1 ++ l2) (length l1) k = l1 ++ k ++ drop (length k) l2.
Proof. unfold splice. by rewrite take_app_length, drop_app_add. Qed.

Lemma splice_cons {A} (l : list A) i x k :
  (i < length l)%nat → splice l i (x :: k) = splice (<[i := x]> l) (S i) k.
Proof.
  intros Hi. destruct (lookup_lt_is_Some_2 l i Hi) as [y Hy].
  assert (length (take i l) = i) as Hl by (rewrite length_take; lia).
  rewrite <-(take_drop_middle l i y Hy) at 1. rewrite (insert_take_drop l i x) by done.
  revert Hl. generalize (take i l), (drop (S i) l). intros l1 l2 <-.
  rewrite splice_app. replace (l1 ++ x :: l2) with ((l1 ++ [x]) ++ l2) by (by rewrite <-app_assoc).
  replace (S (length l1)) with (length (l1 ++ [x])) by (rewrite length_app; simpl; lia).
  rewrite splice_app, <-app_assoc. done.
Qed.

Lemma splice_nil {A} (l : list A) i : splice l i [] = l.
Proof. unfold splice. cbn. by rewrite Nat.add_0_r, take_drop. Qed.

Lemma long_name_spec cs : ∀ i n1 n2 n3,
  length n1 = 5%nat → length n2 = 6%nat → length n3 = 2%nat → (i + length cs ≤ 13)%nat →
  ∃ m1 m2 m3, long_name cs i n1 n2 n3 = Ok (m1, m2, m3) ∧
    length m1 = 5%nat ∧ length m2 = 6%nat ∧ length m3 = 2%nat ∧
    m1 ++ m2 ++ m3 = splice (n1 ++ n2 ++ n3) i (as_u16 <$> cs).
Proof.
  induction cs as [|c cs IH]; intros i n1 n2 n3 H1 H2 H3 Hi; cbn [long_name].
  { exists n1, n2, n3. cbn [fmap list_fmap]. by rewrite splice_nil. }
  cbn [length] in Hi. rewrite fmap_cons, splice_cons by (rewrite !length_app; lia).
  destruct (Nat.ltb_spec i 5); [|destruct (Nat.ltb_spec i 11); [|destruct (Nat.ltb_spec i 13); [|lia]]].
  - destruct (IH (S i) (<[i:=as_u16 c]> n1) n2 n3) as (m1 & m2 & m3 & E & ? & ? & ? & Em);
      [by rewrite length_insert|done|done|lia|].
    exists m1, m2, m3. rewrite E, Em. split_and!; [done..|]. by rewrite insert_app_l by lia.
  - destruct (IH (S i) n1 (<[(i - 5)%nat:=as_u16 c]> n2) n3) as (m1 & m2 & m3 & E & ? & ? & ? & Em);
      [done|by rewrite length_insert|done|lia|].
    exists m1, m2, m3. rewrite E, Em. split_and!; [done..|].
    replace i with (length n1 + (i - 5))%nat at 3 by lia. by rewrite insert_app_r, insert_app_l by lia.
  - destruct (IH (S i) n1 n2 (<[(i - 11)%nat:=as_u16 c]> n3)) as (m1 & m2 & m3 & E & ? & ? & ? & Em);
      [done|done|by rewrite length_insert|lia|].
    exists m1, m2, m3. rewrite E, Em. split_and!; [done..|].
    replace i with (length n1 + (length n2 + (i - 11)))%nat at 3 by lia. by rewrite !insert_app_r.
Qed.

(** Characters of the basic plane below the surrogates, without the terminator. *)
Definition name_char (c : Z) : Prop := 1 ≤ c < 0xD800.

Lemma push_until_app stop a b :
  push_until stop (a ++ b)
  = ('(s, fin) ← push_until stop a;
     if (fin : bool) then Ok (s, true) else '(t, fin) ← push_until stop b; Ok (s ++ t, fin)).
Proof.
  induction a as [|u a IH]; cbn [app push_until]; unfold mbind, outcome_bind in *.
  - by destruct (push_until stop b) as [[]| |].
  - destruct (u =? stop); [done|]. destruct (unwrapO (char_from_u32 u)); [|done..]. rewrite IH.
    destruct (push_until stop a) as [[s []]| |]; [done| |done..]. by destruct (push_until stop b) as [[]| |].
Qed.

Lemma push_until_chars l : Forall name_char l → push_until 0 l = Ok (l, false).
Proof.
  induction 1 as [|c l Hc Hl IH]; [done|]. unfold name_char in Hc. cbn [push_until].
  rewrite (proj2 (Z.eqb_neq _ _)) by lia. unfold char_from_u32. rewrite (proj2 (Z.ltb_lt _ _)) by lia.
  cbn [orb unwrapO]. unfold mbind, outcome_bind in *. by rewrite IH.
Qed.

Lemma LDentry_name_units l :
  LDentry_name l = ('(s, _) ← push_until 0 (ld_name1 l ++ ld_name2 l ++ ld_name3 l); Ok s).
Proof.
  unfold LDentry_name. rewrite push_until_app. unfold mbind, outcome_bind.
  destruct (push_until 0 (ld_name1 l)) as [[s1 []]| |]; [done| |done..].
  rewrite push_until_app. unfold mbind, outcome_bind.
  destruct (push_until 0 (ld_name2 l)) as [[s2 []]| |]; [done| |done..].
  by destruct (push_until 0 (ld_name3 l)) as [[s3 fin]| |].
Qed.

Lemma as_u16_chars cs : Forall name_char cs → as_u16 <$> cs = cs.
Proof.
  induction 1 as [|c cs Hc Hcs IH]; [done|]. rewrite fmap_cons, IH. f_equal.
  unfold name_char in Hc. unfold as_u16. rewrite Z.mod_small; lia.
Qed.

Lemma zero_units_splice cs :
  (length cs ≤ 13)%nat → splice (replicate 13 0) 0 cs = cs ++ replicate (13 - length cs) 0.
Proof. intros Hl. unfold splice. cbn [take app Nat.add]. by rewrite drop_replicate. Qed.

Lemma LDentry_new_spec order cs e :
  Forall name_char cs → (length cs ≤ 13)%nat →
  ∃ l, Fat32LDentryLayout_new order cs e = Ok l ∧ ldentry_wf l ∧ LDentry_name l = Ok cs ∧
    ld_order l = (if e then Z.lor order 0x40 else order) ∧ ld_attr l = 0x0F.
Proof.
  intros Hcs Hlen. unfold Fat32LDentryLayout_new.
  destruct (long_name_spec cs 0 (replicate 5 0) (replicate 6 0) (replicate 2 0))
    as (m1 & m2 & m3 & E & H1 & H2 & H3 & Em); [done|done|done|done|].
  rewrite E. cbn [mbind outcome_bind]. eexists. split; [reflexivity|].
  change (replicate 5 0 ++ replicate 6 0 ++ replicate 2 0) with (replicate 13 0) in Em.
  rewrite zero_units_splice, as_u16_chars in Em by (rewrite ?length_fmap; done).
  split_and!; [|rewrite LDentry_name_units|done|done]; cbn [ld_name1 ld_name2 ld_name3 ld_start_cluster].
  - split; cbn [ld_name1 ld_name2 ld_name3 ld_start_cluster]; [done..| |unfold is_u16; lia].
    rewrite Em. apply Forall_app. split; [|apply Forall_replicate; unfold is_u16; lia].
    eapply Forall_impl; [exact Hcs|]. unfold name_char, is_u16. lia.
  - rewrite Em, push_until_app, (push_until_chars cs) by done. cbn [mbind outcome_bind].
    destruct (13 - length cs)%nat; cbn; by rewrite app_nil_r.
Qed.

Lemma u8_pair_eq lo hi : 0 ≤ lo < 256 → 0 ≤ hi < 256 → u8_pair lo hi = le_word [lo; hi].
Proof.
  intros Hlo Hhi. unfold u8_pair. rewrite Z.lor_comm, Z.shiftl_mul_pow2 by lia.
  rewrite (lor_disjoint_add hi lo 8) by lia. cbn [le_word foldr]. lia.
Qed.

(** Reading a 32-byte slot as a short entry and converting it with [from_short_layout] gives the
    same long entry as reading the slot as a long entry, and nothing for a slot that is not one. *)
Theorem from_short_layout_correct b :
  length b = 32%nat → Forall is_byte b →
  LDentry_from_short_layout (DentryLayout_of_bytes b)
  = if DentryLayout_is_long (DentryLayout_of_bytes b) then Some (LDentryLayout_of_bytes b) else None.
Proof.
  intros Hl Hb. unfold LDentry_from_short_layout, DentryLayout_is_long.
  destruct (_ =? 0x0F); cbn [negb]; [|done].
  do 32 (destruct b as [|? b]; [discriminate|]). destruct b; [|discriminate]. clear Hl.
  repeat (apply Forall_cons in Hb as [? Hb]). clear Hb. unfold is_byte in *.
  unfold LDentryLayout_of_bytes, DentryLayout_of_bytes, slice.
  cbn [take drop Nat.sub lookup_total list_lookup_total le_units le_word foldr dl_name dl_ext dl_attr dl_reserved
       dl_create_time_ms dl_create_time dl_create_date dl_last_access_date dl_start_cluster_high
       dl_last_modify_time dl_last_modify_date dl_start_cluster_low dl_file_size].
  rewrite !u8_pair_eq by done. do 2 f_equal.
  unfold as_u16. rewrite Z.shiftr_div_pow2 by lia. f_equal; [|f_equal];
    clear - H27 H28 H29 H30; Z.to_euclidean_division_equations; lia.
Qed.

Lemma from_short_layout_correct_witness :
  let b := LDentryLayout_bytes {| ld_order := 0x41; ld_name1 := [97; 98; 0; 0; 0]; ld_attr := 0x0F; ld_reserved := 0;
    ld_checksum := 0; ld_name2 := replicate 6 0; ld_start_cluster := 0; ld_name3 := replicate 2 0 |} in
  LDentry_from_short_layout (DentryLayout_of_bytes b) = Some (LDentryLayout_of_bytes b).
Proof.
  refine (from_short_layout_correct _ _ _); [reflexivity|].
  repeat (apply Forall_cons_2; [split; vm_compute; congruence|]). apply Forall_nil_2.
Defined.
