(* ===== verification/Fat32.v ===== *)
(** * The FAT32 file system ([os/src/fs/fat32/fat.rs], [fs.rs], [dentry.rs], [inode.rs])

    Everything is read and written through the block cache: the operations are stated over any
    [BlockStore].  The file system, the table and the device that the structures of the source
    share are passed as the argument [fs].  Loops without an evident bound take [fuel], and answer
    [NoFuel] when it does not suffice. *)

From Stdlib Require Import ZArith Lia.
From stdpp Require Import functions prelude.
From S2P Require Import Prelude BlockCache Fat32Layout.

Open Scope Z_scope.

Definition CLUSTER_SIZE : Z := 4096.

Record FAT := { start_sector : Z; fat_sb : Fat32SB }.
Definition FAT_from_sb (sb : Fat32SB) : FAT := {| start_sector := reserved_sectors_cnt sb; fat_sb := sb |}.

Record Fat32FS := { fs_sb : Fat32SB; fs_fat : FAT }.

Record Fat32Dentry := { sector_id : Z; sector_offset : Z; deleted : bool }.
Definition Fat32Dentry_new (sector offset : Z) : Fat32Dentry :=
  {| sector_id := sector; sector_offset := offset; deleted := false |}.
Definition Fat32Dentry_new_deleted : Fat32Dentry :=
  {| sector_id := 0; sector_offset := 0; deleted := true |}.

Inductive Fat32InodeType := FatFile | FatDir | FatVolumeId.
Record Fat32Inode := {
  in_type : Fat32InodeType;
  in_dentry : option Fat32Dentry;
  in_start_cluster : Z;
}.
(** [InodeType] of [fs/inode.rs], as far as [create] distinguishes it *)
Inductive InodeType := Regular | Directory | OtherType.

Section fat32.
Context {St : Type} `{!BlockStore St}.

(** ** The allocation table *)

(** [self.start_sector * BLOCK_SZ + cluster * 4] *)
Definition fat_entry_offset (fat : FAT) (cluster : Z) : Z :=
  wadd (wmul (start_sector fat) BLOCK_SZ) (wmul cluster 4).

Definition read_u32 (offset : Z) : M St Z := bs_read (offset / BLOCK_SZ) (offset mod BLOCK_SZ) 4 le_word.
Definition write_u32 (offset v : Z) : M St unit :=
  bs_modify (offset / BLOCK_SZ) (offset mod BLOCK_SZ) 4 (λ _, ((), le_bytes 4 v)).

Definition alloc_turn (fat : FAT) (offset : Z) : M St (Z + Z * Z) :=
  num ← read_u32 offset;
  let cluster_id := if num =? 0 then wsub offset (wmul (start_sector fat) BLOCK_SZ) / 4 else 0 in
  if negb (cluster_id =? 0) then mret (inr (offset, cluster_id)) else mret (inl (wadd offset 4)).

Definition alloc_new_cluster (fuel : nat) (fat : FAT) : M St (option Z) :=
  '(offset, cluster_id) ← loopM fuel (alloc_turn fat) (wadd (wmul (start_sector fat) BLOCK_SZ) 12);
  write_u32 offset 0x0FFFFFFF;;
  mret (Some cluster_id).

Definition increase_cluster (fuel : nat) (fat : FAT) (cluster_id : Z) : M St (option Z) :=
  o ← alloc_new_cluster fuel fat;
  match o with
  | None => mret None
  | Some new_cluster_id =>
      write_u32 (fat_entry_offset fat cluster_id) (as_u32 new_cluster_id);;
      mret (Some new_cluster_id)
  end.

Definition next_cluster_id (fat : FAT) (cluster : Z) : M St (option Z) :=
  next_cluster ← read_u32 (fat_entry_offset fat cluster);
  mret (if 0x0FFFFFF8 <=? next_cluster then None else Some next_cluster).

Definition next_dentry_id (fat : FAT) (sector offset : Z) : M St (option (Z * Z)) :=
  if (512 <=? offset) || negb (offset mod 32 =? 0) then mret None
  else
    let next_offset := wadd offset 32 in
    if 512 <=? next_offset then
      let next_sector_id := wadd sector 1 in
      if sectors_per_cluster (fat_sb fat) =? 0 then panic Explicit
      else if next_sector_id mod sectors_per_cluster (fat_sb fat) =? 0 then
        o ← next_cluster_id fat sector;
        mret ((λ next_sector_id, (next_sector_id, 0)) <$> o)
      else mret (Some (next_sector_id, 0))
    else mret (Some (sector, next_offset)).

Definition cluster_id_to_sector_id (fat : FAT) (cluster : Z) : option Z :=
  if cluster <? 2 then None
  else Some (wadd (Fat32SB_root_sector (fat_sb fat)) (wmul (cluster - 2) (sectors_per_cluster (fat_sb fat)))).

Definition sector_id_to_cluster_id (fat : FAT) (sector : Z) : outcome (option Z) :=
  if sector <? Fat32SB_root_sector (fat_sb fat) then Ok None
  else if sectors_per_cluster (fat_sb fat) =? 0 then Panic Explicit
  else Ok (Some (wadd ((sector - Fat32SB_root_sector (fat_sb fat)) / sectors_per_cluster (fat_sb fat)) 2)).

(** ** Directory entries ([Fat32Dentry]) *)

Definition read_short (sector offset : Z) : M St Fat32DentryLayout :=
  bs_read sector offset DENTRY_SIZE DentryLayout_of_bytes.
Definition modify_short (sector offset : Z) (f : Fat32DentryLayout → Fat32DentryLayout) : M St unit :=
  bs_modify sector offset DENTRY_SIZE (λ b, ((), DentryLayout_bytes (f (DentryLayout_of_bytes b)))).
Definition read_long (sector offset : Z) : M St Fat32LDentryLayout :=
  bs_read sector offset DENTRY_SIZE LDentryLayout_of_bytes.

Definition read_dentry (d : Fat32Dentry) : M St Fat32DentryLayout := read_short (sector_id d) (sector_offset d).
Definition write_dentry (d : Fat32Dentry) (layout : Fat32DentryLayout) : M St unit :=
  modify_short (sector_id d) (sector_offset d) (λ _, layout).

Definition Dentry_is_system (d : Fat32Dentry) : M St bool :=
  l ← read_dentry d; mret (DentryLayout_attr l =? FA_SYSTEM).
Definition Dentry_is_dir (d : Fat32Dentry) : M St bool :=
  l ← read_dentry d; mret (DentryLayout_attr l =? FA_DIRECTORY).
Definition Dentry_is_volume_id (d : Fat32Dentry) : M St bool :=
  l ← read_dentry d; mret (DentryLayout_attr l =? FA_VOLUME_ID).
Definition Dentry_is_file (d : Fat32Dentry) : M St bool :=
  dir ← Dentry_is_dir d;
  if (dir : bool) then mret false
  else vol ← Dentry_is_volume_id d;
       if (vol : bool) then mret false
       else sys ← Dentry_is_system d; mret (negb sys).
Definition Dentry_is_long (d : Fat32Dentry) : M St bool := l ← read_dentry d; mret (DentryLayout_is_long l).

Definition name_turn (fat : FAT) (st : str * (Z * Z)) : M St (str * (Z * Z) + str) :=
  let '(name, (sector, offset)) := st in
  layout ← read_long sector offset;
  s ← lift (LDentry_name layout);
  let name := s ++ name in
  if LDentry_is_end layout then mret (inr name)
  else o ← next_dentry_id fat sector offset; p ← unwrap o; mret (inl (name, p)).

Definition Dentry_name (fuel : nat) (fat : FAT) (d : Fat32Dentry) : M St str :=
  long ← Dentry_is_long d;
  if (long : bool) then loopM fuel (name_turn fat) ([], (sector_id d, sector_offset d))
  else l ← read_short (sector_id d) (sector_offset d); lift (DentryLayout_name l).

Definition to_end_turn (fat : FAT) (st : Z * Z) : M St (Z * Z + Z * Z) :=
  let '(sector, offset) := st in
  layout ← read_long sector offset;
  o ← next_dentry_id fat sector offset;
  p ← unwrap o;
  if LDentry_is_end layout then mret (inr p) else mret (inl p).

Definition to_end (fuel : nat) (fat : FAT) (d : Fat32Dentry) : M St (Z * Z) :=
  long ← Dentry_is_long d;
  if negb long then mret (sector_id d, sector_offset d)
  else loopM fuel (to_end_turn fat) (sector_id d, sector_offset d).

Definition Dentry_file_size (fuel : nat) (fat : FAT) (d : Fat32Dentry) : M St Z :=
  '(sector, offset) ← to_end fuel fat d;
  l ← read_short sector offset; mret (dl_file_size l).
Definition Dentry_set_file_size (fuel : nat) (fat : FAT) (d : Fat32Dentry) (size : Z) : M St unit :=
  '(sector, offset) ← to_end fuel fat d;
  modify_short sector offset (λ l, DentryLayout_with_size l (as_u32 size)).
Definition Dentry_start_cluster_id (fuel : nat) (fat : FAT) (d : Fat32Dentry) : M St Z :=
  '(sector, offset) ← to_end fuel fat d;
  l ← read_short sector offset; mret (DentryLayout_start_cluster_id l).

(** ** The file system ([Fat32FS]) *)

Definition Fat32FS_load : M St Fat32FS :=
  o ← bs_read 0 0 SBLayout_size SBLayout_of_bytes;
  assertM (Fat32SBLayout_is_valid o);;
  let sb := Fat32SB_from_layout o in
  mret {| fs_sb := sb; fs_fat := FAT_from_sb sb |}.

Definition Fat32FS_root_inode (fs : Fat32FS) : Fat32Inode :=
  {| in_type := FatDir; in_dentry := None; in_start_cluster := root_cluster (fs_sb fs) |}.

Definition chain_turn (fs : Fat32FS) (st : list Z * Z) : M St (list Z * Z + list Z) :=
  let '(chain, cluster) := st in
  let chain := chain ++ [cluster] in
  o ← next_cluster_id (fs_fat fs) cluster;
  match o with Some next_cluster => mret (inl (chain, next_cluster)) | None => mret (inr chain) end.
Definition cluster_chain (fuel : nat) (fs : Fat32FS) (start_cluster : Z) : M St (list Z) :=
  loopM fuel (chain_turn fs) ([], start_cluster).

Definition cluster_offset (fs : Fat32FS) (cluster : Z) : Z :=
  wadd (Fat32SB_root_sector (fs_sb fs)) (wmul (wsub cluster 2) (sectors_per_cluster (fs_sb fs))).
Definition cluster_size (fs : Fat32FS) : Z := bytes_per_sector (fs_sb fs) * sectors_per_cluster (fs_sb fs).

Definition read_sector (fs : Fat32FS) (cluster : Z) (st : list Z * Z) (i : Z) : M St (list Z * Z) :=
  let '(buf, read_size) := st in
  data ← bs_read (wadd (cluster_offset fs cluster) i) 0 BLOCK_SZ (λ b, b);
  let copy_size := Z.min (wsub (cluster_size fs) read_size) BLOCK_SZ in
  if read_size + copy_size <=? Z.of_nat (length buf) then
    mret (splice buf (Z.to_nat read_size) (take (Z.to_nat copy_size) data), read_size + copy_size)
  else panic Bounds.
Definition read_cluster (fs : Fat32FS) (cluster : Z) (buf : list Z) : M St (list Z) :=
  '(buf, _) ← foldM (read_sector fs cluster) (buf, 0) (seqZ 0 (sectors_per_cluster (fs_sb fs)));
  mret buf.

Definition write_sector (fs : Fat32FS) (cluster : Z) (buf : list Z) (write_size i : Z) : M St Z :=
  let copy_size := Z.min (wsub (cluster_size fs) write_size) BLOCK_SZ in
  if write_size + copy_size <=? Z.of_nat (length buf) then
    bs_modify (wadd (cluster_offset fs cluster) i) 0 BLOCK_SZ (λ data,
      ((), splice data 0 (slice buf (Z.to_nat write_size) (Z.to_nat (write_size + copy_size)))));;
    mret (write_size + copy_size)
  else panic Bounds.
Definition write_cluster (fs : Fat32FS) (cluster : Z) (buf : list Z) : M St unit :=
  _ ← foldM (write_sector fs cluster buf) 0 (seqZ 0 (sectors_per_cluster (fs_sb fs)));
  mret ().

(** Skipping the long entries of a name *)
Definition skip_long_turn (fs : Fat32FS) (st : Z * Z) : M St (Z * Z + Z * Z) :=
  let '(sector, offset) := st in
  layout ← read_long sector offset;
  o ← next_dentry_id (fs_fat fs) sector offset;
  p ← unwrap o;
  if LDentry_is_end layout then mret (inr p) else mret (inl p).

(** The entry at a position, and the position of the next one *)
Definition get_dentry (fuel : nat) (fs : Fat32FS) (sector offset : Z) : M St (option Fat32Dentry * (Z * Z)) :=
  if (512 <=? offset) || negb (offset mod 32 =? 0) then mret (None, (sector, offset))
  else
    layout ← read_short sector offset;
    let dentry :=
      if DentryLayout_is_empty layout then None
      else if DentryLayout_is_deleted layout then Some Fat32Dentry_new_deleted
      else Some (Fat32Dentry_new sector offset) in
    let is_long_entry :=
      negb (DentryLayout_is_empty layout) && negb (DentryLayout_is_deleted layout) && DentryLayout_is_long layout in
    '(sector, offset) ← if is_long_entry then loopM fuel (skip_long_turn fs) (sector, offset)
                        else mret (sector, offset);
    o ← next_dentry_id (fs_fat fs) sector offset;
    p ← unwrap o;
    mret (dentry, p).

Definition find_empty_turn (fs : Fat32FS) (st : Z * Z) : M St (Z * Z + Z * Z) :=
  let '(sector, offset) := st in
  l ← read_short sector offset;
  if DentryLayout_is_empty l then mret (inr (sector, offset))
  else o ← next_dentry_id (fs_fat fs) sector offset; p ← unwrap o; mret (inl p).

(** The loop [while pos < name.len()]: thirteen bytes of the name per long entry *)
Definition write_long_turn (fs : Fat32FS) (name : str) (st : Z * nat * (Z * Z))
    : M St (Z * nat * (Z * Z) + Z * Z) :=
  let '(order, pos, (sector, offset)) := st in
  if (pos <? str_len name)%nat then
    let copy_len := (13 `min` (str_len name - pos))%nat in
    chunk ← lift (str_slice name pos (pos + copy_len));
    layout ← lift (Fat32LDentryLayout_new order chunk (pos + copy_len =? str_len name)%nat);
    bs_modify sector offset DENTRY_SIZE (λ _, ((), LDentryLayout_bytes layout));;
    o ← next_dentry_id (fs_fat fs) sector offset;
    p ← unwrap o;
    mret (inl (as_u8 (order + 1), (pos + copy_len)%nat, p))
  else mret (inr (sector, offset)).

Definition insert_dentry (fuel : nat) (fs : Fat32FS) (cluster_id : Z) (name : str) (attr file_size start_cluster : Z)
    : M St (option Fat32Dentry) :=
  sector ← unwrap (cluster_id_to_sector_id (fs_fat fs) cluster_id);
  p ← loopM fuel (find_empty_turn fs) (sector, 0);
  '(sector, offset) ← loopM fuel (write_long_turn fs name) (1, 0%nat, p);
  modify_short sector offset (λ _, Fat32DentryLayout_new name attr start_cluster file_size);;
  mret (Some (Fat32Dentry_new sector offset)).

Definition remove_turn (fs : Fat32FS) (st : Z * Z) : M St (Z * Z + Z * Z) :=
  let '(sector, offset) := st in
  is_end ← bs_modify sector offset DENTRY_SIZE (λ b,
    let l := LDentry_with_order (LDentryLayout_of_bytes b) 0xE5 in
    (LDentry_is_end l, LDentryLayout_bytes l));
  o ← next_dentry_id (fs_fat fs) sector offset;
  p ← unwrap o;
  if (is_end : bool) then mret (inr p) else mret (inl p).
Definition remove_dentry (fuel : nat) (fs : Fat32FS) (d : Fat32Dentry) : M St unit :=
  long ← Dentry_is_long d;
  '(sector, offset) ← if (long : bool) then loopM fuel (remove_turn fs) (sector_id d, sector_offset d)
                      else mret (sector_id d, sector_offset d);
  modify_short sector offset DentryLayout_set_deleted.

(** ** Inodes *)

Definition lookup_turn (fuel : nat) (fs : Fat32FS) (name : str) (st : Z * Z)
    : M St (Z * Z + option (str * Fat32Inode)) :=
  let '(sector, offset) := st in
  '(o, p) ← get_dentry fuel fs sector offset;
  match o with
  | None => mret (inr None)
  | Some dentry =>
      file ← Dentry_is_file dentry;
      type_ ← if (file : bool) then mret FatFile
              else dir ← Dentry_is_dir dentry; mret (if (dir : bool) then FatDir else FatVolumeId);
      n ← Dentry_name fuel (fs_fat fs) dentry;
      if decide (n = name) then
        start_cluster ← Dentry_start_cluster_id fuel (fs_fat fs) dentry;
        mret (inr (Some (name, {| in_type := type_; in_dentry := Some dentry; in_start_cluster := start_cluster |})))
      else mret (inl p)
  end.
Definition Fat32Inode_lookup (fuel : nat) (fs : Fat32FS) (ino : Fat32Inode) (name : str)
    : M St (option (str * Fat32Inode)) :=
  sector ← unwrap (cluster_id_to_sector_id (fs_fat fs) (in_start_cluster ino));
  loopM fuel (lookup_turn fuel fs name) (sector, 0).

Definition Fat32Inode_create (fuel : nat) (fs : Fat32FS) (ino : Fat32Inode) (name : str) (type_ : InodeType)
    : M St (option (str * Fat32Inode)) :=
  found ← Fat32Inode_lookup fuel fs ino name;
  match found with
  | Some _ => mret None
  | None =>
      let attr := match type_ with Directory => FA_DIRECTORY | _ => FA_ARCHIVE end in
      o ← alloc_new_cluster fuel (fs_fat fs);
      start_cluster ← unwrap o;
      o ← insert_dentry fuel fs (in_start_cluster ino) name attr 0 start_cluster;
      dentry ← unwrap o;
      let type_ := match type_ with Regular => FatFile | _ => FatDir end in
      mret (Some (name, {| in_type := type_; in_dentry := Some dentry; in_start_cluster := start_cluster |}))
  end.

Definition unlink_turn (fuel : nat) (fs : Fat32FS) (name : str) (st : Z * Z) : M St (Z * Z + bool) :=
  let '(sector, offset) := st in
  '(o, p) ← get_dentry fuel fs sector offset;
  match o with
  | None => mret (inr false)
  | Some dentry =>
      n ← Dentry_name fuel (fs_fat fs) dentry;
      if decide (n = name) then remove_dentry fuel fs dentry;; mret (inr true) else mret (inl p)
  end.
Definition Fat32Inode_unlink (fuel : nat) (fs : Fat32FS) (ino : Fat32Inode) (name : str) : M St bool :=
  sector ← unwrap (cluster_id_to_sector_id (fs_fat fs) (in_start_cluster ino));
  loopM fuel (unlink_turn fuel fs name) (sector, 0).

Definition ls_turn (fuel : nat) (fs : Fat32FS) (st : list str * (Z * Z)) : M St (list str * (Z * Z) + list str) :=
  let '(v, (sector, offset)) := st in
  '(o, p) ← get_dentry fuel fs sector offset;
  match o with
  | None => mret (inr v)
  | Some dentry => n ← Dentry_name fuel (fs_fat fs) dentry; mret (inl (v ++ [n], p))
  end.
Definition Fat32Inode_ls (fuel : nat) (fs : Fat32FS) (ino : Fat32Inode) : M St (list str) :=
  sector ← unwrap (cluster_id_to_sector_id (fs_fat fs) (in_start_cluster ino));
  loopM fuel (ls_turn fuel fs) ([], (sector, 0)).

Definition Fat32Inode_file_size (fuel : nat) (fs : Fat32FS) (ino : Fat32Inode) : M St Z :=
  d ← unwrap (in_dentry ino); Dentry_file_size fuel (fs_fat fs) d.
Definition Fat32Inode_set_file_size (fuel : nat) (fs : Fat32FS) (ino : Fat32Inode) (size : Z) : M St unit :=
  d ← unwrap (in_dentry ino); Dentry_set_file_size fuel (fs_fat fs) d size.

(** The part of the loops of [read_at] and [write_at] that passes over the clusters before
    [offset]: the new position, and whether the cluster is skipped *)
Definition skip_cluster (offset pos : Z) : Z * bool :=
  if pos <? offset then
    let pass_size := Z.min CLUSTER_SIZE (offset - pos) in
    (pos + pass_size, pass_size =? CLUSTER_SIZE)
  else (pos, false).

(** The bytes read and the buffer of the caller *)
Fixpoint read_at_loop (fuel : nat) (fs : Fat32FS) (ino : Fat32Inode) (offset : Z) (chain : list Z)
    (read_size pos : Z) (cluster_buf buf : list Z) : M St (Z * list Z) :=
  match chain with
  | [] => mret (read_size, buf)
  | cluster_id :: chain =>
      let '(pos, skip) := skip_cluster offset pos in
      if (skip : bool) then read_at_loop fuel fs ino offset chain read_size pos cluster_buf buf
      else
        dentry ← unwrap (in_dentry ino);
        cluster_buf ← read_cluster fs cluster_id cluster_buf;
        size ← Dentry_file_size fuel (fs_fat fs) dentry;
        let copy_size := Z.min (wsub size pos) (Z.of_nat (length buf) - read_size) in
        if pos mod CLUSTER_SIZE + copy_size <=? CLUSTER_SIZE then
          let buf := splice buf (Z.to_nat read_size)
                       (slice cluster_buf (Z.to_nat (pos mod CLUSTER_SIZE))
                          (Z.to_nat (pos mod CLUSTER_SIZE + copy_size))) in
          let read_size := read_size + copy_size in
          let pos := wadd pos copy_size in
          if Z.of_nat (length buf) <=? read_size then mret (read_size, buf)
          else size ← Dentry_file_size fuel (fs_fat fs) dentry;
               if size <=? pos then mret (read_size, buf)
               else read_at_loop fuel fs ino offset chain read_size pos cluster_buf buf
        else panic Bounds
  end.
Definition Fat32Inode_read_at (fuel : nat) (fs : Fat32FS) (ino : Fat32Inode) (offset : Z) (buf : list Z)
    : M St (Z * list Z) :=
  chain ← cluster_chain fuel fs (in_start_cluster ino);
  read_at_loop fuel fs ino offset chain 0 0 (replicate (Z.to_nat CLUSTER_SIZE) 0) buf.

(** [while cluster_chain.len() * CLUSTER_SIZE < size]: the vector is not extended in the loop. *)
Definition increase_turn (fuel : nat) (fs : Fat32FS) (chain : list Z) (size last_cluster_id : Z) : M St (Z + unit) :=
  if Z.of_nat (length chain) * CLUSTER_SIZE <? size then
    o ← increase_cluster fuel (fs_fat fs) last_cluster_id;
    last_cluster_id ← unwrap o;
    mret (inl last_cluster_id)
  else mret (inr ()).
Definition Fat32Inode_increase_size (fuel : nat) (fs : Fat32FS) (ino : Fat32Inode) (size : Z) : M St unit :=
  old ← Fat32Inode_file_size fuel fs ino;
  if size <? old then mret ()
  else
    Fat32Inode_set_file_size fuel fs ino size;;
    chain ← cluster_chain fuel fs (in_start_cluster ino);
    if size <=? Z.of_nat (length chain) * CLUSTER_SIZE then mret ()
    else
      last_cluster_id ← unwrap (last chain);
      loopM fuel (increase_turn fuel fs chain size) last_cluster_id.

Fixpoint write_at_loop (fs : Fat32FS) (offset : Z) (chain : list Z) (write_size pos : Z)
    (cluster_buf buf : list Z) : M St Z :=
  match chain with
  | [] => mret write_size
  | cluster_id :: chain =>
      let '(pos, skip) := skip_cluster offset pos in
      if (skip : bool) then write_at_loop fs offset chain write_size pos cluster_buf buf
      else
        cluster_buf ← read_cluster fs cluster_id cluster_buf;
        let copy_size := Z.min (Z.of_nat (length buf) - write_size) (CLUSTER_SIZE - pos mod CLUSTER_SIZE) in
        let cluster_buf := splice cluster_buf (Z.to_nat (pos mod CLUSTER_SIZE))
                             (slice buf (Z.to_nat write_size) (Z.to_nat (write_size + copy_size))) in
        write_cluster fs cluster_id cluster_buf;;
        let write_size := write_size + copy_size in
        let pos := pos + copy_size in
        if Z.of_nat (length buf) <=? write_size then mret write_size
        else write_at_loop fs offset chain write_size pos cluster_buf buf
  end.
Definition Fat32Inode_write_at (fuel : nat) (fs : Fat32FS) (ino : Fat32Inode) (offset : Z) (buf : list Z) : M St Z :=
  Fat32Inode_increase_size fuel fs ino (wadd offset (Z.of_nat (length buf)));;
  chain ← cluster_chain fuel fs (in_start_cluster ino);
  write_at_loop fs offset chain 0 0 (replicate (Z.to_nat CLUSTER_SIZE) 0) buf.

Definition Fat32Inode_clear (fuel : nat) (fs : Fat32FS) (ino : Fat32Inode) : M St unit :=
  Fat32Inode_set_file_size fuel fs ino 0.

Definition read_all_turn (fuel : nat) (fs : Fat32FS) (ino : Fat32Inode) (st : list Z * Z * list Z)
    : M St (list Z * Z * list Z + list Z) :=
  let '(v, total_read_size, buffer) := st in
  '(len, buffer) ← Fat32Inode_read_at fuel fs ino total_read_size buffer;
  if len =? 0 then mret (inr v)
  else mret (inl (v ++ take (Z.to_nat len) buffer, total_read_size + len, buffer)).
Definition Fat32Inode_read_all (fuel : nat) (fs : Fat32FS) (ino : Fat32Inode) : M St (list Z) :=
  loopM fuel (read_all_turn fuel fs ino) ([], 0, replicate 512 0).
End fat32.
