(* ===== verification/Fat32Spec.v ===== *)
(** * Theorems on FAT32: the allocation table and cluster chains

    Everything is proved against the interface [BlockStoreOk] of the block cache. *)

From Stdlib Require Import ZArith Lia.
From stdpp Require Import functions prelude gmap.
From S2P Require Import Prelude BlockCache Fat32Layout Fat32.

Open Scope Z_scope.

Section table.
Context {St : Type} `{!BlockStore St, !BlockStoreOk St}.
Implicit Types (s : St) (fs : Fat32FS).

Definition root_of fs : Z := reserved_sectors_cnt (fs_sb fs) + fat_cnt (fs_sb fs) * fat_size_32 (fs_sb fs).

(** A file system whose table has [n] entries, with clusters of 4096 bytes: clusters [2] to [n - 1]
    exist on the device. *)
Record fat_geom fs (n : Z) : Prop := {
  fg_fat : fs_fat fs = FAT_from_sb (fs_sb fs);
  fg_bps : bytes_per_sector (fs_sb fs) = 512;
  fg_spc : sectors_per_cluster (fs_sb fs) = 8;
  fg_res : 1 ≤ reserved_sectors_cnt (fs_sb fs) < 2 ^ 16;
  fg_cnt : 1 ≤ fat_cnt (fs_sb fs) < 2 ^ 8;
  fg_fsz : 0 ≤ fat_size_32 (fs_sb fs) < 2 ^ 32;
  fg_n : 2 ≤ n ≤ 0x0FFFFFF7;
  fg_table : 4 * n ≤ 512 * fat_size_32 (fs_sb fs);
  fg_has i : 0 ≤ i < root_of fs + 8 * (n - 2) → bs_has i;
}.

Lemma root_of_range fs n :
  fat_geom fs n → reserved_sectors_cnt (fs_sb fs) + fat_size_32 (fs_sb fs) ≤ root_of fs < 2 ^ 41.
Proof. intros []. unfold root_of. nia. Qed.

Lemma root_sector_eq fs n : fat_geom fs n → Fat32SB_root_sector (fs_sb fs) = root_of fs.
Proof.
  intros Hg. pose proof (root_of_range fs n Hg). destruct Hg. unfold Fat32SB_root_sector, root_of in *.
  unfold wmul. rewrite wrap_small by (unfold is_usize, W64; nia). rewrite wadd_small by (unfold W64; nia). done.
Qed.

(** Entry [c] of the table *)
Definition entry_sector fs (c : Z) : Z := reserved_sectors_cnt (fs_sb fs) + c / 128.
Definition entry s fs (c : Z) : Z :=
  le_word (slice (bs_view s (entry_sector fs c)) (Z.to_nat (4 * (c mod 128))) (Z.to_nat (4 * (c mod 128) + 4))).

Lemma entry_ext s s' fs c :
  bs_view s' (entry_sector fs c) = bs_view s (entry_sector fs c) → entry s' fs c = entry s fs c.
Proof. intros E. unfold entry. by rewrite E. Qed.

Lemma entry_offset_eq fs n c :
  fat_geom fs n → 0 ≤ c < n →
  fat_entry_offset (fs_fat fs) c = reserved_sectors_cnt (fs_sb fs) * 512 + 4 * c ∧
  fat_entry_offset (fs_fat fs) c / 512 = entry_sector fs c ∧
  fat_entry_offset (fs_fat fs) c mod 512 = 4 * (c mod 128) ∧
  bs_has (entry_sector fs c).
Proof.
  intros Hg Hc. pose proof (root_of_range fs n Hg). destruct Hg. unfold fat_entry_offset, entry_sector.
  rewrite fg_fat0. cbn [start_sector FAT_from_sb]. unfold wmul, BLOCK_SZ.
  rewrite !wrap_small by (unfold is_usize, W64; lia). rewrite wadd_small by (unfold W64; lia).
  split_and!; [lia|Z.to_euclidean_division_equations; lia..|]. apply fg_has0.
  Z.to_euclidean_division_equations; lia.
Qed.

Lemma read_entry s fs n c :
  bs_wf s → fat_geom fs n → 0 ≤ c < n →
  ∃ s', read_u32 (fat_entry_offset (fs_fat fs) c) s = Ok (entry s fs c, s') ∧ bs_wf s' ∧
    ∀ i, bs_view s' i = bs_view s i.
Proof.
  intros Hs Hg Hc. destruct (entry_offset_eq fs n c Hg Hc) as (_ & Ed & Em & Hh).
  unfold read_u32, BLOCK_SZ. rewrite Ed, Em. pose proof (Z.mod_pos_bound c 128).
  apply bs_read_ok; [done|done|lia..].
Qed.

Lemma write_entry s fs n c v :
  bs_wf s → fat_geom fs n → 0 ≤ c < n → 0 ≤ v < 2 ^ 32 →
  ∃ s', write_u32 (fat_entry_offset (fs_fat fs) c) v s = Ok ((), s') ∧ bs_wf s' ∧
    (∀ j, 0 ≤ j < n → entry s' fs j = if decide (j = c) then v else entry s fs j) ∧
    (∀ i, i ≠ entry_sector fs c → bs_view s' i = bs_view s i).
Proof.
  intros Hs Hg Hc Hv. destruct (entry_offset_eq fs n c Hg Hc) as (_ & Ed & Em & Hh).
  unfold write_u32, BLOCK_SZ. rewrite Ed, Em. pose proof (Z.mod_pos_bound c 128) as Hm.
  pose proof (bs_length s _ Hs Hh) as Hl.
  destruct (bs_modify_ok s (entry_sector fs c) (4 * (c mod 128)) 4 (λ _, ((), le_bytes 4 v)) Hs Hh)
    as (s' & E & Hs' & Hview); [lia..|done|].
  exists s'. split_and!; [exact E|done| |].
  - intros j Hj. unfold entry. rewrite Hview. pose proof (Z.mod_pos_bound j 128).
    destruct (decide (entry_sector fs j = entry_sector fs c)) as [Hes|Hes].
    + cbn [snd]. case_decide as Hjc.
      * subst j. replace (Z.to_nat (4 * (c mod 128) + 4))
          with (Z.to_nat (4 * (c mod 128)) + length (le_bytes 4 v))%nat by (rewrite length_le_bytes; lia).
        rewrite slice_splice_same by (rewrite length_le_bytes; lia). by rewrite le_word_le_bytes.
      * rewrite slice_splice_other; rewrite ?length_le_bytes; [by rewrite Hes|lia|lia|].
        unfold entry_sector in Hes. assert (j mod 128 ≠ c mod 128); [|lia].
        Z.to_euclidean_division_equations; lia.
    + rewrite decide_False; [done|]. congruence.
  - intros i Hi. rewrite Hview. by rewrite decide_False.
Qed.

Lemma entry_sector_range fs n c :
  fat_geom fs n → 0 ≤ c < n → reserved_sectors_cnt (fs_sb fs) ≤ entry_sector fs c < root_of fs.
Proof.
  intros Hg Hc. pose proof (root_of_range fs n Hg). destruct Hg. unfold entry_sector.
  Z.to_euclidean_division_equations; lia.
Qed.

(** ** Allocation *)

(** The table after an update, all other sectors being kept *)
Definition table_update s s' fs (n : Z) (f : Z → Z) : Prop :=
  bs_wf s' ∧ (∀ j, 0 ≤ j < n → entry s' fs j = f j) ∧
  (∀ i, i < reserved_sectors_cnt (fs_sb fs) ∨ root_of fs ≤ i → bs_view s' i = bs_view s i).

Lemma alloc_turn_spec s fs n j :
  bs_wf s → fat_geom fs n → 1 ≤ j < n →
  ∃ s', alloc_turn (fs_fat fs) (fat_entry_offset (fs_fat fs) j) s
        = Ok (if decide (entry s fs j = 0) then inr (fat_entry_offset (fs_fat fs) j, j)
              else inl (fat_entry_offset (fs_fat fs) (j + 1)), s') ∧
    bs_wf s' ∧ ∀ i, bs_view s' i = bs_view s i.
Proof.
  intros Hs Hg Hj. destruct (read_entry s fs n j Hs Hg) as (s' & E & Hs' & Hv); [lia|].
  destruct (entry_offset_eq fs n j Hg) as (Eo & _); [lia|].
  exists s'. split; [|done]. unfold alloc_turn. erewrite bind_Ok by exact E.
  pose proof (root_of_range fs n Hg). destruct Hg.
  assert (wmul (start_sector (fs_fat fs)) BLOCK_SZ = reserved_sectors_cnt (fs_sb fs) * 512) as Ew.
  { rewrite fg_fat0. unfold wmul, BLOCK_SZ. cbn [start_sector FAT_from_sb]. rewrite wrap_small by word. done. }
  assert (wsub (fat_entry_offset (fs_fat fs) j) (reserved_sectors_cnt (fs_sb fs) * 512) / 4 = j) as Ej.
  { rewrite Eo. rewrite wsub_small by word. Z.to_euclidean_division_equations; lia. }
  rewrite Ew, Ej. case_decide as H0.
  - rewrite H0, Z.eqb_refl. rewrite (proj2 (Z.eqb_neq j 0)) by lia. done.
  - rewrite (proj2 (Z.eqb_neq _ _) H0). cbn [negb Z.eqb].
    assert (wadd (fat_entry_offset (fs_fat fs) j) 4 = fat_entry_offset (fs_fat fs) (j + 1)) as ->; [|done].
    rewrite Eo. unfold fat_entry_offset. rewrite Ew. unfold wmul. rewrite (wrap_small ((j + 1) * 4)) by word.
    rewrite !wadd_small by word. lia.
Qed.

(** [j] is the first free entry from [i] on. *)
Definition first_free s fs (i j : Z) : Prop :=
  i ≤ j ∧ entry s fs j = 0 ∧ ∀ k, i ≤ k < j → entry s fs k ≠ 0.

Lemma alloc_loop_spec fuel : ∀ s fs n i j,
  bs_wf s → fat_geom fs n → 1 ≤ i → j < n → first_free s fs i j → j - i < Z.of_nat fuel →
  ∃ s', loopM fuel (alloc_turn (fs_fat fs)) (fat_entry_offset (fs_fat fs) i) s
        = Ok ((fat_entry_offset (fs_fat fs) j, j), s') ∧ bs_wf s' ∧ ∀ k, bs_view s' k = bs_view s k.
Proof.
  induction fuel as [|fuel IH]; intros s fs n i j Hs Hg Hi Hj (Hij & H0 & Hnz) Hf; [lia|]. cbn [loopM].
  destruct (alloc_turn_spec s fs n i Hs Hg) as (s1 & E1 & Hs1 & Hv1); [lia|].
  erewrite bind_Ok by exact E1. destruct (decide (i = j)) as [->|Hne].
  - rewrite decide_True by done. exists s1. by split_and!.
  - rewrite decide_False by (apply Hnz; lia).
    destruct (IH s1 fs n (i + 1) j Hs1 Hg) as (s2 & E2 & Hs2 & Hv2); [lia|done| |lia|].
    { assert (∀ k, entry s1 fs k = entry s fs k) as He by (intros k; by apply entry_ext).
      split_and!; [lia|by rewrite He|]. intros k Hk. rewrite He. apply Hnz. lia. }
    exists s2. split_and!; [exact E2|done|]. congruence.
Qed.

Lemma alloc_spec fuel s fs n i :
  bs_wf s → fat_geom fs n → 3 ≤ i < n → first_free s fs 3 i → i - 3 < Z.of_nat fuel →
  ∃ s', alloc_new_cluster fuel (fs_fat fs) s = Ok (Some i, s') ∧
    table_update s s' fs n (λ j, if decide (j = i) then 0x0FFFFFFF else entry s fs j).
Proof.
  intros Hs Hg Hi Hf Hfuel. unfold alloc_new_cluster.
  destruct (alloc_loop_spec fuel s fs n 3 i Hs Hg) as (s1 & E1 & Hs1 & Hv1); [lia|lia|done|done|].
  replace (wadd (wmul (start_sector (fs_fat fs)) BLOCK_SZ) 12) with (fat_entry_offset (fs_fat fs) 3) by done.
  erewrite bind_Ok by exact E1. cbn beta iota.
  destruct (write_entry s1 fs n i 0x0FFFFFFF Hs1 Hg) as (s2 & E2 & Hs2 & He2 & Hv2); [lia|lia|].
  erewrite bind_Ok by exact E2. exists s2. split; [done|]. split_and!; [done| |].
  - intros j Hj. rewrite He2 by done. case_decide; [done|]. by apply entry_ext.
  - intros k Hk. pose proof (entry_sector_range fs n i Hg). rewrite Hv2 by lia. apply Hv1.
Qed.

(** ** Chains *)

(** The clusters of a file, from [c] to the one marked as the last *)
Inductive chain s fs (n : Z) : Z → list Z → Prop :=
  | chain_last c : 2 ≤ c < n → 0x0FFFFFF8 ≤ entry s fs c → chain s fs n c [c]
  | chain_next c d l : 2 ≤ c < n → entry s fs c = d → d < 0x0FFFFFF8 → chain s fs n d l → chain s fs n c (c :: l).

Lemma chain_members s fs n c l :
  chain s fs n c l → ∀ d, d ∈ l → 2 ≤ d < n ∧ entry s fs d ≠ 0.
Proof.
  induction 1 as [c Hc He|c d l Hc He Hd Hch IH]; intros x Hx.
  - apply list_elem_of_singleton in Hx as ->. split; lia.
  - apply elem_of_cons in Hx as [->|Hx]; [|by apply IH]. split; [done|].
    rewrite He. destruct Hch; lia.
Qed.

Lemma chain_frame s s' fs n c l :
  chain s fs n c l → (∀ d, d ∈ l → entry s' fs d = entry s fs d) → chain s' fs n c l.
Proof.
  induction 1 as [c Hc He|c d l Hc He Hd Hch IH]; intros Hsame.
  - constructor; [done|]. rewrite Hsame; [done|left].
  - econstructor; [done| |done|].
    + rewrite Hsame; [done|left].
    + apply IH. intros x Hx. apply Hsame. by right.
Qed.

Lemma chain_extend s s' fs n c l z i :
  chain s fs n c l → NoDup l → last l = Some z → 2 ≤ i < n → i < 0x0FFFFFF8 → i ∉ l →
  entry s' fs z = i → 0x0FFFFFF8 ≤ entry s' fs i →
  (∀ d, d ∈ l → d ≠ z → entry s' fs d = entry s fs d) →
  chain s' fs n c (l ++ [i]).
Proof.
  intros Hch. revert z. induction Hch as [c Hc He|c d l Hc He Hd Hch IH]; intros z Hnd Hz Hi Hi2 Hni Hez Hei Hsame.
  - simpl in Hz. injection Hz as <-. econstructor; [done|exact Hez|done|]. by constructor.
  - apply NoDup_cons in Hnd as [Hnc Hnd].
    assert (last l = Some z) as Hz' by (destruct l as [|x l']; [inversion Hch|exact Hz]).
    assert (z ∈ l) as Hzl by (by apply last_Some_elem_of in Hz').
    assert (c ≠ z) by (intros ->; done).
    change ((c :: l) ++ [i]) with (c :: (l ++ [i])). apply (chain_next _ _ _ c d); [done| |done|].
    + rewrite Hsame; [done|left|done].
    + apply (IH z); try done.
      * intros Hin. apply Hni. by right.
      * intros x Hx Hxz. apply Hsame; [by right|done].
Qed.

Lemma chain_turn_spec s fs n c acc :
  bs_wf s → fat_geom fs n → 2 ≤ c < n →
  ∃ s', chain_turn fs (acc, c) s
        = Ok (if 0x0FFFFFF8 <=? entry s fs c then inr (acc ++ [c]) else inl (acc ++ [c], entry s fs c), s') ∧
    bs_wf s' ∧ ∀ i, bs_view s' i = bs_view s i.
Proof.
  intros Hs Hg Hc. destruct (read_entry s fs n c Hs Hg) as (s' & E & Hs' & Hv); [lia|].
  exists s'. split; [|done]. unfold chain_turn, next_cluster_id. rewrite bind_bind.
  erewrite bind_Ok by exact E. run. by destruct (_ <=? _).
Qed.

Lemma cluster_chain_spec s fs n c l :
  chain s fs n c l → ∀ fuel acc s0, bs_wf s0 → (∀ i, bs_view s0 i = bs_view s i) →
  fat_geom fs n → (length l ≤ fuel)%nat →
  ∃ s', loopM fuel (chain_turn fs) (acc, c) s0 = Ok (acc ++ l, s') ∧ bs_wf s' ∧
    ∀ i, bs_view s' i = bs_view s i.
Proof.
  induction 1 as [c Hc He|c d l Hc He Hd Hch IH]; intros fuel acc s0 Hs0 Hv0 Hg Hf;
    (destruct fuel as [|fuel]; [simpl in Hf; lia|]); cbn [loopM];
    destruct (chain_turn_spec s0 fs n c acc Hs0 Hg Hc) as (s1 & E1 & Hs1 & Hv1);
    erewrite bind_Ok by exact E1; rewrite (entry_ext s s0) by apply Hv0.
  - rewrite (proj2 (Z.leb_le _ _)) by lia. exists s1. split_and!; [done|done|congruence].
  - rewrite (proj2 (Z.leb_gt _ _)) by lia. rewrite He.
    destruct (IH fuel (acc ++ [c]) s1) as (s2 & E2 & Hs2 & Hv2); [done|congruence|done|simpl in Hf; lia|].
    exists s2. rewrite E2, <-app_assoc. by split_and!.
Qed.

(** Extending a file: [increase_cluster] on the last cluster of a chain takes the first free
    entry of the table, and afterwards [cluster_chain] returns the old clusters followed by the new
    one; every chain that does not share the last cluster, and every sector outside the table, is
    as before. *)
Theorem increase_cluster_extends_chain fuel s fs n c l z i :
  bs_wf s → fat_geom fs n → chain s fs n c l → NoDup l → last l = Some z →
  3 ≤ i < n → first_free s fs 3 i → i - 3 < Z.of_nat fuel → (length l < fuel)%nat →
  ∃ s1 s2, increase_cluster fuel (fs_fat fs) z s = Ok (Some i, s1) ∧
    cluster_chain fuel fs c s1 = Ok (l ++ [i], s2) ∧
    (∀ c' l', chain s fs n c' l' → z ∉ l' → chain s1 fs n c' l') ∧
    (∀ k, k < reserved_sectors_cnt (fs_sb fs) ∨ root_of fs ≤ k → bs_view s1 k = bs_view s k).
Proof.
  intros Hs Hg Hch Hnd Hz Hi Hff Hf1 Hf2. pose proof (fg_n _ _ Hg) as Hn.
  destruct (alloc_spec fuel s fs n i Hs Hg Hi Hff Hf1) as (sa & Ea & Hsa & Hea & Hva).
  assert (z ∈ l) as Hzl by (by apply last_Some_elem_of).
  pose proof (chain_members _ _ _ _ _ Hch z Hzl) as [Hzr Hz0].
  assert (i ∉ l) as Hil.
  { intros Hin. apply (chain_members _ _ _ _ _ Hch) in Hin as [_ Hin]. by apply Hin, Hff. }
  assert (as_u32 i = i) as Hu by (unfold as_u32; rewrite Z.mod_small; lia).
  destruct (write_entry sa fs n z i Hsa Hg) as (s1 & E1 & Hs1 & He1 & Hv1); [lia..|].
  assert (∀ d, 0 ≤ d < n → d ≠ z → d ≠ i → entry s1 fs d = entry s fs d) as Hsame.
  { intros d Hd Hdz Hdi. rewrite He1, decide_False, Hea, decide_False by done. done. }
  assert (z ≠ i) as Hzi by congruence.
  assert (chain s1 fs n c (l ++ [i])) as Hch1.
  { apply (chain_extend s s1 fs n c l z i); try done; try lia.
    - rewrite He1, decide_True by lia. done.
    - rewrite He1, decide_False, Hea, decide_True by (lia || done). lia.
    - intros d Hd Hdz. pose proof (chain_members _ _ _ _ _ Hch d Hd). apply Hsame; [lia|done|congruence]. }
  destruct (cluster_chain_spec s1 fs n c (l ++ [i]) Hch1 fuel [] s1) as (s2 & E2 & _); [done|done|done| |].
  { rewrite length_app. simpl. lia. }
  exists s1, s2. split_and!; [|exact E2| |].
  - unfold increase_cluster. erewrite bind_Ok by exact Ea. cbn beta iota. rewrite Hu. by erewrite bind_Ok by exact E1.
  - intros c' l' Hch' Hz'. apply (chain_frame s s1); [done|]. intros d Hd.
    pose proof (chain_members _ _ _ _ _ Hch' d Hd) as [Hdr Hd0].
    apply Hsame; [lia|congruence|]. intros ->. by apply Hd0, Hff.
  - intros k Hk. pose proof (entry_sector_range fs n z Hg). rewrite Hv1 by lia. by apply Hva.
Qed.
End table.

(** ** A small formatted disk, for the witnesses

    One reserved sector, one table of one sector (128 entries), the root directory in cluster 2. *)

Definition demo_boot : list Z :=
  foldl (λ b p, splice b p.1 p.2) (replicate 512 0)
    [(11%nat, le_bytes 2 512); (13%nat, [8]); (14%nat, le_bytes 2 1); (16%nat, [1]); (36%nat, le_bytes 4 1);
     (44%nat, le_bytes 4 2); (82%nat, FAT32_TYPE)].
Definition demo_table : list Z :=
  splice (replicate 512 0) 0 (le_bytes 4 0x0FFFFFF8 ++ le_bytes 4 0x0FFFFFFF ++ le_bytes 4 0x0FFFFFFF).
Definition demo_disk : gmap Z (list Z) := <[1 := demo_table]> (<[0 := demo_boot]> ∅).
Definition demo_cache : CacheState (gmap Z (list Z)) := empty_cache demo_disk.
Definition demo_fs : Fat32FS :=
  let sb := Fat32SB_from_layout (SBLayout_of_bytes demo_boot) in {| fs_sb := sb; fs_fat := FAT_from_sb sb |}.

Lemma demo_cache_wf : bs_wf demo_cache.
Proof.
  apply empty_cache_inv. apply map_Forall_insert_2; [done|]. apply map_Forall_insert_2; [done|]. apply map_Forall_empty.
Qed.

Lemma demo_geom : fat_geom demo_fs 128.
Proof. split; vm_compute; done. Qed.

Lemma demo_first_free : first_free demo_cache demo_fs 3 3.
Proof. split_and!; [lia|vm_compute; reflexivity|lia]. Qed.

Lemma demo_chain : chain demo_cache demo_fs 128 2 [2].
Proof. constructor; [lia|vm_compute; congruence]. Qed.

Lemma increase_cluster_extends_chain_witness : ∃ s1 s2,
  increase_cluster 5 (fs_fat demo_fs) 2 demo_cache = Ok (Some 3, s1) ∧
  cluster_chain 5 demo_fs 2 s1 = Ok ([2; 3], s2) ∧
  (∀ c' l', chain demo_cache demo_fs 128 c' l' → 2 ∉ l' → chain s1 demo_fs 128 c' l') ∧
  (∀ k, k < reserved_sectors_cnt (fs_sb demo_fs) ∨ root_of demo_fs ≤ k → bs_view s1 k = bs_view demo_cache k).
Proof.
  apply (increase_cluster_extends_chain 5 demo_cache demo_fs 128 2 [2] 2 3);
    [apply demo_cache_wf|apply demo_geom|apply demo_chain|apply NoDup_singleton|reflexivity|lia
    |apply demo_first_free|lia|simpl; lia].
Defined.
