(* ===== verification/Fat32DirSpec.v ===== *)
(** * Theorems on FAT32 directories

    [observes s m a] says that [m] returns [a] on every state that shows the blocks of [s], and
    changes none of them; reading operations compose by it. *)

From Stdlib Require Import ZArith Lia.
From stdpp Require Import functions prelude gmap.
From S2P Require Import Prelude BlockCache Fat32Layout Fat32 Fat32Spec.

Open Scope Z_scope.

Section directory.
Context {St : Type} `{!BlockStore St, !BlockStoreOk St}.
Implicit Types (s : St) (fs : Fat32FS).

Definition observes {A} s (m : M St A) (a : A) : Prop :=
  ∀ s0, bs_wf s0 → (∀ i, bs_view s0 i = bs_view s i) →
  ∃ s', m s0 = Ok (a, s') ∧ bs_wf s' ∧ ∀ i, bs_view s' i = bs_view s i.

Lemma observes_mret {A} s (a : A) : observes s (mret a) a.
Proof. intros s0 Hs Hv. by exists s0. Qed.

Lemma observes_bind {A B} s (m : M St A) (k : A → M St B) a b :
  observes s m a → observes s (k a) b → observes s (m ≫= k) b.
Proof.
  intros Hm Hk s0 Hs Hv. destruct (Hm s0 Hs Hv) as (s1 & E1 & Hs1 & Hv1).
  erewrite bind_Ok by exact E1. by apply Hk.
Qed.

Lemma observes_lift {A} s (a : A) : observes s (lift (Ok a)) a.
Proof. intros s0 Hs Hv. by exists s0. Qed.

Lemma observes_loop_done {B R} s fuel (body : B → M St (B + R)) b r :
  (0 < fuel)%nat → observes s (body b) (inr r) → observes s (loopM fuel body b) r.
Proof.
  intros Hf Hb. destruct fuel; [lia|]. cbn [loopM]. eapply observes_bind; [exact Hb|]. apply observes_mret.
Qed.

Lemma observes_loop_next {B R} s fuel (body : B → M St (B + R)) b b' r :
  observes s (body b) (inl b') → observes s (loopM fuel body b') r → observes s (loopM (S fuel) body b) r.
Proof. intros Hb Hl. cbn [loopM]. eapply observes_bind; [exact Hb|]. exact Hl. Qed.

Lemma observes_read {V} s id offset size (f : list Z → V) :
  bs_has id → 0 ≤ offset → 0 < size → offset + size ≤ 512 →
  observes s (bs_read id offset size f) (f (slice (bs_view s id) (Z.to_nat offset) (Z.to_nat (offset + size)))).
Proof.
  intros Hh H1 H2 H3 s0 Hs Hv. destruct (bs_read_ok s0 id offset size f Hs Hh H1 H2 H3) as (s' & E & Hs' & Hv').
  exists s'. rewrite E, Hv. split_and!; [done|done|congruence].
Qed.

(** ** Slots: the sixteen entries of a sector *)

Definition slot s (sec : Z) (k : nat) : list Z := slice (bs_view s sec) (32 * k) (32 * k + 32).

Lemma slot_slice s sec k :
  slice (bs_view s sec) (Z.to_nat (32 * Z.of_nat k)) (Z.to_nat (32 * Z.of_nat k + 32)) = slot s sec k.
Proof. unfold slot. f_equal; lia. Qed.

Lemma observes_short s sec k :
  bs_has sec → (k < 16)%nat →
  observes s (read_short sec (32 * Z.of_nat k)) (DentryLayout_of_bytes (slot s sec k)).
Proof.
  intros Hh Hk. unfold read_short, DENTRY_SIZE. rewrite <-slot_slice. apply observes_read; [done|lia..].
Qed.

Lemma observes_long s sec k :
  bs_has sec → (k < 16)%nat →
  observes s (read_long sec (32 * Z.of_nat k)) (LDentryLayout_of_bytes (slot s sec k)).
Proof.
  intros Hh Hk. unfold read_long, DENTRY_SIZE. rewrite <-slot_slice. apply observes_read; [done|lia..].
Qed.

(** The next slot, inside a sector *)
Lemma next_slot fat sec k s0 :
  (k < 15)%nat →
  next_dentry_id fat sec (32 * Z.of_nat k) s0 = Ok (Some (sec, 32 * Z.of_nat (S k)), s0).
Proof.
  intros Hk. unfold next_dentry_id. rewrite (proj2 (Z.leb_gt _ _)) by lia.
  replace (32 * Z.of_nat k) with (Z.of_nat k * 32) by lia. rewrite Z.mod_mul by lia. cbn [orb negb Z.eqb].
  rewrite wadd_small by word. rewrite (proj2 (Z.leb_gt _ _)) by lia.
  unfold mret, M_ret. do 4 f_equal. lia.
Qed.

Lemma observes_next s fat sec k :
  (k < 15)%nat → observes s (next_dentry_id fat sec (32 * Z.of_nat k)) (Some (sec, 32 * Z.of_nat (S k))).
Proof. intros Hk s0 Hs Hv. exists s0. by rewrite next_slot. Qed.

(** [s'] is [s] with one slot overwritten. *)
Definition slot_written s s' (sec : Z) (k : nat) (b : list Z) : Prop :=
  bs_wf s' ∧ slot s' sec k = b ∧ (∀ j, (j < 16)%nat → j ≠ k → slot s' sec j = slot s sec j) ∧
  (∀ i, i ≠ sec → bs_view s' i = bs_view s i).

Lemma write_slot_spec {V} s sec k (f : list Z → V * list Z) :
  bs_wf s → bs_has sec → (k < 16)%nat → length (f (slot s sec k)).2 = 32%nat →
  ∃ s', bs_modify sec (32 * Z.of_nat k) DENTRY_SIZE f s = Ok ((f (slot s sec k)).1, s') ∧
    slot_written s s' sec k (f (slot s sec k)).2.
Proof.
  intros Hs Hh Hk Hf. pose proof (bs_length s sec Hs Hh) as Hl. unfold DENTRY_SIZE.
  destruct (bs_modify_ok s sec (32 * Z.of_nat k) 32 f Hs Hh) as (s' & E & Hs' & Hv); [lia..| |].
  { rewrite slot_slice, Hf. done. }
  rewrite slot_slice in *. exists s'. split; [exact E|].
  replace (Z.to_nat (32 * Z.of_nat k)) with (32 * k)%nat in Hv by lia.
  split_and!; [done| | |].
  - unfold slot at 1. rewrite Hv, decide_True by done.
    replace (32 * k + 32)%nat with (32 * k + length (f (slot s sec k)).2)%nat by lia.
    by rewrite slice_splice_same by lia.
  - intros j Hj Hne. unfold slot at 1. rewrite Hv, decide_True by done.
    rewrite slice_splice_other; rewrite ?Hf; [done|lia|lia|lia].
  - intros i Hi. rewrite Hv. by rewrite decide_False.
Qed.

(** ** Names and layouts *)

Definition ascii_name (name : str) : Prop := Forall (λ c, 1 ≤ c < 0x80) name.

Lemma ascii_name_char name : ascii_name name → Forall name_char name.
Proof. intros H. eapply Forall_impl; [exact H|]. unfold name_char. simpl. lia. Qed.

Lemma str_len_ascii name : ascii_name name → str_len name = length name.
Proof.
  unfold str_len. induction 1 as [|c l Hc Hl IH]; [done|]. cbn [fmap list_fmap sum_list length].
  unfold char_len at 1. rewrite (proj2 (Z.ltb_lt _ _)) by lia. cbn in IH |- *. lia.
Qed.

Lemma str_split_ascii name : ascii_name name → str_split_at name (length name) = Some (name, []).
Proof.
  induction 1 as [|c l Hc Hl IH]; [done|]. cbn [length str_split_at].
  assert (char_len c = 1%nat) as -> by (unfold char_len; by rewrite (proj2 (Z.ltb_lt _ _)) by lia).
  cbn [Nat.leb Nat.sub]. rewrite Nat.sub_0_r. by rewrite IH.
Qed.

Lemma str_slice_ascii name : ascii_name name → str_slice name 0 (length name) = Ok name.
Proof.
  intros H. unfold str_slice. cbn [str_split_at]. rewrite Nat.sub_0_r.
  replace (str_split_at name 0) with (Some ([] : str, name)) by (by destruct name).
  by rewrite str_split_ascii.
Qed.

Lemma short_name_length cs : ∀ i name ext nc ec,
  let '(name', ext', _, _) := short_name cs i name ext nc ec in
  length name' = length name ∧ length ext' = length ext.
Proof.
  induction cs as [|c cs IH]; intros i name ext nc ec; cbn [short_name]; [done|].
  destruct (c =? 46); [apply IH|]. destruct (i <? 8)%nat.
  - specialize (IH (S i) (<[i:=as_u8 c]> name) ext (nc || is_ascii_uppercase c) ec).
    destruct (short_name _ _ _ _ _ _) as [[[??]?]?]. by rewrite length_insert in IH.
  - destruct (i <? 11)%nat; [|done].
    specialize (IH (S i) name (<[(i - 8)%nat:=as_u8 c]> ext) nc (ec || is_ascii_uppercase c)).
    destruct (short_name _ _ _ _ _ _) as [[[??]?]?]. by rewrite length_insert in IH.
Qed.

Lemma DentryLayout_new_wf name attr start size :
  0 ≤ size < 2 ^ 32 →
  let l := Fat32DentryLayout_new name attr start size in
  dentry_wf l ∧ dl_attr l = attr ∧ dl_file_size l = size ∧
  (0 ≤ start < 2 ^ 32 → DentryLayout_start_cluster_id l = start).
Proof.
  intros Hsz. unfold Fat32DentryLayout_new.
  pose proof (short_name_length name 0 (replicate 8 0) (replicate 3 0) false false) as Hn.
  destruct (short_name _ _ _ _ _ _) as [[[nm ext] nc] ec]. destruct Hn as [Hn He].
  assert (∀ v, 0 ≤ as_u16 v < 2 ^ 16) as Hu by (intros v; unfold as_u16; apply Z.mod_pos_bound; lia).
  split_and!; [|done|done|].
  - split; cbn [dl_name dl_ext dl_file_size]; [done|done| |done].
    rewrite !Forall_cons. split_and!; simpl; try (lia || apply Hu). apply Forall_nil_2.
  - intros Hst. unfold DentryLayout_start_cluster_id. cbn [dl_start_cluster_high dl_start_cluster_low].
    rewrite Z.shiftr_div_pow2, Z.shiftl_mul_pow2 by lia. unfold as_u16, as_u32.
    rewrite (Z.mod_small (start / 2 ^ 16)) by (Z.to_euclidean_division_equations; lia).
    rewrite Z.mod_small by (Z.to_euclidean_division_equations; lia).
    rewrite lor_disjoint_add by (try lia; apply Z.mod_pos_bound; lia).
    Z.to_euclidean_division_equations; lia.
Qed.

(** ** Scanning for a free slot *)

Definition slot_empty s sec k : Prop := DentryLayout_is_empty (DentryLayout_of_bytes (slot s sec k)) = true.

Lemma find_empty_spec s fs sec k j fuel :
  bs_has sec → (k < 16)%nat → (j ≤ k)%nat → (k - j < fuel)%nat → slot_empty s sec k →
  (∀ i, (j ≤ i < k)%nat → ¬ slot_empty s sec i) →
  observes s (loopM fuel (find_empty_turn fs) (sec, 32 * Z.of_nat j)) (sec, 32 * Z.of_nat k).
Proof.
  intros Hh Hk. revert j. induction fuel as [|fuel IH]; intros j Hj Hf He Hne; [lia|].
  destruct (decide (j = k)) as [->|Hjk].
  - apply observes_loop_done; [lia|]. unfold find_empty_turn.
    eapply observes_bind; [by apply observes_short|]. unfold slot_empty in He. rewrite He. apply observes_mret.
  - apply (observes_loop_next _ _ _ _ (sec, 32 * Z.of_nat (S j))).
    + unfold find_empty_turn. eapply observes_bind; [apply observes_short; [done|lia]|].
      assert (DentryLayout_is_empty (DentryLayout_of_bytes (slot s sec j)) = false) as ->.
      { apply not_true_iff_false. apply Hne. lia. }
      eapply observes_bind; [apply observes_next; lia|]. eapply observes_bind; [apply observes_lift|].
      apply observes_mret.
    + apply IH; [lia|lia|done|]. intros i Hi. apply Hne. lia.
Qed.

(** ** Inserting an entry *)

Lemma dir_sector fs n c :
  fat_geom fs n → 2 ≤ c < n →
  cluster_id_to_sector_id (fs_fat fs) c = Some (root_of fs + (c - 2) * 8) ∧
  bs_has (root_of fs + (c - 2) * 8) ∧ root_of fs ≤ root_of fs + (c - 2) * 8.
Proof.
  intros Hg Hc. pose proof (root_of_range fs n Hg). pose proof (fg_n _ _ Hg).
  pose proof (fg_res _ _ Hg). pose proof (fg_fsz _ _ Hg). split_and!; [|apply (fg_has _ _ Hg); lia|lia].
  unfold cluster_id_to_sector_id. rewrite (proj2 (Z.ltb_ge _ _)) by lia.
  rewrite (fg_fat _ _ Hg). cbn [fat_sb FAT_from_sb]. rewrite (root_sector_eq fs n Hg), (fg_spc _ _ Hg).
  unfold wmul. rewrite wrap_small by word. by rewrite wadd_small by word.
Qed.

(** The slots of a one-entry name: the long entry and the short entry *)
Definition entry_slots s sec k (name : str) (attr file_size start : Z) : Prop :=
  ∃ l, Fat32LDentryLayout_new 1 name true = Ok l ∧ slot s sec k = LDentryLayout_bytes l ∧
    slot s sec (S k) = DentryLayout_bytes (Fat32DentryLayout_new name attr start file_size).

Lemma write_long_done fs name order sec off s :
  write_long_turn fs name (order, str_len name, (sec, off)) s = Ok (inr (sec, off), s).
Proof. unfold write_long_turn. by rewrite Nat.ltb_irrefl. Qed.

Lemma write_long_once s fs sec k name fuel :
  bs_wf s → bs_has sec → (k < 15)%nat → ascii_name name → (0 < length name ≤ 13)%nat → (1 < fuel)%nat →
  ∃ l s', Fat32LDentryLayout_new 1 name true = Ok l ∧
    loopM fuel (write_long_turn fs name) (1, 0%nat, (sec, 32 * Z.of_nat k)) s = Ok ((sec, 32 * Z.of_nat (S k)), s') ∧
    slot_written s s' sec k (LDentryLayout_bytes l).
Proof.
  intros Hs Hh Hk Hn Hlen Hf. pose proof (str_len_ascii name Hn) as Hsl.
  destruct (LDentry_new_spec 1 name true) as (l & El & Hwf & _); [by apply ascii_name_char|lia|].
  destruct (write_slot_spec s sec k (λ _, ((), LDentryLayout_bytes l)) Hs Hh) as (s' & E & Hw);
    [lia|by apply length_LDentryLayout_bytes|].
  exists l, s'. split_and!; [done| |exact Hw]. destruct fuel as [|[|fuel]]; [lia..|]. cbn [loopM].
  assert (write_long_turn fs name (1, 0%nat, (sec, 32 * Z.of_nat k)) s
          = Ok (inl (2, length name, (sec, 32 * Z.of_nat (S k))), s')) as E1.
  { unfold write_long_turn. rewrite Hsl. rewrite (proj2 (Nat.ltb_lt _ _)) by lia.
    rewrite Nat.sub_0_r. replace (13 `min` length name)%nat with (length name) by lia.
    rewrite Nat.add_0_l, str_slice_ascii, Nat.eqb_refl by done. run. rewrite El. run.
    erewrite bind_Ok by exact E. erewrite bind_Ok by (by apply next_slot). by run. }
  erewrite bind_Ok by exact E1. cbn beta iota. rewrite <-Hsl.
  by erewrite bind_Ok by apply write_long_done.
Qed.

Lemma insert_spec s fs n c sec k name attr size start fuel :
  bs_wf s → fat_geom fs n → 2 ≤ c < n → sec = root_of fs + (c - 2) * 8 →
  (k < 15)%nat → slot_empty s sec k → (∀ i, (i < k)%nat → ¬ slot_empty s sec i) →
  ascii_name name → (0 < length name ≤ 13)%nat → 0 ≤ size < 2 ^ 32 → (k + 1 < fuel)%nat →
  ∃ s', insert_dentry fuel fs c name attr size start s
        = Ok (Some (Fat32Dentry_new sec (32 * Z.of_nat (S k))), s') ∧ bs_wf s' ∧
    entry_slots s' sec k name attr size start ∧
    (∀ j, (j < 16)%nat → j ≠ k → j ≠ S k → slot s' sec j = slot s sec j) ∧
    (∀ i, i ≠ sec → bs_view s' i = bs_view s i).
Proof.
  intros Hs Hg Hc Hsec Hk He Hne Hn Hlen Hsz Hf.
  destruct (dir_sector fs n c Hg Hc) as (Ec & Hh & _). rewrite <-Hsec in Ec, Hh.
  unfold insert_dentry. rewrite Ec. run.
  destruct (find_empty_spec s fs sec k 0 fuel Hh ltac:(lia) ltac:(lia) ltac:(lia) He ltac:(intros; apply Hne; lia) s Hs)
    as (s1 & E1 & Hs1 & Hv1); [done|].
  change (32 * Z.of_nat 0) with 0 in E1. erewrite bind_Ok by exact E1.
  destruct (write_long_once s1 fs sec k name fuel Hs1 Hh Hk Hn Hlen) as (l & s2 & El & E2 & Hs2 & Hw2 & Hj2 & Hi2); [lia|].
  erewrite bind_Ok by exact E2. cbn beta iota.
  destruct (DentryLayout_new_wf name attr start size Hsz) as (Hwf & _).
  destruct (write_slot_spec s2 sec (S k)
    (λ _, ((), DentryLayout_bytes (Fat32DentryLayout_new name attr start size))) Hs2 Hh) as (s3 & E3 & Hs3 & Hw3 & Hj3 & Hi3);
    [lia|by apply length_DentryLayout_bytes|].
  unfold modify_short. erewrite bind_Ok by exact E3. exists s3. split_and!; [done|done| | |].
  - exists l. split_and!; [done| |done]. rewrite Hj3 by lia. exact Hw2.
  - intros j Hj Hjk HjS. rewrite Hj3, Hj2 by done. unfold slot. by rewrite Hv1.
  - intros i Hi. rewrite Hi3, Hi2 by done. apply Hv1.
Qed.

(** ** Reading an entry back *)

Lemma first_byte b : (0 < length b)%nat → dl_name (DentryLayout_of_bytes b) !!! 0%nat = b !!! 0%nat.
Proof. intros H. destruct b as [|x b]; [simpl in H; lia|]. done. Qed.

Lemma entry_slots_read s sec k name attr size start :
  entry_slots s sec k name attr size start → ascii_name name → (0 < length name ≤ 13)%nat →
  0 ≤ size < 2 ^ 32 →
  let b := slot s sec k in
  DentryLayout_is_empty (DentryLayout_of_bytes b) = false ∧
  DentryLayout_is_deleted (DentryLayout_of_bytes b) = false ∧
  DentryLayout_is_long (DentryLayout_of_bytes b) = true ∧
  LDentry_is_end (LDentryLayout_of_bytes b) = true ∧
  LDentry_name (LDentryLayout_of_bytes b) = Ok name ∧
  DentryLayout_of_bytes (slot s sec (S k)) = Fat32DentryLayout_new name attr start size.
Proof.
  intros (l & El & Hb & Hb') Hn Hlen Hsz b.
  destruct (LDentry_new_spec 1 name true) as (l' & El' & Hwf & Hname & Hord & Hattr); [by apply ascii_name_char|lia|].
  rewrite El in El'. injection El' as <-. unfold b. rewrite Hb.
  pose proof (LDentryLayout_roundtrip l Hwf) as Hrt.
  assert (LDentryLayout_bytes l !!! 0%nat = 0x41) as H0.
  { change (LDentryLayout_bytes l !!! 0%nat) with (ld_order (LDentryLayout_of_bytes (LDentryLayout_bytes l))).
    by rewrite Hrt, Hord. }
  assert (LDentryLayout_bytes l !!! 11%nat = 0x0F) as H11.
  { change (LDentryLayout_bytes l !!! 11%nat) with (ld_attr (LDentryLayout_of_bytes (LDentryLayout_bytes l))).
    by rewrite Hrt, Hattr. }
  pose proof (length_LDentryLayout_bytes l Hwf) as HL.
  unfold DentryLayout_is_empty, DentryLayout_is_deleted, DentryLayout_is_long, LDentry_is_end.
  rewrite !first_byte by lia. rewrite Hrt, H0, Hord, Hname.
  cbn [dl_attr DentryLayout_of_bytes]. rewrite H11. split_and!; [done..|].
  rewrite Hb'. apply DentryLayout_roundtrip. by apply DentryLayout_new_wf.
Qed.

(** What the entry of [create] reads as: the position of its long entry, as the scans find it *)
Section entry.
Context (s : St) (fs : Fat32FS) (sec : Z) (k : nat) (name : str) (attr size start : Z) (fuel : nat).
Hypothesis (Hh : bs_has sec) (Hk : (k < 14)%nat) (Hfuel : (0 < fuel)%nat).
Hypothesis (Hn : ascii_name name) (Hlen : (0 < length name ≤ 13)%nat).
Hypothesis (Hsz : 0 ≤ size < 2 ^ 32) (Hstart : 0 ≤ start < 2 ^ 32).
Hypothesis (Hslots : entry_slots s sec k name attr size start).

Abbreviation d := (Fat32Dentry_new sec (32 * Z.of_nat k)).

Lemma observes_read_dentry : observes s (read_dentry d) (DentryLayout_of_bytes (slot s sec k)).
Proof. unfold read_dentry, Fat32Dentry_new. cbn [sector_id sector_offset]. apply observes_short; [done|lia]. Qed.

Lemma observes_is_long : observes s (Dentry_is_long d) true.
Proof.
  unfold Dentry_is_long. eapply observes_bind; [apply observes_read_dentry|].
  destruct (entry_slots_read _ _ _ _ _ _ _ Hslots Hn Hlen Hsz) as (_ & _ & -> & _). apply observes_mret.
Qed.

Lemma observes_get_dentry :
  observes s (get_dentry fuel fs sec (32 * Z.of_nat k)) (Some d, (sec, 32 * Z.of_nat (S (S k)))).
Proof.
  destruct (entry_slots_read _ _ _ _ _ _ _ Hslots Hn Hlen Hsz) as (He & Hd & Hl & Hend & _).
  unfold get_dentry. rewrite (proj2 (Z.leb_gt _ _)) by lia.
  replace (32 * Z.of_nat k mod 32) with 0 by (rewrite Z.mul_comm, Z.mod_mul by lia; done). cbn [orb negb Z.eqb].
  eapply observes_bind; [apply observes_short; [done|lia]|]. rewrite He, Hd, Hl. cbn [negb andb].
  apply (observes_bind _ _ _ (sec, 32 * Z.of_nat (S k))).
  - apply observes_loop_done; [done|]. unfold skip_long_turn.
    eapply observes_bind; [apply observes_long; [done|lia]|].
    eapply observes_bind; [apply observes_next; lia|]. eapply observes_bind; [apply observes_lift|].
    rewrite Hend. apply observes_mret.
  - cbn beta iota. eapply observes_bind; [apply observes_next; lia|].
    eapply observes_bind; [apply observes_lift|]. apply observes_mret.
Qed.

Lemma observes_name : observes s (Dentry_name fuel (fs_fat fs) d) name.
Proof.
  destruct (entry_slots_read _ _ _ _ _ _ _ Hslots Hn Hlen Hsz) as (_ & _ & _ & Hend & Hname & _).
  unfold Dentry_name. eapply observes_bind; [apply observes_is_long|]. cbn [sector_id sector_offset Fat32Dentry_new].
  apply observes_loop_done; [done|]. unfold name_turn.
  eapply observes_bind; [apply observes_long; [done|lia]|]. rewrite Hname.
  eapply observes_bind; [apply observes_lift|]. rewrite Hend, app_nil_r. apply observes_mret.
Qed.

Lemma observes_to_end : observes s (to_end fuel (fs_fat fs) d) (sec, 32 * Z.of_nat (S k)).
Proof.
  destruct (entry_slots_read _ _ _ _ _ _ _ Hslots Hn Hlen Hsz) as (_ & _ & _ & Hend & _).
  unfold to_end. eapply observes_bind; [apply observes_is_long|]. cbn [negb sector_id sector_offset Fat32Dentry_new].
  apply observes_loop_done; [done|]. unfold to_end_turn.
  eapply observes_bind; [apply observes_long; [done|lia]|].
  eapply observes_bind; [apply observes_next; lia|]. eapply observes_bind; [apply observes_lift|].
  rewrite Hend. apply observes_mret.
Qed.

Lemma observes_short_entry :
  observes s (read_short sec (32 * Z.of_nat (S k))) (Fat32DentryLayout_new name attr start size).
Proof.
  destruct (entry_slots_read _ _ _ _ _ _ _ Hslots Hn Hlen Hsz) as (_ & _ & _ & _ & _ & <-).
  apply observes_short; [done|lia].
Qed.

Lemma observes_start_cluster : observes s (Dentry_start_cluster_id fuel (fs_fat fs) d) start.
Proof.
  unfold Dentry_start_cluster_id. eapply observes_bind; [apply observes_to_end|].
  eapply observes_bind; [apply observes_short_entry|].
  destruct (DentryLayout_new_wf name attr start size Hsz) as (_ & _ & _ & Hst).
  rewrite (Hst Hstart). apply observes_mret.
Qed.

Lemma observes_file_size : observes s (Dentry_file_size fuel (fs_fat fs) d) size.
Proof.
  unfold Dentry_file_size. eapply observes_bind; [apply observes_to_end|].
  eapply observes_bind; [apply observes_short_entry|].
  destruct (DentryLayout_new_wf name attr start size Hsz) as (_ & _ & -> & _). apply observes_mret.
Qed.

(** The attributes are read from the long entry, whatever those of the file. *)
Lemma observes_is_file : observes s (Dentry_is_file d) true.
Proof.
  destruct Hslots as (l & El & Hb & _).
  destruct (LDentry_new_spec 1 name true) as (l' & El' & Hwf & _ & _ & Hattr); [by apply ascii_name_char|lia|].
  rewrite El in El'. injection El' as <-.
  assert (DentryLayout_attr (DentryLayout_of_bytes (slot s sec k)) = 0x0F) as Ha.
  { unfold DentryLayout_attr. rewrite Hb.
    change (dl_attr (DentryLayout_of_bytes (LDentryLayout_bytes l)))
      with (ld_attr (LDentryLayout_of_bytes (LDentryLayout_bytes l))).
    by rewrite LDentryLayout_roundtrip, Hattr. }
  unfold Dentry_is_file, Dentry_is_dir, Dentry_is_volume_id, Dentry_is_system.
  eapply observes_bind; [eapply observes_bind; [apply observes_read_dentry|rewrite Ha; apply observes_mret]|].
  cbn [FA_DIRECTORY Z.eqb Pos.eqb].
  eapply observes_bind; [eapply observes_bind; [apply observes_read_dentry|rewrite Ha; apply observes_mret]|].
  cbn [FA_VOLUME_ID Z.eqb Pos.eqb].
  eapply observes_bind; [eapply observes_bind; [apply observes_read_dentry|rewrite Ha; apply observes_mret]|].
  apply observes_mret.
Qed.

Lemma observes_lookup_turn name' :
  observes s (lookup_turn fuel fs name' (sec, 32 * Z.of_nat k))
    (if decide (name = name')
     then inr (Some (name', {| in_type := FatFile; in_dentry := Some d; in_start_cluster := start |}))
     else inl (sec, 32 * Z.of_nat (S (S k)))).
Proof.
  unfold lookup_turn. eapply observes_bind; [apply observes_get_dentry|]. cbn beta iota.
  eapply observes_bind; [apply observes_is_file|]. eapply observes_bind; [apply observes_mret|].
  eapply observes_bind; [apply observes_name|]. destruct (decide (name = name')); [|apply observes_mret].
  eapply observes_bind; [apply observes_start_cluster|]. apply observes_mret.
Qed.
End entry.

(** ** A directory is a list of entries *)

Record dir_entry := { e_name : str; e_attr : Z; e_size : Z; e_start : Z }.
Definition entry_valid (e : dir_entry) : Prop :=
  ascii_name (e_name e) ∧ (0 < length (e_name e) ≤ 13)%nat ∧ 0 ≤ e_size e < 2 ^ 32 ∧ 0 ≤ e_start e < 2 ^ 32.

(** The first sector of the directory holds these entries, and nothing after them. *)
Record dir_holds s (sec : Z) (es : list dir_entry) : Prop := {
  dh_len : (length es ≤ 7)%nat;
  dh_valid : Forall entry_valid es;
  dh_slots i e : es !! i = Some e → entry_slots s sec (2 * i) (e_name e) (e_attr e) (e_size e) (e_start e);
  dh_empty j : (2 * length es ≤ j < 16)%nat → slot_empty s sec j;
}.

Lemma slot_ext s s' sec k : bs_view s' sec = bs_view s sec → slot s' sec k = slot s sec k.
Proof. intros E. unfold slot. by rewrite E. Qed.

Lemma entry_slots_ext s s' sec k name attr size start :
  slot s' sec k = slot s sec k → slot s' sec (S k) = slot s sec (S k) →
  entry_slots s sec k name attr size start → entry_slots s' sec k name attr size start.
Proof. intros E1 E2 (l & ? & ? & ?). exists l. by rewrite E1, E2. Qed.

Lemma dir_holds_ext s s' sec es :
  bs_view s' sec = bs_view s sec → dir_holds s sec es → dir_holds s' sec es.
Proof.
  intros E [H1 H2 H3 H4]. split; [done|done| |].
  - intros i e He. eapply entry_slots_ext; [by apply slot_ext..|]. by apply H3.
  - intros j Hj. unfold slot_empty. rewrite (slot_ext s s') by done. by apply H4.
Qed.

Lemma observes_lookup_end s fs sec k name fuel :
  bs_has sec → (k < 15)%nat → slot_empty s sec k →
  observes s (lookup_turn fuel fs name (sec, 32 * Z.of_nat k)) (inr None).
Proof.
  intros Hh Hk He. unfold lookup_turn. apply (observes_bind _ _ _ (None, (sec, 32 * Z.of_nat (S k)))).
  - unfold get_dentry. rewrite (proj2 (Z.leb_gt _ _)) by lia.
    replace (32 * Z.of_nat k mod 32) with 0 by (rewrite Z.mul_comm, Z.mod_mul by lia; done). cbn [orb negb Z.eqb].
    eapply observes_bind; [apply observes_short; [done|lia]|]. unfold slot_empty in He. rewrite He. cbn [negb andb].
    eapply observes_bind; [apply observes_mret|]. cbn beta iota.
    eapply observes_bind; [apply observes_next; lia|]. eapply observes_bind; [apply observes_lift|]. apply observes_mret.
  - apply observes_mret.
Qed.

(** The first entry with a name, counted from [i], as [lookup] returns it *)
Fixpoint find_entry (name : str) (sec : Z) (i : nat) (es : list dir_entry) : option (str * Fat32Inode) :=
  match es with
  | [] => None
  | e :: es =>
      if decide (e_name e = name) then
        Some (name, {| in_type := FatFile; in_dentry := Some (Fat32Dentry_new sec (32 * Z.of_nat (2 * i)));
                       in_start_cluster := e_start e |})
      else find_entry name sec (S i) es
  end.

Lemma observes_lookup_loop s fs sec es name fuel fuel' :
  bs_has sec → dir_holds s sec es → (0 < fuel')%nat → ∀ es2 i,
  drop i es = es2 → (i ≤ length es)%nat → (length es2 < fuel)%nat →
  observes s (loopM fuel (lookup_turn fuel' fs name) (sec, 32 * Z.of_nat (2 * i))) (find_entry name sec i es2).
Proof.
  intros Hh Hd Hf'. pose proof (dh_len _ _ _ Hd) as Hlen. revert fuel. intros fuel es2. revert fuel.
  induction es2 as [|e es2 IH]; intros fuel i Hes Hi Hf; (destruct fuel as [|fuel]; [simpl in Hf; lia|]).
  - assert (length (drop i es) = 0%nat) as H0 by (by rewrite Hes). rewrite length_drop in H0.
    apply observes_loop_done; [lia|]. apply observes_lookup_end; [done|lia|]. apply (dh_empty _ _ _ Hd). lia.
  - assert (es !! i = Some e) as He.
    { rewrite <-(Nat.add_0_r i), <-lookup_drop, Hes. done. }
    assert (drop (S i) es = es2) as Hes2.
    { rewrite <-Nat.add_1_r, <-drop_drop, Hes. done. }
    pose proof (lookup_lt_Some _ _ _ He). pose proof (dh_valid _ _ _ Hd) as Hv.
    destruct (Forall_lookup_1 _ _ _ _ Hv He) as (Hn & Hnl & Hsz & Hst).
    pose proof (observes_lookup_turn s fs sec (2 * i) (e_name e) (e_attr e) (e_size e) (e_start e) fuel' Hh ltac:(lia) Hf'
      Hn Hnl Hsz Hst (dh_slots _ _ _ Hd i e He) name) as Hturn. cbn [find_entry].
    destruct (decide (e_name e = name)).
    + apply observes_loop_done; [lia|exact Hturn].
    + eapply observes_loop_next; [exact Hturn|].
      replace (S (S (2 * i))) with (2 * S i)%nat by lia. apply IH; [done|lia|simpl in Hf; lia].
Qed.

Lemma observes_lookup s fs n ino es name fuel :
  fat_geom fs n → 2 ≤ in_start_cluster ino < n → (7 < fuel)%nat →
  let sec := root_of fs + (in_start_cluster ino - 2) * 8 in
  dir_holds s sec es → observes s (Fat32Inode_lookup fuel fs ino name) (find_entry name sec 0 es).
Proof.
  intros Hg Hc Hf sec Hd. destruct (dir_sector fs n _ Hg Hc) as (Ec & Hh & _).
  unfold Fat32Inode_lookup. rewrite Ec. eapply observes_bind; [apply observes_lift|].
  apply (observes_lookup_loop s fs sec es name fuel fuel Hh Hd ltac:(lia) es 0); [done|lia|].
  pose proof (dh_len _ _ _ Hd). lia.
Qed.

Lemma short_name_first cs : ∀ i name ext nc ec,
  (0 < i)%nat → (short_name cs i name ext nc ec).1.1.1 !!! 0%nat = name !!! 0%nat.
Proof.
  induction cs as [|c cs IH]; intros i name ext nc ec Hi; cbn [short_name]; [done|].
  destruct (c =? 46); [apply IH; lia|]. destruct (i <? 8)%nat; [|destruct (i <? 11)%nat; [apply IH; lia|done]].
  rewrite IH by lia. by rewrite list_lookup_total_insert_ne by lia.
Qed.

(** A short entry is not taken for a free slot, unless the name starts with a dot. *)
Lemma short_not_empty name attr start size :
  ascii_name name → name ≠ [] → head name ≠ Some 46 →
  DentryLayout_is_empty (Fat32DentryLayout_new name attr start size) = false.
Proof.
  intros Hn Hne Hdot. destruct name as [|c cs]; [done|]. apply Forall_cons in Hn as [Hc _].
  assert (c ≠ 46) as H46 by (intros ->; done).
  pose proof (short_name_first cs 1 (as_u8 c :: replicate 7 0) (replicate 3 0) (is_ascii_uppercase c) false ltac:(lia)) as Hs.
  unfold DentryLayout_is_empty, Fat32DentryLayout_new. cbn [short_name]. rewrite (proj2 (Z.eqb_neq _ _) H46).
  cbn [Nat.ltb Nat.leb orb replicate insert list_insert].
  cbn [replicate] in Hs. destruct (short_name cs 1 _ _ _ _) as [[[nm ext] nc] ec]. simpl in Hs |- *.
  rewrite Hs. apply Z.eqb_neq. unfold as_u8. rewrite Z.mod_small; lia.
Qed.

(** Entries whose names [insert_dentry] handles *)
Definition plain_entry (e : dir_entry) : Prop := entry_valid e ∧ head (e_name e) ≠ Some 46.

Lemma dir_slots_used s sec es j :
  dir_holds s sec es → Forall plain_entry es → (j < 2 * length es)%nat → ¬ slot_empty s sec j.
Proof.
  intros Hd Hp Hj. pose proof (Nat.div_mod_eq j 2) as Hdm. pose proof (Nat.mod_upper_bound j 2 ltac:(lia)) as Hm.
  destruct (lookup_lt_is_Some_2 es (j / 2)%nat) as [e He]; [lia|].
  destruct (Forall_lookup_1 _ _ _ _ Hp He) as [(Hn & Hnl & Hsz & Hst) Hdot].
  destruct (entry_slots_read _ _ _ _ _ _ _ (dh_slots _ _ _ Hd _ e He) Hn Hnl Hsz) as (H0 & _ & _ & _ & _ & H1).
  unfold slot_empty. destruct (j mod 2)%nat as [|[|]] eqn:Em; [| |lia].
  - replace j with (2 * (j / 2))%nat at 1 by lia. by rewrite H0.
  - replace j with (S (2 * (j / 2))) at 1 by lia. rewrite H1, short_not_empty; [done..| |done].
    destruct (e_name e); [simpl in Hnl; lia|done].
Qed.

(** [create] chooses the attributes by the requested type. *)
Definition attr_of (ty : InodeType) : Z := match ty with Directory => FA_DIRECTORY | _ => FA_ARCHIVE end.
Definition new_entry (name : str) (ty : InodeType) (i : Z) : dir_entry :=
  {| e_name := name; e_attr := attr_of ty; e_size := 0; e_start := i |}.

Lemma create_appends fuel s fs n ino es name ty i :
  bs_wf s → fat_geom fs n → 2 ≤ in_start_cluster ino < n →
  let sec := root_of fs + (in_start_cluster ino - 2) * 8 in
  dir_holds s sec es → Forall plain_entry es → (length es < 7)%nat →
  plain_entry (new_entry name ty i) → find_entry name sec 0 es = None →
  3 ≤ i < n → first_free s fs 3 i → i - 3 < Z.of_nat fuel → (15 < fuel)%nat →
  ∃ ino' s', Fat32Inode_create fuel fs ino name ty s = Ok (Some (name, ino'), s') ∧
    in_start_cluster ino' = i ∧ bs_wf s' ∧ dir_holds s' sec (es ++ [new_entry name ty i]) ∧
    ∀ j, 0 ≤ j < n → entry s' fs j = if decide (j = i) then 0x0FFFFFFF else entry s fs j.
Proof.
  intros Hs Hg Hc sec Hd Hp Hlen [(Hn & Hnl & _ & Hst) Hdot] Hnone Hi Hff Hf1 Hf2.
  destruct (dir_sector fs n _ Hg Hc) as (_ & Hh & Hsec).
  destruct (observes_lookup s fs n ino es name fuel Hg Hc ltac:(lia) Hd s Hs) as (s1 & E1 & Hs1 & Hv1); [done|].
  unfold sec in Hnone. rewrite Hnone in E1. unfold Fat32Inode_create. erewrite bind_Ok by exact E1. cbn beta iota.
  destruct (alloc_spec fuel s1 fs n i Hs1 Hg Hi) as (s2 & E2 & Hs2 & He2 & Hv2); [|done|].
  { destruct Hff as (? & H0 & Hnz). split_and!; [done| |]; [by rewrite (entry_ext s s1)|].
    intros k Hk. rewrite (entry_ext s s1) by done. by apply Hnz. }
  erewrite bind_Ok by exact E2. run.
  assert (dir_holds s2 sec es) as Hd2.
  { apply (dir_holds_ext s); [|done]. rewrite Hv2, Hv1 by lia. done. }
  destruct (insert_spec s2 fs n (in_start_cluster ino) sec (2 * length es) name (attr_of ty) 0 i fuel Hs2 Hg Hc eq_refl)
    as (s3 & E3 & Hs3 & Hent & Hj3 & Hi3); [lia| | |done|done|lia|lia|].
  { apply (dh_empty _ _ _ Hd2). lia. }
  { intros j Hj. by apply (dir_slots_used s2 sec es). }
  erewrite bind_Ok by exact E3. run. eexists _, s3. split_and!; [reflexivity|done|done| |].
  - split.
    + rewrite length_app. simpl. lia.
    + apply Forall_app. split; [apply Hd|]. apply Forall_singleton. split_and!; simpl in *; done || lia.
    + intros j e He. apply lookup_app_Some in He as [He|[Hj He]].
      * pose proof (lookup_lt_Some _ _ _ He). eapply entry_slots_ext; [apply Hj3; lia..|]. by apply (dh_slots _ _ _ Hd2).
      * apply list_lookup_singleton_Some in He as [Hj0 <-]. replace j with (length es) by lia. exact Hent.
    + intros j. rewrite length_app. cbn [length]. intros Hj. unfold slot_empty. rewrite Hj3 by lia.
      apply (dh_empty _ _ _ Hd2). lia.
  - intros j Hj. pose proof (entry_sector_range fs n j Hg Hj).
    rewrite (entry_ext s2 s3), He2 by (try apply Hi3; try lia; done). case_decide; [done|]. by apply entry_ext.
Qed.

Lemma find_entry_app name sec es1 es2 i :
  find_entry name sec i (es1 ++ es2)
  = match find_entry name sec i es1 with Some r => Some r | None => find_entry name sec (i + length es1) es2 end.
Proof.
  revert i. induction es1 as [|e es1 IH]; intros i; cbn [app find_entry length]; [by rewrite Nat.add_0_r|].
  destruct (decide _); [done|]. rewrite IH. by rewrite Nat.add_succ_r.
Qed.

Lemma find_entry_start name sec es i r : find_entry name sec i es = Some r → r.1 = name.
Proof.
  revert i. induction es as [|e es IH]; intros i; cbn [find_entry]; [done|].
  destruct (decide _); [|apply IH]. by intros [= <-].
Qed.

(** C25: A directory of short names in one sector behaves as a list of entries: where it has fewer than
    seven entries, all in its first sector, and all names, the new one included, are 1 to 13 ASCII
    characters that do not start with a dot, [create] of a new name takes the first free cluster and
    appends one entry, after which [lookup] of that name finds the new entry, with that cluster, and
    [lookup] of any other name gives what it gave before.  Every entry is reported as a regular file,
    also those of directories: the attributes are read from the long entry.  Longer names are not read
    back in order ([long_names_are_scrambled]). *)
Theorem directory_create_lookup fuel s fs n ino es name ty i :
  bs_wf s → fat_geom fs n → 2 ≤ in_start_cluster ino < n →
  let sec := root_of fs + (in_start_cluster ino - 2) * 8 in
  dir_holds s sec es → Forall plain_entry es → (length es < 7)%nat →
  plain_entry (new_entry name ty i) → find_entry name sec 0 es = None →
  3 ≤ i < n → first_free s fs 3 i → i - 3 < Z.of_nat fuel → (15 < fuel)%nat →
  ∃ ino' s', Fat32Inode_create fuel fs ino name ty s = Ok (Some (name, ino'), s') ∧
    in_start_cluster ino' = i ∧
    ∀ name', ∃ s'', Fat32Inode_lookup fuel fs ino name' s'
      = Ok (if decide (name' = name)
            then Some (name, {| in_type := FatFile; in_start_cluster := i;
                                in_dentry := Some (Fat32Dentry_new sec (32 * Z.of_nat (2 * length es))) |})
            else find_entry name' sec 0 es, s'').
Proof.
  intros Hs Hg Hc sec Hd Hp Hlen Hnew Hnone Hi Hff Hf1 Hf2.
  destruct (create_appends fuel s fs n ino es name ty i) as (ino' & s' & E & Hst & Hs' & Hd' & _); [done..|].
  exists ino', s'. split_and!; [done|done|]. intros name'.
  destruct (observes_lookup s' fs n ino (es ++ [new_entry name ty i]) name' fuel Hg Hc ltac:(lia) Hd' s' Hs')
    as (s'' & E'' & _); [done|].
  exists s''. rewrite E''. do 2 f_equal. rewrite find_entry_app. fold sec. cbn [find_entry new_entry e_name e_start].
  destruct (decide (name' = name)) as [->|Hne].
  - rewrite Hnone, decide_True by done. done.
  - rewrite (decide_False (P := name = name')) by done. by destruct (find_entry name' sec 0 es).
Qed.
End directory.

Lemma demo_dir : dir_holds demo_cache (root_of demo_fs) [].
Proof.
  split; [simpl; lia|apply Forall_nil_2|done|]. intros j Hj.
  do 16 (destruct j as [|j]; [vm_compute; reflexivity|]). simpl in Hj. lia.
Qed.

Lemma directory_create_lookup_witness : ∃ ino' s',
  Fat32Inode_create 20 demo_fs (Fat32FS_root_inode demo_fs) [97; 46; 99] Regular demo_cache
    = Ok (Some ([97; 46; 99], ino'), s') ∧ in_start_cluster ino' = 3.
Proof.
  destruct (directory_create_lookup 20 demo_cache demo_fs 128 (Fat32FS_root_inode demo_fs) [] [97; 46; 99] Regular 3)
    as (ino' & s' & E & Hst & _).
  - apply demo_cache_wf.
  - apply demo_geom.
  - vm_compute. split; congruence.
  - apply demo_dir.
  - apply Forall_nil_2.
  - simpl. lia.
  - split; [|vm_compute; congruence]. split_and!; [|simpl; lia..].
    repeat (apply Forall_cons_2; [simpl; lia|]). apply Forall_nil_2.
  - reflexivity.
  - lia.
  - apply demo_first_free.
  - lia.
  - lia.
  - exists ino', s'. split; [exact E|exact Hst].
Defined.

(** Names of more than thirteen bytes *)
Definition demo_long_name : str := [97; 98; 99; 100; 101; 102; 103; 104; 105; 106; 107; 108; 109; 110; 111].

Definition create_and_list (name : str) : M (CacheState (gmap Z (list Z))) (list str * bool) :=
  fs ← Fat32FS_load;
  let root := Fat32FS_root_inode fs in
  _ ← Fat32Inode_create 20 fs root name Regular;
  l ← Fat32Inode_ls 20 fs root;
  o ← Fat32Inode_lookup 20 fs root name;
  mret (l, bool_decide (is_Some o)).

(** A name of more than thirteen characters is lost: [insert_dentry] writes its pieces in order
    while [name] prepends each piece to the ones before, so that on a freshly formatted disk a file
    created as abcdefghijklmno is listed as noabcdefghijklm and cannot be looked up. *)
Theorem long_names_are_scrambled :
  ∃ s, create_and_list demo_long_name demo_cache
       = Ok (([drop 13 demo_long_name ++ take 13 demo_long_name], false), s).
Proof. eexists. vm_compute. reflexivity. Qed.
