(* ===== verification/Fat32FileSpec.v ===== *)
(** * Theorems on FAT32 file contents

    The contents of a file are the bytes of the clusters of its chain; [write_at] overwrites a part
    of them and [read_at] returns a part of them. *)

From Stdlib Require Import ZArith Lia.
From stdpp Require Import functions prelude gmap.
From S2P Require Import Prelude BlockCache Fat32Layout Fat32 Fat32Spec Fat32DirSpec.

Open Scope Z_scope.

Section clusters.
Context {St : Type} `{!BlockStore St, !BlockStoreOk St}.
Implicit Types (s : St).
Context (fs : Fat32FS) (n : Z) (Hg : fat_geom fs n).

(** Sector [i] of cluster [c], and the bytes of the cluster *)
Definition csec (c i : Z) : Z := root_of fs + (c - 2) * 8 + i.
Definition sectors_data s (c i : Z) (m : nat) : list Z :=
  mjoin ((λ i, bs_view s (csec c i)) <$> seqZ i (Z.of_nat m)).
Definition cdata s (c : Z) : list Z := sectors_data s c 0 8.

Lemma csec_has c i : 2 ≤ c < n → 0 ≤ i < 8 → bs_has (csec c i).
Proof.
  intros Hc Hi. pose proof (root_of_range fs n Hg). pose proof (fg_res _ _ Hg). pose proof (fg_fsz _ _ Hg).
  unfold csec. apply (fg_has _ _ Hg). lia.
Qed.

Lemma sector_id_eq c i : 2 ≤ c < n → 0 ≤ i < 8 → wadd (cluster_offset fs c) i = csec c i.
Proof.
  intros Hc Hi. pose proof (root_of_range fs n Hg). pose proof (fg_n _ _ Hg). pose proof (fg_res _ _ Hg).
  pose proof (fg_fsz _ _ Hg). unfold cluster_offset, csec. rewrite (root_sector_eq fs n Hg), (fg_spc _ _ Hg).
  rewrite wsub_small by word. unfold wmul. rewrite wrap_small by word.
  rewrite (wadd_small (root_of fs)) by word. rewrite wadd_small by word. done.
Qed.

Lemma cluster_size_eq : cluster_size fs = 4096.
Proof. unfold cluster_size. by rewrite (fg_bps _ _ Hg), (fg_spc _ _ Hg). Qed.

Lemma sectors_data_cons s c i m :
  sectors_data s c i (S m) = bs_view s (csec c i) ++ sectors_data s c (i + 1) m.
Proof.
  unfold sectors_data. rewrite seqZ_cons by lia.
  replace (Z.pred (Z.of_nat (S m))) with (Z.of_nat m) by lia. done.
Qed.

Lemma sectors_data_length s c i m :
  bs_wf s → 2 ≤ c < n → 0 ≤ i → i + Z.of_nat m ≤ 8 → length (sectors_data s c i m) = (512 * m)%nat.
Proof.
  intros Hs Hc. revert i. induction m as [|m IH]; intros i Hi Hm; [done|].
  rewrite sectors_data_cons, length_app, IH by (done || lia). rewrite bs_length by (done || apply csec_has; lia). lia.
Qed.

Lemma cdata_ext s s' c : (∀ j, 0 ≤ j < 8 → bs_view s' (csec c j) = bs_view s (csec c j)) → cdata s' c = cdata s c.
Proof.
  intros H. unfold cdata, sectors_data. f_equal. apply list_fmap_ext. intros i x Hx.
  apply lookup_seqZ in Hx as [-> ?]. apply H. lia.
Qed.

Lemma cdata_length s c : bs_wf s → 2 ≤ c < n → length (cdata s c) = 4096%nat.
Proof. intros. unfold cdata. by rewrite sectors_data_length by (done || lia). Qed.

Lemma whole_sector (l : list Z) : length l = 512%nat → slice l (Z.to_nat 0) (Z.to_nat (0 + 512)) = l.
Proof. intros Hl. unfold slice. change (Z.to_nat 0) with 0%nat. rewrite drop_0. apply take_ge. lia. Qed.

Lemma read_sectors s c m : ∀ i pre rest,
  2 ≤ c < n → 0 ≤ i → i + Z.of_nat m ≤ 8 → bs_wf s →
  Z.of_nat (length pre) = 512 * i → length (pre ++ rest) = 4096%nat →
  observes s (foldM (read_sector fs c) (pre ++ rest, 512 * i) (seqZ i (Z.of_nat m)))
    (pre ++ sectors_data s c i m ++ drop (512 * m) rest, 512 * (i + Z.of_nat m)).
Proof.
  induction m as [|m IH]; intros i pre rest Hc Hi Hm Hs Hpre Hlen.
  - cbn [sectors_data seqZ Z.of_nat Z.to_nat foldM]. unfold sectors_data. cbn. rewrite Z.add_0_r. apply observes_mret.
  - rewrite seqZ_cons by lia. replace (Z.pred (Z.of_nat (S m))) with (Z.of_nat m) by lia. cbn [foldM].
    assert (bs_has (csec c i)) as Hh by (apply csec_has; lia).
    pose proof (bs_length s _ Hs Hh) as Hl512. rewrite length_app in Hlen.
    apply (observes_bind _ _ _ (pre ++ bs_view s (csec c i) ++ drop 512 rest, 512 * (i + 1))).
    + unfold read_sector. rewrite sector_id_eq by lia. eapply observes_bind.
      * apply observes_read; [done|lia|unfold BLOCK_SZ; lia|unfold BLOCK_SZ; lia].
      * cbn beta. rewrite cluster_size_eq, wsub_small by word. unfold BLOCK_SZ.
        replace (Z.min (4096 - 512 * i) 512) with 512 by lia.
        rewrite length_app, (proj2 (Z.leb_le _ _)) by lia.
        replace (512 * i + 512) with (512 * (i + 1)) by lia.
        rewrite whole_sector by done. rewrite (take_ge (bs_view s (csec c i))) by lia.
        replace (Z.to_nat (512 * i)) with (length pre) by lia. rewrite splice_app, Hl512. apply observes_mret.
    + rewrite (app_assoc pre). rewrite sectors_data_cons, <-!(app_assoc (bs_view s _)), (app_assoc pre).
      replace (drop (512 * S m) rest) with (drop (512 * m) (drop 512 rest)) by (rewrite drop_drop; f_equal; lia).
      replace (i + Z.of_nat (S m)) with (i + 1 + Z.of_nat m) by lia.
      apply IH; [done|lia|lia|done| |].
      * rewrite length_app. lia.
      * rewrite !length_app, length_drop. lia.
Qed.

Lemma observes_read_cluster s c buf :
  bs_wf s → 2 ≤ c < n → length buf = 4096%nat → observes s (read_cluster fs c buf) (cdata s c).
Proof.
  intros Hs Hc Hb. unfold read_cluster. rewrite (fg_spc _ _ Hg).
  eapply observes_bind; [apply (read_sectors s c 8 0 [] buf); [done|lia|lia|done|done|done]|].
  cbn beta iota. cbn [app]. rewrite drop_ge by lia. rewrite app_nil_r. apply observes_mret.
Qed.

(** ** Writing *)

Lemma write_sectors c buf m : ∀ s i,
  bs_wf s → 2 ≤ c < n → length buf = 4096%nat → 0 ≤ i → i + Z.of_nat m ≤ 8 →
  ∃ s', foldM (write_sector fs c buf) (512 * i) (seqZ i (Z.of_nat m)) s = Ok (512 * (i + Z.of_nat m), s') ∧
    bs_wf s' ∧
    ∀ x, bs_view s' x = if decide (csec c i ≤ x < csec c (i + Z.of_nat m))
                        then slice buf (Z.to_nat (512 * (x - csec c 0))) (Z.to_nat (512 * (x - csec c 0) + 512))
                        else bs_view s x.
Proof.
  induction m as [|m IH]; intros s i Hs Hc Hb Hi Hm.
  - exists s. rewrite Z.add_0_r. split_and!; [done|done|]. intros x. by rewrite decide_False by lia.
  - rewrite seqZ_cons by lia. replace (Z.pred (Z.of_nat (S m))) with (Z.of_nat m) by lia. cbn [foldM].
    assert (bs_has (csec c i)) as Hh by (apply csec_has; lia). pose proof (bs_length s _ Hs Hh) as Hl.
    set (chunk := slice buf (Z.to_nat (512 * i)) (Z.to_nat (512 * i + 512))).
    assert (length chunk = 512%nat) as Hck by (unfold chunk; rewrite length_slice; lia).
    assert (∀ data : list Z, length data = 512%nat → splice data 0 chunk = chunk) as Hsp.
    { intros data Hd. unfold splice. cbn [take app Nat.add]. rewrite drop_ge by lia. apply app_nil_r. }
    destruct (bs_modify_ok s (csec c i) 0 512 (λ data, ((), splice data 0 chunk)) Hs Hh) as (s1 & E1 & Hs1 & Hv1);
      [lia..| |].
    { cbn [snd]. rewrite whole_sector, Hsp by done. done. }
    assert (write_sector fs c buf (512 * i) i s = Ok (512 * (i + 1), s1)) as Ew.
    { unfold write_sector. rewrite cluster_size_eq, wsub_small by word. unfold BLOCK_SZ.
      replace (Z.min (4096 - 512 * i) 512) with 512 by lia. rewrite Hb, (proj2 (Z.leb_le _ _)) by lia.
      rewrite sector_id_eq by lia. fold chunk. erewrite bind_Ok by exact E1. unfold mret, M_ret. do 2 f_equal. lia. }
    erewrite bind_Ok by exact Ew. destruct (IH s1 (i + 1) Hs1 Hc Hb) as (s2 & E2 & Hs2 & Hv2); [lia..|].
    exists s2. replace (i + Z.of_nat (S m)) with (i + 1 + Z.of_nat m) by lia. split_and!; [done|done|].
    intros x. rewrite Hv2, Hv1. cbn [snd]. rewrite whole_sector by done.
    change (Z.to_nat 0) with 0%nat. rewrite !Hsp by done.
    unfold csec in *. destruct (decide (x = root_of fs + (c - 2) * 8 + i)) as [->|Hx].
    + rewrite decide_False, decide_True by lia. unfold chunk. f_equal; lia.
    + destruct (decide (_ ≤ x < _)); [rewrite decide_True by lia|rewrite decide_False by lia]; done.
Qed.

Lemma csec_inj c d i j : 0 ≤ i < 8 → 0 ≤ j < 8 → csec c i = csec d j → c = d ∧ i = j.
Proof. unfold csec. lia. Qed.

Lemma slices_data s c buf m : ∀ i,
  2 ≤ c < n → length buf = 4096%nat → 0 ≤ i → i + Z.of_nat m ≤ 8 →
  (∀ j, 0 ≤ j < 8 → bs_view s (csec c j) = slice buf (Z.to_nat (512 * j)) (Z.to_nat (512 * j + 512))) →
  sectors_data s c i m = slice buf (Z.to_nat (512 * i)) (Z.to_nat (512 * (i + Z.of_nat m))).
Proof.
  induction m as [|m IH]; intros i Hc Hb Hi Hm Hv.
  - unfold slice. rewrite Z.add_0_r, Nat.sub_diag. done.
  - rewrite sectors_data_cons, Hv, IH by (done || lia). unfold slice.
    set (a := Z.to_nat (512 * i)). replace (Z.to_nat (512 * (i + 1))) with (a + 512)%nat by lia.
    replace (Z.to_nat (512 * i + 512) - a)%nat with 512%nat by lia.
    rewrite <-drop_drop. replace (Z.to_nat (512 * (i + Z.of_nat (S m))) - a)%nat with (512 + (512 * m))%nat by lia.
    replace (Z.to_nat (512 * (i + 1 + Z.of_nat m)) - (a + 512))%nat with (512 * m)%nat by lia.
    by rewrite take_take_drop.
Qed.

(** [s'] is [s] with cluster [c] overwritten. *)
Definition cluster_written s s' (c : Z) (buf : list Z) : Prop :=
  bs_wf s' ∧ cdata s' c = buf ∧ (∀ d, 2 ≤ d → d ≠ c → cdata s' d = cdata s d) ∧
  (∀ x, x < csec c 0 ∨ csec c 8 ≤ x → bs_view s' x = bs_view s x).

Lemma write_cluster_spec s c buf :
  bs_wf s → 2 ≤ c < n → length buf = 4096%nat →
  ∃ s', write_cluster fs c buf s = Ok ((), s') ∧ cluster_written s s' c buf.
Proof.
  intros Hs Hc Hb. destruct (write_sectors c buf 8 s 0 Hs Hc Hb) as (s' & E & Hs' & Hv); [lia..|].
  change (512 * 0) with 0 in E. change (0 + Z.of_nat 8) with 8 in Hv.
  exists s'. unfold write_cluster. rewrite (fg_spc _ _ Hg). erewrite bind_Ok by exact E.
  split; [done|]. split_and!; [done| | |].
  - unfold cdata. rewrite (slices_data s' c buf 8 0) by (try (done || lia); intros j Hj; rewrite Hv;
      rewrite decide_True by (unfold csec; lia); f_equal; unfold csec; lia).
    unfold slice. change (Z.to_nat (512 * 0)) with 0%nat. rewrite drop_0. apply take_ge. lia.
  - intros d Hd Hdc. apply cdata_ext. intros j Hj. rewrite Hv. rewrite decide_False; [done|]. unfold csec. lia.
  - intros x Hx. rewrite Hv. by rewrite decide_False by lia.
Qed.

(** ** Files *)

Definition fdata s (l : list Z) : list Z := mjoin (cdata s <$> l).
Definition valid_chain (l : list Z) : Prop := NoDup l ∧ Forall (λ c, 2 ≤ c < n) l.

Lemma fdata_cons s c l : fdata s (c :: l) = cdata s c ++ fdata s l.
Proof. done. Qed.

Lemma fdata_length s l : bs_wf s → Forall (λ c, 2 ≤ c < n) l → length (fdata s l) = (4096 * length l)%nat.
Proof.
  intros Hs. induction 1 as [|c l Hc Hl IH]; [done|].
  rewrite fdata_cons, length_app, IH, cdata_length by done. cbn [length]. lia.
Qed.

Lemma fdata_frame s s' l : (∀ c, c ∈ l → cdata s' c = cdata s c) → fdata s' l = fdata s l.
Proof.
  intros H. induction l as [|c l IH]; [done|]. rewrite !fdata_cons, IH, H; [done|left|].
  intros d Hd. apply H. by right.
Qed.

(** The loop only looks at [pos] relative to [offset] and to the cluster size. *)
Lemma write_at_shift l : ∀ offset ws pos cb buf s,
  write_at_loop fs offset l ws (pos + 4096) cb buf s = write_at_loop fs (offset - 4096) l ws pos cb buf s.
Proof.
  induction l as [|c l IH]; intros offset ws pos cb buf s; [done|]. cbn [write_at_loop].
  assert (skip_cluster offset (pos + 4096)
          = ((skip_cluster (offset - 4096) pos).1 + 4096, (skip_cluster (offset - 4096) pos).2)) as ->.
  { unfold skip_cluster. destruct (Z.ltb_spec (pos + 4096) offset), (Z.ltb_spec pos (offset - 4096)); try lia; [|done].
    replace (offset - (pos + 4096)) with (offset - 4096 - pos) by lia. cbn [fst snd]. f_equal. lia. }
  destruct (skip_cluster (offset - 4096) pos) as [p skip]. cbn [fst snd]. destruct skip; [apply IH|].
  unfold mbind, M_bind. destruct (read_cluster fs c cb s) as [[cb' s1]| |]; [|done..].
  unfold CLUSTER_SIZE. replace ((p + 4096) mod 4096) with (p mod 4096) by (rewrite <-(Z.mod_add p 1 4096) by lia; f_equal; lia).
  destruct (write_cluster _ _ _ _) as [[[] s2]| |]; [|done..]. destruct (_ <=? _); [done|].
  replace (p + 4096 + Z.min (Z.of_nat (length buf) - ws) (4096 - p mod 4096))
    with (p + Z.min (Z.of_nat (length buf) - ws) (4096 - p mod 4096) + 4096) by lia. apply IH.
Qed.

Lemma skip_cluster_eq offset :
  skip_cluster offset 0 = if decide (4096 ≤ offset) then (4096, true) else (Z.max 0 offset, false).
Proof.
  unfold skip_cluster, CLUSTER_SIZE. rewrite Z.sub_0_r. case_decide.
  - rewrite (proj2 (Z.ltb_lt _ _)) by lia. rewrite Z.min_l by lia. done.
  - destruct (Z.ltb_spec 0 offset); [|f_equal; lia].
    rewrite Z.min_r by lia. rewrite (proj2 (Z.eqb_neq _ _)) by lia. f_equal. lia.
Qed.

Lemma splice_app_r {A} (a b k : list A) i :
  splice (a ++ b) (length a + i) k = a ++ splice b i k.
Proof.
  unfold splice. by rewrite take_app_add, <-app_assoc, <-Nat.add_assoc, drop_app_add.
Qed.

Lemma splice_app_l {A} (a b k : list A) i :
  (i + length k ≤ length a)%nat → splice (a ++ b) i k = splice a i k ++ b.
Proof.
  intros H. unfold splice. rewrite take_app_le by lia. rewrite drop_app_le by lia. by rewrite <-!app_assoc.
Qed.

Lemma splice_split {A} (a b k : list A) i m :
  (i + m)%nat = length a → (m ≤ length k)%nat →
  splice (a ++ b) i k = splice a i (take m k) ++ splice b 0 (drop m k).
Proof.
  intros Hm Hk. unfold splice. rewrite length_take, length_drop, take_app_le by lia.
  rewrite (drop_ge a) by lia. cbn [take app Nat.add]. rewrite app_nil_r, <-app_assoc. f_equal.
  rewrite take_0. cbn [app]. rewrite (app_assoc (take m k)), take_drop. f_equal.
  replace (i + length k)%nat with (length a + (length k - m))%nat by lia. apply drop_app_add.
Qed.

Lemma write_at_loop_spec l : ∀ offset ws cb buf s,
  bs_wf s → valid_chain l → length cb = 4096%nat → 0 ≤ ws ≤ Z.of_nat (length buf) →
  Z.max 0 offset + (Z.of_nat (length buf) - ws) ≤ 4096 * Z.of_nat (length l) →
  ∃ s', write_at_loop fs offset l ws 0 cb buf s = Ok (Z.of_nat (length buf), s') ∧ bs_wf s' ∧
    fdata s' l = splice (fdata s l) (Z.to_nat (Z.max 0 offset)) (drop (Z.to_nat ws) buf) ∧
    (∀ d, 2 ≤ d → d ∉ l → cdata s' d = cdata s d) ∧
    (∀ x, (∀ c, c ∈ l → x < csec c 0 ∨ csec c 8 ≤ x) → bs_view s' x = bs_view s x).
Proof.
  induction l as [|c l IH]; intros offset ws cb buf s Hs [Hnd Hval] Hcb Hws Hfit.
  { exists s. cbn [length] in Hfit. replace ws with (Z.of_nat (length buf)) by lia. split_and!; [done|done| |done|done].
    rewrite drop_ge by lia. by rewrite splice_nil. }
  apply NoDup_cons in Hnd as [Hnc Hnd]. apply Forall_cons in Hval as [Hc Hval].
  assert (valid_chain l) as Hl by done. cbn [length] in Hfit. cbn [write_at_loop].
  rewrite skip_cluster_eq. case_decide as Hskip.
  - cbn beta iota. change 4096 with (0 + 4096) at 1. rewrite write_at_shift.
    destruct (IH (offset - 4096) ws cb buf s Hs Hl Hcb Hws) as (s' & E & Hs' & Hd & Ho & Hx); [lia|].
    exists s'. split_and!; [exact E|done| | |].
    + rewrite !fdata_cons, Hd, Ho by (done || lia).
      replace (Z.to_nat (Z.max 0 offset)) with (length (cdata s c) + Z.to_nat (Z.max 0 (offset - 4096)))%nat
        by (rewrite cdata_length by done; lia). by rewrite splice_app_r.
    + intros d Hd2 Hdl. apply Ho; [done|]. intros ?. apply Hdl. by right.
    + intros x Hxc. apply Hx. intros d Hdl. apply Hxc. by right.
  - set (p := Z.max 0 offset) in *. assert (0 ≤ p < 4096) as Hp by lia.
    destruct (observes_read_cluster s c cb Hs Hc Hcb s Hs) as (s1 & E1 & Hs1 & Hv1); [done|].
    erewrite bind_Ok by exact E1. unfold CLUSTER_SIZE. rewrite (Z.mod_small p) by lia.
    set (copy := Z.min (Z.of_nat (length buf) - ws) (4096 - p)).
    set (rest := drop (Z.to_nat ws) buf).
    assert (length rest = Z.to_nat (Z.of_nat (length buf) - ws)) as Hrest by (unfold rest; rewrite length_drop; lia).
    assert (slice buf (Z.to_nat ws) (Z.to_nat (ws + copy)) = take (Z.to_nat copy) rest) as ->.
    { unfold slice, rest. f_equal. lia. }
    pose proof (cdata_length s c Hs Hc) as Hcl. set (cb' := splice (cdata s c) (Z.to_nat p) (take (Z.to_nat copy) rest)).
    assert (length cb' = 4096%nat) as Hcb' by (unfold cb'; rewrite length_splice; rewrite ?length_take; lia).
    destruct (write_cluster_spec s1 c cb' Hs1 Hc Hcb') as (s2 & E2 & Hs2 & Hd2 & Ho2 & Hx2).
    erewrite bind_Ok by exact E2.
    assert (∀ d, cdata s1 d = cdata s d) as Hsd by (intros d; by apply cdata_ext).
    destruct (Z.leb_spec (Z.of_nat (length buf)) (ws + copy)) as [Hdone|Hmore].
    + assert (copy = Z.of_nat (length buf) - ws) as Hcopy by lia.
      exists s2. split_and!; [unfold mret, M_ret; do 2 f_equal; lia|done| | |].
      * rewrite !fdata_cons, Hd2. rewrite splice_app_l by (rewrite Hrest; lia). f_equal.
        -- unfold cb'. rewrite take_ge by lia. done.
        -- apply fdata_frame. intros d Hd. rewrite Ho2; [apply Hsd| |congruence].
           rewrite Forall_forall in Hval. apply Hval in Hd. lia.
      * intros d Hd Hdl. rewrite Ho2; [apply Hsd|done|]. intros ->. apply Hdl. left.
      * intros x Hxc. rewrite Hx2; [apply Hv1|]. apply Hxc. left.
    + assert (copy = 4096 - p) as Hcopy by lia.
      replace (p + copy) with (0 + 4096) by lia. rewrite write_at_shift.
      destruct (IH (offset - 4096) (ws + copy) cb' buf s2 Hs2 Hl Hcb') as (s' & E & Hs' & Hd & Ho & Hx); [lia|lia|].
      exists s'. split_and!; [exact E|done| | |].
      * rewrite !fdata_cons, Hd, Ho, Hd2 by (done || lia).
        rewrite (splice_split (cdata s c) _ rest (Z.to_nat p) (Z.to_nat copy)) by lia. f_equal.
        replace (Z.to_nat (Z.max 0 (offset - 4096))) with 0%nat by lia.
        unfold rest. rewrite drop_drop. replace (Z.to_nat (ws + copy)) with (Z.to_nat ws + Z.to_nat copy)%nat by lia.
        f_equal. apply fdata_frame. intros d Hdl. rewrite Ho2; [apply Hsd| |congruence].
        rewrite Forall_forall in Hval. apply Hval in Hdl. lia.
      * intros d Hd0 Hdl. rewrite Ho, Ho2; [apply Hsd|done| |done|].
        -- intros ->. apply Hdl. left.
        -- intros ?. apply Hdl. by right.
      * intros x Hxc. rewrite Hx, Hx2; [apply Hv1| |].
        -- apply Hxc. left.
        -- intros d Hdl. apply Hxc. by right.
Qed.

(** ** Reading *)

Lemma read_at_skip fuel ino offset r cb buf s l1 : ∀ j,
  4096 * (j + Z.of_nat (length l1)) ≤ offset →
  read_at_loop fuel fs ino offset (l1 ++ r) 0 (4096 * j) cb buf s
  = read_at_loop fuel fs ino offset r 0 (4096 * (j + Z.of_nat (length l1))) cb buf s.
Proof.
  induction l1 as [|c l1 IH]; intros j Hj; cbn [app length] in *; [by rewrite Z.add_0_r|].
  cbn [read_at_loop]. unfold skip_cluster, CLUSTER_SIZE. rewrite (proj2 (Z.ltb_lt _ _)) by lia.
  rewrite Z.min_l by lia. cbn [Z.eqb Pos.eqb]. replace (4096 * j + 4096) with (4096 * (j + 1)) by lia.
  rewrite IH by lia. do 2 f_equal. lia.
Qed.

Section file.
Context (s : St) (fuel : nat) (ino : Fat32Inode) (d : Fat32Dentry) (size : Z) (l1 l2 : list Z) (c offset : Z).
Hypothesis (Hs : bs_wf s) (Hc : 2 ≤ c < n) (Hd : in_dentry ino = Some d) (Hsz : is_usize size).
Hypothesis (Hsize : observes s (Dentry_file_size fuel (fs_fat fs) d) size).
Hypothesis (Hoff : 4096 * Z.of_nat (length l1) ≤ offset < 4096 * (Z.of_nat (length l1) + 1)) (Hle : offset ≤ size).

Abbreviation p := (offset - 4096 * Z.of_nat (length l1)).

Lemma offset_mod : offset mod 4096 = p.
Proof. symmetry. apply Z.mod_unique with (q := Z.of_nat (length l1)); lia. Qed.

Lemma skip_here : skip_cluster offset (4096 * Z.of_nat (length l1)) = (offset, false).
Proof.
  unfold skip_cluster, CLUSTER_SIZE. destruct (Z.ltb_spec (4096 * Z.of_nat (length l1)) offset); [|f_equal; lia].
  rewrite Z.min_r by lia. rewrite (proj2 (Z.eqb_neq _ _)) by lia. f_equal. lia.
Qed.

(** What [read_at] does at the cluster of [offset], up to the bounds check of the copy *)
Lemma read_at_cluster cb buf s0 :
  length cb = 4096%nat → bs_wf s0 → (∀ i, bs_view s0 i = bs_view s i) →
  let copy := Z.min (size - offset) (Z.of_nat (length buf)) in
  ∃ s', bs_wf s' ∧ (∀ i, bs_view s' i = bs_view s i) ∧
  read_at_loop fuel fs ino offset (l1 ++ c :: l2) 0 0 cb buf s0
  = (if p + copy <=? 4096 then
       let buf := splice buf 0 (slice (cdata s c) (Z.to_nat p) (Z.to_nat (p + copy))) in
       if Z.of_nat (length buf) <=? copy then mret (copy, buf)
       else size ← Dentry_file_size fuel (fs_fat fs) d;
            if size <=? wadd offset copy then mret (copy, buf)
            else read_at_loop fuel fs ino offset l2 copy (wadd offset copy) (cdata s c) buf
     else panic Bounds) s'.
Proof.
  intros Hcb Hs0 Hv0 copy. change (read_at_loop fuel fs ino offset (l1 ++ c :: l2) 0 0 cb buf s0)
    with (read_at_loop fuel fs ino offset (l1 ++ c :: l2) 0 (4096 * 0) cb buf s0).
  rewrite read_at_skip by lia. rewrite Z.add_0_l. cbn [read_at_loop]. rewrite skip_here, Hd. run.
  destruct (observes_read_cluster s c cb Hs Hc Hcb s0 Hs0 Hv0) as (s1 & E1 & Hs1 & Hv1). erewrite bind_Ok by exact E1.
  destruct (Hsize s1 Hs1 Hv1) as (s2 & E2 & Hs2 & Hv2). erewrite bind_Ok by exact E2.
  exists s2. split_and!; [done|done|]. rewrite wsub_small by (unfold is_usize in Hsz; lia). unfold CLUSTER_SIZE.
  rewrite offset_mod. rewrite !Z.sub_0_r, !Z.add_0_l. done.
Qed.

Lemma read_at_within cb buf :
  let copy := Z.min (size - offset) (Z.of_nat (length buf)) in
  length cb = 4096%nat → p + copy ≤ 4096 →
  observes s (read_at_loop fuel fs ino offset (l1 ++ c :: l2) 0 0 cb buf)
    (copy, splice buf 0 (slice (cdata s c) (Z.to_nat p) (Z.to_nat (p + copy)))).
Proof.
  intros copy Hcb Hp s0 Hs0 Hv0. destruct (read_at_cluster cb buf s0 Hcb Hs0 Hv0) as (s' & Hs' & Hv' & ->).
  fold copy. rewrite (proj2 (Z.leb_le _ _)) by lia. pose proof (cdata_length s c Hs Hc).
  set (r := slice _ _ _). assert (length r = Z.to_nat copy) as Hr by (unfold r; rewrite length_slice; lia).
  cbn zeta. rewrite length_splice by lia.
  destruct (Z.leb_spec (Z.of_nat (length buf)) copy) as [Hle'|Hlt]; [by exists s'|].
  destruct (Hsize s' Hs' Hv') as (s2 & E2 & Hs2 & Hv2). erewrite bind_Ok by exact E2. cbn beta.
  rewrite wadd_small by (unfold is_usize in Hsz; lia). rewrite (proj2 (Z.leb_le _ _)) by lia. by exists s2.
Qed.

Lemma read_at_crossing cb buf :
  length cb = 4096%nat → 4096 < p + Z.of_nat (length buf) → 4096 < p + (size - offset) →
  read_at_loop fuel fs ino offset (l1 ++ c :: l2) 0 0 cb buf s = Panic Bounds.
Proof.
  intros Hcb Hb Hin. destruct (read_at_cluster cb buf s Hcb Hs) as (s' & Hs' & Hv' & ->); [done|].
  by rewrite (proj2 (Z.leb_gt _ _)) by lia.
Qed.
End file.

(** ** Open files *)

(** An inode of a file: its entry in a directory sector (the inode refers to the long entry when it
    comes from [lookup], to the short one when it comes from [create]), and its clusters. *)
Record file_at s (ino : Fat32Inode) (sec : Z) (k : nat) (name : str) (attr size : Z) (l : list Z) : Prop := {
  fl_slots : entry_slots s sec k name attr size (in_start_cluster ino);
  fl_name : ascii_name name ∧ (0 < length name ≤ 13)%nat;
  fl_attr : Z.land attr 0x0F ≠ 0x0F;
  fl_pos : (k < 14)%nat ∧ bs_has sec ∧ root_of fs ≤ sec;
  fl_size : 0 ≤ size < 2 ^ 32;
  fl_dentry : in_dentry ino = Some (Fat32Dentry_new sec (32 * Z.of_nat k)) ∨
              in_dentry ino = Some (Fat32Dentry_new sec (32 * Z.of_nat (S k)));
  fl_chain : chain s fs n (in_start_cluster ino) l;
  fl_nodup : NoDup l;
  fl_apart c : c ∈ l → sec < csec c 0 ∨ csec c 8 ≤ sec;
}.

Lemma fl_valid s ino sec k name attr size l : file_at s ino sec k name attr size l → valid_chain l.
Proof.
  intros H. split; [apply H|]. apply Forall_forall. intros c Hc. by apply (chain_members _ _ _ _ _ (fl_chain _ _ _ _ _ _ _ _ H)).
Qed.

Lemma chain_range s c l : chain s fs n c l → 2 ≤ c < n.
Proof. by destruct 1. Qed.

Lemma observes_file_end s ino sec k name attr size l fuel :
  file_at s ino sec k name attr size l → (0 < fuel)%nat →
  ∃ d, in_dentry ino = Some d ∧ observes s (to_end fuel (fs_fat fs) d) (sec, 32 * Z.of_nat (S k)).
Proof.
  intros [Hsl [Hn Hnl] Ha (Hk & Hh & _) Hsz Hd Hch _ _] Hf.
  pose proof (chain_range _ _ _ Hch) as Hr. pose proof (fg_n _ _ Hg). destruct Hd as [Hd|Hd].
  - eexists. split; [exact Hd|].
    by apply (observes_to_end s fs sec k name attr size (in_start_cluster ino) fuel).
  - eexists. split; [exact Hd|]. unfold to_end, Dentry_is_long, read_dentry, Fat32Dentry_new.
    cbn [sector_id sector_offset].
    eapply observes_bind; [eapply observes_bind; [|apply observes_mret]|].
    { apply (observes_short_entry s sec k name attr size (in_start_cluster ino) fuel); done. }
    destruct (DentryLayout_new_wf name attr (in_start_cluster ino) size Hsz) as (_ & Hattr & _).
    unfold DentryLayout_is_long. rewrite Hattr, (proj2 (Z.eqb_neq _ _) Ha). cbn [negb]. apply observes_mret.
Qed.

Lemma observes_size s ino sec k name attr size l fuel :
  file_at s ino sec k name attr size l → (0 < fuel)%nat →
  ∃ d, in_dentry ino = Some d ∧ observes s (Dentry_file_size fuel (fs_fat fs) d) size.
Proof.
  intros Hfl Hf. destruct (observes_file_end s ino sec k name attr size l fuel Hfl Hf) as (d & Hd & He).
  exists d. split; [done|]. destruct Hfl as [Hsl [Hn Hnl] Ha (Hk & Hh & _) Hsz _ Hch _ _].
  unfold Dentry_file_size. eapply observes_bind; [exact He|].
  eapply observes_bind; [apply (observes_short_entry s sec k name attr size (in_start_cluster ino) fuel); done|].
  destruct (DentryLayout_new_wf name attr (in_start_cluster ino) size Hsz) as (_ & _ & -> & _). apply observes_mret.
Qed.

(** Changes that keep the table and the directory sector keep the file where it is. *)
Lemma file_at_ext s s' ino sec k name attr size l :
  (∀ x, x < root_of fs → bs_view s' x = bs_view s x) → bs_view s' sec = bs_view s sec →
  file_at s ino sec k name attr size l → file_at s' ino sec k name attr size l.
Proof.
  intros Ht Hx [H1 H2 H3 H4 H5 H6 H7 H8 H9]. split; try done.
  - eapply entry_slots_ext; [by apply slot_ext..|done].
  - apply (chain_frame s); [done|]. intros c Hc. pose proof (chain_members _ _ _ _ _ H7 c Hc) as [Hcr _].
    apply entry_ext, Ht. apply (entry_sector_range fs n c Hg). lia.
Qed.

Lemma set_size_spec s ino sec k name attr size size' l fuel :
  bs_wf s → file_at s ino sec k name attr size l → (0 < fuel)%nat → 0 ≤ size' < 2 ^ 32 →
  ∃ s', Fat32Inode_set_file_size fuel fs ino size' s = Ok ((), s') ∧ bs_wf s' ∧
    file_at s' ino sec k name attr size' l ∧ (∀ x, x ≠ sec → bs_view s' x = bs_view s x).
Proof.
  intros Hs Hfl Hf Hsz'. destruct (observes_file_end s ino sec k name attr size l fuel Hfl Hf) as (d & Hd & He).
  destruct (He s Hs) as (s1 & E1 & Hs1 & Hv1); [done|].
  pose proof (file_at_ext s s1 _ _ _ _ _ _ _ ltac:(intros; apply Hv1) (Hv1 sec) Hfl) as Hfl1.
  destruct Hfl1 as [Hsl [Hn Hnl] Ha (Hk & Hh & Hroot) Hsz Hdd Hch Hnd Hap].
  set (new := Fat32DentryLayout_new name attr (in_start_cluster ino)).
  assert (DentryLayout_of_bytes (slot s1 sec (S k)) = new size) as Hread.
  { by destruct (entry_slots_read _ _ _ _ _ _ _ Hsl Hn Hnl Hsz) as (_ & _ & _ & _ & _ & Hr). }
  assert (DentryLayout_with_size (new size) (as_u32 size') = new size') as Hws.
  { unfold as_u32. rewrite Z.mod_small by lia. unfold new, Fat32DentryLayout_new. by destruct (short_name _ _ _ _ _ _) as [[[??]?]?]. }
  destruct (DentryLayout_new_wf name attr (in_start_cluster ino) size' Hsz') as (Hwf & _).
  destruct (write_slot_spec s1 sec (S k) (λ b, ((), DentryLayout_bytes (DentryLayout_with_size (DentryLayout_of_bytes b) (as_u32 size'))))
    Hs1 Hh) as (s2 & E2 & Hs2 & Hw2 & Hj2 & Hx2); [lia|cbn [snd]; rewrite Hread, Hws; by apply length_DentryLayout_bytes|].
  cbn [snd] in Hw2. rewrite Hread, Hws in Hw2.
  exists s2. split_and!; [|done| |].
  - unfold Fat32Inode_set_file_size. rewrite Hd. run. unfold Dentry_set_file_size. erewrite bind_Ok by exact E1. exact E2.
  - split; try done.
    + destruct Hsl as (lay & El & Hb & _). exists lay. split_and!; [done| |exact Hw2]. rewrite Hj2 by lia. done.
    + apply (chain_frame s1); [done|]. intros c Hc. pose proof (chain_members _ _ _ _ _ Hch c Hc) as [Hcr _].
      apply entry_ext, Hx2. pose proof (entry_sector_range fs n c Hg). lia.
  - intros x Hx. rewrite Hx2 by done. apply Hv1.
Qed.

Lemma observes_chain s c l fuel :
  bs_wf s → chain s fs n c l → (length l ≤ fuel)%nat → observes s (cluster_chain fuel fs c) l.
Proof.
  intros Hs Hch Hf s0 Hs0 Hv0. by apply (cluster_chain_spec s fs n c l Hch fuel [] s0).
Qed.

(** ** Growing and writing a file *)

Lemma increase_size_spec s ino sec k name attr size size' l fuel :
  bs_wf s → file_at s ino sec k name attr size l → (0 < fuel)%nat → (length l ≤ fuel)%nat →
  0 ≤ size' < 2 ^ 32 → size' ≤ 4096 * Z.of_nat (length l) →
  ∃ s', Fat32Inode_increase_size fuel fs ino size' s = Ok ((), s') ∧ bs_wf s' ∧
    file_at s' ino sec k name attr (Z.max size size') l ∧ (∀ x, x ≠ sec → bs_view s' x = bs_view s x).
Proof.
  intros Hs Hfl Hf Hf2 Hsz' Hfit. destruct (observes_size _ _ _ _ _ _ _ _ fuel Hfl Hf) as (d & Hd & He).
  destruct (He s Hs) as (s1 & E1 & Hs1 & Hv1); [done|].
  pose proof (file_at_ext s s1 _ _ _ _ _ _ _ ltac:(intros; apply Hv1) (Hv1 sec) Hfl) as Hfl1.
  unfold Fat32Inode_increase_size, Fat32Inode_file_size. rewrite Hd. run. erewrite bind_Ok by exact E1. cbn beta.
  destruct (Z.ltb_spec size' size) as [Hlt|Hge].
  { exists s1. rewrite Z.max_l by lia. split_and!; done. }
  destruct (set_size_spec s1 ino sec k name attr size size' l fuel Hs1 Hfl1 Hf Hsz') as (s2 & E2 & Hs2 & Hfl2 & Hv2).
  erewrite bind_Ok by exact E2. cbn beta.
  destruct (observes_chain s2 _ l fuel Hs2 (fl_chain _ _ _ _ _ _ _ _ Hfl2) Hf2 s2) as (s3 & E3 & Hs3 & Hv3); [done..|].
  erewrite bind_Ok by exact E3. cbn beta. unfold CLUSTER_SIZE. rewrite (proj2 (Z.leb_le _ _)) by lia.
  exists s3. rewrite Z.max_r by lia. split_and!; [done|done| |].
  - by apply (file_at_ext s2).
  - intros x Hx. by rewrite Hv3, Hv2, Hv1.
Qed.

Lemma write_at_spec s ino sec k name attr size l fuel offset buf :
  bs_wf s → file_at s ino sec k name attr size l → (0 < fuel)%nat → (length l ≤ fuel)%nat → 0 ≤ offset →
  offset + Z.of_nat (length buf) ≤ 4096 * Z.of_nat (length l) → offset + Z.of_nat (length buf) < 2 ^ 32 →
  ∃ s', Fat32Inode_write_at fuel fs ino offset buf s = Ok (Z.of_nat (length buf), s') ∧ bs_wf s' ∧
    file_at s' ino sec k name attr (Z.max size (offset + Z.of_nat (length buf))) l ∧
    fdata s' l = splice (fdata s l) (Z.to_nat offset) buf ∧
    (∀ x, x ≠ sec → (∀ c, c ∈ l → x < csec c 0 ∨ csec c 8 ≤ x) → bs_view s' x = bs_view s x).
Proof.
  intros Hs Hfl Hf Hf2 Ho Hfit H32. set (size' := Z.max size _).
  destruct (increase_size_spec s ino sec k name attr size (offset + Z.of_nat (length buf)) l fuel Hs Hfl Hf Hf2)
    as (s1 & E1 & Hs1 & Hfl1 & Hv1); [lia..|]. fold size' in Hfl1.
  destruct (observes_chain s1 _ l fuel Hs1 (fl_chain _ _ _ _ _ _ _ _ Hfl1) Hf2 s1) as (s2 & E2 & Hs2 & Hv2); [done..|].
  pose proof (file_at_ext s1 s2 _ _ _ _ _ _ _ ltac:(intros; apply Hv2) (Hv2 sec) Hfl1) as Hfl2.
  pose proof (fl_valid _ _ _ _ _ _ _ _ Hfl2) as Hval.
  destruct (write_at_loop_spec l offset 0 (replicate (Z.to_nat CLUSTER_SIZE) 0) buf s2 Hs2 Hval)
    as (s3 & E3 & Hs3 & Hd3 & _ & Hv3); [apply length_replicate|lia|lia|].
  pose proof (fl_apart _ _ _ _ _ _ _ _ Hfl2) as Hap.
  exists s3. split_and!; [|done| | |].
  - unfold Fat32Inode_write_at. rewrite wadd_small by (unfold W64; lia). erewrite bind_Ok by exact E1. cbn beta.
    erewrite bind_Ok by exact E2. exact E3.
  - apply (file_at_ext s2); [|by apply Hv3|done]. intros x Hx. apply Hv3. intros c Hc. left.
    destruct Hval as [_ Hval]. rewrite Forall_forall in Hval. apply Hval in Hc. unfold csec. lia.
  - rewrite Hd3, drop_0, Z.max_r by lia. f_equal. apply fdata_frame. intros c Hc. apply cdata_ext. intros j Hj.
    rewrite Hv2, Hv1; [done|]. apply Hap in Hc. unfold csec in *. lia.
  - intros x Hx Hxc. rewrite Hv3, Hv2, Hv1; done.
Qed.

(** ** Reading a file *)

Lemma fdata_app s l1 l2 : fdata s (l1 ++ l2) = fdata s l1 ++ fdata s l2.
Proof. unfold fdata. by rewrite fmap_app, join_app. Qed.

(** The cluster a position of the file lies in *)
Lemma offset_cluster (l : list Z) offset :
  0 ≤ offset < 4096 * Z.of_nat (length l) →
  ∃ l1 c l2, l = l1 ++ c :: l2 ∧ 4096 * Z.of_nat (length l1) ≤ offset < 4096 * (Z.of_nat (length l1) + 1).
Proof.
  intros Ho. destruct (lookup_lt_is_Some_2 l (Z.to_nat (offset / 4096))) as [c Hc].
  { Z.to_euclidean_division_equations; lia. }
  apply list_elem_of_split_length in Hc as (l1 & l2 & -> & Hl). exists l1, c, l2. split; [done|].
  Z.to_euclidean_division_equations; lia.
Qed.

Lemma read_at_file s ino sec k name attr size l fuel offset buf :
  let copy := Z.min (size - offset) (Z.of_nat (length buf)) in
  bs_wf s → file_at s ino sec k name attr size l → (0 < fuel)%nat → (length l ≤ fuel)%nat → 0 ≤ offset →
  offset ≤ size ≤ 4096 * Z.of_nat (length l) → offset mod 4096 + copy ≤ 4096 →
  observes s (Fat32Inode_read_at fuel fs ino offset buf)
    (copy, splice buf 0 (slice (fdata s l) (Z.to_nat offset) (Z.to_nat (offset + copy)))).
Proof.
  intros copy Hs Hfl Hf Hf2 Ho Hle Hfit. unfold Fat32Inode_read_at.
  eapply observes_bind; [apply (observes_chain s _ l fuel Hs (fl_chain _ _ _ _ _ _ _ _ Hfl) Hf2)|].
  destruct (decide (offset = 4096 * Z.of_nat (length l))) as [Heq|Hne].
  { assert (copy = 0) as -> by (unfold copy; lia). intros s0 Hs0 Hv0. exists s0. split_and!; [|done|done].
    change 0 with (4096 * 0) at 2. rewrite <-(app_nil_r l) at 1. rewrite read_at_skip by lia.
    cbn [read_at_loop]. unfold slice, mret, M_ret. rewrite Z.add_0_r, Nat.sub_diag, take_0, splice_nil. done. }
  destruct (offset_cluster l offset) as (l1 & c & l2 & -> & Hoff); [lia|].
  destruct (fl_valid _ _ _ _ _ _ _ _ Hfl) as [_ Hval]. apply Forall_app in Hval as [Hv1 Hv2].
  apply Forall_cons in Hv2 as [Hc Hv2].
  destruct (observes_size _ _ _ _ _ _ _ _ fuel Hfl Hf) as (d & Hd & He).
  pose proof (fl_size _ _ _ _ _ _ _ _ Hfl) as Hsz. pose proof (offset_mod l1 offset Hoff) as Hmod.
  pose proof (read_at_within s fuel ino d size l1 l2 c offset Hs Hc Hd) as Hr.
  specialize (Hr ltac:(unfold is_usize, W64; lia) He Hoff ltac:(lia) (replicate (Z.to_nat CLUSTER_SIZE) 0) buf). fold copy in Hr.
  replace (slice (fdata s (l1 ++ c :: l2)) (Z.to_nat offset) (Z.to_nat (offset + copy)))
    with (slice (cdata s c) (Z.to_nat (offset - 4096 * Z.of_nat (length l1))) (Z.to_nat (offset - 4096 * Z.of_nat (length l1) + copy))).
  { apply Hr; [apply length_replicate|lia]. }
  pose proof (fdata_length s l1 Hs Hv1) as Hl1. pose proof (cdata_length s c Hs Hc) as Hcl.
  rewrite fdata_app, fdata_cons. unfold slice.
  rewrite drop_app_ge by lia. rewrite drop_app_le by lia. rewrite take_app_le by (rewrite length_drop; lia).
  rewrite Hl1. f_equal; [lia|f_equal; lia].
Qed.

Lemma read_all_loop s ino sec k name attr size l fuel :
  bs_wf s → file_at s ino sec k name attr size l → (0 < fuel)%nat → (length l ≤ fuel)%nat →
  size ≤ 4096 * Z.of_nat (length l) → ∀ m t buffer,
  0 ≤ t ≤ size → t mod 512 = 0 ∨ t = size → length buffer = 512%nat → size - t ≤ 512 * Z.of_nat m →
  observes s (loopM (S m) (read_all_turn fuel fs ino) (take (Z.to_nat t) (fdata s l), t, buffer))
    (take (Z.to_nat size) (fdata s l)).
Proof.
  intros Hs Hfl Hf Hf2 Hsz. destruct (fl_valid _ _ _ _ _ _ _ _ Hfl) as [_ Hval].
  pose proof (fdata_length s l Hs Hval) as Hlen.
  induction m as [|m IH]; intros t buffer Ht Hal Hb Hm;
    pose proof (read_at_file s ino sec k name attr size l fuel t buffer Hs Hfl Hf Hf2) as Hr;
    rewrite Hb in Hr; cbn zeta in Hr; change (Z.of_nat 512) with 512 in Hr.
  - assert (t = size) as -> by lia. rewrite Z.sub_diag in Hr. apply observes_loop_done; [lia|]. unfold read_all_turn.
    eapply observes_bind; [apply Hr; Z.to_euclidean_division_equations; lia|]. apply observes_mret.
  - specialize (Hr ltac:(lia) ltac:(lia) ltac:(Z.to_euclidean_division_equations; lia)).
    set (copy := Z.min (size - t) 512) in Hr.
    set (new := slice (fdata s l) (Z.to_nat t) (Z.to_nat (t + copy))) in Hr.
    assert (length new = Z.to_nat copy) as Hn by (unfold new; rewrite length_slice; lia).
    destruct (decide (t = size)) as [->|Hne].
    { apply observes_loop_done; [lia|]. unfold read_all_turn. eapply observes_bind; [exact Hr|].
      unfold copy. rewrite Z.sub_diag. apply observes_mret. }
    eapply observes_loop_next.
    { unfold read_all_turn. eapply observes_bind; [exact Hr|]. cbn beta iota.
      rewrite (proj2 (Z.eqb_neq _ _)) by lia. apply observes_mret. }
    replace (take (Z.to_nat t) (fdata s l) ++ take (Z.to_nat copy) (splice buffer 0 new)) with (take (Z.to_nat (t + copy)) (fdata s l)).
    + apply IH; [lia| |by rewrite length_splice by lia|lia].
      unfold copy. Z.to_euclidean_division_equations; lia.
    + unfold splice. rewrite take_0. cbn [app]. rewrite take_app_le, (take_ge new) by lia. unfold new, slice.
      rewrite take_take_drop. f_equal. lia.
Qed.

Lemma read_all_spec s ino sec k name attr size l fuel :
  bs_wf s → file_at s ino sec k name attr size l → (length l ≤ fuel)%nat →
  size ≤ 4096 * Z.of_nat (length l) → size + 512 ≤ 512 * Z.of_nat fuel →
  observes s (Fat32Inode_read_all fuel fs ino) (take (Z.to_nat size) (fdata s l)).
Proof.
  intros Hs Hfl Hf Hsz Hfuel. pose proof (fl_size _ _ _ _ _ _ _ _ Hfl). destruct fuel as [|fuel]; [lia|].
  unfold Fat32Inode_read_all.
  apply (read_all_loop s ino sec k name attr size l (S fuel) Hs Hfl ltac:(lia) Hf Hsz fuel 0); [lia|by left|done|lia].
Qed.

Lemma increase_loop_never_ok fuel : ∀ m (chain : list Z) size last s r,
  Z.of_nat (length chain) * CLUSTER_SIZE < size → loopM m (increase_turn fuel fs chain size) last s ≠ Ok r.
Proof.
  induction m as [|m IH]; intros chain size last s r Hlt; [done|]. cbn [loopM].
  destruct (increase_turn fuel fs chain size last s) as [[[last'|[]] s']| |] eqn:E.
  - erewrite bind_Ok by exact E. cbn beta iota. by apply IH.
  - unfold increase_turn in E. rewrite (proj2 (Z.ltb_lt _ _) Hlt) in E.
    apply bind_Ok_inv in E as (o & s1 & _ & E). by apply bind_Ok_inv in E as (i & s2 & _ & E).
  - unfold mbind, M_bind. by rewrite E.
  - unfold mbind, M_bind. by rewrite E.
Qed.
End clusters.

Section files.
Context {St : Type} `{!BlockStore St, !BlockStoreOk St}.
Implicit Types (s : St).

(** C24: A file keeps what is written to it: [write_at] of a buffer that fits the clusters of the file
    writes all of it, sets the size to the largest of the old size and the end of the buffer, and
    changes no other sector than the one of the entry and those of the file's clusters; [read_all]
    then returns the old content overwritten by the buffer at the offset, also across clusters. *)
Theorem file_write_read_all fs n s ino sec k name attr size l fuel offset buf :
  fat_geom fs n → bs_wf s → file_at fs n s ino sec k name attr size l → size ≤ 4096 * Z.of_nat (length l) →
  0 ≤ offset → offset + Z.of_nat (length buf) ≤ 4096 * Z.of_nat (length l) → offset + Z.of_nat (length buf) < 2 ^ 32 →
  let size' := Z.max size (offset + Z.of_nat (length buf)) in
  (length l ≤ fuel)%nat → size' + 512 ≤ 512 * Z.of_nat fuel →
  ∃ s' s'', Fat32Inode_write_at fuel fs ino offset buf s = Ok (Z.of_nat (length buf), s') ∧
    Fat32Inode_read_all fuel fs ino s' = Ok (take (Z.to_nat size') (splice (fdata fs s l) (Z.to_nat offset) buf), s'') ∧
    ∀ x, x ≠ sec → (∀ c, c ∈ l → x < csec fs c 0 ∨ csec fs c 8 ≤ x) → bs_view s' x = bs_view s x.
Proof.
  intros Hg Hs Hfl Hsz Ho Hfit H32 size' Hf1 Hf2. pose proof (fl_size _ _ _ _ _ _ _ _ _ _ Hfl).
  destruct (write_at_spec fs n Hg s ino sec k name attr size l fuel offset buf)
    as (s' & E & Hs' & Hfl' & Hd & Hx); [done|done|lia|lia|done|done|done|].
  destruct (read_all_spec fs n Hg s' ino sec k name attr size' l fuel Hs' Hfl' Hf1 ltac:(lia) Hf2 s')
    as (s'' & E'' & _); [done|done|].
  exists s', s''. rewrite <-Hd. done.
Qed.

(** [read_at] of a range that is inside the file but crosses the end of a cluster does not read
    on in the next cluster: it panics, since [copy_size] is not bounded by the cluster. *)
Theorem read_across_clusters_panics fs n s ino sec k name attr size l fuel offset buf :
  fat_geom fs n → bs_wf s → file_at fs n s ino sec k name attr size l → size ≤ 4096 * Z.of_nat (length l) →
  0 ≤ offset → offset + Z.of_nat (length buf) ≤ size → 4096 < offset mod 4096 + Z.of_nat (length buf) →
  (0 < fuel)%nat → (length l ≤ fuel)%nat →
  Fat32Inode_read_at fuel fs ino offset buf s = Panic Bounds.
Proof.
  intros Hg Hs Hfl Hsz Ho Hin Hcross Hf Hf2. unfold Fat32Inode_read_at.
  destruct (observes_chain fs n Hg s _ l fuel Hs (fl_chain _ _ _ _ _ _ _ _ _ _ Hfl) Hf2 s Hs) as (s1 & E1 & Hs1 & Hv1); [done|].
  erewrite bind_Ok by exact E1. cbn beta.
  pose proof (Z.mod_pos_bound offset 4096 ltac:(lia)).
  destruct (offset_cluster l offset) as (l1 & c & l2 & -> & Hoff); [lia|].
  assert (file_at fs n s1 ino sec k name attr size (l1 ++ c :: l2)) as Hfl1.
  { by apply (file_at_ext fs n Hg s); [intros; apply Hv1|apply Hv1|]. }
  destruct (observes_size fs n Hg _ _ _ _ _ _ _ _ fuel Hfl1 Hf) as (d & Hd & He).
  pose proof (fl_size _ _ _ _ _ _ _ _ _ _ Hfl) as Hs32.
  destruct (fl_valid _ _ _ _ _ _ _ _ _ _ Hfl) as [_ Hval]. apply Forall_app in Hval as [_ Hval].
  apply Forall_cons in Hval as [Hc _]. pose proof (offset_mod l1 offset Hoff) as Hmod.
  apply (read_at_crossing fs n Hg s1 fuel ino d size l1 l2 c offset Hs1 Hc Hd);
    [unfold is_usize, W64; lia|done|done|lia|apply length_replicate|lia|lia].
Qed.

(** A file never gets a second cluster: [write_at] past the clusters of the file does not return,
    whatever the number of steps, because [increase_size] adds clusters to the table but not to the
    vector whose length its loop tests. *)
Theorem write_past_clusters_never_returns fs n s ino sec k name attr size l fuel offset buf r :
  fat_geom fs n → bs_wf s → file_at fs n s ino sec k name attr size l → size ≤ 4096 * Z.of_nat (length l) →
  0 ≤ offset → 4096 * Z.of_nat (length l) < offset + Z.of_nat (length buf) → offset + Z.of_nat (length buf) < 2 ^ 32 →
  (0 < fuel)%nat → (length l ≤ fuel)%nat →
  Fat32Inode_write_at fuel fs ino offset buf s ≠ Ok r.
Proof.
  destruct r as [r sr]. intros Hg Hs Hfl Hsz Ho Hpast H32 Hf Hf2. unfold Fat32Inode_write_at. rewrite wadd_small by (unfold W64; lia).
  set (size' := offset + _). enough (∀ q, Fat32Inode_increase_size fuel fs ino size' s ≠ Ok q) as Hno.
  { intros E. apply bind_Ok_inv in E as ([] & s' & E & _). by apply Hno in E. }
  intros [q sq]. unfold Fat32Inode_increase_size, Fat32Inode_file_size.
  destruct (observes_size fs n Hg _ _ _ _ _ _ _ _ fuel Hfl Hf) as (d & Hd & He). rewrite Hd. run.
  destruct (He s Hs) as (s1 & E1 & Hs1 & Hv1); [done|]. erewrite bind_Ok by exact E1. cbn beta.
  rewrite (proj2 (Z.ltb_ge _ _)) by lia.
  assert (file_at fs n s1 ino sec k name attr size l) as Hfl1.
  { by apply (file_at_ext fs n Hg s); [intros; apply Hv1|apply Hv1|]. }
  destruct (set_size_spec fs n Hg s1 ino sec k name attr size size' l fuel Hs1 Hfl1 Hf) as (s2 & E2 & Hs2 & Hfl2 & _); [lia|].
  erewrite bind_Ok by exact E2. cbn beta.
  destruct (observes_chain fs n Hg s2 _ l fuel Hs2 (fl_chain _ _ _ _ _ _ _ _ _ _ Hfl2) Hf2 s2 Hs2) as (s3 & E3 & _); [done|].
  erewrite bind_Ok by exact E3. cbn beta. unfold CLUSTER_SIZE at 1. rewrite (proj2 (Z.leb_gt _ _)) by lia.
  intros E. apply bind_Ok_inv in E as (last & s4 & _ & E). revert E. apply increase_loop_never_ok. unfold CLUSTER_SIZE. lia.
Qed.
End files.

(** ** A file of two clusters on a small disk, for the witnesses *)

Definition demo_name : str := [97; 46; 99].
Definition demo_dir_sector : list Z :=
  match Fat32LDentryLayout_new 1 demo_name true with
  | Ok l => splice (replicate 512 0) 0
              (LDentryLayout_bytes l ++ DentryLayout_bytes (Fat32DentryLayout_new demo_name 0x20 3 5000))
  | _ => []
  end.
Definition demo_file_table : list Z :=
  splice (replicate 512 0) 0
    (le_bytes 4 0x0FFFFFF8 ++ le_bytes 4 0x0FFFFFFF ++ le_bytes 4 0x0FFFFFFF ++ le_bytes 4 4 ++ le_bytes 4 0x0FFFFFFF).
Definition demo_file_cache : CacheState (gmap Z (list Z)) :=
  empty_cache (<[2 := demo_dir_sector]> (<[1 := demo_file_table]> (<[0 := demo_boot]> ∅))).
Definition demo_inode : Fat32Inode :=
  {| in_type := FatFile; in_start_cluster := 3; in_dentry := Some (Fat32Dentry_new 2 0) |}.

Lemma demo_file_wf : bs_wf demo_file_cache.
Proof.
  apply empty_cache_inv. repeat (apply map_Forall_insert_2; [vm_compute; done|]). apply map_Forall_empty.
Qed.

Lemma demo_file : file_at demo_fs 128 demo_file_cache demo_inode 2 0 demo_name 0x20 5000 [3; 4].
Proof.
  split.
  - eexists. split; [vm_compute; reflexivity|]. split; vm_compute; reflexivity.
  - split; [|simpl; lia]. repeat (apply Forall_cons_2; [simpl; lia|]). apply Forall_nil_2.
  - vm_compute. congruence.
  - split_and!; [lia|vm_compute; done|vm_compute; congruence].
  - lia.
  - by left.
  - apply (chain_next _ _ _ 3 4); [simpl; lia|vm_compute; reflexivity|lia|].
    apply chain_last; [lia|vm_compute; congruence].
  - apply (bool_decide_unpack _). vm_compute. done.
  - intros c Hc. left. unfold csec. change (root_of demo_fs) with 2.
    apply elem_of_cons in Hc as [->|Hc%list_elem_of_singleton]; [lia|]. subst. lia.
Qed.

Lemma file_write_read_all_witness : ∃ s' s'',
  Fat32Inode_write_at 20 demo_fs demo_inode 4094 [1; 2; 3; 4] demo_file_cache = Ok (4, s') ∧
  Fat32Inode_read_all 20 demo_fs demo_inode s'
    = Ok (take 5000 (splice (fdata demo_fs demo_file_cache [3; 4]) 4094 [1; 2; 3; 4]), s'').
Proof.
  destruct (file_write_read_all demo_fs 128 demo_file_cache demo_inode 2 0 demo_name 0x20 5000 [3; 4] 20 4094 [1; 2; 3; 4])
    as (s' & s'' & E & E' & _).
  - apply demo_geom.
  - apply demo_file_wf.
  - apply demo_file.
  - simpl. lia.
  - lia.
  - simpl. lia.
  - simpl. lia.
  - simpl. lia.
  - simpl. lia.
  - exists s', s''. split; [exact E|exact E'].
Defined.

Lemma read_across_clusters_panics_witness :
  Fat32Inode_read_at 20 demo_fs demo_inode 4000 (replicate 100 0) demo_file_cache = Panic Bounds.
Proof.
  apply (read_across_clusters_panics demo_fs 128 demo_file_cache demo_inode 2 0 demo_name 0x20 5000 [3; 4] 20 4000 (replicate 100 0)).
  - apply demo_geom.
  - apply demo_file_wf.
  - apply demo_file.
  - simpl. lia.
  - lia.
  - rewrite length_replicate. lia.
  - rewrite length_replicate. vm_compute. reflexivity.
  - lia.
  - simpl. lia.
Defined.

Lemma write_past_clusters_never_returns_witness :
  ¬ ∃ r, Fat32Inode_write_at 20 demo_fs demo_inode 8190 [1; 2; 3; 4] demo_file_cache = Ok r.
Proof.
  intros [r E]. revert E.
  apply (write_past_clusters_never_returns demo_fs 128 demo_file_cache demo_inode 2 0 demo_name 0x20 5000 [3; 4] 20 8190 [1; 2; 3; 4] r).
  - apply demo_geom.
  - apply demo_file_wf.
  - apply demo_file.
  - simpl. lia.
  - lia.
  - simpl. lia.
  - simpl. lia.
  - lia.
  - simpl. lia.
Defined.
