(* ===== verification/Ext4Layout.v ===== *)
(** * Structures of ext4 ([os/libs/ext4_rs/src])

    Checksums, bitmaps and names ([utils.rs]), the super block, group descriptors, inodes, extents and
    directory entries ([ext4_structs/]).  The large structures are their bytes, as the library reads
    them from the disk with [ptr::read], with one constructor per field; the small ones are records
    with the bytes they occupy.  A [&str] is the list of its UTF-8 bytes. *)

From Stdlib Require Import ZArith Lia.
From stdpp Require Import functions prelude.
From S2P Require Import Prelude.

Open Scope Z_scope.

(** ** Narrow integers and divisions *)

Definition add32 (x y : Z) : Z := as_u32 (x + y).
Definition sub32 (x y : Z) : Z := as_u32 (x - y).
Definition mul32 (x y : Z) : Z := as_u32 (x * y).
Definition add16 (x y : Z) : Z := as_u16 (x + y).
Definition sub16 (x y : Z) : Z := as_u16 (x - y).
Definition divO (x y : Z) : outcome Z := if y =? 0 then Panic DivZero else Ok (x / y).
Definition modO (x y : Z) : outcome Z := if y =? 0 then Panic DivZero else Ok (x mod y).

(** ** Fields of a structure *)

Record field := Field { f_off : nat; f_len : nat }.
Definition fbytes (f : field) (b : list Z) : list Z := slice b (f_off f) (f_off f + f_len f).
Definition fget (f : field) (b : list Z) : Z := le_word (fbytes f b).
Definition fset (f : field) (v : Z) (b : list Z) : list Z := splice b (f_off f) (le_bytes (f_len f) v).

(** [ptr::read] of a structure of [n] bytes: past the end of the slice it is undefined. *)
Definition read_struct (n : nat) (data : list Z) : outcome (list Z) :=
  if (n <=? length data)%nat then Ok (take n data) else Panic Undefined.
(** [&data[..n]], checked *)
Definition slice_to (n : nat) (data : list Z) : outcome (list Z) :=
  if (n <=? length data)%nat then Ok (take n data) else Panic Bounds.
Definition slice_from (n : nat) (data : list Z) : outcome (list Z) :=
  if (n <=? length data)%nat then Ok (drop n data) else Panic Bounds.

(** ** Checksums *)

Definition CRC32C_TAB : list Z := [
  0x00000000; 0xF26B8303; 0xE13B70F7; 0x1350F3F4; 0xC79A971F; 0x35F1141C; 0x26A1E7E8; 0xD4CA64EB;
  0x8AD958CF; 0x78B2DBCC; 0x6BE22838; 0x9989AB3B; 0x4D43CFD0; 0xBF284CD3; 0xAC78BF27; 0x5E133C24;
  0x105EC76F; 0xE235446C; 0xF165B798; 0x030E349B; 0xD7C45070; 0x25AFD373; 0x36FF2087; 0xC494A384;
  0x9A879FA0; 0x68EC1CA3; 0x7BBCEF57; 0x89D76C54; 0x5D1D08BF; 0xAF768BBC; 0xBC267848; 0x4E4DFB4B;
  0x20BD8EDE; 0xD2D60DDD; 0xC186FE29; 0x33ED7D2A; 0xE72719C1; 0x154C9AC2; 0x061C6936; 0xF477EA35;
  0xAA64D611; 0x580F5512; 0x4B5FA6E6; 0xB93425E5; 0x6DFE410E; 0x9F95C20D; 0x8CC531F9; 0x7EAEB2FA;
  0x30E349B1; 0xC288CAB2; 0xD1D83946; 0x23B3BA45; 0xF779DEAE; 0x05125DAD; 0x1642AE59; 0xE4292D5A;
  0xBA3A117E; 0x4851927D; 0x5B016189; 0xA96AE28A; 0x7DA08661; 0x8FCB0562; 0x9C9BF696; 0x6EF07595;
  0x417B1DBC; 0xB3109EBF; 0xA0406D4B; 0x522BEE48; 0x86E18AA3; 0x748A09A0; 0x67DAFA54; 0x95B17957;
  0xCBA24573; 0x39C9C670; 0x2A993584; 0xD8F2B687; 0x0C38D26C; 0xFE53516F; 0xED03A29B; 0x1F682198;
  0x5125DAD3; 0xA34E59D0; 0xB01EAA24; 0x42752927; 0x96BF4DCC; 0x64D4CECF; 0x77843D3B; 0x85EFBE38;
  0xDBFC821C; 0x2997011F; 0x3AC7F2EB; 0xC8AC71E8; 0x1C661503; 0xEE0D9600; 0xFD5D65F4; 0x0F36E6F7;
  0x61C69362; 0x93AD1061; 0x80FDE395; 0x72966096; 0xA65C047D; 0x5437877E; 0x4767748A; 0xB50CF789;
  0xEB1FCBAD; 0x197448AE; 0x0A24BB5A; 0xF84F3859; 0x2C855CB2; 0xDEEEDFB1; 0xCDBE2C45; 0x3FD5AF46;
  0x7198540D; 0x83F3D70E; 0x90A324FA; 0x62C8A7F9; 0xB602C312; 0x44694011; 0x5739B3E5; 0xA55230E6;
  0xFB410CC2; 0x092A8FC1; 0x1A7A7C35; 0xE811FF36; 0x3CDB9BDD; 0xCEB018DE; 0xDDE0EB2A; 0x2F8B6829;
  0x82F63B78; 0x709DB87B; 0x63CD4B8F; 0x91A6C88C; 0x456CAC67; 0xB7072F64; 0xA457DC90; 0x563C5F93;
  0x082F63B7; 0xFA44E0B4; 0xE9141340; 0x1B7F9043; 0xCFB5F4A8; 0x3DDE77AB; 0x2E8E845F; 0xDCE5075C;
  0x92A8FC17; 0x60C37F14; 0x73938CE0; 0x81F80FE3; 0x55326B08; 0xA759E80B; 0xB4091BFF; 0x466298FC;
  0x1871A4D8; 0xEA1A27DB; 0xF94AD42F; 0x0B21572C; 0xDFEB33C7; 0x2D80B0C4; 0x3ED04330; 0xCCBBC033;
  0xA24BB5A6; 0x502036A5; 0x4370C551; 0xB11B4652; 0x65D122B9; 0x97BAA1BA; 0x84EA524E; 0x7681D14D;
  0x2892ED69; 0xDAF96E6A; 0xC9A99D9E; 0x3BC21E9D; 0xEF087A76; 0x1D63F975; 0x0E330A81; 0xFC588982;
  0xB21572C9; 0x407EF1CA; 0x532E023E; 0xA145813D; 0x758FE5D6; 0x87E466D5; 0x94B49521; 0x66DF1622;
  0x38CC2A06; 0xCAA7A905; 0xD9F75AF1; 0x2B9CD9F2; 0xFF56BD19; 0x0D3D3E1A; 0x1E6DCDEE; 0xEC064EED;
  0xC38D26C4; 0x31E6A5C7; 0x22B65633; 0xD0DDD530; 0x0417B1DB; 0xF67C32D8; 0xE52CC12C; 0x1747422F;
  0x49547E0B; 0xBB3FFD08; 0xA86F0EFC; 0x5A048DFF; 0x8ECEE914; 0x7CA56A17; 0x6FF599E3; 0x9D9E1AE0;
  0xD3D3E1AB; 0x21B862A8; 0x32E8915C; 0xC083125F; 0x144976B4; 0xE622F5B7; 0xF5720643; 0x07198540;
  0x590AB964; 0xAB613A67; 0xB831C993; 0x4A5A4A90; 0x9E902E7B; 0x6CFBAD78; 0x7FAB5E8C; 0x8DC0DD8F;
  0xE330A81A; 0x115B2B19; 0x020BD8ED; 0xF0605BEE; 0x24AA3F05; 0xD6C1BC06; 0xC5914FF2; 0x37FACCF1;
  0x69E9F0D5; 0x9B8273D6; 0x88D28022; 0x7AB90321; 0xAE7367CA; 0x5C18E4C9; 0x4F48173D; 0xBD23943E;
  0xF36E6F75; 0x0105EC76; 0x12551F82; 0xE03E9C81; 0x34F4F86A; 0xC69F7B69; 0xD5CF889D; 0x27A40B9E;
  0x79B737BA; 0x8BDCB4B9; 0x988C474D; 0x6AE7C44E; 0xBE2DA0A5; 0x4C4623A6; 0x5F16D052; 0xAD7D5351].

(** [while size > 0]: an empty buffer panics. *)
Fixpoint crc32 (tab : list Z) (size : nat) (crc : Z) (p : list Z) : outcome Z :=
  match size with
  | O => Ok crc
  | S size =>
      match p with
      | [] => Panic Bounds
      | b :: p => crc32 tab size (Z.lxor (tab !!! Z.to_nat (Z.lxor (as_u8 crc) b)) (Z.shiftr crc 8)) p
      end
  end.
Definition ext4_crc32c (crc : Z) (buf : list Z) (size : Z) : outcome Z := crc32 CRC32C_TAB (Z.to_nat size) crc buf.
Definition EXT4_CRC32_INIT : Z := 0xFFFFFFFF.

(** ** Bitmaps *)

Definition ext4_bmap_is_bit_set (bmap : list Z) (bit : Z) : outcome bool :=
  match bmap !! Z.to_nat (Z.shiftr bit 3) with
  | Some b => Ok (negb (Z.land b (Z.shiftl 1 (Z.land bit 7)) =? 0))
  | None => Panic Bounds
  end.
Definition ext4_bmap_is_bit_clr (bmap : list Z) (bit : Z) : outcome bool :=
  s ← ext4_bmap_is_bit_set bmap bit; mret (negb s).
Definition ext4_bmap_bit_set (bmap : list Z) (bit : Z) : outcome (list Z) :=
  match bmap !! Z.to_nat (Z.shiftr bit 3) with
  | Some b => Ok (<[Z.to_nat (Z.shiftr bit 3) := Z.lor b (Z.shiftl 1 (Z.land bit 7))]> bmap)
  | None => Panic Bounds
  end.
Definition ext4_bmap_bit_clr (bmap : list Z) (bit : Z) : outcome (list Z) :=
  match bmap !! Z.to_nat (Z.shiftr bit 3) with
  | Some b => Ok (<[Z.to_nat (Z.shiftr bit 3) := Z.land b (255 - Z.shiftl 1 (Z.land bit 7))]> bmap)
  | None => Panic Bounds
  end.

(** The loops of [ext4_bmap_bit_find_clr]: up to a byte boundary, over whole bytes, over the rest.
    The first one reports its start instead of the bit it has found. *)
Fixpoint find_clr_head (fuel : nat) (bmap : list Z) (sbit i bcnt : Z) : outcome (option Z + Z * Z) :=
  if Z.land i 7 =? 0 then Ok (inr (i, bcnt))
  else match fuel with
  | O => NoFuel
  | S fuel =>
      if bcnt =? 0 then Ok (inl None)
      else
        c ← ext4_bmap_is_bit_clr bmap i;
        if (c : bool) then Ok (inl (Some sbit)) else find_clr_head fuel bmap sbit (add32 i 1) (sub32 bcnt 1)
  end.
Fixpoint find_clr_bits (bmap : list Z) (sbit : Z) (bits : list Z) : outcome (option Z) :=
  match bits with
  | [] => Ok None
  | i :: bits =>
      c ← ext4_bmap_is_bit_clr bmap i;
      if (c : bool) then Ok (Some (add32 sbit i)) else find_clr_bits bmap sbit bits
  end.
Fixpoint find_clr_bytes (bmap : list Z) (sbit bcnt : Z) : outcome (option Z) :=
  if bcnt <? 8 then find_clr_bits bmap sbit (seqZ 0 bcnt)
  else match bmap with
  | [] => Panic Bounds
  | b :: bmap' =>
      r ← (if b =? 0xFF then Ok None else find_clr_bits bmap sbit (seqZ 0 8));
      match r with
      | Some i => Ok (Some i)
      | None => find_clr_bytes bmap' (add32 sbit 8) (bcnt - 8)
      end
  end.
Definition ext4_bmap_bit_find_clr (bmap : list Z) (sbit ebit : Z) : outcome (option Z) :=
  r ← find_clr_head 8 bmap sbit sbit (sub32 ebit sbit);
  match r with
  | inl o => Ok o
  | inr (i, bcnt) =>
      rest ← slice_from (Z.to_nat (Z.shiftr i 3)) bmap;
      find_clr_bytes rest i bcnt
  end.

(** The range includes [end_bit]. *)
Fixpoint bits_clr (bmap : list Z) (bits : list Z) : outcome (list Z) :=
  match bits with
  | [] => Ok bmap
  | b :: bits => bmap ← ext4_bmap_bit_clr bmap b; bits_clr bmap bits
  end.
Definition ext4_bmap_bits_free (bmap : list Z) (start_bit end_bit : Z) : outcome (list Z) :=
  bits_clr bmap (seqZ start_bit (end_bit + 1 - start_bit)).

(** ** Names and paths *)

Definition utf8_cont (b : Z) : bool := Z.land b 0xC0 =? 0x80.
Fixpoint utf8_valid (l : list Z) : bool :=
  match l with
  | [] => true
  | b :: l =>
      if b <? 0x80 then utf8_valid l
      else match l with
      | [] => false
      | c1 :: l =>
          if (0xC2 <=? b) && (b <=? 0xDF) then utf8_cont c1 && utf8_valid l
          else match l with
          | [] => false
          | c2 :: l =>
              if (0xE0 <=? b) && (b <=? 0xEF) then
                utf8_cont c1 && (if b =? 0xE0 then 0xA0 <=? c1 else if b =? 0xED then c1 <=? 0x9F else true)
                && utf8_cont c2 && utf8_valid l
              else match l with
              | [] => false
              | c3 :: l =>
                  (0xF0 <=? b) && (b <=? 0xF4) && utf8_cont c1
                  && (if b =? 0xF0 then 0x90 <=? c1 else if b =? 0xF4 then c1 <=? 0x8F else true)
                  && utf8_cont c2 && utf8_cont c3 && utf8_valid l
              end
          end
      end
  end.

Definition SLASH : Z := 47.
(** [path.trim_start_matches(skip)], for a [skip] of one character *)
Fixpoint ext4_path_skip (path : list Z) (skip : Z) : list Z :=
  match path with
  | c :: path' => if c =? skip then ext4_path_skip path' skip else path
  | [] => []
  end.
(** The position counts characters; at the end of the string it counts bytes. *)
Fixpoint path_check (path : list Z) (i : nat) : option nat :=
  match path with
  | [] => None
  | c :: path => if c =? SLASH then Some i else path_check path (if utf8_cont c then i else S i)
  end.
Definition ext4_path_check (path : list Z) : nat * bool :=
  match path_check path 0 with Some i => (i, false) | None => (length path, true) end.

Fixpoint path_check_new_loop (path : list Z) (i : nat) : option (nat * bool) :=
  match path with
  | [] => None
  | c :: path =>
      if utf8_cont c then path_check_new_loop path i
      else if (255 <=? i)%nat then None
      else if c =? SLASH then Some (i, false)
      else if c =? 0 then Some (i, true)
      else path_check_new_loop path (S i)
  end.
Definition path_check_new (path : list Z) : nat * bool :=
  match path_check_new_loop path 0 with Some r => r | None => (length path, true) end.

(** [String::from_utf8] of the first bytes of a name *)
Definition get_name (name : list Z) (len : nat) : outcome (option (list Z)) :=
  v ← slice_to len name;
  Ok (if utf8_valid v then Some v else None).

(** ** The super block *)

Inductive Ext4Superblock_field :=
| SB_inodes_count | SB_blocks_count_lo | SB_reserved_blocks_count_lo | SB_free_blocks_count_lo
| SB_free_inodes_count | SB_first_data_block | SB_log_block_size | SB_log_cluster_size
| SB_blocks_per_group | SB_frags_per_group | SB_inodes_per_group | SB_mount_time | SB_write_time
| SB_mount_count | SB_max_mount_count | SB_magic | SB_state | SB_errors | SB_minor_rev_level
| SB_last_check_time | SB_check_interval | SB_creator_os | SB_rev_level | SB_def_resuid | SB_def_resgid
| SB_first_inode | SB_inode_size | SB_block_group_index | SB_features_compatible | SB_features_incompatible
| SB_features_read_only | SB_uuid | SB_volume_name | SB_last_mounted | SB_algorithm_usage_bitmap
| SB_s_prealloc_blocks | SB_s_prealloc_dir_blocks | SB_s_reserved_gdt_blocks | SB_journal_uuid
| SB_journal_inode_number | SB_journal_dev | SB_last_orphan | SB_hash_seed | SB_default_hash_version
| SB_journal_backup_type | SB_desc_size | SB_default_mount_opts | SB_first_meta_bg | SB_mkfs_time
| SB_journal_blocks | SB_blocks_count_hi | SB_reserved_blocks_count_hi | SB_free_blocks_count_hi
| SB_min_extra_isize | SB_want_extra_isize | SB_flags | SB_raid_stride | SB_mmp_interval | SB_mmp_block
| SB_raid_stripe_width | SB_log_groups_per_flex | SB_checksum_type | SB_reserved_pad | SB_kbytes_written
| SB_snapshot_inum | SB_snapshot_id | SB_snapshot_r_blocks_count | SB_snapshot_list | SB_error_count
| SB_first_error_time | SB_first_error_ino | SB_first_error_block | SB_first_error_func
| SB_first_error_line | SB_last_error_time | SB_last_error_ino | SB_last_error_line | SB_last_error_block
| SB_last_error_func | SB_mount_opts | SB_usr_quota_inum | SB_grp_quota_inum | SB_overhead_clusters
| SB_backup_bgs | SB_encrypt_algos | SB_encrypt_pw_salt | SB_lpf_ino | SB_padding | SB_checksum.
Definition sb_at (f : Ext4Superblock_field) : field :=
  match f with
  | SB_inodes_count => Field 0 4 | SB_blocks_count_lo => Field 4 4 | SB_reserved_blocks_count_lo => Field 8 4
  | SB_free_blocks_count_lo => Field 12 4 | SB_free_inodes_count => Field 16 4
  | SB_first_data_block => Field 20 4 | SB_log_block_size => Field 24 4 | SB_log_cluster_size => Field 28 4
  | SB_blocks_per_group => Field 32 4 | SB_frags_per_group => Field 36 4 | SB_inodes_per_group => Field 40 4
  | SB_mount_time => Field 44 4 | SB_write_time => Field 48 4 | SB_mount_count => Field 52 2
  | SB_max_mount_count => Field 54 2 | SB_magic => Field 56 2 | SB_state => Field 58 2
  | SB_errors => Field 60 2 | SB_minor_rev_level => Field 62 2 | SB_last_check_time => Field 64 4
  | SB_check_interval => Field 68 4 | SB_creator_os => Field 72 4 | SB_rev_level => Field 76 4
  | SB_def_resuid => Field 80 2 | SB_def_resgid => Field 82 2 | SB_first_inode => Field 84 4
  | SB_inode_size => Field 88 2 | SB_block_group_index => Field 90 2 | SB_features_compatible => Field 92 4
  | SB_features_incompatible => Field 96 4 | SB_features_read_only => Field 100 4 | SB_uuid => Field 104 16
  | SB_volume_name => Field 120 16 | SB_last_mounted => Field 136 64 | SB_algorithm_usage_bitmap => Field 200 4
  | SB_s_prealloc_blocks => Field 204 1 | SB_s_prealloc_dir_blocks => Field 205 1
  | SB_s_reserved_gdt_blocks => Field 206 2 | SB_journal_uuid => Field 208 16
  | SB_journal_inode_number => Field 224 4 | SB_journal_dev => Field 228 4 | SB_last_orphan => Field 232 4
  | SB_hash_seed => Field 236 16 | SB_default_hash_version => Field 252 1
  | SB_journal_backup_type => Field 253 1 | SB_desc_size => Field 254 2 | SB_default_mount_opts => Field 256 4
  | SB_first_meta_bg => Field 260 4 | SB_mkfs_time => Field 264 4 | SB_journal_blocks => Field 268 68
  | SB_blocks_count_hi => Field 336 4 | SB_reserved_blocks_count_hi => Field 340 4
  | SB_free_blocks_count_hi => Field 344 4 | SB_min_extra_isize => Field 348 2
  | SB_want_extra_isize => Field 350 2 | SB_flags => Field 352 4 | SB_raid_stride => Field 356 2
  | SB_mmp_interval => Field 358 2 | SB_mmp_block => Field 360 8 | SB_raid_stripe_width => Field 368 4
  | SB_log_groups_per_flex => Field 372 1 | SB_checksum_type => Field 373 1 | SB_reserved_pad => Field 374 2
  | SB_kbytes_written => Field 376 8 | SB_snapshot_inum => Field 384 4 | SB_snapshot_id => Field 388 4
  | SB_snapshot_r_blocks_count => Field 392 8 | SB_snapshot_list => Field 400 4 | SB_error_count => Field 404 4
  | SB_first_error_time => Field 408 4 | SB_first_error_ino => Field 412 4
  | SB_first_error_block => Field 416 8 | SB_first_error_func => Field 424 32
  | SB_first_error_line => Field 456 4 | SB_last_error_time => Field 460 4 | SB_last_error_ino => Field 464 4
  | SB_last_error_line => Field 468 4 | SB_last_error_block => Field 472 8 | SB_last_error_func => Field 480 32
  | SB_mount_opts => Field 512 64 | SB_usr_quota_inum => Field 576 4 | SB_grp_quota_inum => Field 580 4
  | SB_overhead_clusters => Field 584 4 | SB_backup_bgs => Field 588 8 | SB_encrypt_algos => Field 596 4
  | SB_encrypt_pw_salt => Field 600 16 | SB_lpf_ino => Field 616 4 | SB_padding => Field 620 400
  | SB_checksum => Field 1020 4
  end.
Definition Ext4Superblock_size : nat := 1024.

Abbreviation Ext4Superblock := (list Z) (only parsing).

(** [TryFrom<Vec<u8>>] *)
Definition Ext4Superblock_try_from (value : list Z) : outcome Ext4Superblock := slice_to Ext4Superblock_size value.

Definition EXT4_MIN_BLOCK_GROUP_DESCRIPTOR_SIZE : Z := 32.
Definition EXT4_MAX_BLOCK_GROUP_DESCRIPTOR_SIZE : Z := 64.

Definition sb_blocks_count (s : Ext4Superblock) : Z :=
  Z.lor (as_u32 (wshl (fget (sb_at SB_blocks_count_hi) s) 32)) (fget (sb_at SB_blocks_count_lo) s).
Definition block_groups_count (s : Ext4Superblock) : outcome Z :=
  cnt ← divO (sb_blocks_count s) (fget (sb_at SB_blocks_per_group) s);
  Ok (if cnt =? 0 then 1 else cnt).
Definition sb_block_size (s : Ext4Superblock) : Z := shl32 1024 (fget (sb_at SB_log_block_size) s mod 32).
Definition sb_desc_size (s : Ext4Superblock) : Z :=
  let size := fget (sb_at SB_desc_size) s in
  if size <? EXT4_MIN_BLOCK_GROUP_DESCRIPTOR_SIZE then EXT4_MIN_BLOCK_GROUP_DESCRIPTOR_SIZE else size.
Definition get_inodes_in_group_cnt (s : Ext4Superblock) (bgid : Z) : outcome Z :=
  block_group_count ← block_groups_count s;
  let inodes_per_group := fget (sb_at SB_inodes_per_group) s in
  let total_inodes := as_u32 (wshl (fget (sb_at SB_inodes_count) s) 32) in
  Ok (if bgid <? sub32 block_group_count 1 then inodes_per_group
      else sub32 total_inodes (mul32 (sub32 block_group_count 1) inodes_per_group)).
Definition sb_free_blocks_count (s : Ext4Superblock) : Z :=
  Z.lor (fget (sb_at SB_free_blocks_count_lo) s) (wshl (fget (sb_at SB_free_blocks_count_hi) s) 32).
Definition sb_set_free_blocks_count (free_blocks : Z) (s : Ext4Superblock) : Ext4Superblock :=
  fset (sb_at SB_free_blocks_count_hi) (as_u32 (Z.shiftr free_blocks 32))
    (fset (sb_at SB_free_blocks_count_lo) (as_u32 (Z.shiftr (wshl free_blocks 32) 32)) s).
Definition decrease_free_inodes_count (s : Ext4Superblock) : Ext4Superblock :=
  fset (sb_at SB_free_inodes_count) (sub32 (fget (sb_at SB_free_inodes_count) s) 1) s.
(** The checksum in [sync_to_disk_with_csum] *)
Definition sb_with_csum (s : Ext4Superblock) : outcome Ext4Superblock :=
  checksum ← ext4_crc32c EXT4_CRC32_INIT s 0x3fc;
  Ok (fset (sb_at SB_checksum) checksum s).

Definition ext4_ialloc_bitmap_csum (bitmap : list Z) (s : Ext4Superblock) : outcome Z :=
  csum ← ext4_crc32c EXT4_CRC32_INIT (fbytes (sb_at SB_uuid) s) 16;
  ext4_crc32c csum bitmap (add32 (fget (sb_at SB_inodes_per_group) s) 7 / 8).
Definition ext4_balloc_bitmap_csum (bitmap : list Z) (s : Ext4Superblock) : outcome Z :=
  csum ← ext4_crc32c EXT4_CRC32_INIT (fbytes (sb_at SB_uuid) s) 16;
  ext4_crc32c csum bitmap (fget (sb_at SB_blocks_per_group) s / 8).

(** ** Group descriptors *)

Inductive Ext4BlockGroup_field :=
| BG_block_bitmap_lo | BG_inode_bitmap_lo | BG_inode_table_first_block_lo | BG_free_blocks_count_lo
| BG_free_inodes_count_lo | BG_used_dirs_count_lo | BG_flags | BG_exclude_bitmap_lo
| BG_block_bitmap_csum_lo | BG_inode_bitmap_csum_lo | BG_itable_unused_lo | BG_checksum
| BG_block_bitmap_hi | BG_inode_bitmap_hi | BG_inode_table_first_block_hi | BG_free_blocks_count_hi
| BG_free_inodes_count_hi | BG_used_dirs_count_hi | BG_itable_unused_hi | BG_exclude_bitmap_hi
| BG_block_bitmap_csum_hi | BG_inode_bitmap_csum_hi | BG_reserved.
Definition bg_at (f : Ext4BlockGroup_field) : field :=
  match f with
  | BG_block_bitmap_lo => Field 0 4 | BG_inode_bitmap_lo => Field 4 4
  | BG_inode_table_first_block_lo => Field 8 4 | BG_free_blocks_count_lo => Field 12 2
  | BG_free_inodes_count_lo => Field 14 2 | BG_used_dirs_count_lo => Field 16 2 | BG_flags => Field 18 2
  | BG_exclude_bitmap_lo => Field 20 4 | BG_block_bitmap_csum_lo => Field 24 2
  | BG_inode_bitmap_csum_lo => Field 26 2 | BG_itable_unused_lo => Field 28 2 | BG_checksum => Field 30 2
  | BG_block_bitmap_hi => Field 32 4 | BG_inode_bitmap_hi => Field 36 4
  | BG_inode_table_first_block_hi => Field 40 4 | BG_free_blocks_count_hi => Field 44 2
  | BG_free_inodes_count_hi => Field 46 2 | BG_used_dirs_count_hi => Field 48 2
  | BG_itable_unused_hi => Field 50 2 | BG_exclude_bitmap_hi => Field 52 4
  | BG_block_bitmap_csum_hi => Field 56 2 | BG_inode_bitmap_csum_hi => Field 58 2 | BG_reserved => Field 60 4
  end.
Definition Ext4BlockGroup_size : nat := 64.

Abbreviation Ext4BlockGroup := (list Z) (only parsing).

Definition Ext4BlockGroup_try_from (data : list Z) : outcome Ext4BlockGroup := slice_to Ext4BlockGroup_size data.

Definition bg_get (f : Ext4BlockGroup_field) (b : Ext4BlockGroup) : Z := fget (bg_at f) b.
Definition bg_put (f : Ext4BlockGroup_field) (v : Z) (b : Ext4BlockGroup) : Ext4BlockGroup := fset (bg_at f) v b.

Definition get_block_bitmap_block (b : Ext4BlockGroup) (s : Ext4Superblock) : Z :=
  let v := bg_get BG_block_bitmap_lo b in
  if EXT4_MIN_BLOCK_GROUP_DESCRIPTOR_SIZE <? fget (sb_at SB_desc_size) s
  then Z.lor v (wshl (bg_get BG_block_bitmap_hi b) 32) else v.
Definition get_inode_bitmap_block (b : Ext4BlockGroup) (s : Ext4Superblock) : Z :=
  let v := bg_get BG_inode_bitmap_lo b in
  if EXT4_MIN_BLOCK_GROUP_DESCRIPTOR_SIZE <? fget (sb_at SB_desc_size) s
  then Z.lor v (wshl (bg_get BG_inode_bitmap_hi b) 32) else v.
Definition get_itable_unused (b : Ext4BlockGroup) (s : Ext4Superblock) : Z :=
  let v := bg_get BG_itable_unused_lo b in
  if EXT4_MIN_BLOCK_GROUP_DESCRIPTOR_SIZE <? sb_desc_size s
  then Z.lor v (as_u32 (wshl (bg_get BG_itable_unused_hi b) 32)) else v.
Definition get_used_dirs_count (b : Ext4BlockGroup) (s : Ext4Superblock) : Z :=
  let v := bg_get BG_used_dirs_count_lo b in
  if EXT4_MIN_BLOCK_GROUP_DESCRIPTOR_SIZE <? sb_desc_size s
  then Z.lor v (as_u32 (wshl (bg_get BG_used_dirs_count_hi b) 32)) else v.
(** It sets the count of unused inodes. *)
Definition set_used_dirs_count (s : Ext4Superblock) (cnt : Z) (b : Ext4BlockGroup) : Ext4BlockGroup :=
  let b := bg_put BG_itable_unused_lo (as_u16 (Z.shiftr (shl32 cnt 16) 16)) b in
  if EXT4_MIN_BLOCK_GROUP_DESCRIPTOR_SIZE <? sb_desc_size s
  then bg_put BG_itable_unused_hi (as_u16 (Z.shiftr cnt 16)) b else b.
Definition set_itable_unused (s : Ext4Superblock) (cnt : Z) (b : Ext4BlockGroup) : Ext4BlockGroup :=
  let b := bg_put BG_itable_unused_lo (as_u16 (Z.shiftr (shl32 cnt 16) 16)) b in
  if EXT4_MIN_BLOCK_GROUP_DESCRIPTOR_SIZE <? sb_desc_size s
  then bg_put BG_itable_unused_hi (as_u16 (Z.shiftr cnt 16)) b else b.
Definition set_free_inodes_count (s : Ext4Superblock) (cnt : Z) (b : Ext4BlockGroup) : Ext4BlockGroup :=
  let b := bg_put BG_free_inodes_count_lo (as_u16 (Z.shiftr (shl32 cnt 16) 16)) b in
  if EXT4_MIN_BLOCK_GROUP_DESCRIPTOR_SIZE <? sb_desc_size s
  then bg_put BG_free_inodes_count_hi (as_u16 (Z.shiftr cnt 16)) b else b.
Definition get_free_inodes_count (b : Ext4BlockGroup) : Z :=
  Z.lor (as_u32 (wshl (bg_get BG_free_inodes_count_hi b) 32)) (bg_get BG_free_inodes_count_lo b).
Definition get_inode_table_blk_num (b : Ext4BlockGroup) : Z :=
  Z.lor (as_u32 (wshl (bg_get BG_inode_table_first_block_hi b) 32)) (bg_get BG_inode_table_first_block_lo b).
Definition get_free_blocks_count (b : Ext4BlockGroup) : Z :=
  let v := bg_get BG_free_blocks_count_lo b in
  let hi := bg_get BG_free_blocks_count_hi b in
  if negb (hi =? 0) then Z.lor v (wshl hi 32) else v.
Definition set_free_blocks_count (cnt : Z) (b : Ext4BlockGroup) : Ext4BlockGroup :=
  bg_put BG_free_blocks_count_hi (as_u16 (Z.shiftr cnt 16))
    (bg_put BG_free_blocks_count_lo (as_u16 (Z.shiftr (shl32 cnt 16) 16)) b).
Definition ext4_blocks_in_group_cnt (s : Ext4Superblock) : outcome Z :=
  cnt ← block_groups_count s;
  r ← modO (sb_blocks_count s) (fget (sb_at SB_blocks_per_group) s);
  Ok (if negb (r =? 0) then add32 cnt 1 else cnt).
Definition ext4_inodes_in_group_cnt (bgid : Z) (s : Ext4Superblock) : outcome Z :=
  block_group_count ← block_groups_count s;
  let inodes_per_group := fget (sb_at SB_inodes_per_group) s in
  let total_inodes := as_u32 (wshl (fget (sb_at SB_inodes_count) s) 32) in
  Ok (if bgid <? sub32 block_group_count 1 then inodes_per_group
      else sub32 total_inodes (mul32 (sub32 block_group_count 1) inodes_per_group)).

(** The checksum covers the descriptor with its own checksum zeroed. *)
Definition get_block_group_checksum (bgid : Z) (s : Ext4Superblock) (b : Ext4BlockGroup) : outcome Z :=
  let desc_size := sb_desc_size s in
  checksum ← ext4_crc32c EXT4_CRC32_INIT (fbytes (sb_at SB_uuid) s) 16;
  checksum ← ext4_crc32c checksum (le_bytes 4 bgid) 4;
  checksum ← ext4_crc32c checksum (bg_put BG_checksum 0 b) desc_size;
  Ok (Z.land checksum 0xFFFF).
Definition set_block_group_checksum (bgid : Z) (s : Ext4Superblock) (b : Ext4BlockGroup) : outcome Ext4BlockGroup :=
  csum ← get_block_group_checksum bgid s b;
  Ok (bg_put BG_checksum csum b).
Definition has_metadata_csum (s : Ext4Superblock) : bool :=
  negb (Z.shiftr (Z.land (fget (sb_at SB_features_read_only) s) 0x400) 10 =? 0).
Definition set_block_group_ialloc_bitmap_csum (s : Ext4Superblock) (bitmap : list Z) (b : Ext4BlockGroup) : outcome Ext4BlockGroup :=
  let desc_size := sb_desc_size s in
  csum ← ext4_ialloc_bitmap_csum bitmap s;
  if negb (has_metadata_csum s) then Ok b
  else
    let b := bg_put BG_inode_bitmap_csum_lo (as_u16 (Z.land csum 0xFFFF)) b in
    Ok (if desc_size =? EXT4_MAX_BLOCK_GROUP_DESCRIPTOR_SIZE
        then bg_put BG_inode_bitmap_csum_hi (as_u16 (Z.shiftr csum 16)) b else b).
Definition set_block_group_balloc_bitmap_csum (s : Ext4Superblock) (bitmap : list Z) (b : Ext4BlockGroup) : outcome Ext4BlockGroup :=
  let desc_size := sb_desc_size s in
  csum ← ext4_balloc_bitmap_csum bitmap s;
  if negb (has_metadata_csum s) then Ok b
  else
    let b := bg_put BG_block_bitmap_csum_lo (as_u16 (Z.land csum 0xFFFF)) b in
    Ok (if desc_size =? EXT4_MAX_BLOCK_GROUP_DESCRIPTOR_SIZE
        then bg_put BG_block_bitmap_csum_hi (as_u16 (Z.shiftr csum 16)) b else b).

(** ** Directory entries *)

Definition Ext4DirEntry_size : nat := 264.      (* 263 bytes of fields, aligned to 4 *)
Definition Ext4FakeDirEntry_size : nat := 8.
Definition Ext4DirEntryTail_size : nat := 12.

Record Ext4DirEntry := {
  de_inode : Z;
  de_entry_len : Z;
  de_name_len : Z;
  de_inode_type : Z;         (* the union [inner] *)
  de_name : list Z;          (* [u8; 255] *)
  de_pad : Z;                (* the byte that aligns the structure *)
}.
#[export] Instance Ext4DirEntry_settable : Settable Ext4DirEntry := λ r,
  Build_Ext4DirEntry (de_inode r) (de_entry_len r) (de_name_len r) (de_inode_type r) (de_name r) (de_pad r).

Definition Ext4DirEntry_default : Ext4DirEntry := Build_Ext4DirEntry 0 0 0 0 (replicate 255 0) 0.
Definition de_decode (b : list Z) : Ext4DirEntry := {|
  de_inode := le_word (slice b 0 4); de_entry_len := le_word (slice b 4 6);
  de_name_len := b !!! 6%nat; de_inode_type := b !!! 7%nat;
  de_name := slice b 8 263; de_pad := b !!! 263%nat |}.
Definition de_bytes (d : Ext4DirEntry) : list Z :=
  le_bytes 4 (de_inode d) ++ le_bytes 2 (de_entry_len d) ++ [de_name_len d; de_inode_type d] ++ de_name d ++ [de_pad d].

Definition Ext4DirEntry_try_from (data : list Z) : outcome Ext4DirEntry :=
  b ← read_struct Ext4DirEntry_size data; Ok (de_decode b).
Definition unused (d : Ext4DirEntry) : bool := de_inode d =? 0.
(** It compares the given name with the beginning of the entry's name. *)
Definition compare_name (d : Ext4DirEntry) (name : list Z) : outcome bool :=
  n ← slice_to (length name) (de_name d);
  Ok (bool_decide (n = name)).
Definition Ext4DirEntry_get_name (d : Ext4DirEntry) : outcome (list Z) :=
  n ← slice_to (Z.to_nat (de_name_len d)) (de_name d);
  if utf8_valid n then Ok n else Panic Unwrap.

(** The copy of the whole block into an array of [0xff4] bytes *)
Definition dir_csum_data (blk_data : list Z) : outcome (list Z) :=
  if (length blk_data <=? 0xff4)%nat then Ok (blk_data ++ replicate (0xff4 - length blk_data) 0) else Panic Undefined.
Definition ext4_dir_get_csum (d : Ext4DirEntry) (s : Ext4Superblock) (blk_data : list Z) (ino_gen : Z) : outcome Z :=
  csum ← ext4_crc32c EXT4_CRC32_INIT (fbytes (sb_at SB_uuid) s) 16;
  csum ← ext4_crc32c csum (le_bytes 4 (de_inode d)) 4;
  csum ← ext4_crc32c csum (le_bytes 4 ino_gen) 4;
  data ← dir_csum_data blk_data;
  ext4_crc32c csum data 0xff4.

(** [copy_nonoverlapping] into a slice *)
Definition write_struct (b : list Z) (array : list Z) (offset : nat) : outcome (list Z) :=
  if (offset + length b <=? length array)%nat then Ok (splice array offset b) else Panic Undefined.
Definition Ext4DirEntry_copy_to_slice (d : Ext4DirEntry) (array : list Z) (offset : nat) : outcome (list Z) :=
  write_struct (de_bytes d) array offset.

Record Ext4DirEntryTail := {
  dt_reserved_zero1 : Z;
  dt_rec_len : Z;
  dt_reserved_zero2 : Z;
  dt_reserved_ft : Z;
  dt_checksum : Z;
}.
#[export] Instance Ext4DirEntryTail_settable : Settable Ext4DirEntryTail := λ r,
  Build_Ext4DirEntryTail (dt_reserved_zero1 r) (dt_rec_len r) (dt_reserved_zero2 r) (dt_reserved_ft r) (dt_checksum r).

Definition Ext4DirEntryTail_new : Ext4DirEntryTail := Build_Ext4DirEntryTail 0 12 0 0xDE 0.
Definition dt_decode (b : list Z) : Ext4DirEntryTail := {|
  dt_reserved_zero1 := le_word (slice b 0 4); dt_rec_len := le_word (slice b 4 6);
  dt_reserved_zero2 := b !!! 6%nat; dt_reserved_ft := b !!! 7%nat; dt_checksum := le_word (slice b 8 12) |}.
Definition dt_bytes (t : Ext4DirEntryTail) : list Z :=
  le_bytes 4 (dt_reserved_zero1 t) ++ le_bytes 2 (dt_rec_len t) ++ [dt_reserved_zero2 t; dt_reserved_ft t]
  ++ le_bytes 4 (dt_checksum t).
Definition Ext4DirEntryTail_from (data : list Z) (blocksize : nat) : outcome (option Ext4DirEntryTail) :=
  b ← read_struct Ext4DirEntryTail_size (drop (blocksize - Ext4DirEntryTail_size) data);
  let t := dt_decode b in
  Ok (if negb (dt_reserved_zero1 t =? 0) || negb (dt_reserved_zero2 t =? 0) then None
      else if negb (dt_rec_len t =? 12) then None
      else if negb (dt_reserved_ft t =? 0xDE) then None
      else Some t).
Definition tail_ext4_dir_set_csum (s : Ext4Superblock) (diren : Ext4DirEntry) (blk_data : list Z) (ino_gen : Z)
    (t : Ext4DirEntryTail) : outcome Ext4DirEntryTail :=
  csum ← ext4_dir_get_csum diren s blk_data ino_gen;
  Ok (t <| dt_checksum := csum |>).
Definition tail_copy_to_slice (t : Ext4DirEntryTail) (array : list Z) : outcome (list Z) :=
  write_struct (dt_bytes t) array (4096 - Ext4DirEntryTail_size).

(** [DirEntryType]: the types that occur in a directory, by their numbers *)
Definition EXT4_DE_UNKNOWN : Z := 0.
Definition EXT4_DE_REG_FILE : Z := 1.
Definition EXT4_DE_DIR : Z := 2.
Definition EXT4_DE_CHRDEV : Z := 3.
Definition EXT4_DE_BLKDEV : Z := 4.
Definition EXT4_DE_FIFO : Z := 5.
Definition EXT4_DE_SOCK : Z := 6.
Definition EXT4_DE_SYMLINK : Z := 7.
Definition EXT4_INODE_MODE_FIFO : Z := 0x1000.
Definition EXT4_INODE_MODE_CHARDEV : Z := 0x2000.
Definition EXT4_INODE_MODE_DIRECTORY : Z := 0x4000.
Definition EXT4_INODE_MODE_BLOCKDEV : Z := 0x6000.
Definition EXT4_INODE_MODE_FILE : Z := 0x8000.
Definition EXT4_INODE_MODE_SOFTLINK : Z := 0xA000.
Definition EXT4_INODE_MODE_SOCKET : Z := 0xC000.
Definition EXT4_INODE_MODE_TYPE_MASK : Z := 0xF000.

(** [from_bits] accepts every combination of the declared bits, that is [0] to [7]. *)
Definition ext4_fs_correspond_inode_mode (filetype : Z) : outcome Z :=
  if 7 <? filetype then Panic Unwrap
  else Ok (if filetype =? EXT4_DE_DIR then EXT4_INODE_MODE_DIRECTORY
    else if filetype =? EXT4_DE_REG_FILE then EXT4_INODE_MODE_FILE
    else if filetype =? EXT4_DE_SYMLINK then EXT4_INODE_MODE_SOFTLINK
    else if filetype =? EXT4_DE_CHRDEV then EXT4_INODE_MODE_CHARDEV
    else if filetype =? EXT4_DE_BLKDEV then EXT4_INODE_MODE_BLOCKDEV
    else if filetype =? EXT4_DE_FIFO then EXT4_INODE_MODE_FIFO
    else if filetype =? EXT4_DE_SOCK then EXT4_INODE_MODE_SOCKET
    else EXT4_INODE_MODE_FILE).

(** ** Extents *)

Definition EXT4_EXTENT_MAGIC : Z := 0xF30A.
Definition EXT_INIT_MAX_LEN : Z := 32768.
Definition EXT_UNWRITTEN_MAX_LEN : Z := 65535.

Record Ext4ExtentHeader := {
  eh_magic : Z;
  eh_entries_count : Z;
  eh_max_entries_count : Z;
  eh_depth : Z;
  eh_generation : Z;
}.
#[export] Instance Ext4ExtentHeader_settable : Settable Ext4ExtentHeader := λ r,
  Build_Ext4ExtentHeader (eh_magic r) (eh_entries_count r) (eh_max_entries_count r) (eh_depth r) (eh_generation r).
Definition eh_decode (b : list Z) : Ext4ExtentHeader := {|
  eh_magic := le_word (slice b 0 2); eh_entries_count := le_word (slice b 2 4);
  eh_max_entries_count := le_word (slice b 4 6); eh_depth := le_word (slice b 6 8);
  eh_generation := le_word (slice b 8 12) |}.
Definition eh_bytes (h : Ext4ExtentHeader) : list Z :=
  le_bytes 2 (eh_magic h) ++ le_bytes 2 (eh_entries_count h) ++ le_bytes 2 (eh_max_entries_count h)
  ++ le_bytes 2 (eh_depth h) ++ le_bytes 4 (eh_generation h).

Record Ext4ExtentIndex := {
  ei_first_block : Z;
  ei_leaf_lo : Z;
  ei_leaf_hi : Z;
  ei_padding : Z;
}.
Definition ei_decode (b : list Z) : Ext4ExtentIndex := {|
  ei_first_block := le_word (slice b 0 4); ei_leaf_lo := le_word (slice b 4 8);
  ei_leaf_hi := le_word (slice b 8 10); ei_padding := le_word (slice b 10 12) |}.
Definition index_pblock (i : Ext4ExtentIndex) : Z := Z.lor (ei_leaf_lo i) (wshl (ei_leaf_hi i) 32).

Record Ext4Extent := {
  ee_first_block : Z;
  ee_block_count : Z;
  ee_start_hi : Z;
  ee_start_lo : Z;
}.
#[export] Instance Ext4Extent_settable : Settable Ext4Extent := λ r,
  Build_Ext4Extent (ee_first_block r) (ee_block_count r) (ee_start_hi r) (ee_start_lo r).
Definition Ext4Extent_default : Ext4Extent := Build_Ext4Extent 0 0 0 0.
Definition ee_decode (b : list Z) : Ext4Extent := {|
  ee_first_block := le_word (slice b 0 4); ee_block_count := le_word (slice b 4 6);
  ee_start_hi := le_word (slice b 6 8); ee_start_lo := le_word (slice b 8 12) |}.
Definition ee_bytes (e : Ext4Extent) : list Z :=
  le_bytes 4 (ee_first_block e) ++ le_bytes 2 (ee_block_count e) ++ le_bytes 2 (ee_start_hi e)
  ++ le_bytes 4 (ee_start_lo e).

Definition Ext4ExtentHeader_try_from (data : list Z) : outcome Ext4ExtentHeader :=
  b ← read_struct 12 data; Ok (eh_decode b).
Definition Ext4Extent_try_from (data : list Z) : outcome Ext4Extent :=
  b ← read_struct 12 data; Ok (ee_decode b).
(** [&data[..12]] counts elements of the slice, which are words of [w] bytes. *)
Definition Ext4ExtentIndex_try_from (w : nat) (data : list Z) : outcome Ext4ExtentIndex :=
  b ← slice_to (12 * w) data; Ok (ei_decode b).

Definition is_unwritten (e : Ext4Extent) : bool := EXT_INIT_MAX_LEN <? ee_block_count e.
Definition get_actual_len (e : Ext4Extent) : Z :=
  if is_unwritten e then sub16 (ee_block_count e) EXT_INIT_MAX_LEN else ee_block_count e.
Definition extent_pblock (e : Ext4Extent) : Z := as_u32 (Z.lor (ee_start_lo e) (wshl (ee_start_hi e) 32)).
Definition can_append (e next : Ext4Extent) : bool :=
  (add32 (ee_first_block e) (get_actual_len e) =? ee_first_block next) &&
  (add16 (get_actual_len e) (get_actual_len next)
     <=? (if is_unwritten e then EXT_UNWRITTEN_MAX_LEN else EXT_INIT_MAX_LEN)).
Definition can_prepend (e prev : Ext4Extent) : bool :=
  (add32 (ee_first_block prev) (get_actual_len prev) =? ee_first_block e) &&
  (add16 (get_actual_len e) (get_actual_len prev)
     <=? (if is_unwritten e then EXT_UNWRITTEN_MAX_LEN else EXT_INIT_MAX_LEN)).
Definition mark_unwritten (e : Ext4Extent) : Ext4Extent :=
  e <| ee_block_count ::= λ c, Z.lor c EXT_INIT_MAX_LEN |>.
(** The high half of a physical block number, computed in 32 bits *)
Definition start_hi_of (pblock : Z) : Z := as_u16 (shl32 (shl32 (as_u32 pblock) 31) 1).
Definition store_pblock (pblock : Z) (e : Ext4Extent) : Ext4Extent :=
  e <| ee_start_lo := Z.land (as_u32 pblock) 0xffffffff |> <| ee_start_hi := start_hi_of pblock |>.

Record ExtentTreeNode := {
  tn_header : Ext4ExtentHeader;
  tn_extents : list Ext4Extent;
  tn_indexes : list Ext4ExtentIndex;
}.

(** The entries of a node whose data is a slice of words of [w] bytes: [load_from_header] reads the
    [u32] words of the inode, [load_node] the bytes of a block.  [idx] is computed in 16 bits. *)
Definition load_entry {A} (try_from : list Z → outcome A) (w : nat) (data : list Z) (en : nat) : outcome A :=
  let n := Z.of_nat (12 / w) in
  let idx := add16 n (as_u16 (Z.of_nat en * n)) in
  rest ← slice_from (w * Z.to_nat idx) data;
  try_from rest.
Fixpoint mapO {A B} (f : A → outcome B) (l : list A) : outcome (list B) :=
  match l with
  | [] => Ok []
  | x :: l => y ← f x; ys ← mapO f l; Ok (y :: ys)
  end.
Definition load_tree_node (w : nat) (data : list Z) : outcome ExtentTreeNode :=
  extent_header ← Ext4ExtentHeader_try_from data;
  let entries := seq 0 (Z.to_nat (eh_entries_count extent_header)) in
  if eh_depth extent_header =? 0 then
    extents ← mapO (load_entry Ext4Extent_try_from w data) entries;
    Ok {| tn_header := extent_header; tn_extents := extents; tn_indexes := [] |}
  else
    indexes ← mapO (load_entry (Ext4ExtentIndex_try_from w) w data) entries;
    Ok {| tn_header := extent_header; tn_extents := []; tn_indexes := indexes |}.
Definition load_from_header (data : list Z) : outcome ExtentTreeNode := load_tree_node 4 data.
Definition load_node (data : list Z) : outcome ExtentTreeNode := load_tree_node 1 data.

(** ** Inodes *)

Inductive Ext4Inode_field :=
| IN_mode | IN_uid | IN_size | IN_atime | IN_ctime | IN_mtime | IN_dtime | IN_gid | IN_links_count
| IN_blocks | IN_flags | IN_osd1 | IN_block | IN_generation | IN_file_acl | IN_size_hi | IN_faddr | IN_osd2
| IN_i_extra_isize | IN_i_checksum_hi | IN_i_ctime_extra | IN_i_mtime_extra | IN_i_atime_extra
| IN_i_crtime | IN_i_crtime_extra | IN_i_version_hi.
Definition in_at (f : Ext4Inode_field) : field :=
  match f with
  | IN_mode => Field 0 2 | IN_uid => Field 2 2 | IN_size => Field 4 4 | IN_atime => Field 8 4
  | IN_ctime => Field 12 4 | IN_mtime => Field 16 4 | IN_dtime => Field 20 4 | IN_gid => Field 24 2
  | IN_links_count => Field 26 2 | IN_blocks => Field 28 4 | IN_flags => Field 32 4 | IN_osd1 => Field 36 4
  | IN_block => Field 40 60 | IN_generation => Field 100 4 | IN_file_acl => Field 104 4
  | IN_size_hi => Field 108 4 | IN_faddr => Field 112 4 | IN_osd2 => Field 116 12
  | IN_i_extra_isize => Field 128 2 | IN_i_checksum_hi => Field 130 2 | IN_i_ctime_extra => Field 132 4
  | IN_i_mtime_extra => Field 136 4 | IN_i_atime_extra => Field 140 4 | IN_i_crtime => Field 144 4
  | IN_i_crtime_extra => Field 148 4 | IN_i_version_hi => Field 152 4
  end.
Definition Ext4Inode_size : nat := 156.

(** The structure [Linux2] at the field [osd2] *)
Inductive Linux2_field :=
| L2_l_i_blocks_high | L2_l_i_file_acl_high | L2_l_i_uid_high | L2_l_i_gid_high | L2_l_i_checksum_lo
| L2_l_i_reserved.
Definition l2_at (f : Linux2_field) : field :=
  match f with
  | L2_l_i_blocks_high => Field 116 2 | L2_l_i_file_acl_high => Field 118 2 | L2_l_i_uid_high => Field 120 2
  | L2_l_i_gid_high => Field 122 2 | L2_l_i_checksum_lo => Field 124 2 | L2_l_i_reserved => Field 126 2
  end.

Abbreviation Ext4Inode := (list Z) (only parsing).

Definition Ext4Inode_default : Ext4Inode := replicate Ext4Inode_size 0.
Definition Ext4Inode_try_from (data : list Z) : outcome Ext4Inode := slice_to Ext4Inode_size data.
Definition in_get (f : Ext4Inode_field) (i : Ext4Inode) : Z := fget (in_at f) i.
Definition in_put (f : Ext4Inode_field) (v : Z) (i : Ext4Inode) : Ext4Inode := fset (in_at f) v i.
(** The array [block], as bytes *)
Definition in_block (i : Ext4Inode) : list Z := fbytes (in_at IN_block) i.
Definition set_in_block (b : list Z) (i : Ext4Inode) : Ext4Inode := splice i (f_off (in_at IN_block)) b.

Definition EXT4_SUPERBLOCK_OS_HURD : Z := 1.
Definition EXT4_INODE_FLAG_EXTENTS : Z := 0x00080000.
Definition EXT4_GOOD_OLD_INODE_SIZE : Z := 128.

Definition ext4_inode_type (s : Ext4Superblock) (i : Ext4Inode) : Z :=
  let v := in_get IN_mode i in
  let v := if fget (sb_at SB_creator_os) s =? EXT4_SUPERBLOCK_OS_HURD
           then Z.lor v (as_u16 (shl32 (fget (l2_at L2_l_i_file_acl_high) i) 16)) else v in
  Z.land v EXT4_INODE_MODE_TYPE_MASK.
Definition ext4_inode_set_flags (f : Z) (i : Ext4Inode) : Ext4Inode := in_put IN_flags (Z.lor (in_get IN_flags i) f) i.
Definition ext4_inode_set_mode (mode : Z) (i : Ext4Inode) : Ext4Inode := in_put IN_mode (Z.lor (in_get IN_mode i) mode) i.
Definition ext4_inode_set_size (size : Z) (i : Ext4Inode) : Ext4Inode :=
  in_put IN_size_hi (as_u32 (Z.shiftr size 32)) (in_put IN_size (as_u32 (Z.shiftr (wshl size 32) 32)) i).
Definition inode_get_size (i : Ext4Inode) : Z := Z.lor (in_get IN_size i) (wshl (in_get IN_size_hi i) 32).
Definition ext4_inode_get_blocks_count (i : Ext4Inode) : Z :=
  let hi := fget (l2_at L2_l_i_blocks_high) i in
  if negb (hi =? 0) then Z.lor (in_get IN_blocks i) (wshl hi 32) else in_get IN_blocks i.
Definition ext4_inode_set_blocks_count (blocks_count : Z) (i : Ext4Inode) : Ext4Inode := in_put IN_blocks blocks_count i.
Definition set_inode_checksum_value (s : Ext4Superblock) (checksum : Z) (i : Ext4Inode) : Ext4Inode :=
  let i := fset (l2_at L2_l_i_checksum_lo) (as_u16 (Z.shiftr (shl32 checksum 16) 16)) i in
  if 128 <? fget (sb_at SB_inode_size) s then in_put IN_i_checksum_hi (as_u16 (Z.shiftr checksum 16)) i else i.
(** The checksum and the inode it leaves behind; the inode's structure is padded to 256 bytes. *)
Definition get_inode_checksum (inode_id : Z) (s : Ext4Superblock) (i : Ext4Inode) : outcome (Z * Ext4Inode) :=
  let inode_size := fget (sb_at SB_inode_size) s in
  let ino_gen := in_get IN_generation i in
  let i := in_put IN_i_checksum_hi 0 (fset (l2_at L2_l_i_checksum_lo) 0 i) in
  checksum ← ext4_crc32c EXT4_CRC32_INIT (fbytes (sb_at SB_uuid) s) 16;
  checksum ← ext4_crc32c checksum (le_bytes 4 inode_id) 4;
  checksum ← ext4_crc32c checksum (le_bytes 4 ino_gen) 4;
  checksum ← ext4_crc32c checksum (take 0x9c i ++ replicate (0x100 - 0x9c) 0) inode_size;
  let i := set_inode_checksum_value s checksum i in
  Ok (if inode_size =? 128 then Z.land checksum 0xFFFF else checksum, i).
Definition set_inode_checksum (s : Ext4Superblock) (inode_id : Z) (i : Ext4Inode) : outcome Ext4Inode :=
  '(checksum, i) ← get_inode_checksum inode_id s i;
  Ok (set_inode_checksum_value s checksum i).
Definition ext4_extent_tree_init (i : Ext4Inode) : Ext4Inode :=
  let header := {| eh_magic := EXT4_EXTENT_MAGIC; eh_entries_count := 0; eh_max_entries_count := 4;
                   eh_depth := 0; eh_generation := 0 |} in
  set_in_block (eh_bytes header) i.
Definition extent_header (i : Ext4Inode) : Ext4ExtentHeader := eh_decode (in_block i).
Definition extent_depth (i : Ext4Inode) : Z := eh_depth (extent_header i).
