(* ===== verification/Ext4.v ===== *)
(** * The ext4 file system ([os/libs/ext4_rs/src])

    Groups, inodes, extents, allocation, directories and files, on a byte-addressed device.  The
    structure [Ext4] does not change after [open] (it is shared through an [Arc]); the operations
    thread the device and the [Ext4InodeRef]s they are given by [&mut].  A loop that the code may
    run forever has as much fuel as it can use before it repeats a state; see [Ext4Spec]. *)

From Stdlib Require Import ZArith Lia.
From stdpp Require Import functions prelude.
From S2P Require Import Prelude Drivers Ext4Layout.

Open Scope Z_scope.

(** ** The device ([trait BlockDevice]) *)

Class OffsetDevice (D : Type) := {
  read_offset : Z → M D (list Z);
  write_offset : Z → list Z → M D unit;
}.

#[export] Instance virtio_offset_device T `{!VirtIOBlk T} : OffsetDevice T :=
  {| read_offset := VirtIOBlock_read_offset; write_offset := VirtIOBlock_write_offset |}.
#[export] Instance sdcard_offset_device T `{!Vf2SdDriver T} : OffsetDevice T :=
  {| read_offset := SDCard_read_offset; write_offset := SDCard_write_offset |}.

Definition BASE_OFFSET : Z := 1024.
Definition EOK : Z := 0.
Definition EIO : Z := 5.
Definition ENOSPC : Z := 28.
Definition EXT_MAX_BLOCKS : Z := 2 ^ 32 - 1.
Definition EXT4_INODE_BLOCK_SIZE : Z := 512.

(** The variants of [Errnum] that the operations return *)
Inductive Errnum := Err_ENOENT | Err_EIO | Err_EINVAL | Err_ENOTSUP | Err_ELINKFIAL | Err_EALLOCFIAL.
Abbreviation Result A := (A + Errnum)%type (only parsing).

(** ** Data *)

Record Ext4 := {
  super_block : Ext4Superblock;
  block_groups : list Ext4BlockGroup;
  last_inode_bg_id : Z;
}.

Record Ext4InodeRef := {
  inode_num : Z;
  inode : Ext4Inode;
}.
#[export] Instance Ext4InodeRef_settable : Settable Ext4InodeRef := λ r,
  Build_Ext4InodeRef (inode_num r) (inode r).
Definition Ext4InodeRef_new : Ext4InodeRef := {| inode_num := 0; inode := Ext4Inode_default |}.

Record Ext4File := {
  f_inode : Z;
  f_flags : Z;
  f_fsize : Z;
  f_fpos : Z;
}.
#[export] Instance Ext4File_settable : Settable Ext4File := λ r,
  Build_Ext4File (f_inode r) (f_flags r) (f_fsize r) (f_fpos r).
Definition Ext4File_new : Ext4File := Build_Ext4File 0 0 0 0.

Record Ext4DirSearchResult := {
  sr_dentry : Ext4DirEntry;
  sr_offset : nat;
  sr_last_offset : nat;
  sr_block_id : Z;
}.
#[export] Instance Ext4DirSearchResult_settable : Settable Ext4DirSearchResult := λ r,
  Build_Ext4DirSearchResult (sr_dentry r) (sr_offset r) (sr_last_offset r) (sr_block_id r).
Definition Ext4DirSearchResult_new : Ext4DirSearchResult := Build_Ext4DirSearchResult Ext4DirEntry_default 0 0 0.

(** An element of the path that [find_extent] computes.  Its pointers point into the inode's array
    [block]: [ep_header] says whether [header] is set, [ep_index] and [ep_extent] are positions of
    entries after the header. *)
Record Ext4ExtentPath := {
  ep_p_block : Z;
  ep_depth : Z;
  ep_maxdepth : Z;
  ep_header : bool;
  ep_index : option nat;
  ep_extent : option nat;
}.
#[export] Instance Ext4ExtentPath_settable : Settable Ext4ExtentPath := λ r,
  Build_Ext4ExtentPath (ep_p_block r) (ep_depth r) (ep_maxdepth r) (ep_header r) (ep_index r) (ep_extent r).
Definition Ext4ExtentPath_default : Ext4ExtentPath := Build_Ext4ExtentPath 0 0 0 false None None.

Record Ext4ExtentPathNew := {
  pn_depth : Z;
  pn_first_block : Z;
  pn_block_count : Z;
  pn_start_hi : Z;
  pn_start_lo : Z;
  pn_p_block : option Z;
}.

Section ext4.
Context {D : Type} `{!OffsetDevice D}.

(** [read_offset(block_id as usize * BLOCK_SIZE)] *)
Definition block_at (block_id : Z) : M D (list Z) := read_offset (wmul block_id BLOCK_SIZE).

(** ** Super block and group descriptors *)

Definition load_super_block : M D Ext4Superblock :=
  raw ← read_offset BASE_OFFSET;
  lift (Ext4Superblock_try_from raw).

Definition sb_sync_to_disk_with_csum (s : Ext4Superblock) : M D Ext4Superblock :=
  s ← lift (sb_with_csum s);
  write_offset BASE_OFFSET s;;
  mret s.

(** The block and the offset in it of a descriptor *)
Definition bg_position (s : Ext4Superblock) (bgid : Z) : outcome (Z * Z) :=
  let desc_size := fget (sb_at SB_desc_size) s in
  dsc_cnt ← divO BLOCK_SIZE desc_size;
  dsc_id ← divO bgid dsc_cnt;
  r ← modO bgid dsc_cnt;
  Ok (wadd (wadd (fget (sb_at SB_first_data_block) s) dsc_id) 1, wmul r desc_size).

Definition Ext4BlockGroup_load (s : Ext4Superblock) (block_group_idx : Z) : M D Ext4BlockGroup :=
  '(block_id, offset) ← lift (bg_position s block_group_idx);
  data ← block_at block_id;
  rest ← lift (slice_from (Z.to_nat offset) data);
  lift (Ext4BlockGroup_try_from rest).

Definition sync_block_group_to_disk (bgid : Z) (s : Ext4Superblock) (b : Ext4BlockGroup) : M D unit :=
  '(block_id, offset) ← lift (bg_position s bgid);
  write_offset (wadd (wmul block_id BLOCK_SIZE) offset) b.

Definition bg_sync_to_disk_with_csum (bgid : Z) (s : Ext4Superblock) (b : Ext4BlockGroup) : M D unit :=
  b ← lift (set_block_group_checksum (as_u32 bgid) s b);
  sync_block_group_to_disk bgid s b.

(** [Ext4::open] *)
Definition Ext4_open : M D Ext4 :=
  s ← load_super_block;
  cnt ← lift (block_groups_count s);
  groups ← foldM (λ gs idx, g ← Ext4BlockGroup_load s (Z.of_nat idx); mret (gs ++ [g])) [] (seq 0 (Z.to_nat cnt));
  mret {| super_block := s; block_groups := groups; last_inode_bg_id := 0 |}.

(** ** Inodes on disk *)

Definition get_inode_ref (fs : Ext4) (inode_num : Z) : M D Ext4InodeRef :=
  let s := super_block fs in
  let inodes_per_group := fget (sb_at SB_inodes_per_group) s in
  group ← lift (divO (sub32 inode_num 1) inodes_per_group);
  index ← lift (modO (sub32 inode_num 1) inodes_per_group);
  group ← (match block_groups fs !! Z.to_nat group with Some g => mret g | None => panic Bounds end);
  let offset := wadd (wmul (get_inode_table_blk_num group) BLOCK_SIZE)
                     (wmul index (fget (sb_at SB_inode_size) s)) in
  data ← read_offset offset;
  i ← lift (Ext4Inode_try_from data);
  mret {| inode_num := inode_num; inode := i |}.

Definition get_inode_disk_pos (s : Ext4Superblock) (inode_id : Z) : M D Z :=
  let inodes_per_group := fget (sb_at SB_inodes_per_group) s in
  group ← lift (divO (sub32 inode_id 1) inodes_per_group);
  index ← lift (modO (sub32 inode_id 1) inodes_per_group);
  bg ← Ext4BlockGroup_load s group;
  let inode_table_blk_num := Z.lor (wshl (bg_get BG_inode_table_first_block_hi bg) 32)
                                   (bg_get BG_inode_table_first_block_lo bg) in
  mret (wadd (wmul inode_table_blk_num BLOCK_SIZE) (mul32 index (fget (sb_at SB_inode_size) s))).

Definition sync_inode_to_disk (s : Ext4Superblock) (inode_id : Z) (i : Ext4Inode) : M D unit :=
  disk_pos ← get_inode_disk_pos s inode_id;
  write_offset disk_pos i.

Definition write_back_inode (fs : Ext4) (r : Ext4InodeRef) : M D Ext4InodeRef :=
  i ← lift (set_inode_checksum (super_block fs) (inode_num r) (inode r));
  sync_inode_to_disk (super_block fs) (inode_num r) i;;
  mret (r <| inode := i |>).
Definition write_back_inode_without_csum (fs : Ext4) (r : Ext4InodeRef) : M D unit :=
  sync_inode_to_disk (super_block fs) (inode_num r) (inode r).

(** ** Inode allocation *)

Definition alloc_inode_in (s : Ext4Superblock) (bgid : Z) (bg : Ext4BlockGroup) (is_dir : bool) : M D Z :=
  let free_inodes := get_free_inodes_count bg in
  let used_dirs := get_used_dirs_count bg s in
  let inode_bitmap_block := get_inode_bitmap_block bg s in
  raw_data ← block_at inode_bitmap_block;
  inodes_in_bg ← lift (get_inodes_in_group_cnt s bgid);
  (* the result of the search is not looked at: [idx_in_bg] stays [0] when there is no clear bit *)
  found ← lift (ext4_bmap_bit_find_clr raw_data 0 inodes_in_bg);
  let idx_in_bg := default 0 found in
  bitmap_data ← lift (ext4_bmap_bit_set raw_data idx_in_bg);
  write_offset (wmul inode_bitmap_block BLOCK_SIZE) bitmap_data;;
  bg ← lift (set_block_group_ialloc_bitmap_csum s bitmap_data bg);
  let bg := set_free_inodes_count s (sub32 free_inodes 1) bg in
  let bg := if is_dir then set_used_dirs_count s (add32 used_dirs 1) bg else bg in
  let unused := get_itable_unused bg s in
  let free := sub32 inodes_in_bg unused in
  let bg := if free <=? idx_in_bg then set_itable_unused s (sub32 inodes_in_bg (add32 idx_in_bg 1)) bg else bg in
  bg_sync_to_disk_with_csum bgid s bg;;
  mret (add32 (mul32 bgid (fget (sb_at SB_inodes_per_group) s)) (add32 idx_in_bg 1)).

(** One turn of the loop over the groups; [bgid == bg_count] starts again at the first. *)
Definition alloc_inode_turn (bg_count : Z) (is_dir : bool) (bgid : Z) : M D (Z + option Z) :=
  if bg_count <? bgid then mret (inr None)
  else if bgid =? bg_count then mret (inl 0)
  else
    s ← load_super_block;
    bg ← Ext4BlockGroup_load s bgid;
    if 0 <? get_free_inodes_count bg
    then index ← alloc_inode_in s bgid bg is_dir; mret (inr (Some index))
    else mret (inl (add32 bgid 1)).

(** Enough turns to see every group once. *)
Definition ext4_ialloc_alloc_inode (fs : Ext4) (is_dir : bool) : M D (option Z) :=
  bg_count ← lift (block_groups_count (super_block fs));
  loopM (Z.to_nat bg_count + 2) (alloc_inode_turn bg_count is_dir) (last_inode_bg_id fs).

Definition ext4_ialloc_free_inode (fs : Ext4) (index : Z) (is_dir : bool) : M D unit :=
  let inodes_per_group := fget (sb_at SB_inodes_per_group) (super_block fs) in
  bgid ← lift (divO index inodes_per_group);
  s ← load_super_block;
  bg ← Ext4BlockGroup_load s bgid;
  let inode_bitmap_block := get_inode_bitmap_block bg (super_block fs) in
  bitmap_data ← block_at inode_bitmap_block;
  index_in_group ← lift (modO index inodes_per_group);
  bitmap_data ← lift (ext4_bmap_bit_clr bitmap_data index_in_group);
  write_offset (wmul inode_bitmap_block BLOCK_SIZE) bitmap_data;;
  bg ← lift (set_block_group_ialloc_bitmap_csum s bitmap_data bg);
  let bg := set_free_inodes_count (super_block fs) (add32 (get_free_inodes_count bg) 1) bg in
  let bg := if is_dir
            then set_used_dirs_count (super_block fs) (sub32 (get_used_dirs_count bg (super_block fs)) 1) bg
            else bg in
  bg_sync_to_disk_with_csum bgid s bg.

(** ** Block allocation *)

Definition balloc_alloc_block (fs : Ext4) (r : Ext4InodeRef) (goal : Z) : M D (Z * Ext4InodeRef) :=
  s ← load_super_block;
  let blocks_per_group := fget (sb_at SB_blocks_per_group) s in
  bgid ← lift (divO goal blocks_per_group);
  idx_in_bg ← lift (modO goal blocks_per_group);
  bg ← Ext4BlockGroup_load s bgid;
  let block_bitmap_block := get_block_bitmap_block bg s in
  data ← block_at block_bitmap_block;
  found ← lift (ext4_bmap_bit_find_clr data (as_u32 idx_in_bg) 0x8000);
  let rel_blk_idx := default 0 found in
  data ← lift (ext4_bmap_bit_set data rel_blk_idx);
  bg ← lift (set_block_group_balloc_bitmap_csum s data bg);
  write_offset (wmul block_bitmap_block BLOCK_SIZE) data;;
  s ← sb_sync_to_disk_with_csum (sb_set_free_blocks_count (wsub (sb_free_blocks_count s) 1) s);
  let inode_blocks := wadd (ext4_inode_get_blocks_count (inode r)) 8 in
  r ← write_back_inode fs (r <| inode ::= ext4_inode_set_blocks_count (as_u32 inode_blocks) |>);
  let fb_cnt := wsub (get_free_blocks_count bg) 1 in
  bg_sync_to_disk_with_csum bgid s (set_free_blocks_count (as_u32 fb_cnt) bg);;
  mret (rel_blk_idx, r).

(** One turn of [balloc_free_blocks]: the state is the counter of groups, [start], [count], the
    super block of the outer scope and the inode. *)
Definition free_blocks_turn (fs : Ext4) (bgid bg_last : Z) : Z * Z * Z * Ext4Superblock * Ext4InodeRef →
    M D ((Z * Z * Z * Ext4Superblock * Ext4InodeRef) + Ext4InodeRef) := λ '(bg_first, start, count, s, r),
  if bg_last <? bg_first then mret (inr r)
  else
    idx_in_bg ← lift (modO start (fget (sb_at SB_blocks_per_group) s));
    bg ← Ext4BlockGroup_load s bg_first;
    let block_bitmap_block := get_block_bitmap_block bg s in
    data ← block_at block_bitmap_block;
    let free_cnt := wsub (BLOCK_SIZE * 8) idx_in_bg in
    let free_cnt := if free_cnt <? count then free_cnt else count in
    data ← lift (ext4_bmap_bits_free data (as_u32 idx_in_bg) (as_u32 free_cnt));
    let count := wsub count free_cnt in
    let start := wadd start free_cnt in
    bg ← lift (set_block_group_balloc_bitmap_csum s data bg);
    write_offset (wmul block_bitmap_block BLOCK_SIZE) data;;
    s ← sb_sync_to_disk_with_csum (sb_set_free_blocks_count (wadd (sb_free_blocks_count s) free_cnt) s);
    s' ← load_super_block;
    let inode_blocks := wsub (ext4_inode_get_blocks_count (inode r)) (wmul free_cnt (BLOCK_SIZE / EXT4_INODE_BLOCK_SIZE)) in
    r ← write_back_inode fs (r <| inode ::= ext4_inode_set_blocks_count (as_u32 inode_blocks) |>);
    let fb_cnt := wadd (get_free_blocks_count bg) free_cnt in
    bg_sync_to_disk_with_csum bgid s' (set_free_blocks_count (as_u32 fb_cnt) bg);;
    mret (inl (wadd bg_first 1, start, count, s, r)).

Definition balloc_free_blocks (fs : Ext4) (r : Ext4InodeRef) (start count : Z) : M D Ext4InodeRef :=
  s ← load_super_block;
  let blocks_per_group := fget (sb_at SB_blocks_per_group) s in
  bgid ← lift (divO start blocks_per_group);
  bg_last ← lift (divO (wsub (wadd start count) 1) blocks_per_group);
  loopM (S (Z.to_nat (bg_last - bgid + 1))) (free_blocks_turn fs bgid bg_last) (bgid, start, count, s, r).

(** ** Extents, by value *)

(** [ExtentTreeNode::find_extent].  The fuel is enough for a tree in which every node is less deep
    than its parent. *)
Fixpoint node_find_extent (fuel : nat) (node : ExtentTreeNode) (block_id : Z) (path : list Ext4ExtentPathNew)
    : M D (list Ext4ExtentPathNew) :=
  match fuel with
  | O => noFuel
  | S fuel =>
      let depth := eh_depth (tn_header node) in
      if depth =? 0 then
        match list_find (λ e, ee_first_block e ≤ block_id < add32 (ee_first_block e) (ee_block_count e)) (tn_extents node) with
        | Some (_, e) =>
            mret (path ++ [{| pn_depth := depth; pn_first_block := ee_first_block e; pn_block_count := ee_block_count e;
                              pn_start_hi := ee_start_hi e; pn_start_lo := ee_start_lo e;
                              pn_p_block := Some (extent_pblock e) |}])
        | None => mret path
        end
      else
        match list_find (λ i, ei_first_block i ≤ block_id) (tn_indexes node) with
        | Some (_, i) =>
            node_data ← block_at (ei_leaf_lo i);
            child_node ← lift (load_node node_data);
            node_find_extent fuel child_node block_id
              (path ++ [{| pn_depth := depth; pn_first_block := ei_first_block i;
                           pn_block_count := as_u16 (ei_leaf_lo i); pn_start_hi := ei_padding i;
                           pn_start_lo := ei_leaf_hi i; pn_p_block := Some (index_pblock i) |}])
        | None => mret path
        end
  end.

Definition find_extent_new (r : Ext4InodeRef) (block_id : Z) : M D (list Ext4ExtentPathNew) :=
  root_tree ← lift (load_from_header (in_block (inode r)));
  node_find_extent (S (Z.to_nat (eh_depth (tn_header root_tree)))) root_tree block_id [].

(** The new extent that [get_blocks] and [get_blocks_new] describe for an allocated block *)
Definition new_extent (iblock alloc_block max_blocks : Z) : Ext4Extent :=
  let allocated := sub32 EXT_MAX_BLOCKS iblock in
  let allocated := if max_blocks <? allocated then max_blocks else allocated in
  {| ee_first_block := iblock; ee_block_count := as_u16 allocated; ee_start_hi := start_hi_of alloc_block;
     ee_start_lo := Z.land (as_u32 alloc_block) 0xffffffff |}.

(** The results are [*result], [*blocks_count] and the inode; the extent of a created block is
    computed but not inserted. *)
Definition get_blocks_new (fs : Ext4) (r : Ext4InodeRef) (iblock max_blocks : Z) (create : bool)
    : M D (Z * Z * Ext4InodeRef) :=
  path ← find_extent_new r iblock;
  p ← unwrap (last path);
  let blocks_count :=
    match pn_p_block p with
    | Some _ => if (pn_first_block p <=? iblock) && (iblock <? add32 (pn_first_block p) (pn_block_count p))
                then sub32 (pn_block_count p) (sub32 iblock (pn_first_block p)) else 0
    | None => 0
    end in
  match pn_p_block p with
  | Some pblock =>
      let ex := {| ee_first_block := pn_first_block p; ee_block_count := as_u16 (pn_block_count p);
                   ee_start_hi := pn_start_hi p; ee_start_lo := pn_start_lo p |} in
      if negb create || is_unwritten ex
      then mret (add32 (sub32 iblock (pn_first_block p)) (as_u32 pblock), blocks_count, r)
      else '(alloc_block, r) ← balloc_alloc_block fs r 0; mret (alloc_block, blocks_count, r)
  | None =>
      if create then '(alloc_block, r) ← balloc_alloc_block fs r 0; mret (alloc_block, blocks_count, r)
      else mret (0, blocks_count, r)
  end.

(** [get_inode_dblk_idx] and [get_pblock] *)
Definition get_pblock (fs : Ext4) (r : Ext4InodeRef) (iblock : Z) : M D Z :=
  '(fblock, _, _) ← get_blocks_new fs r iblock 1 false;
  mret fblock.

(** ** Extents, through pointers into the inode *)

Definition entry_at (block : list Z) (k : nat) : outcome (list Z) := read_struct 12 (drop (12 + 12 * k) block).
Definition extent_at (block : list Z) (k : nat) : outcome Ext4Extent := b ← entry_at block k; Ok (ee_decode b).
Definition put_extent (block : list Z) (k : nat) (e : Ext4Extent) : outcome (list Z) :=
  write_struct (ee_bytes e) block (12 + 12 * k).

(** The loop of [binsearch_extentidx]: a pointer of [left.add(bytes / 2)] moves by entries. *)
Fixpoint binsearch_loop (fuel : nat) (block : list Z) (left right block_id : Z) : outcome (option nat) :=
  if right <? left then Ok None
  else match fuel with
  | O => NoFuel
  | S fuel =>
      let mid := left + 12 * (right - left) / 2 in
      b ← entry_at block (Z.to_nat mid);
      let first_block := ei_first_block (ei_decode b) in
      if block_id <? first_block then binsearch_loop fuel block left (mid - 1) block_id
      else if block_id <? add32 first_block 12 then binsearch_loop fuel block (mid + 1) right block_id
      else Ok (Some (Z.to_nat mid))
  end.
Definition binsearch_extentidx (block : list Z) (block_id : Z) (p : Ext4ExtentPath) : outcome Ext4ExtentPath :=
  if negb (ep_header p) then Panic Undefined
  else
    let n := eh_entries_count (eh_decode block) in
    if n =? 0 then Ok p
    else
      k ← binsearch_loop 4 block 1 (n - 1) block_id;
      Ok (match k with Some k => p <| ep_index := Some k |> | None => p end).

Fixpoint search_entries (block : list Z) (block_id : Z) (ks : list nat) : outcome (option nat) :=
  match ks with
  | [] => Ok None
  | k :: ks =>
      e ← extent_at block k;
      if (ee_first_block e <=? block_id) && (block_id <=? add32 (ee_first_block e) (ee_block_count e))
      then Ok (Some k) else search_entries block block_id ks
  end.
Definition search_extent (block : list Z) (block_id : Z) (p : Ext4ExtentPath) : outcome Ext4ExtentPath :=
  if negb (ep_header p) then Ok p
  else
    k ← search_entries block block_id (seq 0 (Z.to_nat (eh_entries_count (eh_decode block))));
    Ok (match k with Some k => p <| ep_extent := Some k |> | None => p end).

(** The loop over the levels above the leaf; [i] is the level. *)
Fixpoint find_extent_levels (i : nat) (ppos : nat) (block : list Z) (block_id : Z) (path : list Ext4ExtentPath)
    : outcome (nat * list Ext4ExtentPath) :=
  match i with
  | O => Ok (ppos, path)
  | S i' =>
      p ← (match path !! ppos with Some p => Ok p | None => Panic Bounds end);
      p ← binsearch_extentidx block block_id p;
      match ep_index p with
      | None => Panic Undefined
      | Some k =>
          b ← entry_at block k;
          let p := p <| ep_p_block := index_pblock (ei_decode b) |> <| ep_depth := Z.of_nat i |> <| ep_extent := None |> in
          find_extent_levels i' (S ppos) block block_id (<[ppos := p]> path)
      end
  end.

(** The path starts empty; its first element points to the header in the inode. *)
Definition find_extent (r : Ext4InodeRef) (block_id : Z) : outcome (list Ext4ExtentPath) :=
  let block := in_block (inode r) in
  let depth := extent_depth (inode r) in
  let path_depth := add16 depth 1 in
  let path := replicate (Z.to_nat path_depth + 1) Ext4ExtentPath_default in
  let path := alter (λ p, p <| ep_maxdepth := path_depth |> <| ep_header := true |>) 0%nat path in
  '(ppos, path) ← find_extent_levels (Z.to_nat depth) 0 block block_id path;
  p ← (match path !! ppos with Some p => Ok p | None => Panic Bounds end);
  p ← search_extent block block_id (p <| ep_depth := 0 |> <| ep_extent := None |> <| ep_index := None |>);
  p ← (match ep_extent p with
       | Some k => e ← extent_at block k; Ok (p <| ep_p_block := extent_pblock e |>)
       | None => Ok p
       end);
  Ok (<[ppos := p]> path).

(** [insert_leaf] on the array [block]; the result says whether it returned [EOK]. *)
Definition insert_leaf (block : list Z) (ex : option nat) (newext : Ext4Extent) : outcome (Z * list Z) :=
  merged ← (match ex with
    | Some k =>
        current_ext ← extent_at block k;
        if can_append current_ext newext then
          let e := if is_unwritten current_ext then mark_unwritten current_ext else current_ext in
          Ok (Some (k, e <| ee_block_count := add16 (ee_block_count e) (get_actual_len newext) |>))
        else if can_prepend current_ext newext then
          let e := current_ext <| ee_first_block := ee_first_block newext |>
                               <| ee_block_count := add16 (ee_block_count current_ext) (get_actual_len newext) |> in
          Ok (Some (k, if is_unwritten e then mark_unwritten e else e))
        else Ok None
    | None => Ok None
    end);
  match merged with
  | Some (k, e) => block ← put_extent block k e; Ok (EOK, block)
  | None =>
      let eh := eh_decode block in
      if eh_entries_count eh =? eh_max_entries_count eh then Ok (EIO, block)
      else
        block ← put_extent block (match ex with Some k => S k | None => 0%nat end) newext;
        block ← write_struct (eh_bytes (eh <| eh_entries_count := add16 (eh_entries_count eh) 1 |>)) block 0;
        Ok (EOK, block)
  end.

Definition insert_extent (fs : Ext4) (r : Ext4InodeRef) (path : Ext4ExtentPath) (newext : Ext4Extent) : M D Ext4InodeRef :=
  r ← (if ep_header path then
         '(_, block) ← lift (insert_leaf (in_block (inode r)) (ep_extent path) newext);
         mret (r <| inode ::= set_in_block block |>)
       else mret r);
  write_back_inode_without_csum fs r;;
  mret r.

(** The results are [*result] and the inode. *)
Definition get_blocks (fs : Ext4) (r : Ext4InodeRef) (iblock max_blocks : Z) (create : bool) : M D (Z * Ext4InodeRef) :=
  path ← lift (find_extent r iblock);
  found ← lift (match path !! Z.to_nat (extent_depth (inode r)) with
    | Some p =>
        match ep_extent p with
        | Some k =>
            ex ← extent_at (in_block (inode r)) k;
            Ok (if (ee_first_block ex <=? iblock) && (iblock <? add32 (ee_first_block ex) (get_actual_len ex))
                   && (negb create || is_unwritten ex)
                then Some (add32 (sub32 iblock (ee_first_block ex)) (extent_pblock ex)) else None)
        | None => Ok None
        end
    | None => Ok None
    end);
  match found with
  | Some result => mret (result, r)
  | None =>
      if create then
        '(alloc_block, r) ← balloc_alloc_block fs r 0;
        p ← unwrap (path !! 0%nat);
        r ← insert_extent fs r p (new_extent iblock alloc_block max_blocks);
        mret (alloc_block, r)
      else mret (0, r)
  end.

(** The block number that the caller passes is replaced. *)
Definition append_inode_dblk (fs : Ext4) (r : Ext4InodeRef) : M D (Z * Ext4InodeRef) :=
  let inode_size := inode_get_size (inode r) in
  let iblock := as_u32 (wsub (wadd inode_size BLOCK_SIZE) 1 / BLOCK_SIZE) in
  '(fblock, r) ← get_blocks fs r iblock 1 true;
  r ← write_back_inode fs (r <| inode ::= ext4_inode_set_size (wadd inode_size BLOCK_SIZE) |>);
  mret (fblock, r).

(** ** Creating inodes *)

Definition ext4_fs_alloc_inode (fs : Ext4) (filetype : Z) (r : Ext4InodeRef) : M D Ext4InodeRef :=
  let is_dir := filetype =? EXT4_DE_DIR in
  index ← ext4_ialloc_alloc_inode fs is_dir;
  (* [0o777] and [0o666] *)
  mode ← lift (if is_dir then Ok (Z.lor 511 EXT4_INODE_MODE_DIRECTORY)
               else if filetype =? 0x7 then Ok (Z.lor 511 EXT4_INODE_MODE_SOFTLINK)
               else t ← ext4_fs_correspond_inode_mode filetype; Ok (Z.lor 438 (as_u16 t)));
  let i := ext4_inode_set_mode mode (inode r) in
  let i := in_put IN_gid 0 (in_put IN_uid 0 (in_put IN_links_count 0 i)) in
  let i := ext4_inode_set_size 0 i in
  let i := in_put IN_dtime 0 (in_put IN_mtime 0 (in_put IN_ctime 0 (in_put IN_atime 0 i))) in
  let i := in_put IN_generation 0 (ext4_inode_set_flags 0 i) in
  let i := if EXT4_GOOD_OLD_INODE_SIZE <? fget (sb_at SB_inode_size) (super_block fs)
           then in_put IN_i_extra_isize (fget (sb_at SB_want_extra_isize) (super_block fs)) i else i in
  mret {| inode_num := default 0 index; inode := i |}.

(** [InodeMode::from_bits] accepts every combination of the upper four bits. *)
Definition ext4_fs_inode_blocks_init (r : Ext4InodeRef) : Ext4InodeRef :=
  let inode_type := Z.land (in_get IN_mode (inode r)) EXT4_INODE_MODE_TYPE_MASK in
  if (inode_type =? EXT4_INODE_MODE_DIRECTORY) || (inode_type =? EXT4_INODE_MODE_FILE)
  then r <| inode ::= λ i, ext4_extent_tree_init (ext4_inode_set_flags EXT4_INODE_FLAG_EXTENTS i) |>
  else r.

(** ** Directories: one block *)

Definition entry_in_block (data : list Z) (offset : nat) : outcome Ext4DirEntry :=
  rest ← slice_from offset data; Ext4DirEntry_try_from rest.

(** [dir_find_in_block]: an unused entry is read again and again. *)
Fixpoint find_in_block_loop (fuel : nat) (data name : list Z) (name_len : Z) (last_de_offset offset : nat)
    : outcome (option (Ext4DirEntry * nat * nat)) :=
  if negb (offset <? length data - Ext4DirEntryTail_size)%nat then Ok None
  else match fuel with
  | O => NoFuel
  | S fuel =>
      de ← entry_in_block data offset;
      if de_inode de =? 0 then find_in_block_loop fuel data name name_len last_de_offset offset
      else
        s ← get_name (de_name de) (Z.to_nat (de_name_len de));
        if bool_decide (s = Some name) && (name_len =? de_name_len de) then Ok (Some (de, offset, last_de_offset))
        else find_in_block_loop fuel data name name_len offset (offset + Z.to_nat (de_entry_len de))
  end.
Definition dir_find_in_block (data name : list Z) (name_len : Z) : outcome (option (Ext4DirEntry * nat * nat)) :=
  find_in_block_loop (length data) data name name_len 0 0.

Fixpoint find_in_block_new_loop (fuel : nat) (data name : list Z) (offset : nat) : outcome (option Ext4DirEntry) :=
  if negb (offset <? 4096 - Ext4DirEntryTail_size)%nat then Ok None
  else match fuel with
  | O => NoFuel
  | S fuel =>
      de ← entry_in_block data offset;
      hit ← (if unused de then Ok false else compare_name de name);
      if (hit : bool) then Ok (Some de)
      else find_in_block_new_loop fuel data name (offset + Z.to_nat (de_entry_len de))
  end.
Definition dir_find_in_block_new (data name : list Z) : outcome (option Ext4DirEntry) :=
  find_in_block_new_loop 4096 data name 0.

(** The type of an unknown mode is left as it is. *)
Definition dir_write_entry (en : Ext4DirEntry) (entry_len : Z) (child : Ext4InodeRef) (name : list Z) (name_len : Z)
    : outcome Ext4DirEntry :=
  let file_type := Z.land (in_get IN_mode (inode child)) EXT4_INODE_MODE_TYPE_MASK in
  let inode_type :=
    if file_type =? EXT4_INODE_MODE_FILE then EXT4_DE_REG_FILE
    else if file_type =? EXT4_INODE_MODE_DIRECTORY then EXT4_DE_DIR
    else if file_type =? EXT4_INODE_MODE_CHARDEV then EXT4_DE_CHRDEV
    else if file_type =? EXT4_INODE_MODE_BLOCKDEV then EXT4_DE_BLKDEV
    else if file_type =? EXT4_INODE_MODE_FIFO then EXT4_DE_FIFO
    else if file_type =? EXT4_INODE_MODE_SOCKET then EXT4_DE_SOCK
    else if file_type =? EXT4_INODE_MODE_SOFTLINK then EXT4_DE_SYMLINK
    else de_inode_type en in
  if (Z.of_nat (length name) <? name_len) || (255 <? name_len) then Panic Undefined
  else Ok {| de_inode := inode_num child; de_entry_len := entry_len; de_name_len := as_u8 name_len;
             de_inode_type := inode_type; de_name := splice (de_name en) 0 (take (Z.to_nat name_len) name);
             de_pad := de_pad en |}.

(** The block with the checksum of its tail renewed *)
Definition inode_ext4_dir_set_csum (fs : Ext4) (r : Ext4InodeRef) (data : list Z) : outcome (list Z) :=
  parent_de ← Ext4DirEntry_try_from data;
  t ← Ext4DirEntryTail_from data 4096;
  tail ← unwrapO t;
  tail ← tail_ext4_dir_set_csum (super_block fs) parent_de data (in_get IN_generation (inode r)) tail;
  tail_copy_to_slice tail data.

(** The search of [dir_try_insert_entry] for an entry with enough space behind its name: the block
    with the entry split ([None] for [ENOSPC]). *)
Definition round4 (n k : nat) : nat := if (k mod 4 =? 0)%nat then n else (n + (4 - k mod 4))%nat.
Fixpoint insert_entry_loop (fuel : nat) (data : list Z) (child : Ext4InodeRef) (name : list Z) (name_len : Z)
    (required_len offset : nat) : outcome (option (list Z)) :=
  if negb (offset <? length data)%nat then Ok None
  else match fuel with
  | O => NoFuel
  | S fuel =>
      de ← entry_in_block data offset;
      if de_inode de =? 0 then insert_entry_loop fuel data child name name_len required_len offset
      else
        let used_len := Z.to_nat (de_name_len de) in
        let sz := round4 (Ext4FakeDirEntry_size + used_len) used_len in
        let free_space := wsub (de_entry_len de) (Z.of_nat sz) in
        if Z.of_nat required_len <=? free_space then
          new_entry ← dir_write_entry Ext4DirEntry_default (as_u16 free_space) child name name_len;
          data ← Ext4DirEntry_copy_to_slice (de <| de_entry_len := as_u16 (Z.of_nat sz) |>) data offset;
          data ← Ext4DirEntry_copy_to_slice new_entry data (offset + sz);
          Ok (Some data)
        else insert_entry_loop fuel data child name name_len required_len (offset + Z.to_nat (de_entry_len de))
  end.
Definition required_len_of (name_len : Z) : nat :=
  round4 (Ext4DirEntry_size + Z.to_nat name_len) (Ext4DirEntry_size + Z.to_nat name_len).

Definition dir_try_insert_entry (fs : Ext4) (parent : Ext4InodeRef) (disk_block_id : Z) (data : list Z)
    (child : Ext4InodeRef) (name : list Z) (name_len : Z) : M D bool :=
  split ← lift (insert_entry_loop (length data) data child name name_len (required_len_of name_len) 0);
  match split with
  | Some data =>
      data ← lift (inode_ext4_dir_set_csum fs parent data);
      write_offset (wmul disk_block_id BLOCK_SIZE) data;;
      mret true
  | None => mret false
  end.

(** ** Directories: whole inodes *)

(** A turn of the loop [while iblock < total_blocks] *)
Definition find_entry_turn (fs : Ext4) (parent : Ext4InodeRef) (name : list Z) (name_len total_blocks : Z)
    : Z * Ext4DirSearchResult → M D (Z * Ext4DirSearchResult + (bool * Ext4DirSearchResult)) := λ '(iblock, result),
  if negb (iblock <? total_blocks) then mret (inr (false, result))
  else
    fblock ← get_pblock fs parent iblock;
    data ← block_at fblock;
    r ← lift (dir_find_in_block data name name_len);
    match r with
    | Some (de, offset, last_offset) =>
        mret (inr (true, {| sr_dentry := de; sr_offset := offset; sr_last_offset := last_offset; sr_block_id := fblock |}))
    | None => mret (inl (iblock + 1, result <| sr_block_id := fblock |>))
    end.

(** [ext4_dir_find_entry] and [dir_find_entry_new]; the search result is an argument that is updated. *)
Definition ext4_dir_find_entry (fs : Ext4) (parent : Ext4InodeRef) (name : list Z) (name_len : Z)
    (result : Ext4DirSearchResult) : M D (bool * Ext4DirSearchResult) :=
  let total_blocks := in_get IN_size (inode parent) / BLOCK_SIZE in
  loopM (S (Z.to_nat total_blocks)) (find_entry_turn fs parent name name_len total_blocks) (0, result).

Definition ext4_dir_find_entry_new (fs : Ext4) (parent : Ext4InodeRef) (name : list Z) : M D (Result Ext4DirEntry) :=
  let total_blocks := in_get IN_size (inode parent) / BLOCK_SIZE in
  loopM (S (Z.to_nat total_blocks)) (λ iblock,
    if negb (iblock <? total_blocks) then mret (inr (inr Err_ENOENT))
    else
      fblock ← get_pblock fs parent iblock;
      data ← block_at fblock;
      r ← lift (dir_find_in_block_new data name);
      match r with Some de => mret (inr (inl de)) | None => mret (inl (iblock + 1)) end) 0.

(** The loop of [ext4_dir_add_entry] over the blocks the directory has; [true] when it returned. *)
Definition add_entry_turn (fs : Ext4) (parent child : Ext4InodeRef) (path : list Z) (len total_blocks iblock : Z)
    : M D (Z + bool) :=
  if negb (iblock <? total_blocks) then mret (inr false)
  else
    fblock ← get_pblock fs parent iblock;
    data ← block_at fblock;
    r ← dir_try_insert_entry fs parent fblock data child path len;
    if (r : bool) then mret (inr true)
    else
      r ← lift (dir_find_in_block data path len);
      match r with Some _ => mret (inr true) | None => mret (inl (iblock + 1)) end.

(** The block of a directory that has one entry *)
Definition new_dir_block (fs : Ext4) (parent child : Ext4InodeRef) (path : list Z) (len : Z) (data : list Z)
    : outcome (list Z) :=
  new_entry ← dir_write_entry Ext4DirEntry_default (as_u16 (BLOCK_SIZE - Z.of_nat Ext4DirEntryTail_size)) child path len;
  data ← Ext4DirEntry_copy_to_slice new_entry data 0;
  data ← tail_copy_to_slice Ext4DirEntryTail_new data;
  inode_ext4_dir_set_csum fs parent data.

Definition ext4_dir_add_entry (fs : Ext4) (parent child : Ext4InodeRef) (path : list Z) (len : Z) : M D Ext4InodeRef :=
  let inode_size := inode_get_size (inode parent) in
  total_blocks ← lift (divO (as_u32 inode_size) (sb_block_size (super_block fs)));
  done ← loopM (S (Z.to_nat total_blocks)) (add_entry_turn fs parent child path len total_blocks) 0;
  if (done : bool) then mret parent
  else
    '(fblock, parent) ← append_inode_dblk fs parent;
    data ← block_at fblock;
    data ← lift (new_dir_block fs parent child path len data);
    write_offset (wmul fblock BLOCK_SIZE) data;;
    mret parent.

(** The results are the parent and the child. *)
Definition ext4_link (fs : Ext4) (parent child : Ext4InodeRef) (name : list Z) (name_len : Z)
    : M D (Ext4InodeRef * Ext4InodeRef) :=
  parent ← ext4_dir_add_entry fs parent child name name_len;
  if Z.land (in_get IN_mode (inode child)) EXT4_INODE_MODE_TYPE_MASK =? EXT4_INODE_MODE_DIRECTORY then
    child_inode_ref ← ext4_dir_add_entry fs child child [46] 1;
    let child := child <| inode ::= λ i, set_in_block (in_block (inode child_inode_ref))
                            (in_put IN_size (in_get IN_size (inode child_inode_ref)) i) |> in
    _ ← ext4_dir_add_entry fs child_inode_ref parent [46; 46] 2;
    mret (parent <| inode ::= λ i, in_put IN_links_count (add16 (in_get IN_links_count i) 1) i |>,
          child <| inode ::= in_put IN_links_count 2 |>)
  else mret (parent, child <| inode ::= λ i, in_put IN_links_count (add16 (in_get IN_links_count i) 1) i |>).

(** The block without the entry at [offset]: the entry at [last_offset] takes over its space. *)
Definition remove_from_block (data : list Z) (last_offset offset : nat) : outcome (list Z) :=
  pde ← entry_in_block data last_offset;
  de_del ← entry_in_block data offset;
  let pde := pde <| de_entry_len := add16 (de_entry_len pde) (de_entry_len de_del) |> in
  if (last_offset + Ext4DirEntry_size <=? length data)%nat then Ok (splice data last_offset (de_bytes pde)) else Panic Bounds.

(** The result of the search is not looked at. *)
Definition ext4_dir_remove_entry_new (fs : Ext4) (parent : Ext4InodeRef) (path : list Z) (len : Z) : M D unit :=
  name ← lift (slice_to (Z.to_nat len) path);
  '(_, result) ← ext4_dir_find_entry fs parent name len Ext4DirSearchResult_new;
  data ← block_at (sr_block_id result);
  data ← lift (remove_from_block data (sr_last_offset result) (sr_offset result));
  data ← lift (inode_ext4_dir_set_csum fs parent data);
  write_offset (wmul (sr_block_id result) BLOCK_SIZE) data.

Definition ext4_unlink (fs : Ext4) (parent child : Ext4InodeRef) (name : list Z) (name_len : Z) : M D unit :=
  ext4_dir_remove_entry_new fs parent name name_len;;
  ext4_ialloc_free_inode fs (inode_num child) false.

(** ** Truncation *)

Definition ext_remove_blocks (fs : Ext4) (r : Ext4InodeRef) (ex : Ext4Extent) (from to : Z) : M D Ext4InodeRef :=
  let len := add32 (sub32 to from) 1 in
  let num := sub32 from (ee_first_block ex) in
  balloc_free_blocks fs r (add32 (extent_pblock ex) num) len.

(** The extent at word [idx] of the array [block] *)
Definition extent_at_word (block : list Z) (idx : nat) : outcome Ext4Extent :=
  rest ← slice_from (4 * idx) block; Ext4Extent_try_from rest.

(** The loop of [ext_remove_leaf]: the extents it computes stay in a local variable, only their blocks
    are freed.  The results are the inode, [new_entry_count] and whether [ex2] was set to an extent
    whose first block is not [0]. *)
Fixpoint remove_leaf_loop (fs : Ext4) (from to : Z) (ks : list nat) (r : Ext4InodeRef) (new_entry_count : Z) (ex2 : bool)
    : M D (Ext4InodeRef * Z * bool) :=
  match ks with
  | [] => mret (r, new_entry_count, ex2)
  | k :: ks =>
      ex ← lift (extent_at_word (in_block (inode r)) (3 + k * 3));
      if to <? ee_first_block ex then mret (r, new_entry_count, ex2)
      else
        let start := ee_first_block ex in
        let len := get_actual_len ex in
        let end_ := sub32 (add32 start len) 1 in
        let '(start, len, new_len, ex2) :=
          if start <? from then (from, sub16 len (sub16 (as_u16 from) (as_u16 start)), sub32 from start, ex2)
          else if to <? end_ then (start, sub16 len (as_u16 (sub32 end_ to)), sub32 end_ to, negb (start =? 0))
          else (start, len, 0, ex2) in
        r ← ext_remove_blocks fs r ex start (sub32 (add32 start len) 1);
        remove_leaf_loop fs from to ks r (if new_len =? 0 then sub16 new_entry_count 1 else new_entry_count) ex2
  end.

(** At depth [0].  The extents that remain are copied onto themselves, and the header is only
    written when none remains. *)
Definition ext_remove_leaf (fs : Ext4) (r : Ext4InodeRef) (from to : Z) : M D Ext4InodeRef :=
  let entry_count := eh_entries_count (extent_header (inode r)) in
  '(r, new_entry_count, ex2) ← remove_leaf_loop fs from to (seq 0 (Z.to_nat entry_count)) r entry_count false;
  (if ex2 && (15 <? 3 + entry_count * 3) then panic Bounds else mret ());;
  if new_entry_count =? 0
  then mret (r <| inode ::= λ i, set_in_block (eh_bytes ((extent_header i) <| eh_entries_count := 0 |>)) i |>)
  else mret r.

Definition extent_remove_space (fs : Ext4) (r : Ext4InodeRef) (from to : Z) : M D Ext4InodeRef :=
  let depth := Z.to_nat (extent_depth (inode r)) in
  path ← lift (find_extent r from);
  p ← (match path !! depth with Some p => mret p | None => panic Bounds end);
  k ← (match ep_extent p with Some k => mret k | None => panic Undefined end);
  extent ← lift (extent_at (in_block (inode r)) k);
  if negb ((from <=? ee_first_block extent) && (ee_first_block extent <=? to)) then mret r
  else
    let end_ := sub32 (add32 (ee_first_block extent) (ee_block_count extent)) 1 in
    r ← (if (ee_first_block extent <? from) && (to <? end_) then
           let newblock := add32 (sub32 (add32 to 1) (ee_first_block extent)) (extent_pblock extent) in
           p0 ← unwrap (path !! 0%nat);
           insert_extent fs r p0 {| ee_first_block := add32 to 1; ee_block_count := as_u16 (sub32 end_ to);
                                    ee_start_hi := start_hi_of newblock; ee_start_lo := Z.land newblock 0xffffffff |}
         else mret r);
    r ← (if (depth =? 0)%nat then
           let block := in_block (inode r) in
           first_ex ← lift (extent_at_word block 3);
           last_ex ← lift (extent_at_word block (Z.to_nat (eh_entries_count (extent_header (inode r))) * 3));
           let leaf_to := sub32 (add32 (ee_first_block last_ex) (get_actual_len last_ex)) 1 in
           ext_remove_leaf fs r (Z.max (ee_first_block first_ex) from) (Z.min leaf_to to)
         else mret r);
    if eh_entries_count (extent_header (inode r)) =? 0
    then write_back_inode fs (r <| inode ::= λ i, set_in_block (take 12 (in_block i) ++ replicate 48 0) i |>)
    else mret r.

Definition truncate_inode (fs : Ext4) (r : Ext4InodeRef) (new_size : Z) : M D Ext4InodeRef :=
  let old_size := inode_get_size (inode r) in
  if old_size =? new_size then mret r
  else
    let new_blocks_cnt := as_u32 (wsub (wadd new_size BLOCK_SIZE) 1 / BLOCK_SIZE) in
    let old_blocks_cnt := as_u32 (wsub (wadd old_size BLOCK_SIZE) 1 / BLOCK_SIZE) in
    r ← (if 0 <? sub32 old_blocks_cnt new_blocks_cnt
         then extent_remove_space fs r new_blocks_cnt EXT_MAX_BLOCKS else mret r);
    write_back_inode fs (r <| inode ::= ext4_inode_set_size new_size |>).

(** It reports [ENOTSUP] whatever it does. *)
Definition ext4_trunc_inode (fs : Ext4) (r : Ext4InodeRef) (new_size : Z) : M D (Result Z * Ext4InodeRef) :=
  r ← (if new_size <? inode_get_size (inode r) then truncate_inode fs r new_size else mret r);
  mret (inr Err_ENOTSUP, r).

(** ** Reading directories *)

(** The entries of a block that are in use: unlike the searches, this loop advances first. *)
Fixpoint block_entries (fuel : nat) (data : list Z) (offset : nat) : outcome (list Ext4DirEntry) :=
  if negb (offset <? length data)%nat then Ok []
  else match fuel with
  | O => NoFuel
  | S fuel =>
      de ← entry_in_block data offset;
      rest ← block_entries fuel data (offset + Z.to_nat (de_entry_len de));
      Ok (if de_inode de =? 0 then rest else de :: rest)
  end.

Definition read_dir_entry (fs : Ext4) (inode_num : Z) : M D (list Ext4DirEntry) :=
  r ← get_inode_ref fs inode_num;
  total_blocks ← lift (divO (as_u32 (inode_get_size (inode r))) (sb_block_size (super_block fs)));
  foldM (λ entries iblock,
    fblock ← get_pblock fs r iblock;
    data ← block_at fblock;
    es ← lift (block_entries (length data) data 0);
    mret (entries ++ es)) [] (seqZ 0 total_blocks).

(** [inode_has_entry] on one block: is there an entry other than [.] and [..]? *)
Fixpoint block_has_entry (fuel : nat) (data : list Z) (offset : nat) : outcome bool :=
  if negb (offset <? length data)%nat then Ok false
  else match fuel with
  | O => NoFuel
  | S fuel =>
      de ← entry_in_block data offset;
      let offset := (offset + Z.to_nat (de_entry_len de))%nat in
      if de_inode de =? 0 then block_has_entry fuel data offset
      else
        name ← Ext4DirEntry_get_name de;
        if bool_decide (name = [46]) || bool_decide (name = [46; 46]) then block_has_entry fuel data offset
        else Ok true
  end.
Definition has_entry_turn (r : Ext4InodeRef) (total_blocks : Z) : Z * Z → M D (Z * Z + bool) := λ '(iblock, fblock),
  if negb (iblock <? total_blocks) then mret (inr false)
  else
    path ← find_extent_new r iblock;
    match last path with
    | None => mret (inr false)
    | Some p =>
        let fblock := match pn_p_block p with
                      | Some pblock => add32 (sub32 iblock (pn_first_block p)) (as_u32 pblock)
                      | None => fblock end in
        data ← block_at fblock;
        h ← lift (block_has_entry (length data) data 0);
        if (h : bool) then mret (inr true) else mret (inl (iblock + 1, fblock))
    end.
Definition has_children (fs : Ext4) (r : Ext4InodeRef) : M D bool :=
  if negb (ext4_inode_type (super_block fs) (inode r) =? EXT4_INODE_MODE_DIRECTORY) then mret false
  else
    total_blocks ← lift (divO (as_u32 (inode_get_size (inode r))) (sb_block_size (super_block fs)));
    loopM (S (Z.to_nat total_blocks)) (has_entry_turn r total_blocks) (0, 0).

(** ** Opening by path *)

Definition O_RDONLY : Z := 0.
Definition O_WRONLY : Z := 1.
Definition O_RDWR : Z := 2.
Definition O_CREAT : Z := 64.
Definition O_TRUNC : Z := 512.
Definition O_APPEND : Z := 1024.

(** The strings that [ext4_parse_flags] knows, as bytes *)
Definition ext4_parse_flags (flags : list Z) : Result Z :=
  let eq l := bool_decide (flags = l) in
  if eq [114] || eq [114; 98] then inl O_RDONLY
  else if eq [119] || eq [119; 98] then inl (Z.lor O_WRONLY (Z.lor O_CREAT O_TRUNC))
  else if eq [97] || eq [97; 98] then inl (Z.lor O_WRONLY (Z.lor O_CREAT O_APPEND))
  else if eq [114; 43] || eq [114; 98; 43] || eq [114; 43; 98] then inl O_RDWR
  else if eq [119; 43] || eq [119; 98; 43] || eq [119; 43; 98] then inl (Z.lor O_RDWR (Z.lor O_CREAT O_TRUNC))
  else if eq [97; 43] || eq [97; 98; 43] || eq [97; 43; 98] then inl (Z.lor O_RDWR (Z.lor O_CREAT O_APPEND))
  else inr Err_EINVAL.
Definition unwrap_result {A} (r : Result A) : M D A := match r with inl a => mret a | inr _ => panic Unwrap end.

(** [&path[..len]] and [&path[len..]] panic inside of a character. *)
Definition char_boundary (path : list Z) (len : nat) : bool :=
  (len <=? length path)%nat && negb (match path !! len with Some c => utf8_cont c | None => false end).
Definition str_to (path : list Z) (len : nat) : outcome (list Z) :=
  if char_boundary path len then Ok (take len path) else Panic Bounds.
Definition str_from (path : list Z) (len : nat) : outcome (list Z) :=
  if char_boundary path len then Ok (drop len path) else Panic Bounds.

(** Allocate an inode and link it; the results are the parent and the child, both written back. *)
Definition create_entry (fs : Ext4) (parent : Ext4InodeRef) (name : list Z) (ftype : Z) : M D (Ext4InodeRef * Ext4InodeRef) :=
  child ← ext4_fs_alloc_inode fs ftype Ext4InodeRef_new;
  '(parent, child) ← ext4_link fs parent (ext4_fs_inode_blocks_init child) name (Z.of_nat (length name));
  parent ← write_back_inode fs parent;
  child ← write_back_inode fs child;
  mret (parent, child).

Definition open_file (file : Ext4File) (r : Ext4InodeRef) : Ext4File :=
  file <| f_inode := inode_num r |> <| f_fpos := 0 |> <| f_fsize := inode_get_size (inode r) |>.

(** A turn of [ext4_generic_open]; a created component is looked up again. *)
Record open_state := {
  os_parent : Ext4InodeRef;          (* [search_parent] *)
  os_path : list Z;                  (* [search_path] *)
  os_result : Ext4DirSearchResult;
  os_caller : Ext4InodeRef;          (* the parameter [parent_inode] *)
}.
Definition generic_open_turn (fs : Ext4) (iflags ftype : Z) (file : Ext4File) (st : open_state)
    : M D (open_state + Result Z * Ext4File) :=
  let search_path := ext4_path_skip (os_path st) SLASH in
  let '(len, is_goal) := ext4_path_check search_path in
  name ← lift (str_to search_path len);
  '(r, result) ← ext4_dir_find_entry fs (os_parent st) name (Z.of_nat len) (os_result st);
  if negb r then
    if Z.land iflags O_CREAT =? 0 then mret (inr (inr Err_ENOENT, file))
    else
      '(parent, _) ← create_entry fs (os_parent st) name (if (is_goal : bool) then ftype else EXT4_DE_DIR);
      caller ← write_back_inode fs (os_caller st);
      mret (inl {| os_parent := parent; os_path := search_path; os_result := result; os_caller := caller |})
  else
    n ← lift (get_name (de_name (sr_dentry result)) (Z.to_nat (de_name_len (sr_dentry result))));
    _ ← unwrap n;
    r ← get_inode_ref fs (de_inode (sr_dentry result));
    if (is_goal : bool) then mret (inr (inl EOK, open_file file r))
    else
      rest ← lift (str_from search_path len);
      mret (inl {| os_parent := r; os_path := rest; os_result := result; os_caller := os_caller st |}).

Definition ext4_generic_open (fuel : nat) (fs : Ext4) (file : Ext4File) (path : list Z) (iflags ftype : Z)
    (parent_inode : Ext4InodeRef) : M D (Result Z * Ext4File) :=
  let file := file <| f_flags := iflags |> in
  root ← get_inode_ref fs 2;
  if bool_decide (path = []) then mret (inl EOK, open_file file root)
  else loopM fuel (generic_open_turn fs iflags ftype file)
         {| os_parent := root; os_path := ext4_path_skip path 46; os_result := Ext4DirSearchResult_new;
            os_caller := parent_inode |}.

(** A turn of [ext4_generic_open2] and of [ext4_generic_open_from]: the state is the current inode,
    the rest of the path, [is_goal], the last parent, the name offset and the search result.  The
    first variant also writes the caller's inode back ([put_caller]); a created component becomes
    the current inode. *)
Record walk_state := {
  ws_current : Ext4InodeRef;
  ws_path : list Z;
  ws_is_goal : bool;
  ws_parent : Ext4InodeRef;
  ws_name_off : Z;
  ws_result : Ext4DirSearchResult;
}.
#[export] Instance walk_state_settable : Settable walk_state := λ r,
  Build_walk_state (ws_current r) (ws_path r) (ws_is_goal r) (ws_parent r) (ws_name_off r) (ws_result r).

Definition walk_turn (put_caller : bool) (fs : Ext4) (iflags ftype : Z) (st : walk_state)
    : M D (walk_state + Result Z * walk_state) :=
  let search_path := ext4_path_skip (ws_path st) SLASH in
  let name_off := add32 (ws_name_off st) (Z.of_nat (length (ws_path st) - length search_path)) in
  let '(len, is_goal) := path_check_new search_path in
  segment ← lift (str_to search_path len);
  let st := st <| ws_is_goal := is_goal |> <| ws_name_off := name_off |> in
  if (len =? 0)%nat then mret (inr (inl EOK, st))
  else
    rest ← lift (str_from search_path len);
    '(r, result) ← ext4_dir_find_entry fs (ws_current st) segment (Z.of_nat len) (ws_result st);
    let st := st <| ws_path := rest |> <| ws_result := result |> in
    if negb r then
      if Z.land iflags O_CREAT =? 0 then mret (inr (inr Err_ENOENT, st))
      else
        '(_, child) ← create_entry fs (ws_current st) segment (if (is_goal : bool) then ftype else EXT4_DE_DIR);
        caller ← (if put_caller then write_back_inode fs (ws_parent st) else mret (ws_parent st));
        mret (inl (st <| ws_current := child |> <| ws_parent := caller |>))
    else
      let st := st <| ws_parent := ws_current st |> in
      r ← get_inode_ref fs (de_inode (sr_dentry result));
      let st := st <| ws_current := r |> in
      if (is_goal : bool) then mret (inr (inl EOK, st))
      else mret (inl (st <| ws_name_off := add32 name_off (Z.of_nat len) |>)).

(** Every turn but the last consumes a component of the path.  The results are the file, the last
    parent and the name offset. *)
Definition walk (put_caller : bool) (fs : Ext4) (file : Ext4File) (path : list Z) (iflags ftype : Z)
    (start parent_inode : Ext4InodeRef) : M D (Result Z * (Ext4File * Ext4InodeRef * Z)) :=
  '(r, st) ← loopM (S (length path)) (walk_turn put_caller fs iflags ftype)
        {| ws_current := start; ws_path := path; ws_is_goal := false; ws_parent := parent_inode;
           ws_name_off := 0; ws_result := Ext4DirSearchResult_new |};
  let file := match r with
              | inl _ => if ws_is_goal st then open_file file (ws_current st) else file
              | inr _ => file
              end in
  mret (r, (file, ws_parent st, ws_name_off st)).

Definition ext4_generic_open2 (fs : Ext4) (file : Ext4File) (path : list Z) (iflags ftype : Z) (parent_inode : Ext4InodeRef)
    : M D (Result Z * (Ext4File * Ext4InodeRef * Z)) :=
  root ← get_inode_ref fs 2;
  walk true fs file path iflags ftype root parent_inode.
Definition ext4_generic_open_from (fs : Ext4) (file : Ext4File) (path : list Z) (iflags ftype : Z) (parent_inode : Z)
    : M D (Result Z * (Ext4File * Ext4InodeRef * Z)) :=
  start ← get_inode_ref fs parent_inode;
  walk false fs file path iflags ftype start start.

Definition open_ftype (file_expect : bool) : Z := if file_expect then EXT4_DE_REG_FILE else EXT4_DE_DIR.
Definition ext4_open (fuel : nat) (fs : Ext4) (file : Ext4File) (path flags : list Z) (file_expect : bool)
    : M D (Result Z * Ext4File) :=
  iflags ← unwrap_result (ext4_parse_flags flags);
  root ← get_inode_ref fs 2;
  ext4_generic_open fuel fs file path iflags (open_ftype file_expect) root.
Definition ext4_open_new (fs : Ext4) (file : Ext4File) (path flags : list Z) (file_expect : bool)
    : M D (Result Z * (Ext4File * Ext4InodeRef * Z)) :=
  iflags ← unwrap_result (ext4_parse_flags flags);
  root ← get_inode_ref fs 2;
  ext4_generic_open2 fs file path iflags (open_ftype file_expect) root.
Definition ext4_open_from (fs : Ext4) (parent_inode : Z) (file : Ext4File) (path flags : list Z) (file_expect : bool)
    : M D (Result Z * (Ext4File * Ext4InodeRef * Z)) :=
  iflags ← unwrap_result (ext4_parse_flags flags);
  ext4_generic_open_from fs file path iflags (open_ftype file_expect) parent_inode.
Definition ext4_dir_mk (fuel : nat) (fs : Ext4) (parent_inode : Z) (path : list Z) : M D (Result Z) :=
  iflags ← unwrap_result (ext4_parse_flags [119]);
  root ← get_inode_ref fs parent_inode;
  '(r, _) ← ext4_generic_open fuel fs Ext4File_new path iflags EXT4_DE_DIR root;
  mret r.

(** ** Files *)

(** One piece of [ext4_file_read]: [len] bytes from [unalg] of the block [iblock], written at [offset]
    of the buffer; a block number of [0] stands for zeros. *)
Definition read_piece (fs : Ext4) (r : Ext4InodeRef) (iblock unalg : Z) (len : nat) (read_buf : list Z) (offset : nat)
    : M D (list Z) :=
  fblock ← get_pblock fs r iblock;
  piece ← (if negb (fblock =? 0) then
             block_data ← read_offset (wadd (wmul fblock BLOCK_SIZE) unalg);
             lift (slice_to len block_data)
           else mret (replicate len 0));
  if (offset + len <=? length read_buf)%nat then mret (splice read_buf offset piece) else panic Bounds.

(** The loop over whole blocks; the state is [iblock_idx], [total_bytes_read] and the buffer. *)
Definition file_read_turn (fs : Ext4) (r : Ext4InodeRef) (size_to_read : Z) : Z * Z * list Z →
    M D (Z * Z * list Z + Z * list Z) := λ '(iblock_idx, total, read_buf),
  if negb (total <? size_to_read) then mret (inr (total, read_buf))
  else
    let read_length := Z.min BLOCK_SIZE (size_to_read - total) in
    read_buf ← read_piece fs r iblock_idx 0 (Z.to_nat read_length) read_buf (Z.to_nat total);
    mret (inl (add32 iblock_idx 1, total + read_length, read_buf)).

(** The results are the error or [EOK], the file, the buffer and the number of bytes read. *)
Definition ext4_file_read (fs : Ext4) (file : Ext4File) (read_buf : list Z) (size : Z)
    : M D (Result Z * Ext4File * list Z * Z) :=
  if f_fsize file <? f_fpos file then mret (inr Err_EINVAL, file, read_buf, 0)
  else if size =? 0 then mret (inl EOK, file, read_buf, 0)
  else
    r ← get_inode_ref fs (f_inode file);
    let file := file <| f_fsize := inode_get_size (inode r) |> in
    let left := wsub (f_fsize file) (f_fpos file) in
    let size_to_read := if left <? size then left else size in
    let iblock_idx := as_u32 (f_fpos file / BLOCK_SIZE) in
    let unalg := f_fpos file mod BLOCK_SIZE in
    '(iblock_idx, total, read_buf) ←
      (if 0 <? unalg then
         let first_block_read_len := Z.min (BLOCK_SIZE - unalg) size_to_read in
         read_buf ← read_piece fs r iblock_idx unalg (Z.to_nat first_block_read_len) read_buf 0;
         mret (add32 iblock_idx 1, first_block_read_len, read_buf)
       else mret (iblock_idx, 0, read_buf));
    '(total, read_buf) ← loopM (S (Z.to_nat (size_to_read / BLOCK_SIZE + 1))) (file_read_turn fs r size_to_read)
                           (iblock_idx, total, read_buf);
    mret (inl EOK, file <| f_fpos := wadd (f_fpos file) total |>, read_buf, total).

(** [ext4_file_write]: the inner loop appends a block for every index below [iblock_last], and the
    outer one only counts the size down.  The state is [iblk_idx], [fblk], [fblock_start],
    [fblock_count] and the inode. *)
Definition append_turn (fs : Ext4) (iblock_last ifile_blocks : Z) : Z * Z * Z * Z * Ext4InodeRef →
    M D (Z * Z * Z * Z * Ext4InodeRef + Z * Z * Z * Z * Ext4InodeRef) := λ '(iblk_idx, fblk, fblock_start, fblock_count, r),
  if negb (iblk_idx <? iblock_last) then mret (inr (iblk_idx, fblk, fblock_start, fblock_count, r))
  else
    '(fblk, r) ← (if iblk_idx <? ifile_blocks then append_inode_dblk fs r else mret (fblk, r));
    mret (inl (iblk_idx + 1, fblk, if fblock_start =? 0 then fblk else fblock_start, fblock_count + 1, r)).

Definition ext4_file_write (fs : Ext4) (file : Ext4File) (data : list Z) (size : Z) : M D unit :=
  s ← load_super_block;
  r ← get_inode_ref fs (f_inode file);
  let block_size := sb_block_size s in
  blocks ← lift (divO size block_size);
  first ← lift (divO (f_fpos file) block_size);
  one ← lift (divO 1 block_size);
  let iblock_last := wadd (f_fpos file) blocks in
  let ifile_blocks := wsub (wadd (f_fsize file) block_size) one in
  '(_, _, fblock_start, fblock_count, r) ←
    (if size <? block_size then mret (first, 0, 0, 0, r)
     else loopM (S (Z.to_nat (iblock_last - first))) (append_turn fs iblock_last ifile_blocks) (first, 0, 0, 0, r));
  _ ← foldM (λ _ i,
        let idx := (i * 4096)%nat in
        if (idx + 4096 <=? length data)%nat
        then write_offset (wmul (wadd fblock_start (Z.of_nat i)) BLOCK_SIZE) (slice data idx (idx + 4096))
        else panic Bounds) () (seq 0 (Z.to_nat fblock_count));
  _ ← write_back_inode fs r;
  root ← get_inode_ref fs 2;
  _ ← write_back_inode fs root;
  mret ().

(** ** Removal *)

(** The result of the open is not looked at: after an error the file is the fresh one. *)
Definition ext4_file_remove (fs : Ext4) (parent_inode : Z) (path : list Z) : M D (Result Z) :=
  root ← get_inode_ref fs parent_inode;
  '(_, (file, parent, name_off)) ← ext4_generic_open2 fs Ext4File_new path O_RDONLY EXT4_DE_UNKNOWN root;
  let child_inode := f_inode file in
  child ← get_inode_ref fs child_inode;
  (if in_get IN_links_count (inode child) =? 1 then _ ← ext4_trunc_inode fs child 0; mret () else mret ());;
  child ← get_inode_ref fs child_inode;
  p ← lift (str_from path (Z.to_nat name_off));
  let '(len, _) := path_check_new p in
  name ← lift (str_to p len);
  ext4_unlink fs parent child name (Z.of_nat len);;
  _ ← write_back_inode fs parent;
  mret (inl EOK).

Definition ext4_dir_remove (fs : Ext4) (parent_inode : Z) (path : list Z) : M D (Result Z) :=
  parent ← get_inode_ref fs parent_inode;
  r ← ext4_dir_find_entry_new fs parent path;
  match r with
  | inr e => mret (inr e)
  | inl de =>
      child ← get_inode_ref fs (de_inode de);
      h ← has_children fs child;
      if (h : bool) then mret (inr Err_ENOTSUP)
      else
        '(_, child) ← ext4_trunc_inode fs child 0;
        ext4_unlink fs parent child path (Z.of_nat (length path));;
        _ ← write_back_inode fs parent;
        mret (inl EOK)
  end.

(** * The kernel's inodes ([os/src/fs/ext4/inode.rs]) *)

Definition Inode_lookup (fs : Ext4) (ino : Z) (name : list Z) : M D (option Z) :=
  '(r, (file, _, _)) ← ext4_open_from fs ino Ext4File_new name [114] false;
  mret (match r with inl _ => Some (f_inode file) | inr _ => None end).
Definition Inode_unlink (fs : Ext4) (ino : Z) (name : list Z) : M D bool :=
  r ← ext4_file_remove fs ino name; mret (match r with inl _ => true | inr _ => false end).
Definition Inode_mkdir (fuel : nat) (fs : Ext4) (ino : Z) (name : list Z) : M D bool :=
  r ← ext4_dir_mk fuel fs ino name; mret (match r with inl _ => true | inr _ => false end).
Definition Inode_rmdir (fs : Ext4) (ino : Z) (name : list Z) : M D bool :=
  r ← ext4_dir_remove fs ino name; mret (match r with inl _ => true | inr _ => false end).
Definition Inode_ls (fs : Ext4) (ino : Z) : M D (list (list Z)) :=
  entries ← read_dir_entry fs ino;
  lift (mapO Ext4DirEntry_get_name entries).
Definition Inode_read_at (fs : Ext4) (ino offset : Z) (buf : list Z) : M D (Z * list Z) :=
  let file := Ext4File_new <| f_inode := ino |> <| f_fpos := offset |> <| f_fsize := offset |> in
  '(_, _, buf, read_size) ← ext4_file_read fs file buf (Z.of_nat (length buf));
  mret (read_size, buf).
(** The number of the inode is not put into the file. *)
Definition Inode_write_at (fs : Ext4) (ino offset : Z) (buf : list Z) : M D Z :=
  r ← get_inode_ref fs ino;
  let file := Ext4File_new <| f_fpos := offset |> <| f_fsize := inode_get_size (inode r) |> in
  ext4_file_write fs file buf (Z.of_nat (length buf));;
  mret (Z.of_nat (length buf)).
(** [File::read] moves the position, [File::write] always writes at [0]. *)
Definition Inode_read (fs : Ext4) (ino fpos : Z) (buf : list Z) : M D (Z * Z * list Z) :=
  '(read_size, buf) ← Inode_read_at fs ino fpos buf;
  mret (read_size, wadd fpos read_size, buf).
Definition Inode_write (fs : Ext4) (ino : Z) (buf : list Z) : M D Z := Inode_write_at fs ino 0 buf.
End ext4.
