(* ===== verification/Ext4Spec.v ===== *)
(** * Checksums, bitmaps and allocation of ext4

    The table-driven checksum is the CRC-32C of the Castagnoli polynomial; the search for a clear bit
    finds the first one from an aligned start; what allocation and freeing do with the bitmaps. *)

From Stdlib Require Import ZArith Lia.
From stdpp Require Import functions prelude.
From S2P Require Import Prelude Drivers Ext4Layout Ext4.

Open Scope Z_scope.

(** ** Checksums *)

(** One bit of the reflected division by the polynomial 0x1EDC6F41 *)
Definition crc_bit (c : Z) : Z :=
  Z.lxor (Z.shiftr c 1) (if Z.odd c then 0x82F63B78 else 0).
Definition crc_byte (crc b : Z) : Z := Nat.iter 8 crc_bit (Z.lxor crc b).

Ltac lxor_bits :=
  apply Z.bits_inj; intros ?n; rewrite !Z.lxor_spec; rewrite ?Z.bits_0;
  repeat match goal with |- context [Z.testbit ?x ?n] => destruct (Z.testbit x n) end; reflexivity.

Lemma crc_bit_lxor x y : crc_bit (Z.lxor x y) = Z.lxor (crc_bit x) (crc_bit y).
Proof.
  unfold crc_bit. rewrite Z.shiftr_lxor, <-!Z.bit0_odd, Z.lxor_spec.
  destruct (Z.testbit x 0), (Z.testbit y 0); cbn [xorb]; lxor_bits.
Qed.
Lemma crc_bits_lxor n x y : Nat.iter n crc_bit (Z.lxor x y) = Z.lxor (Nat.iter n crc_bit x) (Nat.iter n crc_bit y).
Proof. induction n as [|n IH]; [done|]. by rewrite !Nat.iter_succ, IH, crc_bit_lxor. Qed.
Lemma crc_bits_shiftl n x : Nat.iter n crc_bit (Z.shiftl x (Z.of_nat n)) = x.
Proof.
  induction n as [|n IH]; [apply Z.shiftl_0_r|]. rewrite Nat.iter_succ_r. unfold crc_bit at 2.
  rewrite Z.shiftr_shiftl_l by lia. rewrite <-Z.bit0_odd, Z.shiftl_spec_low by lia. rewrite Z.lxor_0_r.
  replace (Z.of_nat (S n) - 1) with (Z.of_nat n) by lia. exact IH.
Qed.

Lemma crc_table_ok i : 0 ≤ i < 256 → CRC32C_TAB !!! Z.to_nat i = Nat.iter 8 crc_bit i.
Proof.
  intros Hi. assert (Forall (λ i, CRC32C_TAB !!! Z.to_nat i = Nat.iter 8 crc_bit i) (seqZ 0 256)) as H.
  { apply (bool_decide_unpack _). vm_compute. exact I. }
  rewrite Forall_forall in H. apply H. rewrite elem_of_seqZ. lia.
Qed.

Lemma lxor_byte x y : is_byte x → is_byte y → is_byte (Z.lxor x y).
Proof.
  unfold is_byte. intros Hx Hy. change 256 with (2 ^ 8) in *.
  rewrite <-(Z.mod_small x (2 ^ 8)), <-(Z.mod_small y (2 ^ 8)), <-!(Z.land_ones _ 8) by lia.
  assert (Z.lxor (Z.land x (Z.ones 8)) (Z.land y (Z.ones 8)) = Z.land (Z.lxor x y) (Z.ones 8)) as ->.
  { apply Z.bits_inj. intros n. rewrite ?Z.lxor_spec, ?Z.land_spec, Z.lxor_spec.
    destruct (Z.testbit x n), (Z.testbit y n), (Z.testbit (Z.ones 8) n); done. }
  rewrite Z.land_ones by lia. apply Z.mod_pos_bound. lia.
Qed.

Lemma as_u8_byte x : is_byte (as_u8 x).
Proof. unfold is_byte, as_u8. change 256 with (2 ^ 8). apply Z.mod_pos_bound. lia. Qed.

(** A word is its low byte and the rest. *)
Lemma split_low_byte x : x = Z.lxor (as_u8 x) (Z.shiftl (Z.shiftr x 8) 8).
Proof.
  apply Z.bits_inj'. intros n Hn. unfold as_u8. rewrite Z.lxor_spec.
  destruct (decide (n < 8)).
  - rewrite Z.mod_pow2_bits_low, Z.shiftl_spec_low by lia. by rewrite xorb_false_r.
  - rewrite Z.mod_pow2_bits_high, Z.shiftl_spec_high, Z.shiftr_spec by lia. rewrite xorb_false_l. f_equal. lia.
Qed.

Lemma crc_byte_table crc b :
  is_byte b → Z.lxor (CRC32C_TAB !!! Z.to_nat (Z.lxor (as_u8 crc) b)) (Z.shiftr crc 8) = crc_byte crc b.
Proof.
  intros Hb. rewrite crc_table_ok by (apply lxor_byte; [apply as_u8_byte|done]).
  unfold crc_byte. rewrite (split_low_byte crc) at 3.
  assert (∀ x y, Z.lxor (Z.lxor x y) b = Z.lxor (Z.lxor x b) y) as -> by (intros; lxor_bits).
  pose proof (crc_bits_shiftl 8 (Z.shiftr crc 8)) as E. change (Z.of_nat 8) with 8 in E.
  by rewrite (crc_bits_lxor 8 (Z.lxor (as_u8 crc) b)), E.
Qed.

(** C26: The checksum function computes the bitwise CRC-32C of the first [size] bytes of its buffer, from
    any initial value, and panics on a buffer that is shorter. *)
Theorem crc32c_bitwise crc buf size :
  Forall is_byte buf → 0 ≤ size →
  ext4_crc32c crc buf size =
    if decide (size ≤ Z.of_nat (length buf)) then Ok (foldl crc_byte crc (take (Z.to_nat size) buf)) else Panic Bounds.
Proof.
  unfold ext4_crc32c. intros Hb [n ->]%Z_of_nat_complete. rewrite Nat2Z.id. revert crc buf Hb.
  induction n as [|n IH]; intros crc buf Hb; cbn [crc32].
  { by rewrite decide_True by lia. }
  destruct buf as [|b buf]; [by rewrite decide_False by (cbn; lia)|].
  apply Forall_cons in Hb as [Hb Hbs]. rewrite (crc_byte_table crc b Hb), IH by done.
  cbn [length take foldl]. repeat case_decide; done || lia.
Qed.
Lemma crc32c_bitwise_witness :
  ext4_crc32c EXT4_CRC32_INIT [49; 50; 51; 52; 53; 54; 55; 56; 57] 9 = Ok (Z.lxor 0xE3069283 0xFFFFFFFF).
Proof.
  rewrite (crc32c_bitwise EXT4_CRC32_INIT [49; 50; 51; 52; 53; 54; 55; 56; 57] 9);
    [vm_compute; reflexivity| |lia].
  repeat constructor; unfold is_byte; lia.
Defined.

(** ** Integers without overflow *)

Lemma add32_small x y : 0 ≤ x + y < 2 ^ 32 → add32 x y = x + y.
Proof. intros. unfold add32, as_u32. by rewrite Z.mod_small. Qed.
Lemma sub32_small x y : 0 ≤ x - y < 2 ^ 32 → sub32 x y = x - y.
Proof. intros. unfold sub32, as_u32. by rewrite Z.mod_small. Qed.

(** A 64-bit shift by 32 that is then cut to 32 bits *)
Lemma high_half_dropped x : as_u32 (wshl x 32) = 0.
Proof.
  unfold as_u32, wshl, wrap. rewrite Z.shiftl_mul_pow2 by lia. change W64 with (2 ^ 64).
  Z.to_euclidean_division_equations; lia.
Qed.

(** ** Bitmaps *)

Definition bmap_bit (bmap : list Z) (i : Z) : bool := Z.testbit (bmap !!! Z.to_nat (i / 8)) (i mod 8).

Lemma shiftr_3 i : Z.shiftr i 3 = i / 8.
Proof. by rewrite Z.shiftr_div_pow2 by lia. Qed.
Lemma land_7 i : Z.land i 7 = i mod 8.
Proof. apply (land_ones_mod i 3). lia. Qed.
Lemma shiftl_1 n : 0 ≤ n → Z.shiftl 1 n = 2 ^ n.
Proof. intros. by rewrite Z.shiftl_mul_pow2, Z.mul_1_l by lia. Qed.

Lemma land_pow2_eqb b k : 0 ≤ k → (Z.land b (2 ^ k) =? 0) = negb (Z.testbit b k).
Proof.
  intros Hk. destruct (Z.testbit b k) eqn:E; cbn.
  - apply Z.eqb_neq. intros H. apply (f_equal (λ x, Z.testbit x k)) in H.
    rewrite Z.land_spec, E, Z.pow2_bits_true, Z.bits_0 in H by lia. done.
  - apply Z.eqb_eq. apply Z.bits_inj'. intros n Hn. rewrite Z.land_spec, Z.bits_0.
    destruct (decide (n = k)) as [->|Hne]; [by rewrite E|]. by rewrite Z.pow2_bits_false, andb_false_r by lia.
Qed.

Section bitmap.
Implicit Types (bmap : list Z) (i j bit : Z).

Lemma bmap_lookup bmap i :
  0 ≤ i < 8 * Z.of_nat (length bmap) → bmap !! Z.to_nat (i / 8) = Some (bmap !!! Z.to_nat (i / 8)).
Proof. intros Hi. apply list_lookup_lookup_total_lt. Z.to_euclidean_division_equations; lia. Qed.

Lemma is_bit_set_spec bmap i :
  0 ≤ i < 8 * Z.of_nat (length bmap) → ext4_bmap_is_bit_set bmap i = Ok (bmap_bit bmap i).
Proof.
  intros Hi. unfold ext4_bmap_is_bit_set, bmap_bit. rewrite shiftr_3, land_7, (bmap_lookup bmap i Hi).
  pose proof (Z.mod_pos_bound i 8). rewrite shiftl_1, land_pow2_eqb by lia. by rewrite negb_involutive.
Qed.
Lemma is_bit_clr_spec bmap i :
  0 ≤ i < 8 * Z.of_nat (length bmap) → ext4_bmap_is_bit_clr bmap i = Ok (negb (bmap_bit bmap i)).
Proof. intros Hi. unfold ext4_bmap_is_bit_clr. by rewrite is_bit_set_spec. Qed.

(** An update of the byte of a bit *)
Lemma bmap_bit_insert bmap i j b :
  0 ≤ i < 8 * Z.of_nat (length bmap) → 0 ≤ j →
  bmap_bit (<[Z.to_nat (i / 8) := b]> bmap) j = if decide (j / 8 = i / 8) then Z.testbit b (j mod 8) else bmap_bit bmap j.
Proof.
  intros Hi Hj. unfold bmap_bit. case_decide as Hq.
  - rewrite Hq, list_lookup_total_insert_eq by (Z.to_euclidean_division_equations; lia). done.
  - rewrite list_lookup_total_insert_ne; [done|]. intros ?. apply Hq. Z.to_euclidean_division_equations; lia.
Qed.

Lemma bit_set_spec bmap i :
  0 ≤ i < 8 * Z.of_nat (length bmap) →
  ∃ bmap', ext4_bmap_bit_set bmap i = Ok bmap' ∧ length bmap' = length bmap ∧
    ∀ j, 0 ≤ j → bmap_bit bmap' j = bool_decide (j = i) || bmap_bit bmap j.
Proof.
  intros Hi. unfold ext4_bmap_bit_set. rewrite shiftr_3, land_7, (bmap_lookup bmap i Hi).
  eexists. split; [done|]. split; [apply length_insert|]. intros j Hj. rewrite bmap_bit_insert by lia.
  pose proof (Z.mod_pos_bound i 8). pose proof (Z.mod_pos_bound j 8). case_decide as Hq.
  - rewrite Z.lor_spec, shiftl_1, Z.pow2_bits_eqb by lia. unfold bmap_bit. rewrite Hq, orb_comm. f_equal.
    apply eq_true_iff_eq. rewrite Z.eqb_eq, bool_decide_eq_true. Z.to_euclidean_division_equations; lia.
  - rewrite bool_decide_false; [done|]. by intros ->.
Qed.

Lemma pow2_compl_bit k n : 0 ≤ k < 8 → 0 ≤ n < 8 → Z.testbit (255 - 2 ^ k) n = negb (n =? k).
Proof.
  intros Hk Hn. assert (k ∈ seqZ 0 8 ∧ n ∈ seqZ 0 8) as [Hk' Hn'] by (rewrite !elem_of_seqZ; lia).
  assert (Forall (λ k, Forall (λ n, Z.testbit (255 - 2 ^ k) n = negb (n =? k)) (seqZ 0 8)) (seqZ 0 8)) as H.
  { apply (bool_decide_unpack _). vm_compute. exact I. }
  rewrite Forall_forall in H. specialize (H k Hk'). rewrite Forall_forall in H. by apply H.
Qed.
Lemma bit_clr_spec bmap i :
  0 ≤ i < 8 * Z.of_nat (length bmap) →
  ∃ bmap', ext4_bmap_bit_clr bmap i = Ok bmap' ∧ length bmap' = length bmap ∧
    ∀ j, 0 ≤ j → bmap_bit bmap' j = negb (bool_decide (j = i)) && bmap_bit bmap j.
Proof.
  intros Hi. unfold ext4_bmap_bit_clr. rewrite shiftr_3, land_7, (bmap_lookup bmap i Hi).
  eexists. split; [done|]. split; [apply length_insert|]. intros j Hj. rewrite bmap_bit_insert by lia.
  pose proof (Z.mod_pos_bound i 8). pose proof (Z.mod_pos_bound j 8). case_decide as Hq.
  - rewrite Z.land_spec, shiftl_1, pow2_compl_bit by lia. unfold bmap_bit. rewrite Hq, andb_comm. f_equal. f_equal.
    apply eq_true_iff_eq. rewrite Z.eqb_eq, bool_decide_eq_true. Z.to_euclidean_division_equations; lia.
  - rewrite bool_decide_false; [done|]. by intros ->.
Qed.

(** *** The first clear bit *)

Definition first_clear bmap (lo hi : Z) (o : option Z) : Prop :=
  match o with
  | Some i => lo ≤ i < hi ∧ bmap_bit bmap i = false ∧ ∀ j, lo ≤ j < i → bmap_bit bmap j = true
  | None => ∀ j, lo ≤ j < hi → bmap_bit bmap j = true
  end.

Lemma first_clear_app bmap lo mid hi o :
  lo ≤ mid ≤ hi → first_clear bmap lo mid None → first_clear bmap mid hi o → first_clear bmap lo hi o.
Proof.
  intros Hm H1 H2. destruct o as [i|]; cbn in *.
  - destruct H2 as (Hi & Hb & Hj). split_and!; [lia|lia|done|]. intros j Hj'.
    destruct (decide (j < mid)); [apply H1|apply Hj]; lia.
  - intros j Hj. destruct (decide (j < mid)); [apply H1|apply H2]; lia.
Qed.
Lemma first_clear_weaken bmap lo mid hi i :
  mid ≤ hi → first_clear bmap lo mid (Some i) → first_clear bmap lo hi (Some i).
Proof. intros Hm (? & ? & ?). split_and!; [lia|lia|done|done]. Qed.

(** A search in a suffix of the bitmap *)
Lemma bmap_bit_drop bmap n i : 0 ≤ i → bmap_bit (drop n bmap) i = bmap_bit bmap (8 * Z.of_nat n + i).
Proof.
  intros Hi. unfold bmap_bit. rewrite lookup_total_drop. f_equal; [f_equal|]; Z.to_euclidean_division_equations; lia.
Qed.

Lemma find_clr_bits_spec bmap sbit m n :
  0 ≤ m → 0 ≤ n → m + n ≤ 8 * Z.of_nat (length bmap) → 0 ≤ sbit → sbit + m + n ≤ 2 ^ 32 →
  ∃ o, find_clr_bits bmap sbit (seqZ m n) = Ok (Z.add sbit <$> o) ∧ first_clear bmap m (m + n) o.
Proof.
  intros Hm [k ->]%Z_of_nat_complete. revert m Hm. induction k as [|k IH]; intros m Hm Hl Hs Hmax.
  { exists None. split; [done|]. cbn. lia. }
  rewrite seqZ_cons by lia. cbn [find_clr_bits]. rewrite is_bit_clr_spec by lia. cbn [mbind outcome_bind].
  destruct (bmap_bit bmap m) eqn:E; cbn [negb].
  - destruct (IH (Z.succ m)) as (o & Eo & Ho); [lia..|]. exists o.
    replace (Z.pred (Z.of_nat (S k))) with (Z.of_nat k) by lia. split; [exact Eo|].
    apply (first_clear_app _ _ (Z.succ m)); [lia| |].
    + intros j Hj. by replace j with m by lia.
    + by replace (m + Z.of_nat (S k)) with (Z.succ m + Z.of_nat k) by lia.
  - exists (Some m). split; [|cbn; split_and!; [lia|lia|done|lia]].
    cbn. unfold add32, as_u32. rewrite Z.mod_small by lia. done.
Qed.

Lemma full_byte i : 0 ≤ i < 8 → Z.testbit 255 i = true.
Proof. intros Hi. change 255 with (Z.ones 8). apply Z.ones_spec_low. lia. Qed.

Lemma find_clr_bytes_spec bmap : ∀ sbit bcnt,
  0 ≤ bcnt ≤ 8 * Z.of_nat (length bmap) → 0 ≤ sbit → sbit + bcnt < 2 ^ 32 →
  ∃ o, find_clr_bytes bmap sbit bcnt = Ok (Z.add sbit <$> o) ∧ first_clear bmap 0 bcnt o.
Proof.
  induction bmap as [|b bmap IH]; intros sbit bcnt Hb Hs Hmax; cbn [find_clr_bytes].
  { cbn in Hb. assert (bcnt = 0) as -> by lia. exists None. split; [done|]. cbn. lia. }
  destruct (Z.ltb_spec bcnt 8) as [Hlt|Hge].
  { destruct (find_clr_bits_spec (b :: bmap) sbit 0 bcnt) as (o & E & Ho); [lia..|]. by exists o. }
  cbn [length] in Hb.
  assert (∃ o, (if b =? 255 then Ok None else find_clr_bits (b :: bmap) sbit (seqZ 0 8)) = Ok (Z.add sbit <$> o)
            ∧ first_clear (b :: bmap) 0 8 o) as (o & E & Ho).
  { destruct (Z.eqb_spec b 255) as [->|].
    - exists None. split; [done|]. intros j Hj. unfold bmap_bit. rewrite Z.div_small, Z.mod_small by lia.
      apply full_byte. lia.
    - apply find_clr_bits_spec; cbn; lia. }
  rewrite E. destruct o as [i|]; cbn [mbind outcome_bind fmap option_fmap option_map].
  { exists (Some i). split; [done|]. by apply (first_clear_weaken _ _ 8). }
  destruct (IH (add32 sbit 8) (bcnt - 8)) as (o & E' & Ho'); unfold add32, as_u32 in *; rewrite ?Z.mod_small in * by lia; [lia..|].
  exists (Z.add 8 <$> o). rewrite E'. split.
  { f_equal. destruct o; cbn; [f_equal; lia|done]. }
  apply (first_clear_app _ _ 8); [lia|done|].
  assert (∀ j, 0 ≤ j → bmap_bit (b :: bmap) (8 + j) = bmap_bit bmap j) as Hd.
  { intros j Hj. exact (eq_sym (bmap_bit_drop (b :: bmap) 1 j Hj)). }
  destruct o as [i|]; cbn in *.
  - destruct Ho' as (Hi & Hbit & Hj). split_and!; [lia|lia|by rewrite Hd by lia|].
    intros j Hj'. replace j with (8 + (j - 8)) by lia. rewrite Hd by lia. apply Hj. lia.
  - intros j Hj'. replace j with (8 + (j - 8)) by lia. rewrite Hd by lia. apply Ho'. lia.
Qed.

(** From a start that is a multiple of eight, the search for a clear bit never leaves the bitmap and
    returns the first clear bit of the range, or nothing when every bit is set. *)
Lemma find_clr_first bmap sbit ebit :
  0 ≤ sbit ≤ ebit → sbit mod 8 = 0 → ebit ≤ 8 * Z.of_nat (length bmap) → ebit < 2 ^ 32 →
  ∃ o, ext4_bmap_bit_find_clr bmap sbit ebit = Ok o ∧ first_clear bmap sbit ebit o.
Proof.
  intros Hs Hal Hl Hmax. unfold ext4_bmap_bit_find_clr. cbn [find_clr_head]. rewrite land_7, Hal.
  cbn [Z.eqb mbind outcome_bind]. rewrite shiftr_3. unfold slice_from, sub32, as_u32. rewrite Z.mod_small by lia.
  set (n := Z.to_nat (sbit / 8)). assert (sbit = 8 * Z.of_nat n) as Hn by (unfold n; Z.to_euclidean_division_equations; lia).
  destruct (Nat.leb_spec n (length bmap)); [|lia]. cbn [mbind outcome_bind].
  destruct (find_clr_bytes_spec (drop n bmap) sbit (ebit - sbit)) as (o & E & Ho); [rewrite length_drop; lia|lia|lia|].
  rewrite E. eexists. split; [done|]. destruct o as [i|]; cbn in *.
  - destruct Ho as (Hi & Hb & Hj). rewrite bmap_bit_drop in Hb by lia. split_and!; [lia|lia|by rewrite Hn|].
    intros j Hj'. replace j with (8 * Z.of_nat n + (j - sbit)) by lia. rewrite <-bmap_bit_drop by lia. apply Hj. lia.
  - intros j Hj. replace j with (8 * Z.of_nat n + (j - sbit)) by lia. rewrite <-bmap_bit_drop by lia. apply Ho. lia.
Qed.

End bitmap.
(** Freeing clears the bits of the range with both ends included. *)
Lemma bits_clr_spec bits : ∀ bmap,
  Forall (λ i, 0 ≤ i < 8 * Z.of_nat (length bmap)) bits →
  ∃ bmap', bits_clr bmap bits = Ok bmap' ∧ length bmap' = length bmap ∧
    ∀ j, 0 ≤ j → bmap_bit bmap' j = negb (bool_decide (j ∈ bits)) && bmap_bit bmap j.
Proof.
  induction bits as [|i bits IH]; intros bmap Hb; cbn [bits_clr].
  { exists bmap. split_and!; [done|done|]. intros j _. by rewrite bool_decide_false by set_solver. }
  apply Forall_cons in Hb as [Hi Hb]. destruct (bit_clr_spec bmap i Hi) as (b1 & E1 & L1 & H1). rewrite E1. cbn.
  destruct (IH b1) as (b2 & E2 & L2 & H2); [by rewrite L1|]. exists b2. split_and!; [done|congruence|].
  intros j Hj. rewrite H2, H1 by done.
  destruct (decide (j = i)) as [->|Hne].
  - rewrite (bool_decide_true (i = i)) by done. rewrite andb_false_r.
    by rewrite (bool_decide_true (i ∈ i :: bits)) by set_solver.
  - rewrite (bool_decide_false (j = i)) by done. cbn.
    by rewrite (bool_decide_ext (j ∈ bits) (j ∈ i :: bits)) by set_solver.
Qed.
Lemma bits_free_spec bmap lo hi :
  0 ≤ lo → hi < 8 * Z.of_nat (length bmap) →
  ∃ bmap', ext4_bmap_bits_free bmap lo hi = Ok bmap' ∧ length bmap' = length bmap ∧
    ∀ j, 0 ≤ j → bmap_bit bmap' j = negb (bool_decide (lo ≤ j ≤ hi)) && bmap_bit bmap j.
Proof.
  intros Hlo Hhi. destruct (bits_clr_spec (seqZ lo (hi + 1 - lo)) bmap) as (b & E & L & H).
  { apply Forall_forall. intros i. rewrite elem_of_seqZ. lia. }
  exists b. split_and!; [exact E|exact L|]. intros j Hj. rewrite H by done.
  rewrite (bool_decide_ext _ (lo ≤ j ≤ hi)); [done|]. rewrite elem_of_seqZ. lia.
Qed.

(** ** Devices *)

(** What the library relies on: a read returns the bytes of the disk from the offset to the end of the
    eight sectors it starts in, a write stores exactly its bytes. *)
Class OffsetDeviceOk (D : Type) `{!OffsetDevice D} := {
  dev_byte : D → Z → Z;
  read_offset_ok d o :
    0 ≤ o →
    ∃ d', read_offset o d = Ok (dev_byte d <$> seqZ o (4096 - o mod 512), d') ∧ ∀ i, dev_byte d' i = dev_byte d i;
  write_offset_ok d o data :
    0 ≤ o → o + Z.of_nat (length data) < W64 →
    ∃ d', write_offset o data d = Ok ((), d') ∧
      ∀ i, dev_byte d' i = if decide (o ≤ i < o + Z.of_nat (length data)) then data !!! Z.to_nat (i - o) else dev_byte d i;
}.

(** The virtio driver is such a device, as long as the reads do not fail. *)
Program Definition virtio_offset_ok T `{!VirtIOBlk T, !VirtIOBlkOk T} (Hff : ∀ t : T, faults t = 0%nat)
    : OffsetDeviceOk T := {| dev_byte := disk_byte |}.
Next Obligation.
  intros T VT VTo Hff d o Ho. destruct (read_offset_spec Hff o d Ho) as (l & d' & E & Hl & Hk & Hb).
  exists d'. split; [|exact Hb]. cbn. rewrite E. do 2 f_equal. apply list_eq_same_length with (length l);
    [rewrite length_fmap, length_seqZ; lia|done|].
  intros k x y Hlt. rewrite Hk by done. rewrite list_lookup_fmap, lookup_seqZ_lt by lia. cbn. congruence.
Qed.
Next Obligation.
  intros T VT VTo Hff d o data Ho Hmax. destruct (write_offset_loop Hff (S (length data)) o data 0 d) as (d' & E & Hb); [lia..|].
  exists d'. rewrite Z.add_0_r in Hb. by split.
Qed.

(** The image of a disk, and runs of operations from image to image *)
Definition image := Z → Z.
Definition img_bytes (img : image) (o : Z) (n : nat) : list Z := img <$> seqZ o (Z.of_nat n).
Definition img_write (img : image) (o : Z) (data : list Z) : image := λ i,
  if decide (o ≤ i < o + Z.of_nat (length data)) then data !!! Z.to_nat (i - o) else img i.

Lemma length_img_bytes img o n : length (img_bytes img o n) = n.
Proof. unfold img_bytes. rewrite length_fmap, length_seqZ. lia. Qed.
Lemma img_bytes_lookup img o n k : (k < n)%nat → img_bytes img o n !! k = Some (img (o + Z.of_nat k)).
Proof. intros Hk. unfold img_bytes. by rewrite list_lookup_fmap, lookup_seqZ_lt by lia. Qed.
Lemma img_bytes_drop img o n k : (k ≤ n)%nat → drop k (img_bytes img o n) = img_bytes img (o + Z.of_nat k) (n - k).
Proof.
  intros Hk. apply list_eq_same_length with (n - k)%nat; rewrite ?length_drop, ?length_img_bytes; [done..|].
  intros i x y Hi. rewrite lookup_drop, !img_bytes_lookup by lia. intros [= <-] [= <-]. f_equal. lia.
Qed.
Lemma img_bytes_take img o n k : (k ≤ n)%nat → take k (img_bytes img o n) = img_bytes img o k.
Proof.
  intros Hk. apply list_eq_same_length with k; rewrite ?length_take, ?length_img_bytes; [lia..|].
  intros i x y Hi. rewrite lookup_take_lt, !img_bytes_lookup by lia. congruence.
Qed.
(** Bytes apart from a write keep their values. *)
Lemma img_bytes_write_other img o data o' n :
  o' + Z.of_nat n ≤ o ∨ o + Z.of_nat (length data) ≤ o' → img_bytes (img_write img o data) o' n = img_bytes img o' n.
Proof.
  intros Hd. unfold img_bytes. apply list_fmap_ext. intros k i Hi%lookup_seqZ. unfold img_write.
  rewrite decide_False by lia. done.
Qed.
Lemma img_bytes_write_same img o data : img_bytes (img_write img o data) o (length data) = data.
Proof.
  apply list_eq_same_length with (length data); rewrite ?length_img_bytes; [done..|].
  intros i x y Hi. rewrite img_bytes_lookup by done. unfold img_write. rewrite decide_True by lia.
  replace (Z.to_nat (o + Z.of_nat i - o)) with i by lia. rewrite (list_lookup_lookup_total_lt data) by done. congruence.
Qed.

Section runs.
Context {D : Type} `{!OffsetDevice D, !OffsetDeviceOk D}.
Implicit Types (d : D) (img : image).

Definition has_image d img : Prop := ∀ i, dev_byte d i = img i.
Definition runs {A} (c : M D A) img (a : A) img' : Prop :=
  ∀ d, has_image d img → ∃ d', c d = Ok (a, d') ∧ has_image d' img'.
Definition panics {A} (c : M D A) img (f : fault) : Prop := ∀ d, has_image d img → c d = Panic f.

#[export] Instance runs_proper A (c : M D A) :
  Proper (pointwise_relation Z eq ==> eq ==> pointwise_relation Z eq ==> iff) (runs c).
Proof.
  assert (∀ img1 img2 a img1' img2', pointwise_relation Z eq img1 img2 → pointwise_relation Z eq img1' img2' →
            runs c img1 a img1' → runs c img2 a img2') as H.
  { intros img1 img2 a img1' img2' H1 H2 Hr d Hd. destruct (Hr d) as (d' & E & H').
    - intros i. by rewrite Hd, H1.
    - exists d'. split; [done|]. intros i. by rewrite H', H2. }
  intros img1 img2 H1 a ? <- img1' img2' H2. split; apply H; done || by symmetry.
Qed.

Lemma runs_ret {A} (a : A) img : runs (mret a) img a img.
Proof. intros d Hd. by exists d. Qed.
Lemma runs_bind {A B} (c : M D A) (k : A → M D B) img a img1 b img2 :
  runs c img a img1 → runs (k a) img1 b img2 → runs (c ≫= k) img b img2.
Proof.
  intros H1 H2 d Hd. destruct (H1 d Hd) as (d1 & E1 & Hd1). destruct (H2 d1 Hd1) as (d2 & E2 & Hd2).
  exists d2. by rewrite (bind_Ok _ _ _ _ _ E1).
Qed.
Lemma runs_bind_ex {A B} (c : M D A) (k : A → M D B) img a img1 b (P : image → Prop) :
  runs c img a img1 → (∃ img', runs (k a) img1 b img' ∧ P img') → ∃ img', runs (c ≫= k) img b img' ∧ P img'.
Proof. intros H1 (img' & H2 & HP). exists img'. split; [by eapply runs_bind|done]. Qed.
Lemma runs_lift {A} (o : outcome A) a img : o = Ok a → runs (lift o) img a img.
Proof. intros -> d Hd. by exists d. Qed.
Lemma panics_lift {A} (o : outcome A) f img : o = Panic f → panics (lift o) img f.
Proof. by intros -> d Hd. Qed.
Lemma panics_here {A} f img : panics (A := A) (panic f) img f.
Proof. by intros d Hd. Qed.
Lemma panics_bind_l {A B} (c : M D A) (k : A → M D B) img f : panics c img f → panics (c ≫= k) img f.
Proof. intros H d Hd. by apply bind_Panic, H. Qed.
Lemma panics_bind_r {A B} (c : M D A) (k : A → M D B) img a img1 f :
  runs c img a img1 → panics (k a) img1 f → panics (c ≫= k) img f.
Proof.
  intros H1 H2 d Hd. destruct (H1 d Hd) as (d1 & E1 & Hd1). rewrite (bind_Ok _ _ _ _ _ E1). by apply H2.
Qed.

Lemma runs_read o img :
  0 ≤ o → runs (read_offset o) img (img_bytes img o (Z.to_nat (4096 - o mod 512))) img.
Proof.
  intros Ho d Hd. destruct (read_offset_ok d o Ho) as (d' & E & Hb). exists d'. rewrite E.
  split; [|intros i; by rewrite Hb, Hd]. do 2 f_equal. unfold img_bytes. pose proof (Z.mod_pos_bound o 512).
  rewrite Z2Nat.id by lia. apply list_fmap_ext. intros. apply Hd.
Qed.
Lemma runs_block_at b img : 0 ≤ b → b * 4096 + 4096 < W64 → runs (block_at b) img (img_bytes img (b * 4096) 4096) img.
Proof.
  intros Hb Hmax. unfold block_at, wmul, wrap. change BLOCK_SIZE with 4096. rewrite Z.mod_small by lia.
  pose proof (runs_read (b * 4096) img) as H. replace (b * 4096 mod 512) with 0 in H by (Z.to_euclidean_division_equations; lia).
  apply H; lia.
Qed.
Lemma runs_write o data img :
  0 ≤ o → o + Z.of_nat (length data) < W64 → runs (write_offset o data) img () (img_write img o data).
Proof.
  intros Ho Hmax d Hd. destruct (write_offset_ok d o data Ho Hmax) as (d' & E & Hb). exists d'. split; [done|].
  intros i. rewrite Hb. unfold img_write. case_decide; [done|apply Hd].
Qed.

(** A loop whose body keeps an invariant and the image never ends. *)
Lemma loop_diverges {B R} (body : B → M D (B + R)) (I : B → Prop) img :
  (∀ b, I b → ∃ b', I b' ∧ runs (body b) img (inl b') img) →
  ∀ fuel b d, I b → has_image d img → loopM fuel body b d = NoFuel.
Proof.
  intros H. induction fuel as [|fuel IH]; intros b d Hb Hd; [done|]. cbn [loopM].
  destruct (H b Hb) as (b' & Hb' & Hr). destruct (Hr d Hd) as (d' & E & Hd'). rewrite (bind_Ok _ _ _ _ _ E). by apply IH.
Qed.
End runs.

(** ** Fields *)

Definition in_struct (f : field) (n : nat) : Prop := (f_off f + f_len f ≤ n)%nat.
Definition disjoint_fields (f g : field) : Prop := (f_off f + f_len f ≤ f_off g ∨ f_off g + f_len g ≤ f_off f)%nat.

Lemma length_fset f v b : in_struct f (length b) → length (fset f v b) = length b.
Proof. unfold in_struct, fset. intros H. rewrite length_splice; rewrite ?length_le_bytes; lia. Qed.
Lemma fget_fset_same f v b :
  in_struct f (length b) → 0 ≤ v < 256 ^ Z.of_nat (f_len f) → fget f (fset f v b) = v.
Proof.
  unfold in_struct, fget, fset, fbytes. intros H Hv.
  pose proof (slice_splice_same b (f_off f) (le_bytes (f_len f) v)) as E. rewrite length_le_bytes in E.
  rewrite E by lia. by apply le_word_le_bytes.
Qed.
Lemma fget_fset_other f g v b :
  in_struct f (length b) → in_struct g (length b) → disjoint_fields f g → fget g (fset f v b) = fget g b.
Proof.
  unfold in_struct, disjoint_fields, fget, fset, fbytes. intros Hf Hg Hd. f_equal.
  apply slice_splice_other; rewrite ?length_le_bytes; lia.
Qed.

Lemma bg_in_struct f : in_struct (bg_at f) Ext4BlockGroup_size.
Proof. apply Nat.leb_le. by destruct f. Qed.
Lemma in_in_struct f : in_struct (in_at f) Ext4Inode_size.
Proof. apply Nat.leb_le. by destruct f. Qed.
Lemma l2_in_struct f : in_struct (l2_at f) Ext4Inode_size.
Proof. apply Nat.leb_le. by destruct f. Qed.
Lemma sb_in_struct f : in_struct (sb_at f) Ext4Superblock_size.
Proof. apply Nat.leb_le. by destruct f. Qed.

Lemma length_bg_put f v b : length b = Ext4BlockGroup_size → length (bg_put f v b) = Ext4BlockGroup_size.
Proof. intros Hb. unfold bg_put. rewrite length_fset; [done|]. rewrite Hb. apply bg_in_struct. Qed.
Lemma length_in_put f v i : length i = Ext4Inode_size → length (in_put f v i) = Ext4Inode_size.
Proof. intros Hb. unfold in_put. rewrite length_fset; [done|]. rewrite Hb. apply in_in_struct. Qed.
Lemma length_sb_put f v s : length s = Ext4Superblock_size → length (fset (sb_at f) v s) = Ext4Superblock_size.
Proof. intros Hb. rewrite length_fset; [done|]. rewrite Hb. apply sb_in_struct. Qed.
Lemma length_sb_field f s : length s = Ext4Superblock_size → length (fbytes (sb_at f) s) = f_len (sb_at f).
Proof. intros Hs. pose proof (sb_in_struct f). unfold in_struct in *. unfold fbytes. rewrite length_slice; lia. Qed.

(** ** Checksums of structures always succeed *)

Lemma crc32_total tab n : ∀ crc p, (n ≤ length p)%nat → ∃ c, crc32 tab n crc p = Ok c.
Proof.
  induction n as [|n IH]; intros crc p Hn; cbn [crc32]; [by eexists|].
  destruct p as [|b p]; cbn in Hn; [lia|]. apply IH. lia.
Qed.
Lemma crc32c_total crc p size : size ≤ Z.of_nat (length p) → ∃ c, ext4_crc32c crc p size = Ok c.
Proof. intros Hs. apply crc32_total. lia. Qed.

Lemma obind_Ok {A B} (o : outcome A) (k : A → outcome B) a : o = Ok a → o ≫= k = k a.
Proof. by intros ->. Qed.

(** Run a checksum whose buffer is long enough. *)
Ltac crc_step :=
  match goal with
  | |- context [ext4_crc32c ?c ?p ?n] =>
      let E := fresh "E" in
      destruct (crc32c_total c p n) as [? E];
      [rewrite ?length_sb_field, ?length_le_bytes, ?length_bg_put by done;
       unfold Ext4Superblock_size, Ext4BlockGroup_size, Ext4Inode_size in *; cbn; lia|rewrite (obind_Ok _ _ _ E)]
  end.

Lemma sb_with_csum_ok s :
  length s = Ext4Superblock_size → ∃ c, sb_with_csum s = Ok (fset (sb_at SB_checksum) c s).
Proof. intros Hs. unfold sb_with_csum. crc_step. by eexists. Qed.
Lemma set_block_group_checksum_ok bgid s b :
  length s = Ext4Superblock_size → length b = Ext4BlockGroup_size → sb_desc_size s ≤ 64 →
  ∃ c, set_block_group_checksum bgid s b = Ok (bg_put BG_checksum c b).
Proof.
  intros Hs Hb Hd. unfold set_block_group_checksum.
  assert (∃ c, get_block_group_checksum bgid s b = Ok c) as [c E]; [|exists c; by rewrite (obind_Ok _ _ _ E)].
  unfold get_block_group_checksum. cbv zeta. crc_step. crc_step. crc_step. by eexists.
Qed.
Lemma ialloc_bitmap_csum_ok bitmap s b :
  length s = Ext4Superblock_size → length b = Ext4BlockGroup_size → length bitmap = 4096%nat →
  0 ≤ fget (sb_at SB_inodes_per_group) s ≤ 32768 →
  ∃ b', set_block_group_ialloc_bitmap_csum s bitmap b = Ok b' ∧ length b' = Ext4BlockGroup_size.
Proof.
  intros Hs Hb Hm Hi. unfold set_block_group_ialloc_bitmap_csum. cbv zeta.
  assert (∃ c, ext4_ialloc_bitmap_csum bitmap s = Ok c) as [c E].
  { unfold ext4_ialloc_bitmap_csum. crc_step. apply crc32c_total. rewrite Hm. unfold add32, as_u32.
    rewrite Z.mod_small by lia. Z.to_euclidean_division_equations; lia. }
  rewrite (obind_Ok _ _ _ E). destruct (negb _); [by exists b|]. eexists. split; [done|].
  case_match; repeat apply length_bg_put; done.
Qed.
Lemma balloc_bitmap_csum_ok bitmap s b :
  length s = Ext4Superblock_size → length b = Ext4BlockGroup_size → length bitmap = 4096%nat →
  fget (sb_at SB_blocks_per_group) s ≤ 32768 →
  ∃ b', set_block_group_balloc_bitmap_csum s bitmap b = Ok b' ∧ length b' = Ext4BlockGroup_size.
Proof.
  intros Hs Hb Hm Hi. unfold set_block_group_balloc_bitmap_csum. cbv zeta.
  assert (∃ c, ext4_balloc_bitmap_csum bitmap s = Ok c) as [c E].
  { unfold ext4_balloc_bitmap_csum. crc_step. apply crc32c_total. rewrite Hm. Z.to_euclidean_division_equations; lia. }
  rewrite (obind_Ok _ _ _ E). destruct (negb _); [by exists b|]. eexists. split; [done|].
  case_match; repeat apply length_bg_put; done.
Qed.

(** ** Loads and stores of super block and group descriptors *)

(** The position of a group descriptor on the disk *)
Definition group_pos (s : list Z) (g pos : Z) : Prop :=
  ∃ blk off, bg_position s g = Ok (blk, off) ∧ 0 ≤ blk ∧ blk * 4096 + 4096 < W64 ∧
    0 ≤ off ∧ off + 64 ≤ 4096 ∧ pos = blk * 4096 + off.
Definition disjoint_ranges (o n o' n' : Z) : Prop := o + n ≤ o' ∨ o' + n' ≤ o.
#[export] Instance disjoint_ranges_dec o n o' n' : Decision (disjoint_ranges o n o' n').
Proof. unfold disjoint_ranges. apply _. Defined.
Abbreviation disk_super img := (img_bytes img 1024 1024) (only parsing).

Section disk.
Context {D : Type} `{!OffsetDevice D, !OffsetDeviceOk D}.
Implicit Types (img : image).

Lemma runs_load_super img : runs load_super_block img (disk_super img) img.
Proof.
  unfold load_super_block. eapply runs_bind; [by apply runs_read|].
  change (Z.to_nat (4096 - BASE_OFFSET mod 512)) with 4096%nat. apply runs_lift.
  unfold Ext4Superblock_try_from, slice_to. rewrite length_img_bytes.
  change (Ext4Superblock_size <=? 4096)%nat with true. cbv iota. by rewrite img_bytes_take by (cbv; lia).
Qed.

Lemma runs_load_group img s g pos :
  group_pos s g pos → runs (Ext4BlockGroup_load s g) img (img_bytes img pos 64) img.
Proof.
  intros (blk & off & E & Hb & Hmax & Ho & Hle & ->). unfold Ext4BlockGroup_load.
  eapply runs_bind; [by apply runs_lift|]. cbv beta iota. eapply runs_bind; [by apply runs_block_at|].
  eapply runs_bind.
  { apply runs_lift. unfold slice_from. rewrite length_img_bytes. destruct (Nat.leb_spec (Z.to_nat off) 4096); [done|lia]. }
  rewrite img_bytes_drop by lia. apply runs_lift. unfold Ext4BlockGroup_try_from, slice_to. rewrite length_img_bytes.
  change Ext4BlockGroup_size with 64%nat. destruct (Nat.leb_spec 64 (4096 - Z.to_nat off)); [|lia].
  rewrite img_bytes_take by lia. do 2 f_equal. lia.
Qed.

Lemma runs_sync_group img s g pos b :
  group_pos s g pos → length s = Ext4Superblock_size → length b = Ext4BlockGroup_size → sb_desc_size s ≤ 64 →
  ∃ c, runs (bg_sync_to_disk_with_csum g s b) img () (img_write img pos (bg_put BG_checksum c b)).
Proof.
  intros (blk & off & E & Hb & Hmax & Ho & Hle & ->) Hs Hl Hd. unfold bg_sync_to_disk_with_csum.
  destruct (set_block_group_checksum_ok (as_u32 g) s b Hs Hl Hd) as [c Ec]. exists c.
  eapply runs_bind; [by apply runs_lift|]. unfold sync_block_group_to_disk.
  eapply runs_bind; [by apply runs_lift|]. cbv beta iota.
  unfold wadd, wmul, wrap. change BLOCK_SIZE with 4096. rewrite (Z.mod_small (blk * 4096)), Z.mod_small by lia.
  apply runs_write; [lia|]. rewrite length_bg_put by done. change (Z.of_nat Ext4BlockGroup_size) with 64. lia.
Qed.

(** ** Inode allocation *)

Lemma alloc_turn_empty img s n is_dir g pos :
  disk_super img = s → 0 ≤ g < n → n < 2 ^ 32 → group_pos s g pos → get_free_inodes_count (img_bytes img pos 64) = 0 →
  runs (alloc_inode_turn n is_dir g) img (inl (g + 1)) img.
Proof.
  intros Hs Hg Hn Hp Hf. unfold alloc_inode_turn.
  destruct (Z.ltb_spec n g); [lia|]. destruct (Z.eqb_spec g n); [lia|].
  eapply runs_bind; [apply runs_load_super|]. rewrite Hs. eapply runs_bind; [by apply runs_load_group|].
  rewrite Hf. cbn. replace (add32 g 1) with (g + 1) by (unfold add32, as_u32; rewrite Z.mod_small by lia; done).
  apply runs_ret.
Qed.

(** When no group has a free inode, the allocation of an inode does not fail: it starts again at the
    first group for ever, and the operation that creates the file never returns. *)
Theorem alloc_inode_diverges fs img is_dir n :
  block_groups_count (super_block fs) = Ok n → 0 < n < 2 ^ 32 → 0 ≤ last_inode_bg_id fs ≤ n →
  (∀ g, 0 ≤ g < n →
     ∃ pos, group_pos (disk_super img) g pos ∧ get_free_inodes_count (img_bytes img pos 64) = 0) →
  ∀ d, has_image d img →
    ext4_ialloc_alloc_inode fs is_dir d = NoFuel ∧
    ∀ fuel, loopM fuel (alloc_inode_turn n is_dir) (last_inode_bg_id fs) d = NoFuel.
Proof.
  intros Hc Hn Hlast Hg d Hd.
  assert (∀ fuel, loopM fuel (alloc_inode_turn n is_dir) (last_inode_bg_id fs) d = NoFuel) as Hloop.
  { intros fuel. apply (loop_diverges _ (λ g, 0 ≤ g ≤ n) img); [|done..]. intros g Hgn.
    destruct (decide (g = n)) as [->|Hne].
    - exists 0. split; [lia|]. unfold alloc_inode_turn. rewrite Z.ltb_irrefl, Z.eqb_refl. apply runs_ret.
    - destruct (Hg g) as (pos & Hp & Hf); [lia|]. exists (g + 1). split; [lia|].
      eapply alloc_turn_empty; [done|lia|lia|exact Hp|exact Hf]. }
  split; [|exact Hloop]. unfold ext4_ialloc_alloc_inode. rewrite Hc. apply Hloop.
Qed.

Lemma alloc_inode_in_runs img s bgid pos is_dir cnt o :
  let bg := img_bytes img pos 64 in
  let bb := get_inode_bitmap_block bg s in
  length s = Ext4Superblock_size → group_pos s bgid pos → sb_desc_size s ≤ 64 →
  0 ≤ fget (sb_at SB_inodes_per_group) s ≤ 32768 →
  0 ≤ bb → bb * 4096 + 4096 < W64 →
  get_inodes_in_group_cnt s bgid = Ok cnt →
  ext4_bmap_bit_find_clr (img_bytes img (bb * 4096) 4096) 0 cnt = Ok o → 0 ≤ default 0 o < 32768 →
  ∃ bitmap, ext4_bmap_bit_set (img_bytes img (bb * 4096) 4096) (default 0 o) = Ok bitmap ∧
    ∃ img', runs (alloc_inode_in s bgid bg is_dir) img
        (add32 (mul32 bgid (fget (sb_at SB_inodes_per_group) s)) (add32 (default 0 o) 1)) img' ∧
      ∃ b', length b' = 64%nat ∧ img' = img_write (img_write img (bb * 4096) bitmap) pos b'.
Proof.
  intros bg bb Hs Hp Hd Hi Hbb Hmax Hcnt Ho Hidx.
  destruct (bit_set_spec (img_bytes img (bb * 4096) 4096) (default 0 o)) as (bitmap & Eset & Hlen & _).
  { rewrite length_img_bytes. lia. }
  rewrite length_img_bytes in Hlen.
  destruct (ialloc_bitmap_csum_ok bitmap s bg) as (b1 & E1 & L1); [done|apply length_img_bytes|done|done|].
  exists bitmap. split; [exact Eset|]. unfold alloc_inode_in. cbv zeta. fold bb.
  eapply runs_bind_ex; [by apply runs_block_at|]. eapply runs_bind_ex; [by apply runs_lift|].
  eapply runs_bind_ex; [by apply runs_lift|]. eapply runs_bind_ex; [by apply runs_lift|].
  eapply runs_bind_ex.
  { unfold wmul, wrap. change BLOCK_SIZE with 4096. rewrite Z.mod_small by lia. apply runs_write; [lia|]. rewrite Hlen. lia. }
  eapply runs_bind_ex; [by apply runs_lift|].
  match goal with |- context [bg_sync_to_disk_with_csum bgid s ?b] => set (b2 := b) end.
  assert (length b2 = Ext4BlockGroup_size) as L2.
  { unfold b2, set_itable_unused, set_used_dirs_count, set_free_inodes_count. cbv zeta.
    destruct is_dir; repeat case_match; repeat apply length_bg_put; done. }
  edestruct (runs_sync_group (img_write img (bb * 4096) bitmap) s bgid pos b2) as [c Hc]; [done..|].
  eapply runs_bind_ex; [exact Hc|]. eexists. split; [apply runs_ret|]. eexists. split; [|reflexivity].
  by apply length_bg_put.
Qed.

(** The shape of the disk that an allocation in the first group relies on *)
Record alloc_layout (fs : Ext4) (img : image) (pos : Z) := {
  al_count : ∃ n, block_groups_count (super_block fs) = Ok n ∧ 0 < n;
  al_last : last_inode_bg_id fs = 0;
  al_pos : group_pos (disk_super img) 0 pos;
  al_desc : sb_desc_size (disk_super img) ≤ 64;
  al_inodes : 0 ≤ fget (sb_at SB_inodes_per_group) (disk_super img) ≤ 32768;
  al_free : 0 < get_free_inodes_count (img_bytes img pos 64);
  al_bitmap : 0 ≤ get_inode_bitmap_block (img_bytes img pos 64) (disk_super img);
  al_bitmap_end : get_inode_bitmap_block (img_bytes img pos 64) (disk_super img) * 4096 + 4096 < W64;
}.
Definition inode_bitmap (img img' : image) (pos : Z) : list Z :=
  img_bytes img' (get_inode_bitmap_block (img_bytes img pos 64) (disk_super img) * 4096) 4096.

Lemma alloc_first_group fs img pos is_dir cnt o :
  alloc_layout fs img pos → get_inodes_in_group_cnt (disk_super img) 0 = Ok cnt →
  ext4_bmap_bit_find_clr (inode_bitmap img img pos) 0 cnt = Ok o → 0 ≤ default 0 o < 32768 →
  ∃ bitmap, ext4_bmap_bit_set (inode_bitmap img img pos) (default 0 o) = Ok bitmap ∧
    ∃ img', runs (ext4_ialloc_alloc_inode fs is_dir) img (Some (default 0 o + 1)) img' ∧
      ∃ b', length b' = 64%nat ∧
        img' = img_write (img_write img (get_inode_bitmap_block (img_bytes img pos 64) (disk_super img) * 4096) bitmap) pos b'.
Proof.
  intros [(n & Hn & Hpos) Hlast Hp Hd Hi Hf Hb Hbe] Hc Ho Hidx.
  destruct (alloc_inode_in_runs img (disk_super img) 0 pos is_dir cnt o) as (bitmap & Eset & img' & Hr & HP);
    [apply length_img_bytes|done..|].
  exists bitmap. split; [exact Eset|]. exists img'. split; [|exact HP].
  rewrite (add32_small (default 0 o) 1), (add32_small (mul32 0 _)) in Hr by (change (mul32 0 _) with 0; lia).
  unfold ext4_ialloc_alloc_inode. eapply runs_bind; [by apply runs_lift|].
  rewrite Hlast. replace (Z.to_nat n + 2)%nat with (S (Z.to_nat n + 1)) by lia. cbn [loopM].
  assert (runs (alloc_inode_turn n is_dir 0) img (inr (Some (default 0 o + 1))) img') as Ht.
  { unfold alloc_inode_turn. destruct (Z.ltb_spec n 0); [lia|]. destruct (Z.eqb_spec 0 n); [lia|].
    eapply runs_bind; [apply runs_load_super|]. eapply runs_bind; [by apply runs_load_group|].
    rewrite (proj2 (Z.ltb_lt _ _) Hf). eapply runs_bind; [exact Hr|]. apply runs_ret. }
  eapply runs_bind; [exact Ht|]. apply runs_ret.
Qed.

(** Allocating an inode from a first group that is not the last one returns the number of the first
    inode that is free in the group's bitmap and marks it, and no other, as used. *)
Theorem alloc_inode_first_free fs img pos is_dir m :
  alloc_layout fs img pos → block_groups_count (disk_super img) = Ok m → 2 ≤ m < 2 ^ 32 →
  (∃ j, 0 ≤ j < fget (sb_at SB_inodes_per_group) (disk_super img) ∧ bmap_bit (inode_bitmap img img pos) j = false) →
  disjoint_ranges (get_inode_bitmap_block (img_bytes img pos 64) (disk_super img) * 4096) 4096 pos 64 →
  ∃ i img', runs (ext4_ialloc_alloc_inode fs is_dir) img (Some (i + 1)) img' ∧
    first_clear (inode_bitmap img img pos) 0 (fget (sb_at SB_inodes_per_group) (disk_super img)) (Some i) ∧
    ∀ j, 0 ≤ j → bmap_bit (inode_bitmap img img' pos) j = bool_decide (j = i) || bmap_bit (inode_bitmap img img pos) j.
Proof.
  intros Hl Hm Hm2 (j & Hj & Hjf) Hdis. unfold disjoint_ranges in Hdis. pose proof (al_inodes _ _ _ Hl) as Hi.
  set (ipg := fget (sb_at SB_inodes_per_group) (disk_super img)) in *.
  assert (length (inode_bitmap img img pos) = 4096%nat) as Hlen by apply length_img_bytes.
  assert (get_inodes_in_group_cnt (disk_super img) 0 = Ok ipg) as Hc.
  { unfold get_inodes_in_group_cnt. rewrite (obind_Ok _ _ _ Hm). unfold sub32, as_u32. rewrite (Z.mod_small (m - 1)) by lia.
    destruct (Z.ltb_spec 0 (m - 1)); [done|lia]. }
  destruct (find_clr_first (inode_bitmap img img pos) 0 ipg) as (o & Eo & Ho); [lia|done|rewrite Hlen; lia|lia|].
  destruct o as [i|]; [|rewrite (Ho j) in Hjf by lia; done]. pose proof Ho as (Hir & _).
  destruct (alloc_first_group fs img pos is_dir ipg (Some i)) as (bitmap & Es & img' & Hr & b' & Lb & Himg); [done..|cbn; lia|].
  destruct (bit_set_spec (inode_bitmap img img pos) i) as (bitmap' & Es' & Lm & Hbits); [rewrite Hlen; lia|].
  rewrite Hlen in Lm. change (default 0 (Some i)) with i in *. assert (bitmap' = bitmap) as -> by congruence.
  exists i, img'. split_and!; [exact Hr|exact Ho|]. intros k Hk. rewrite <-Hbits by done. f_equal.
  unfold inode_bitmap. rewrite Himg. rewrite img_bytes_write_other by (rewrite Lb; lia).
  pose proof (img_bytes_write_same img (get_inode_bitmap_block (img_bytes img pos 64) (disk_super img) * 4096) bitmap) as E.
  by rewrite Lm in E.
Qed.

(** In a file system of one group the number of inodes that is searched is computed as [0]: every
    allocation returns inode 1, whether it is in use or not. *)
Theorem alloc_inode_single_group fs img pos is_dir :
  alloc_layout fs img pos → block_groups_count (disk_super img) = Ok 1 →
  ∃ img', runs (ext4_ialloc_alloc_inode fs is_dir) img (Some 1) img'.
Proof.
  intros Hl H1.
  assert (get_inodes_in_group_cnt (disk_super img) 0 = Ok 0) as Hc.
  { unfold get_inodes_in_group_cnt. rewrite (obind_Ok _ _ _ H1). by rewrite high_half_dropped. }
  destruct (find_clr_first (inode_bitmap img img pos) 0 0) as (o & Eo & Ho); [lia|done|lia|lia|].
  destruct o as [i|]; [cbn in Ho; lia|].
  destruct (alloc_first_group fs img pos is_dir 0 None) as (bitmap & _ & img' & Hr & _); [done..|cbn; lia|].
  by exists img'.
Qed.

(** ** Writing inodes back *)

Lemma length_set_inode_checksum_value s c i :
  length i = Ext4Inode_size → length (set_inode_checksum_value s c i) = Ext4Inode_size.
Proof.
  intros Hi. unfold set_inode_checksum_value. cbv zeta.
  assert (∀ v, length (fset (l2_at L2_l_i_checksum_lo) v i) = Ext4Inode_size) as H.
  { intros v. rewrite length_fset; [done|]. rewrite Hi. apply l2_in_struct. }
  case_match; [by apply length_in_put|done].
Qed.

Lemma set_inode_checksum_ok s n i :
  length s = Ext4Superblock_size → length i = Ext4Inode_size → fget (sb_at SB_inode_size) s ≤ 256 →
  ∃ i', set_inode_checksum s n i = Ok i' ∧ length i' = Ext4Inode_size.
Proof.
  intros Hs Hi Hsz. unfold set_inode_checksum.
  assert (∃ c i', get_inode_checksum n s i = Ok (c, i') ∧ length i' = Ext4Inode_size) as (c & i' & E & L).
  { unfold get_inode_checksum. cbv zeta. set (i0 := in_put _ _ _).
    assert (length i0 = Ext4Inode_size) as L0.
    { apply length_in_put. rewrite length_fset; [done|]. rewrite Hi. apply l2_in_struct. }
    crc_step. crc_step. crc_step.
    destruct (crc32c_total x1 (take 0x9c i0 ++ replicate (0x100 - 0x9c) 0) (fget (sb_at SB_inode_size) s)) as [c Ec].
    { rewrite length_app, length_take, length_replicate, L0. change Ext4Inode_size with 156%nat. lia. }
    rewrite (obind_Ok _ _ _ Ec). eexists _, _. split; [done|]. by apply length_set_inode_checksum_value. }
  rewrite (obind_Ok _ _ _ E). eexists. split; [done|]. by apply length_set_inode_checksum_value.
Qed.

(** The position of an inode on the disk, computed from the descriptor at [gp] *)
Definition inode_pos (fs : Ext4) (img : image) (n gp pos : Z) : Prop :=
  let s := super_block fs in
  let bg := img_bytes img gp 64 in
  ∃ g idx, divO (sub32 n 1) (fget (sb_at SB_inodes_per_group) s) = Ok g ∧
    modO (sub32 n 1) (fget (sb_at SB_inodes_per_group) s) = Ok idx ∧ group_pos s g gp ∧
    pos = wadd (wmul (Z.lor (wshl (bg_get BG_inode_table_first_block_hi bg) 32) (bg_get BG_inode_table_first_block_lo bg))
                     BLOCK_SIZE) (mul32 idx (fget (sb_at SB_inode_size) s)) ∧
    pos + 156 < W64.

(** It only depends on the descriptor. *)
Lemma inode_pos_img fs img img' n gp pos :
  img_bytes img' gp 64 = img_bytes img gp 64 → inode_pos fs img n gp pos → inode_pos fs img' n gp pos.
Proof. intros E. unfold inode_pos. by rewrite E. Qed.

Lemma runs_write_back fs img r gp pos :
  length (super_block fs) = Ext4Superblock_size → fget (sb_at SB_inode_size) (super_block fs) ≤ 256 →
  length (inode r) = Ext4Inode_size → inode_pos fs img (inode_num r) gp pos →
  ∃ i', length i' = Ext4Inode_size ∧ runs (write_back_inode fs r) img (r <| inode := i' |>) (img_write img pos i').
Proof.
  intros Hs Hsz Hi (g & idx & Eg & Ei & Hg & Hpos & Hmax).
  destruct (set_inode_checksum_ok (super_block fs) (inode_num r) (inode r) Hs Hi Hsz) as (i' & E & L).
  exists i'. split; [done|]. unfold write_back_inode. eapply runs_bind; [by apply runs_lift|].
  eapply runs_bind; [|apply runs_ret]. unfold sync_inode_to_disk. eapply runs_bind.
  { unfold get_inode_disk_pos. eapply runs_bind; [by apply runs_lift|]. eapply runs_bind; [by apply runs_lift|].
    eapply runs_bind; [by apply runs_load_group|]. apply runs_ret. }
  rewrite <-Hpos. apply runs_write; [|rewrite L; exact Hmax].
  rewrite Hpos. unfold wadd, wrap. apply Z.mod_pos_bound. unfold W64. lia.
Qed.

(** ** Block allocation *)

#[export] Instance disjoint_fields_dec f g : Decision (disjoint_fields f g).
Proof. unfold disjoint_fields. apply _. Defined.

Ltac fields_apart := apply (bool_decide_unpack _); vm_compute; exact I.

(** An update of the super block that leaves the descriptors where they are *)
Lemma bg_position_fset f v s g :
  length s = Ext4Superblock_size →
  disjoint_fields (sb_at f) (sb_at SB_desc_size) → disjoint_fields (sb_at f) (sb_at SB_first_data_block) →
  bg_position (fset (sb_at f) v s) g = bg_position s g ∧ sb_desc_size (fset (sb_at f) v s) = sb_desc_size s.
Proof.
  intros Hs H1 H2. unfold bg_position, sb_desc_size.
  rewrite !fget_fset_other; [done|..]; try done; rewrite Hs; apply sb_in_struct.
Qed.

Lemma set_free_blocks_layout n c s g :
  length s = Ext4Superblock_size →
  bg_position (fset (sb_at SB_checksum) c (sb_set_free_blocks_count n s)) g = bg_position s g ∧
  sb_desc_size (fset (sb_at SB_checksum) c (sb_set_free_blocks_count n s)) = sb_desc_size s.
Proof.
  intros Hs. unfold sb_set_free_blocks_count. set (hi := as_u32 _). set (lo := as_u32 _).
  destruct (bg_position_fset SB_free_blocks_count_lo lo s g) as [Q1 Q2]; [done|fields_apart..|].
  rewrite <-Q1, <-Q2. set (s1 := fset _ lo s).
  assert (length s1 = Ext4Superblock_size) as L1 by (unfold s1; by rewrite length_sb_put).
  destruct (bg_position_fset SB_free_blocks_count_hi hi s1 g) as [Q3 Q4]; [done|fields_apart..|].
  rewrite <-Q3, <-Q4. apply bg_position_fset; [by rewrite length_sb_put|fields_apart..].
Qed.

Lemma runs_sync_super img s :
  length s = Ext4Superblock_size →
  ∃ c, runs (sb_sync_to_disk_with_csum s) img (fset (sb_at SB_checksum) c s)
         (img_write img 1024 (fset (sb_at SB_checksum) c s)).
Proof.
  intros Hs. destruct (sb_with_csum_ok s Hs) as [c E]. exists c. unfold sb_sync_to_disk_with_csum.
  eapply runs_bind; [by apply runs_lift|]. eapply runs_bind; [|apply runs_ret].
  apply runs_write; [done|]. rewrite length_sb_put by done. unfold BASE_OFFSET, W64, Ext4Superblock_size. lia.
Qed.

(** The shape of the disk for an allocation of a block for the inode [r]: the descriptor of the first
    group at [pos], the inode at [ip] in the table of the group whose descriptor is at [gp], and the
    structures that are written apart from the bitmap and from the descriptor that is read. *)
Record balloc_layout (fs : Ext4) (img : image) (r : Ext4InodeRef) (pos gp ip bb : Z) := {
  bl_bpg : 0 < fget (sb_at SB_blocks_per_group) (disk_super img) ≤ 32768;
  bl_desc : sb_desc_size (disk_super img) ≤ 64;
  bl_pos : group_pos (disk_super img) 0 pos;
  bl_super : length (super_block fs) = Ext4Superblock_size;
  bl_inode_size : fget (sb_at SB_inode_size) (super_block fs) ≤ 256;
  bl_inode : length (inode r) = Ext4Inode_size;
  bl_inode_pos : inode_pos fs img (inode_num r) gp ip;
  bl_bb : bb = get_block_bitmap_block (img_bytes img pos 64) (disk_super img) * 4096;
  bl_bb_range : 0 ≤ bb ∧ bb + 4096 < W64;
  bl_bb_super : disjoint_ranges bb 4096 1024 1024;
  bl_bb_group : disjoint_ranges bb 4096 pos 64;
  bl_bb_gp : disjoint_ranges bb 4096 gp 64;
  bl_bb_inode : disjoint_ranges bb 4096 ip 156;
  bl_gp_super : disjoint_ranges gp 64 1024 1024;
}.

(** C27: Allocating a block returns the first block that is free in the bitmap of the first group and marks
    it, and no other, as used; when the group is full it returns block 0 without an error. *)
Theorem balloc_first_free fs img r pos gp ip bb :
  balloc_layout fs img r pos gp ip bb →
  ∃ o r' img', first_clear (img_bytes img bb 4096) 0 32768 o ∧
    runs (balloc_alloc_block fs r 0) img (default 0 o, r') img' ∧
    ∀ j, 0 ≤ j → bmap_bit (img_bytes img' bb 4096) j = bool_decide (j = default 0 o) || bmap_bit (img_bytes img bb 4096) j.
Proof.
  intros [Hbpg Hd Hp Hfs Hsz Hi Hip Hbb Hbr D1 D2 D3 D4 D5]. unfold disjoint_ranges in *.
  set (s := disk_super img) in *. assert (length s = Ext4Superblock_size) as Hs by apply length_img_bytes.
  set (bitmap := img_bytes img bb 4096). assert (length bitmap = 4096%nat) as Hl by apply length_img_bytes.
  destruct (find_clr_first bitmap 0 32768) as (o & Eo & Ho); [lia|done|rewrite Hl; lia|lia|].
  assert (0 ≤ default 0 o < 32768) as Hr by (destruct o; cbn in *; lia).
  destruct (bit_set_spec bitmap (default 0 o)) as (bitmap' & Es & Lb & Hbits); [rewrite Hl; lia|]. rewrite Hl in Lb.
  destruct (balloc_bitmap_csum_ok bitmap' s (img_bytes img pos 64)) as (b1 & E1 & L1);
    [done|apply length_img_bytes|done|lia|].
  set (img1 := img_write img bb bitmap').
  set (s1 := sb_set_free_blocks_count (wsub (sb_free_blocks_count s) 1) s).
  assert (length s1 = Ext4Superblock_size) as Ls1 by (unfold s1, sb_set_free_blocks_count; by rewrite !length_sb_put).
  destruct (runs_sync_super img1 s1 Ls1) as [c Hc]. set (s2 := fset (sb_at SB_checksum) c s1) in *.
  assert (length s2 = Ext4Superblock_size) as Ls2 by (unfold s2; by rewrite length_sb_put).
  destruct (set_free_blocks_layout (wsub (sb_free_blocks_count s) 1) c s 0 Hs) as [Q1 Q2].
  assert (group_pos s2 0 pos) as Hp2 by (unfold group_pos, s2, s1; by rewrite Q1).
  assert (sb_desc_size s2 ≤ 64) as Hd2 by (unfold s2, s1; by rewrite Q2).
  set (img2 := img_write img1 1024 s2) in *.
  set (r1 := r <| inode ::= ext4_inode_set_blocks_count (as_u32 (wadd (ext4_inode_get_blocks_count (inode r)) 8)) |>).
  destruct (runs_write_back fs img2 r1 gp ip) as (i' & Li & Hw); [done|done|exact (length_in_put IN_blocks _ (inode r) Hi)| |].
  { apply (inode_pos_img _ img); [|exact Hip]. unfold img2, img1.
    rewrite !img_bytes_write_other; [done|rewrite Lb; lia|rewrite Ls2; change (Z.of_nat Ext4Superblock_size) with 1024; lia]. }
  set (img3 := img_write img2 ip i') in *.
  set (b2 := set_free_blocks_count (as_u32 (wsub (get_free_blocks_count b1) 1)) b1).
  assert (length b2 = Ext4BlockGroup_size) as L2 by (repeat apply length_bg_put; done).
  destruct (runs_sync_group img3 s2 0 pos b2 Hp2 Ls2 L2 Hd2) as [c' Hc'].
  set (img4 := img_write img3 pos (bg_put BG_checksum c' b2)) in *.
  exists o, (r1 <| inode := i' |>), img4. split_and!; [exact Ho| |].
  - unfold balloc_alloc_block. eapply runs_bind; [apply runs_load_super|]. fold s. cbv zeta.
    eapply runs_bind; [apply runs_lift; unfold divO; by rewrite (proj2 (Z.eqb_neq _ _)) by lia|].
    eapply runs_bind; [apply runs_lift; unfold modO; by rewrite (proj2 (Z.eqb_neq _ _)) by lia|].
    rewrite Z.div_0_l, Z.mod_0_l by lia. eapply runs_bind; [by apply runs_load_group|].
    eapply runs_bind; [apply runs_block_at; lia|]. rewrite <-Hbb. fold bitmap.
    eapply runs_bind; [by apply runs_lift|]. eapply runs_bind; [by apply runs_lift|].
    eapply runs_bind; [by apply runs_lift|]. eapply runs_bind.
    { unfold wmul, wrap. change BLOCK_SIZE with 4096. rewrite <-Hbb. rewrite Z.mod_small by lia. apply runs_write; rewrite ?Lb; lia. }
    eapply runs_bind; [exact Hc|]. eapply runs_bind; [exact Hw|]. eapply runs_bind; [exact Hc'|]. apply runs_ret.
  - intros j Hj. rewrite <-Hbits by done. f_equal. unfold img4, img3, img2, img1.
    rewrite 3!img_bytes_write_other; [|rewrite ?length_bg_put, ?Li, ?Ls2 by done;
      change (Z.of_nat Ext4BlockGroup_size) with 64; change (Z.of_nat Ext4Inode_size) with 156;
      change (Z.of_nat Ext4Superblock_size) with 1024; lia..].
    pose proof (img_bytes_write_same img bb bitmap') as E. by rewrite Lb in E.
Qed.
End disk.

(** ** A disk in memory *)

Record RamDisk := Ram { ram_byte : image }.
#[export] Instance ram_device : OffsetDevice RamDisk := {|
  read_offset := λ o d, Ok (ram_byte d <$> seqZ o (4096 - o mod 512), d);
  write_offset := λ o data d, Ok ((), Ram (img_write (ram_byte d) o data)) |}.
#[export] Program Instance ram_device_ok : OffsetDeviceOk RamDisk := {| dev_byte := ram_byte |}.
Next Obligation. intros d o Ho. by exists d. Qed.
Next Obligation. intros d o data Ho Hmax. by eexists. Qed.

(** Structures with some fields set *)
Definition super_of (fields : list (Ext4Superblock_field * Z)) : list Z :=
  foldl (λ b '(f, v), fset (sb_at f) v b) (replicate Ext4Superblock_size 0) fields.
Definition group_of (fields : list (Ext4BlockGroup_field * Z)) : list Z :=
  foldl (λ b '(f, v), bg_put f v b) (replicate Ext4BlockGroup_size 0) fields.
(** A disk with a super block, a descriptor of the first group and a block *)
Definition disk_of (s g : list Z) (b : Z) (data : list Z) : image :=
  img_write (img_write (img_write (λ _, 0) 1024 s) 4096 g) (b * 4096) data.
Ltac decide_vm := apply (bool_decide_unpack _); vm_compute; exact I.

(** Two groups of sixteen inodes; the bitmap of the first is in block 2. *)
Definition sample_super : list Z := super_of
  [(SB_blocks_count_lo, 16); (SB_blocks_per_group, 8); (SB_inodes_per_group, 16); (SB_desc_size, 64)].
Definition sample_group : list Z := group_of [(BG_free_inodes_count_lo, 3); (BG_inode_bitmap_lo, 2); (BG_block_bitmap_lo, 2)].
Definition sample_img : image := disk_of sample_super sample_group 2 [0xFF; 0x1F].
Definition sample_fs (s : list Z) (groups : list (list Z)) : Ext4 :=
  {| super_block := s; block_groups := groups; last_inode_bg_id := 0 |}.

Lemma sample_layout : alloc_layout (sample_fs sample_super []) sample_img 4096.
Proof.
  split; [exists 2; split; [vm_compute; reflexivity|lia]|done| |decide_vm|decide_vm|decide_vm|decide_vm|decide_vm].
  exists 1, 0. split_and!; [vm_compute; reflexivity|lia|unfold W64; lia|lia|lia|lia].
Qed.
Lemma alloc_inode_first_free_witness :
  ∃ i img', runs (D := RamDisk) (ext4_ialloc_alloc_inode (sample_fs sample_super []) false) sample_img (Some (i + 1)) img' ∧
    first_clear (inode_bitmap sample_img sample_img 4096) 0 (fget (sb_at SB_inodes_per_group) (disk_super sample_img)) (Some i) ∧
    ∀ j, 0 ≤ j → bmap_bit (inode_bitmap sample_img img' 4096) j = bool_decide (j = i) || bmap_bit (inode_bitmap sample_img sample_img 4096) j.
Proof.
  apply (alloc_inode_first_free (sample_fs sample_super []) sample_img 4096 false 2 sample_layout).
  - vm_compute. reflexivity.
  - lia.
  - exists 13. split; [decide_vm|vm_compute; reflexivity].
  - decide_vm.
Defined.

(** One group *)
Definition single_super : list Z := super_of
  [(SB_blocks_count_lo, 8); (SB_blocks_per_group, 8); (SB_inodes_per_group, 16); (SB_desc_size, 64)].
Definition single_img : image := disk_of single_super sample_group 2 [0xFF; 0x1F].
Lemma alloc_inode_single_group_witness :
  ∃ img', runs (D := RamDisk) (ext4_ialloc_alloc_inode (sample_fs single_super []) true) single_img (Some 1) img'.
Proof.
  apply (alloc_inode_single_group (sample_fs single_super []) single_img 4096 true); [|vm_compute; reflexivity].
  split; [exists 1; split; [vm_compute; reflexivity|lia]|done| |decide_vm|decide_vm|decide_vm|decide_vm|decide_vm].
  exists 1, 0. split_and!; [vm_compute; reflexivity|lia|unfold W64; lia|lia|lia|lia].
Defined.

(** One group without a free inode *)
Definition full_img : image := disk_of single_super (group_of [(BG_inode_bitmap_lo, 2)]) 2 [0xFF; 0xFF].
Lemma alloc_inode_diverges_witness :
  ext4_ialloc_alloc_inode (sample_fs single_super []) false (Ram full_img) = NoFuel ∧
  ∀ fuel, loopM fuel (alloc_inode_turn 1 false) 0 (Ram full_img) = NoFuel.
Proof.
  apply (alloc_inode_diverges (sample_fs single_super []) full_img false 1); [vm_compute; reflexivity|lia|cbn; lia| |done].
  intros g Hg. assert (g = 0) as -> by lia. exists 4096. split; [|vm_compute; reflexivity].
  exists 1, 0. split_and!; [vm_compute; reflexivity|lia|unfold W64; lia|lia|lia|lia].
Defined.

(** A block for the inode 2, which is in block 4 *)
Definition balloc_super : list Z := super_of
  [(SB_blocks_count_lo, 16); (SB_blocks_per_group, 8); (SB_inodes_per_group, 16); (SB_desc_size, 64); (SB_inode_size, 256)].
Definition balloc_img : image :=
  disk_of balloc_super (group_of [(BG_block_bitmap_lo, 2); (BG_inode_table_first_block_lo, 4)]) 2 [0xFF; 0x1F].
Lemma balloc_first_free_witness :
  ∃ o r' img', first_clear (img_bytes balloc_img 8192 4096) 0 32768 o ∧
    runs (D := RamDisk) (balloc_alloc_block (sample_fs balloc_super []) {| inode_num := 2; inode := Ext4Inode_default |} 0)
      balloc_img (default 0 o, r') img' ∧
    ∀ j, 0 ≤ j → bmap_bit (img_bytes img' 8192 4096) j = bool_decide (j = default 0 o) || bmap_bit (img_bytes balloc_img 8192 4096) j.
Proof.
  apply (balloc_first_free _ _ _ 4096 4096 (4 * 4096 + 256)). 
  split; [decide_vm|decide_vm| |reflexivity|decide_vm|reflexivity| |vm_compute; reflexivity|decide_vm|decide_vm..].
  - exists 1, 0. split_and!; [vm_compute; reflexivity|lia|unfold W64; lia|lia|lia|lia].
  - exists 0, 1. split_and!; [vm_compute; reflexivity|vm_compute; reflexivity| |vm_compute; reflexivity|unfold W64; lia].
    exists 1, 0. split_and!; [vm_compute; reflexivity|lia|unfold W64; lia|lia|lia|lia].
Defined.
