(* ===== verification/Ext4FileSpec.v ===== *)
(** * Extents and the contents of files in ext4

    Looking a block up in the extents of an inode, and reading a file: what a reader gets is the
    content that the inode's extents and size describe on the disk. *)

From Stdlib Require Import ZArith Lia.
From stdpp Require Import functions prelude.
From S2P Require Import Prelude Drivers Ext4Layout Ext4 Ext4Spec.

Open Scope Z_scope.

(** ** The extents of an inode *)

(** The entries after the header in the inode's array [block] *)
Definition inode_extents (i : list Z) : list Ext4Extent :=
  (λ k, ee_decode (slice (in_block i) (12 + 12 * k) (24 + 12 * k))) <$>
    seq 0 (Z.to_nat (eh_entries_count (extent_header i))).
Definition covers (b : Z) (e : Ext4Extent) : Prop :=
  ee_first_block e ≤ b < add32 (ee_first_block e) (ee_block_count e).
#[export] Instance covers_dec b e : Decision (covers b e).
Proof. unfold covers. apply _. Defined.
(** The physical block of a block of the file *)
Definition extent_map (es : list Ext4Extent) (b : Z) : option Z :=
  (λ '(_, e), add32 (sub32 b (ee_first_block e)) (extent_pblock e)) <$> list_find (covers b) es.

(** On extents that are initialised (a count above 32768 marks an unwritten one) and that lie in the first 2^32 blocks, where
    the high part of the start is 0, this is the mapping that the format defines.  The code drops the high part and takes the
    count as it is. *)
Definition format_covers (b : Z) (e : Ext4Extent) : Prop := ee_first_block e ≤ b < ee_first_block e + ee_block_count e.
#[export] Instance format_covers_dec b e : Decision (format_covers b e).
Proof. unfold format_covers. apply _. Defined.
Definition format_map (es : list Ext4Extent) (b : Z) : option Z :=
  (λ '(_, e), ee_start_hi e * 2 ^ 32 + ee_start_lo e + (b - ee_first_block e)) <$> list_find (format_covers b) es.
Record initialised (e : Ext4Extent) : Prop := {
  ini_count : 0 ≤ ee_block_count e ≤ 32768;
  ini_file : 0 ≤ ee_first_block e ∧ ee_first_block e + ee_block_count e < 2 ^ 32;
  ini_disk : ee_start_hi e = 0 ∧ 0 ≤ ee_start_lo e ∧ ee_start_lo e + ee_block_count e < 2 ^ 32;
}.
Lemma extent_map_format es b : Forall initialised es → extent_map es b = format_map es b.
Proof.
  intros Hes. assert (∀ e, initialised e → covers b e ↔ format_covers b e) as Hc.
  { intros e [H1 H2 H3]. unfold covers, format_covers, add32. by rewrite as_u32_small by lia. }
  unfold extent_map, format_map. induction Hes as [|e es He Hes IH]; [done|]. cbn [list_find].
  destruct (decide (covers b e)) as [Hb|Hb].
  - rewrite decide_True by (by apply Hc). destruct He as [H1 (H2 & H2') (H3 & H4 & H5)]. unfold covers, add32 in Hb.
    rewrite as_u32_small in Hb by lia. cbn -[Z.pow]. f_equal. unfold extent_pblock, add32, sub32. rewrite H3.
    change (wshl 0 32) with 0. rewrite Z.lor_0_r, (as_u32_small (ee_start_lo e)), (as_u32_small (b - _)), as_u32_small; lia.
  - rewrite decide_False by (by rewrite <-Hc). destruct (list_find (covers b) es) as [[k x]|], (list_find (format_covers b) es) as [[k' x']|];
      cbn in *; congruence.
Qed.

(** An inode whose extents fit into the inode itself *)
Record flat_inode (i : list Z) : Prop := {
  fi_length : length i = Ext4Inode_size;
  fi_depth : extent_depth i = 0;
  fi_entries : 0 ≤ eh_entries_count (extent_header i) ≤ 4;
}.

Lemma length_in_block i : length i = Ext4Inode_size → length (in_block i) = 60%nat.
Proof. intros Hi. unfold in_block, fbytes. rewrite length_slice; cbn [in_at f_off f_len]; [done|]. rewrite Hi. cbv. lia. Qed.

Lemma read_struct_slice n l k :
  (k + n ≤ length l)%nat → read_struct n (drop k l) = Ok (slice l k (k + n)).
Proof.
  intros Hk. unfold read_struct, slice. rewrite length_drop.
  destruct (Nat.leb_spec n (length l - k)); [|lia]. by replace (k + n - k)%nat with n by lia.
Qed.

Lemma slice_slice {A} (l : list A) a b i j : (a + j ≤ b)%nat → slice (slice l a b) i j = slice l (a + i) (a + j).
Proof.
  intros Hj. unfold slice. rewrite skipn_firstn_comm, drop_drop, firstn_firstn. f_equal. lia.
Qed.

Lemma mapO_fmap {A B} (f : A → outcome B) (g : A → B) l : (∀ x, x ∈ l → f x = Ok (g x)) → mapO f l = Ok (g <$> l).
Proof.
  induction l as [|x l IH]; intros H; [done|]. cbn [mapO]. rewrite (H x) by left. cbn.
  rewrite IH by (intros; apply H; by right). done.
Qed.

Lemma load_flat_inode i :
  flat_inode i →
  load_from_header (in_block i) =
    Ok {| tn_header := extent_header i; tn_extents := inode_extents i; tn_indexes := [] |}.
Proof.
  intros [Hl Hd He]. pose proof (length_in_block i Hl) as Lb. unfold load_from_header, load_tree_node.
  assert (Ext4ExtentHeader_try_from (in_block i) = Ok (extent_header i)) as Eh.
  { unfold Ext4ExtentHeader_try_from. rewrite <-(drop_0 (in_block i)) at 1. rewrite read_struct_slice by (rewrite Lb; lia).
    cbn [mbind outcome_bind]. unfold extent_header, eh_decode. by rewrite !slice_slice by lia. }
  rewrite (obind_Ok _ _ _ Eh). cbv zeta. unfold extent_depth in Hd. rewrite Hd, Z.eqb_refl.
  rewrite (obind_Ok _ _ (inode_extents i)); [done|]. apply mapO_fmap. intros k Hk%elem_of_seq. unfold load_entry.
  replace (4 * Z.to_nat (add16 (Z.of_nat (12 / 4)) (as_u16 (Z.of_nat k * Z.of_nat (12 / 4)))))%nat with (12 + 12 * k)%nat.
  2: { change (Z.of_nat (12 / 4)) with 3. unfold add16, as_u16. rewrite (Z.mod_small (_ * 3)), Z.mod_small by lia. lia. }
  unfold slice_from. rewrite Lb. destruct (Nat.leb_spec (12 + 12 * k) 60); [|lia].
  cbn [mbind outcome_bind]. unfold Ext4Extent_try_from. rewrite read_struct_slice by (rewrite Lb; lia).
  cbn [mbind outcome_bind]. by replace (12 + 12 * k + 12)%nat with (24 + 12 * k)%nat by lia.
Qed.

Section files.
Context {D : Type} `{!OffsetDevice D, !OffsetDeviceOk D}.
Implicit Types (img : image).

Lemma list_find_covers b es :
  list_find (λ e, ee_first_block e ≤ b < add32 (ee_first_block e) (ee_block_count e)) es = list_find (covers b) es.
Proof. induction es as [|e es IH]; [done|]. cbn [list_find]. rewrite IH. apply decide_ext. done. Qed.

Lemma find_extent_flat r img b :
  flat_inode (inode r) →
  ∃ path, runs (find_extent_new (D := D) r b) img path img ∧
    match list_find (covers b) (inode_extents (inode r)) with
    | Some (_, e) => last path = Some {| pn_depth := 0; pn_first_block := ee_first_block e; pn_block_count := ee_block_count e;
                         pn_start_hi := ee_start_hi e; pn_start_lo := ee_start_lo e; pn_p_block := Some (extent_pblock e) |}
    | None => last path = None
    end.
Proof.
  intros Hf. unfold find_extent_new. rewrite (load_flat_inode _ Hf).
  pose proof (fi_depth _ Hf) as Hd. unfold extent_depth in Hd.
  destruct (list_find (covers b) (inode_extents (inode r))) as [[k e]|] eqn:E; eexists; split;
    try (eapply runs_bind; [by apply runs_lift|]; cbn [tn_header tn_extents node_find_extent]; rewrite Hd, Z.eqb_refl;
         rewrite list_find_covers, E; apply runs_ret); done.
Qed.

(** Looking up a block of a file: the block of the first extent that covers it; a block that no extent
    covers stops the kernel. *)
Lemma get_pblock_flat fs r img b :
  flat_inode (inode r) →
  match extent_map (inode_extents (inode r)) b with
  | Some p => runs (get_pblock (D := D) fs r b) img p img
  | None => panics (get_pblock (D := D) fs r b) img Unwrap
  end.
Proof.
  intros Hf. destruct (find_extent_flat r img b Hf) as (path & Hr & Hlast). unfold extent_map.
  destruct (list_find (covers b) (inode_extents (inode r))) as [[k e]|]; cbn [fmap option_fmap option_map].
  - assert (∃ cnt, runs (get_blocks_new (D := D) fs r b 1 false) img
              (add32 (sub32 b (ee_first_block e)) (extent_pblock e), cnt, r) img) as [cnt Hg].
    { eexists. unfold get_blocks_new. eapply runs_bind; [exact Hr|]. rewrite Hlast. eapply runs_bind; [by apply runs_lift|].
      cbn [pn_p_block negb orb pn_first_block]. cbv zeta.
      replace (as_u32 (extent_pblock e)) with (extent_pblock e) by (unfold extent_pblock, as_u32; by rewrite Zmod_mod).
      apply runs_ret. }
    unfold get_pblock. eapply runs_bind; [exact Hg|apply runs_ret].
  - unfold get_pblock, get_blocks_new. apply panics_bind_l. eapply panics_bind_r; [exact Hr|].
    rewrite Hlast. apply panics_bind_l. by apply panics_lift.
Qed.

(** ** Inodes *)

(** The position from which [get_inode_ref] reads: it uses the descriptors loaded by [open]. *)
Definition cached_inode_pos (fs : Ext4) (n pos : Z) : Prop :=
  let s := super_block fs in
  ∃ g idx bg, divO (sub32 n 1) (fget (sb_at SB_inodes_per_group) s) = Ok g ∧
    modO (sub32 n 1) (fget (sb_at SB_inodes_per_group) s) = Ok idx ∧ block_groups fs !! Z.to_nat g = Some bg ∧
    pos = wadd (wmul (get_inode_table_blk_num bg) BLOCK_SIZE) (wmul idx (fget (sb_at SB_inode_size) s)) ∧
    pos + 4096 < W64.

Definition disk_inode (img : image) (pos : Z) : list Z := img_bytes img pos Ext4Inode_size.

Lemma runs_get_inode_ref fs n pos img :
  cached_inode_pos fs n pos → runs (get_inode_ref (D := D) fs n) img {| inode_num := n; inode := disk_inode img pos |} img.
Proof.
  intros (g & idx & bg & Eg & Ei & Eb & Hpos & Hmax). unfold get_inode_ref.
  eapply runs_bind; [by apply runs_lift|]. eapply runs_bind; [by apply runs_lift|].
  rewrite Eb. eapply runs_bind; [apply runs_ret|]. cbv zeta. rewrite <-Hpos.
  assert (0 ≤ pos) by (rewrite Hpos; unfold wadd, wrap; apply Z.mod_pos_bound; unfold W64; lia).
  pose proof (Z.mod_pos_bound pos 512).
  eapply runs_bind; [apply runs_read; lia|]. eapply runs_bind; [|apply runs_ret].
  apply runs_lift. unfold Ext4Inode_try_from, slice_to. rewrite length_img_bytes.
  destruct (Nat.leb_spec Ext4Inode_size (Z.to_nat (4096 - pos mod 512))) as [Hle|Hgt].
  - by rewrite img_bytes_take.
  - change Ext4Inode_size with 156%nat in Hgt. lia.
Qed.

(** ** Contents of files *)

Definition file_byte (img : image) (es : list Ext4Extent) (p : Z) : Z :=
  match extent_map es (p / 4096) with
  | Some pb => if pb =? 0 then 0 else img (pb * 4096 + p mod 4096)
  | None => 0
  end.
Definition file_content (img : image) (es : list Ext4Extent) (off : Z) (n : nat) : list Z :=
  file_byte img es <$> seqZ off (Z.of_nat n).

Lemma length_file_content img es off n : length (file_content img es off n) = n.
Proof. unfold file_content. rewrite length_fmap, length_seqZ. lia. Qed.
Lemma file_content_app img es off n m :
  file_content img es off (n + m) = file_content img es off n ++ file_content img es (off + Z.of_nat n) m.
Proof. unfold file_content. rewrite Nat2Z.inj_add, seqZ_app, fmap_app by lia. done. Qed.

Lemma extent_map_range es b p : extent_map es b = Some p → 0 ≤ p < 2 ^ 32.
Proof.
  unfold extent_map. destruct (list_find _ _) as [[k e]|]; [|done]. intros [= <-].
  unfold add32, as_u32. apply Z.mod_pos_bound. lia.
Qed.

(** The buffer after the first [n] bytes have been read *)
Definition filled (img : image) (es : list Ext4Extent) (off : Z) (buf : list Z) (n : nat) : list Z :=
  file_content img es off n ++ drop n buf.
Lemma length_filled img es off buf n : (n ≤ length buf)%nat → length (filled img es off buf n) = length buf.
Proof. intros Hn. unfold filled. rewrite length_app, length_file_content, length_drop. lia. Qed.
Lemma filled_more img es off buf n m :
  (n + m ≤ length buf)%nat →
  splice (filled img es off buf n) n (file_content img es (off + Z.of_nat n) m) = filled img es off buf (n + m).
Proof.
  intros Hn. unfold filled, splice. rewrite file_content_app, length_file_content.
  rewrite take_app_length' by (by rewrite length_file_content). rewrite <-app_assoc. f_equal. f_equal.
  rewrite drop_app_ge by (rewrite length_file_content; lia). rewrite length_file_content, drop_drop. f_equal. lia.
Qed.

Section reading.
Context (fs : Ext4) (r : Ext4InodeRef) (img : image).
Context (Hflat : flat_inode (inode r)).
Let es := inode_extents (inode r).

Lemma piece_content b pb unalg len :
  extent_map es b = Some pb → pb ≠ 0 → 0 ≤ unalg → unalg + Z.of_nat len ≤ 4096 →
  img_bytes img (pb * 4096 + unalg) len = file_content img es (b * 4096 + unalg) len.
Proof.
  intros Hb Hpb Hu Hl. apply list_eq_same_length with len; [apply length_file_content|apply length_img_bytes|].
  intros k x y Hk. rewrite img_bytes_lookup by done. unfold file_content. rewrite list_lookup_fmap, lookup_seqZ_lt by lia.
  intros [= <-] [= <-]. unfold file_byte.
  replace ((b * 4096 + unalg + Z.of_nat k) / 4096) with b by (Z.to_euclidean_division_equations; lia).
  rewrite Hb. rewrite (proj2 (Z.eqb_neq _ _)) by done. f_equal. Z.to_euclidean_division_equations; lia.
Qed.
Lemma piece_hole b unalg len :
  extent_map es b = Some 0 → 0 ≤ unalg → unalg + Z.of_nat len ≤ 4096 →
  replicate len 0 = file_content img es (b * 4096 + unalg) len.
Proof.
  intros Hb Hu Hl. apply list_eq_same_length with len; [apply length_file_content|apply length_replicate|].
  intros k x y Hk. rewrite lookup_replicate_2 by done. unfold file_content. rewrite list_lookup_fmap, lookup_seqZ_lt by lia.
  intros [= <-] [= <-]. unfold file_byte.
  replace ((b * 4096 + unalg + Z.of_nat k) / 4096) with b by (Z.to_euclidean_division_equations; lia). by rewrite Hb.
Qed.

Lemma read_piece_runs b unalg len buf off :
  is_Some (extent_map es b) → 0 ≤ unalg → unalg + Z.of_nat len ≤ 4096 → (off + len ≤ length buf)%nat →
  runs (read_piece (D := D) fs r b unalg len buf off) img
    (splice buf off (file_content img es (b * 4096 + unalg) len)) img.
Proof.
  intros [pb Hb] Hu Hl Hoff. pose proof (get_pblock_flat fs r img b Hflat) as Hp. fold es in Hp. rewrite Hb in Hp.
  pose proof (extent_map_range _ _ _ Hb) as Hr. unfold read_piece. eapply runs_bind; [exact Hp|].
  eapply runs_bind with (a := file_content img es (b * 4096 + unalg) len) (img1 := img).
  - destruct (Z.eqb_spec pb 0) as [->|Hne]; cbn [negb].
    + rewrite <-(piece_hole b) by done. apply runs_ret.
    + unfold wadd, wmul, wrap. change BLOCK_SIZE with 4096. rewrite (Z.mod_small (pb * 4096)), Z.mod_small by (unfold W64; lia).
      eapply runs_bind; [apply runs_read; unfold W64; lia|]. apply runs_lift. unfold slice_to. rewrite length_img_bytes.
      rewrite (proj2 (Nat.leb_le _ _)) by (Z.to_euclidean_division_equations; lia).
      rewrite img_bytes_take by (Z.to_euclidean_division_equations; lia). by rewrite (piece_content b).
  - rewrite (proj2 (Nat.leb_le _ _)) by done. apply runs_ret.
Qed.

(** The loop over whole blocks *)
Lemma file_read_done size ib buf fuel :
  runs (loopM (S fuel) (file_read_turn (D := D) fs r size) (ib, size, buf)) img (size, buf) img.
Proof. cbn [loopM]. eapply runs_bind; [unfold file_read_turn; rewrite Z.ltb_irrefl; apply runs_ret|apply runs_ret]. Qed.

Lemma file_read_loop fpos size buf : ∀ fuel b total,
  0 ≤ fpos → 0 ≤ total ≤ size → fpos + size < 2 ^ 43 → size ≤ Z.of_nat (length buf) →
  (total < size → b * 4096 = fpos + total) → size - total < 4096 * Z.of_nat fuel →
  (∀ b, fpos / 4096 ≤ b → b * 4096 < fpos + size → is_Some (extent_map es b)) →
  runs (loopM (S fuel) (file_read_turn (D := D) fs r size) (b, total, filled img es fpos buf (Z.to_nat total))) img
    (size, filled img es fpos buf (Z.to_nat size)) img.
Proof.
  induction fuel as [|fuel IH]; intros b total Hfp Ht Hmax Hbuf Hal Hf Hmap; [lia|].
  destruct (decide (total = size)) as [->|Hne]; [apply file_read_done|]. cbn [loopM].
  set (len := Z.min 4096 (size - total)). assert (b * 4096 = fpos + total) as Hb by (apply Hal; lia).
  assert (0 < len ≤ 4096) as Hlen by lia.
  assert (runs (file_read_turn (D := D) fs r size (b, total, filled img es fpos buf (Z.to_nat total))) img
            (inl (b + 1, total + len, filled img es fpos buf (Z.to_nat (total + len)))) img) as Hturn.
  { unfold file_read_turn. rewrite (proj2 (Z.ltb_lt _ _)) by lia. cbn [negb]. change BLOCK_SIZE with 4096. fold len.
    eapply runs_bind.
    - apply read_piece_runs; [apply Hmap; [Z.to_euclidean_division_equations; lia|lia]|lia|lia|].
      rewrite length_filled by lia. lia.
    - rewrite Z.add_0_r, Hb. replace (fpos + total) with (fpos + Z.of_nat (Z.to_nat total)) by lia.
      rewrite filled_more by lia. replace (Z.to_nat total + Z.to_nat len)%nat with (Z.to_nat (total + len)) by lia.
      rewrite add32_small by lia. apply runs_ret. }
  eapply runs_bind; [exact Hturn|]. cbv beta iota.
  destruct (decide (total + len = size)) as [->|Hmore]; [|apply IH; try done; lia].
  apply file_read_done.
Qed.

(** The bytes up to the first block boundary *)
Lemma file_read_head fpos size buf :
  0 ≤ fpos → 0 ≤ size → fpos + size < 2 ^ 43 → size ≤ Z.of_nat (length buf) → fpos mod 4096 ≠ 0 →
  is_Some (extent_map es (fpos / 4096)) →
  runs (read_piece (D := D) fs r (as_u32 (fpos / 4096)) (fpos mod 4096)
          (Z.to_nat (Z.min (4096 - fpos mod 4096) size)) buf 0) img
    (filled img es fpos buf (Z.to_nat (Z.min (4096 - fpos mod 4096) size))) img.
Proof.
  intros Hfp Hs Hmax Hbuf Hu Hm. pose proof (Z.mod_pos_bound fpos 4096).
  rewrite as_u32_small by (Z.to_euclidean_division_equations; lia).
  set (len := Z.to_nat (Z.min (4096 - fpos mod 4096) size)). assert (Z.of_nat len ≤ 4096 - fpos mod 4096 ∧ (len ≤ length buf)%nat) by lia.
  replace (filled img es fpos buf len) with (splice buf 0 (file_content img es (fpos / 4096 * 4096 + fpos mod 4096) len)).
  - apply read_piece_runs; [done|lia..].
  - replace (fpos / 4096 * 4096 + fpos mod 4096) with fpos by (Z.to_euclidean_division_equations; lia).
    unfold splice, filled. by rewrite length_file_content.
Qed.
End reading.

(** The read of the kernel's inode, for the callers of the virtual file system *)
Lemma read_at_runs fs img ino pos offset buf :
  let i := disk_inode img pos in
  let size := inode_get_size i in
  let n := (length buf `min` Z.to_nat (size - offset))%nat in
  cached_inode_pos fs ino pos → flat_inode i → 0 ≤ offset ≤ size → size < 2 ^ 43 →
  (∀ b, 0 ≤ b → b * 4096 < size → is_Some (extent_map (inode_extents i) b)) →
  runs (Inode_read_at (D := D) fs ino offset buf) img
    (Z.of_nat n, file_content img (inode_extents i) offset n ++ drop n buf) img.
Proof.
  intros i size n Hpos Hflat Hoff Hsz Hmap. unfold Inode_read_at.
  set (file := Ext4File_new <| f_inode := ino |> <| f_fpos := offset |> <| f_fsize := offset |>).
  enough (∃ f', runs (ext4_file_read (D := D) fs file buf (Z.of_nat (length buf))) img
            (inl EOK, f', file_content img (inode_extents i) offset n ++ drop n buf, Z.of_nat n) img) as [f' Hr].
  { eapply runs_bind; [exact Hr|apply runs_ret]. }
  unfold ext4_file_read. change (f_fpos file) with offset. change (f_fsize file) with offset. rewrite Z.ltb_irrefl.
  destruct (Z.eqb_spec (Z.of_nat (length buf)) 0) as [H0|H0].
  { assert (n = 0%nat) as -> by lia. eexists. apply runs_ret. }
  eexists. change (f_inode file) with ino. eapply runs_bind; [by apply runs_get_inode_ref|]. cbv zeta. fold i.
  set (r := {| inode_num := ino; inode := i |}). change (inode r) with i. fold size.
  change (f_fsize (file <| f_fsize := size |>)) with size. change (f_fpos (file <| f_fsize := size |>)) with offset.
  replace (wsub size offset) with (size - offset) by (unfold wsub, wrap; rewrite Z.mod_small by (unfold W64; lia); done).
  set (sz := if size - offset <? Z.of_nat (length buf) then size - offset else Z.of_nat (length buf)).
  assert (sz = Z.of_nat n) as Hszn by (unfold sz; destruct (Z.ltb_spec (size - offset) (Z.of_nat (length buf))); lia).
  rewrite Hszn. change BLOCK_SIZE with 4096.
  eapply runs_bind with (img1 := img) (a := (if 0 <? offset mod 4096 then offset / 4096 + 1 else offset / 4096,
    if 0 <? offset mod 4096 then Z.min (4096 - offset mod 4096) (Z.of_nat n) else 0,
    filled img (inode_extents i) offset buf
      (Z.to_nat (if 0 <? offset mod 4096 then Z.min (4096 - offset mod 4096) (Z.of_nat n) else 0)))).
  { destruct (Z.ltb_spec 0 (offset mod 4096)) as [Hu|Hu].
    - eapply runs_bind; [apply (file_read_head fs r img Hflat); try lia|].
      + apply Hmap; Z.to_euclidean_division_equations; lia.
      + rewrite as_u32_small, add32_small by (Z.to_euclidean_division_equations; lia). apply runs_ret.
    - rewrite as_u32_small by (Z.to_euclidean_division_equations; lia). apply runs_ret. }
  cbv beta iota. apply runs_bind with (img1 := img)
    (a := (Z.of_nat n, filled img (inode_extents i) offset buf (Z.to_nat (Z.of_nat n))));
    [|cbv beta iota; rewrite Nat2Z.id; apply runs_ret].
  assert (Z.of_nat n ≤ Z.of_nat (length buf) ∧ offset + Z.of_nat n ≤ size) by lia.
  apply (file_read_loop fs r img Hflat); destruct (Z.ltb_spec 0 (offset mod 4096)) as [Hu|Hu]; try lia.
  all: try (intros b Hb1 Hb2; apply Hmap; [|lia]).
  all: Z.to_euclidean_division_equations; lia.
Qed.

(** C13: Reading at an offset within a file whose blocks are all mapped returns exactly the bytes of the
    file from there, as many as the buffer holds and the file has, and leaves the disk as it is. *)
Theorem read_at_contents fs img ino pos offset buf :
  let i := disk_inode img pos in
  let size := inode_get_size i in
  let n := (length buf `min` Z.to_nat (size - offset))%nat in
  cached_inode_pos fs ino pos → flat_inode i → 0 ≤ offset ≤ size → size < 2 ^ 43 →
  (∀ b, 0 ≤ b → b * 4096 < size → is_Some (extent_map (inode_extents i) b)) →
  runs (Inode_read_at (D := D) fs ino offset buf) img
    (Z.of_nat n, file_content img (inode_extents i) offset n ++ drop n buf) img.
Proof. apply read_at_runs. Qed.

Lemma read_piece_unmapped fs r img b unalg len buf off :
  flat_inode (inode r) → extent_map (inode_extents (inode r)) b = None →
  panics (read_piece (D := D) fs r b unalg len buf off) img Unwrap.
Proof.
  intros Hf Hb. pose proof (get_pblock_flat fs r img b Hf) as Hp. rewrite Hb in Hp. by apply panics_bind_l.
Qed.

(** A read that starts in a block that no extent maps stops the kernel: in a hole of the file, where
    the bytes should be zero, and past the end, where nothing should be read. *)
Theorem read_unmapped_panics fs img ino pos offset buf :
  let i := disk_inode img pos in
  cached_inode_pos fs ino pos → flat_inode i → 0 < Z.of_nat (length buf) < 2 ^ 62 →
  0 ≤ inode_get_size i < 2 ^ 43 → 0 ≤ offset < 2 ^ 43 → offset ≠ inode_get_size i →
  extent_map (inode_extents i) (offset / 4096) = None →
  panics (Inode_read_at (D := D) fs ino offset buf) img Unwrap.
Proof.
  intros i Hpos Hflat Hbuf Hsz Hoff Hne Hmap. unfold Inode_read_at. apply panics_bind_l.
  set (file := Ext4File_new <| f_inode := ino |> <| f_fpos := offset |> <| f_fsize := offset |>).
  unfold ext4_file_read. change (f_fpos file) with offset. change (f_fsize file) with offset. rewrite Z.ltb_irrefl.
  rewrite (proj2 (Z.eqb_neq _ _)) by lia. change (f_inode file) with ino.
  eapply panics_bind_r; [by apply runs_get_inode_ref|]. cbv zeta. fold i.
  set (r := {| inode_num := ino; inode := i |}). change (inode r) with i.
  set (size := inode_get_size i) in *.
  change (f_fsize (file <| f_fsize := size |>)) with size. change (f_fpos (file <| f_fsize := size |>)) with offset.
  set (sz := if _ <? _ then wsub size offset else _). change BLOCK_SIZE with 4096.
  assert (0 < sz) as Hs.
  { unfold sz, wsub, wrap, W64. destruct (Z.ltb_spec ((size - offset) mod 2 ^ 64) (Z.of_nat (length buf))); [|lia].
    Z.to_euclidean_division_equations; lia. }
  clearbody sz. rewrite as_u32_small by (Z.to_euclidean_division_equations; lia).
  destruct (Z.ltb_spec 0 (offset mod 4096)) as [Hu|Hu].
  - apply panics_bind_l. apply panics_bind_l. by apply read_piece_unmapped.
  - eapply panics_bind_r; [apply runs_ret|]. cbv beta iota. apply panics_bind_l. cbn [loopM].
    apply panics_bind_l. unfold file_read_turn. rewrite (proj2 (Z.ltb_lt _ _)) by lia. cbn [negb].
    apply panics_bind_l. by apply read_piece_unmapped.
Qed.

(** Writing to a file stops the kernel, whatever the file, the offset and the data: the file that is
    handed to the library has inode number 0, which belongs to no group. *)
Theorem write_at_panics fs img ino pos offset buf :
  cached_inode_pos fs ino pos → 0 < fget (sb_at SB_inodes_per_group) (super_block fs) →
  Z.of_nat (length (block_groups fs)) * fget (sb_at SB_inodes_per_group) (super_block fs) < 2 ^ 32 →
  panics (Inode_write_at (D := D) fs ino offset buf) img Bounds.
Proof.
  intros Hpos Hipg Hgroups. unfold Inode_write_at. eapply panics_bind_r; [by apply runs_get_inode_ref|].
  cbv zeta. apply panics_bind_l. unfold ext4_file_write. eapply panics_bind_r; [apply runs_load_super|].
  apply panics_bind_l. unfold get_inode_ref. set (ipg := fget _ (super_block fs)) in *.
  match goal with |- context [f_inode ?f] => change (f_inode f) with 0 end. change (sub32 0 1) with (2 ^ 32 - 1).
  eapply panics_bind_r; [apply runs_lift; unfold divO; by rewrite (proj2 (Z.eqb_neq _ _)) by lia|].
  eapply panics_bind_r; [apply runs_lift; unfold modO; by rewrite (proj2 (Z.eqb_neq _ _)) by lia|].
  rewrite lookup_ge_None_2; [apply panics_bind_l, panics_here|].
  assert (Z.of_nat (length (block_groups fs)) ≤ (2 ^ 32 - 1) / ipg); [|lia].
  apply Z.div_le_lower_bound; lia.
Qed.
End files.

(** ** Inserting extents *)

Record extent_in_range (e : Ext4Extent) : Prop := {
  er_first : 0 ≤ ee_first_block e < 2 ^ 32;
  er_count : 0 ≤ ee_block_count e < 2 ^ 16;
  er_hi : 0 ≤ ee_start_hi e < 2 ^ 16;
  er_lo : 0 ≤ ee_start_lo e < 2 ^ 32;
}.
Lemma length_ee_bytes e : length (ee_bytes e) = 12%nat.
Proof. done. Qed.
Lemma ee_roundtrip e : extent_in_range e → ee_decode (ee_bytes e) = e.
Proof.
  intros [H1 H2 H3 H4]. destruct e as [f c h l]. cbn [ee_first_block ee_block_count ee_start_hi ee_start_lo] in *.
  unfold ee_decode, ee_bytes. cbn [ee_first_block ee_block_count ee_start_hi ee_start_lo].
  f_equal; [exact (le_word_le_bytes 4 f ltac:(cbn; lia))|exact (le_word_le_bytes 2 c ltac:(cbn; lia))
    |exact (le_word_le_bytes 2 h ltac:(cbn; lia))|exact (le_word_le_bytes 4 l ltac:(cbn; lia))].
Qed.

Lemma in_block_set b i : length i = Ext4Inode_size → length b = 60%nat → in_block (set_in_block b i) = b.
Proof.
  intros Hi Hb. unfold in_block, set_in_block, fbytes. cbn [in_at f_off f_len].
  pose proof (slice_splice_same i 40 b) as E. rewrite Hb in E. apply E. rewrite Hi. cbv. lia.
Qed.

(** Overwriting the entry [k] *)
Lemma put_extent_extents i k e :
  flat_inode i → (k < length (inode_extents i))%nat → extent_in_range e →
  ∃ block', put_extent (in_block i) k e = Ok block' ∧ flat_inode (set_in_block block' i) ∧
    inode_extents (set_in_block block' i) = <[k := e]> (inode_extents i).
Proof.
  intros [Hl Hd He] Hk Hr. unfold inode_extents in Hk. rewrite length_fmap, length_seq in Hk.
  pose proof (length_in_block i Hl) as Lb. exists (splice (in_block i) (12 + 12 * k) (ee_bytes e)).
  set (block' := splice _ _ _).
  assert (length block' = 60%nat) as Lb' by (unfold block'; rewrite length_splice; rewrite ?length_ee_bytes; lia).
  assert (extent_header (set_in_block block' i) = extent_header i) as Eh.
  { unfold extent_header. rewrite in_block_set by done. unfold block', eh_decode.
    rewrite !(slice_splice_other (in_block i) (12 + 12 * k)); rewrite ?length_ee_bytes; done || lia. }
  split_and!.
  - unfold put_extent, write_struct. by rewrite (proj2 (Nat.leb_le _ _)) by (rewrite length_ee_bytes; lia).
  - split; [|unfold extent_depth; by rewrite Eh|by rewrite Eh].
    unfold set_in_block. rewrite length_splice; cbn [in_at f_off]; rewrite ?Lb'; [done|]. rewrite Hl. cbv; lia.
  - unfold inode_extents. rewrite Eh, in_block_set by done.
    set (n := Z.to_nat (eh_entries_count (extent_header i))) in *.
    apply list_eq_same_length with n; rewrite ?length_insert, ?length_fmap, ?length_seq; [done..|].
    intros j x y Hj. rewrite list_lookup_fmap, lookup_seq_lt by done. cbn [fmap option_fmap option_map].
    change (0 + j)%nat with j. destruct (decide (j = k)) as [->|Hne].
    + rewrite list_lookup_insert_eq by (rewrite length_fmap, length_seq; done). intros <-%(inj Some) <-%(inj Some).
      unfold block'. pose proof (slice_splice_same (in_block i) (12 + 12 * k) (ee_bytes e)) as E.
      rewrite length_ee_bytes in E. replace (24 + 12 * k)%nat with (12 + 12 * k + 12)%nat by lia.
      rewrite E by lia. by apply ee_roundtrip.
    + rewrite list_lookup_insert_ne by done. rewrite list_lookup_fmap, lookup_seq_lt by done.
      cbn [fmap option_fmap option_map]. change (0 + j)%nat with j. intros <-%(inj Some) <-%(inj Some). unfold block'. rewrite slice_splice_other; rewrite ?length_ee_bytes; done || lia.
Qed.

(** Appending a block behind an extent of an inode ignores which block was allocated: the file's new
    block is mapped to the physical block after the extent, whatever [alloc] is. *)
Theorem append_ignores_allocated_block i k e b alloc :
  flat_inode i → inode_extents i !! k = Some e → extent_in_range e → ee_block_count e < EXT_INIT_MAX_LEN →
  b = ee_first_block e + ee_block_count e → b < 2 ^ 32 - 1 →
  (∀ j e', inode_extents i !! j = Some e' → (j < k)%nat → ¬ covers b e') →
  ∃ block', insert_leaf (in_block i) (Some k) (new_extent b alloc 1) = Ok (EOK, block') ∧
    extent_map (inode_extents (set_in_block block' i)) b = Some (add32 (ee_block_count e) (extent_pblock e)).
Proof.
  intros Hf Hk [R1 R2 R3 R4] Hc Hb Hmax Hbefore. unfold EXT_INIT_MAX_LEN in *.
  set (e' := e <| ee_block_count := ee_block_count e + 1 |>).
  assert (k < length (inode_extents i))%nat as Hlt by (by apply lookup_lt_Some in Hk).
  destruct (put_extent_extents i k e' Hf Hlt) as (block' & Eput & _ & Hes); [split; cbn; lia|].
  exists block'. split.
  - unfold insert_leaf. assert (extent_at (in_block i) k = Ok e) as ->.
    { unfold inode_extents in Hk. rewrite list_lookup_fmap in Hk. apply fmap_Some in Hk as (k' & Hk' & ->).
      apply lookup_seq in Hk' as [-> Hk']. destruct Hf as [Hl _ He]. unfold extent_at, entry_at.
      rewrite read_struct_slice by (rewrite length_in_block by done; lia). cbn [mbind outcome_bind].
      change (0 + k)%nat with k. by replace (24 + 12 * k)%nat with (12 + 12 * k + 12)%nat by lia. }
    assert (is_unwritten e = false) as Hu by (unfold is_unwritten, EXT_INIT_MAX_LEN; apply Z.ltb_ge; lia).
    assert (new_extent b alloc 1 = {| ee_first_block := b; ee_block_count := 1; ee_start_hi := start_hi_of alloc;
                                      ee_start_lo := Z.land (as_u32 alloc) 0xffffffff |}) as ->.
    { unfold new_extent, EXT_MAX_BLOCKS. rewrite sub32_small by lia. destruct (Z.ltb_spec 1 (2 ^ 32 - 1 - b)); [done|].
      by replace (2 ^ 32 - 1 - b) with 1 by lia. }
    set (ne := {| ee_first_block := b |}). cbn [mbind outcome_bind].
    assert (can_append e ne = true) as ->.
    { unfold can_append, get_actual_len. rewrite Hu. change (is_unwritten ne) with false. cbn [ne ee_first_block ee_block_count].
      rewrite add32_small by lia. unfold add16, as_u16, EXT_INIT_MAX_LEN. rewrite Z.mod_small by lia.
      apply andb_true_intro. split; [apply Z.eqb_eq|apply Z.leb_le]; lia. }
    rewrite Hu. change (get_actual_len ne) with 1.
    replace (add16 (ee_block_count e) 1) with (ee_block_count e + 1) by (unfold add16, as_u16; rewrite Z.mod_small by lia; done).
    fold e'. cbn [mbind outcome_bind]. by rewrite Eput.
  - rewrite Hes. unfold extent_map.
    assert (list_find (covers b) (<[k := e']> (inode_extents i)) = Some (k, e')) as ->; [apply list_find_Some; split_and!|].
    + by rewrite list_lookup_insert_eq.
    + unfold covers. cbn. rewrite add32_small by lia. lia.
    + intros j y Hj Hjk. rewrite list_lookup_insert_ne in Hj by lia. by eapply Hbefore.
    + cbn. rewrite sub32_small by lia. by replace (b - ee_first_block e) with (ee_block_count e) by lia.
Qed.

(** ** A file of two extents: 5000 bytes in the blocks 10 and 12, at the inode 12 *)

Definition inode_of (size : Z) (extents : list Ext4Extent) : list Z :=
  set_in_block (eh_bytes {| eh_magic := EXT4_EXTENT_MAGIC; eh_entries_count := Z.of_nat (length extents);
                            eh_max_entries_count := 4; eh_depth := 0; eh_generation := 0 |} ++ mjoin (ee_bytes <$> extents))
    (ext4_inode_set_size size (in_put IN_mode (EXT4_INODE_MODE_FILE + 438) Ext4Inode_default)).
Definition file_inode : list Z := inode_of 5000
  [{| ee_first_block := 0; ee_block_count := 1; ee_start_hi := 0; ee_start_lo := 10 |};
   {| ee_first_block := 1; ee_block_count := 1; ee_start_hi := 0; ee_start_lo := 12 |}].
Definition file_super : list Z := super_of
  [(SB_blocks_count_lo, 16); (SB_blocks_per_group, 16); (SB_inodes_per_group, 16); (SB_desc_size, 64); (SB_inode_size, 256)].
Definition file_fs : Ext4 := sample_fs file_super [group_of [(BG_inode_table_first_block_lo, 4)]].
Definition file_img : image := img_write (λ i, i mod 251) (4 * 4096 + 11 * 256) file_inode.

Lemma file_pos : cached_inode_pos file_fs 12 (4 * 4096 + 11 * 256).
Proof.
  exists 0, 11, (group_of [(BG_inode_table_first_block_lo, 4)]).
  split_and!; [vm_compute; reflexivity..|unfold W64; lia].
Qed.
Lemma file_flat : flat_inode (disk_inode file_img (4 * 4096 + 11 * 256)).
Proof. split; [apply length_img_bytes|vm_compute; reflexivity|decide_vm]. Qed.

Lemma read_at_contents_witness :
  runs (D := RamDisk) (Inode_read_at file_fs 12 4090 (replicate 10 0)) file_img
    (10, [121; 122; 123; 124; 125; 126; 207; 208; 209; 210]) file_img.
Proof.
  pose proof (read_at_contents (D := RamDisk) file_fs file_img 12 (4 * 4096 + 11 * 256) 4090 (replicate 10 0)) as H.
  cbv zeta in H.
  assert (inode_get_size (disk_inode file_img (4 * 4096 + 11 * 256)) = 5000) as Hs by (vm_compute; reflexivity).
  rewrite Hs in H. specialize (H file_pos file_flat ltac:(lia) ltac:(lia)).
  replace (10, _) with (Z.of_nat 10, file_content file_img (inode_extents (disk_inode file_img (4 * 4096 + 11 * 256))) 4090 10
    ++ drop 10 (replicate 10 0)) by (vm_compute; reflexivity).
  apply H. intros b Hb1 Hb2. assert (b = 0 ∨ b = 1) as [->| ->] by lia; vm_compute; by eexists.
Defined.

Lemma read_unmapped_panics_witness :
  panics (D := RamDisk) (Inode_read_at file_fs 12 8200 [0; 0]) file_img Unwrap.
Proof.
  apply (read_unmapped_panics (D := RamDisk) file_fs file_img 12 (4 * 4096 + 11 * 256) 8200 [0; 0] file_pos file_flat).
  - cbn; lia.
  - decide_vm.
  - lia.
  - decide_vm.
  - vm_compute. reflexivity.
Defined.

Lemma write_at_panics_witness : panics (D := RamDisk) (Inode_write_at file_fs 12 0 [1; 2; 3]) file_img Bounds.
Proof.
  apply (write_at_panics (D := RamDisk) file_fs file_img 12 (4 * 4096 + 11 * 256) 0 [1; 2; 3] file_pos); decide_vm.
Defined.

(** A third block: the allocator hands out block 200, the file gets block 13. *)
Lemma append_ignores_allocated_block_witness :
  ∃ block', insert_leaf (in_block file_inode) (Some 1%nat) (new_extent 2 200 1) = Ok (EOK, block') ∧
    extent_map (inode_extents (set_in_block block' file_inode)) 2 = Some 13.
Proof.
  set (e := {| ee_first_block := 1; ee_block_count := 1; ee_start_hi := 0; ee_start_lo := 12 |}).
  change 13 with (add32 (ee_block_count e) (extent_pblock e)).
  apply (append_ignores_allocated_block file_inode 1 e 2 200).
  - split; [vm_compute; reflexivity..|decide_vm].
  - vm_compute. reflexivity.
  - split; cbn; lia.
  - done.
  - done.
  - lia.
  - intros j e' Hj Hlt. assert (j = 0%nat) as -> by lia. vm_compute in Hj. injection Hj as <-. decide_vm.
Defined.
