(* ===== verification/Ext4DirSpec.v ===== *)
(** * Directories of ext4

    When the search of a directory block terminates and what it finds; lookups of a name in a
    directory; changes of a directory, none of which returns. *)

From Stdlib Require Import ZArith Lia.
From stdpp Require Import functions prelude.
From S2P Require Import Prelude Drivers Ext4Layout Ext4 Ext4Spec Ext4FileSpec.

Open Scope Z_scope.

(** ** The entries of a block *)

Definition entry_of (data : list Z) (off : nat) : Ext4DirEntry := de_decode (slice data off (off + Ext4DirEntry_size)).

(** [dir_chain data lim off l]: from [off] on the block holds the entries [l], each with its offset, up
    to the limit of the search.  The library reads entries as structures of 264 bytes. *)
Inductive dir_chain (data : list Z) (lim : nat) : nat → list (nat * Ext4DirEntry) → Prop :=
| chain_end off : (lim ≤ off)%nat → dir_chain data lim off []
| chain_entry off l :
    (off < lim)%nat → (off + Ext4DirEntry_size ≤ length data)%nat →
    0 ≤ de_name_len (entry_of data off) ≤ 255 → 0 < de_entry_len (entry_of data off) →
    dir_chain data lim (off + Z.to_nat (de_entry_len (entry_of data off))) l →
    dir_chain data lim off ((off, entry_of data off) :: l).

(** The name of an entry is the given one. *)
Definition entry_name (de : Ext4DirEntry) : list Z := take (Z.to_nat (de_name_len de)) (de_name de).
Definition named (name : list Z) (de : Ext4DirEntry) : Prop := utf8_valid (entry_name de) = true ∧ entry_name de = name.
#[export] Instance named_dec name de : Decision (named name de).
Proof. unfold named. apply _. Defined.

(** What the search meets first: an unused entry ([None]), the name, or the end of the block *)
Fixpoint scan (name : list Z) (last : nat) (l : list (nat * Ext4DirEntry)) : option (option (Ext4DirEntry * nat * nat)) :=
  match l with
  | [] => Some None
  | (off, de) :: l =>
      if de_inode de =? 0 then None
      else if decide (named name de) then Some (Some (de, off, last)) else scan name off l
  end.

Lemma entry_in_block_ok data off :
  (off + Ext4DirEntry_size ≤ length data)%nat → entry_in_block data off = Ok (entry_of data off).
Proof.
  intros Hl. unfold entry_in_block, slice_from. rewrite (proj2 (Nat.leb_le _ _)) by lia.
  cbn [mbind outcome_bind]. unfold Ext4DirEntry_try_from. by rewrite read_struct_slice by done.
Qed.

Lemma length_entry_name data off :
  (off + Ext4DirEntry_size ≤ length data)%nat → length (de_name (entry_of data off)) = 255%nat.
Proof.
  unfold Ext4DirEntry_size, entry_of, de_decode. intros Hl. cbn [de_name]. rewrite length_slice; [done|].
  rewrite length_slice; unfold Ext4DirEntry_size; lia.
Qed.
Lemma length_entry_name_take data off :
  (off + Ext4DirEntry_size ≤ length data)%nat → 0 ≤ de_name_len (entry_of data off) ≤ 255 →
  Z.of_nat (length (entry_name (entry_of data off))) = de_name_len (entry_of data off).
Proof. intros Hl Hn. unfold entry_name. rewrite length_take, length_entry_name by done. lia. Qed.

Section search.
Context (data name : list Z).
Abbreviation lim := (length data - Ext4DirEntryTail_size)%nat (only parsing).

(** A turn of the search *)
Lemma find_turn fuel last off :
  (off < lim)%nat → (off + Ext4DirEntry_size ≤ length data)%nat → 0 ≤ de_name_len (entry_of data off) ≤ 255 →
  find_in_block_loop (S fuel) data name (Z.of_nat (length name)) last off =
    if de_inode (entry_of data off) =? 0 then find_in_block_loop fuel data name (Z.of_nat (length name)) last off
    else if decide (named name (entry_of data off)) then Ok (Some (entry_of data off, off, last))
    else find_in_block_loop fuel data name (Z.of_nat (length name)) off (off + Z.to_nat (de_entry_len (entry_of data off))).
Proof.
  intros Hlt Hle Hn. cbn [find_in_block_loop]. rewrite (proj2 (Nat.ltb_lt _ _)) by done. cbn [negb].
  rewrite entry_in_block_ok by done. cbn [mbind outcome_bind]. destruct (de_inode _ =? 0); [done|].
  unfold get_name, slice_to. rewrite length_entry_name by done. rewrite (proj2 (Nat.leb_le _ _)) by lia.
  cbn [mbind outcome_bind]. fold (entry_name (entry_of data off)).
  pose proof (length_entry_name_take data off Hle Hn) as Hlen.
  case_decide as Hnamed; [destruct Hnamed as [-> Hname]|].
  - rewrite <-Hname, bool_decide_true, Hlen, Z.eqb_refl by done. done.
  - rewrite bool_decide_false; [done|]. intros E. apply Hnamed. destruct (utf8_valid _) eqn:Hu; [|done].
    split; [done|congruence].
Qed.

Lemma find_in_chain off l : dir_chain data lim off l → ∀ last,
  match scan name last l with
  | Some res => ∀ fuel, (lim - off ≤ fuel)%nat → find_in_block_loop fuel data name (Z.of_nat (length name)) last off = Ok res
  | None => ∀ fuel, find_in_block_loop fuel data name (Z.of_nat (length name)) last off = NoFuel
  end.
Proof.
  induction 1 as [off Hend|off l Hlt Hle Hn Hpos Hc IH]; intros last; cbn [scan].
  { intros fuel _. destruct fuel; cbn [find_in_block_loop]; by rewrite (proj2 (Nat.ltb_ge _ _)) by done. }
  pose proof (find_turn) as Hturn. specialize (IH off).
  destruct (Z.eqb_spec (de_inode (entry_of data off)) 0) as [H0|H0].
  { induction fuel as [|fuel IHf].
    - cbn [find_in_block_loop]. by rewrite (proj2 (Nat.ltb_lt _ _)).
    - rewrite Hturn by done. by rewrite H0, Z.eqb_refl. }
  rewrite <-Z.eqb_neq in H0. case_decide as Hnamed.
  { intros fuel Hf. destruct fuel as [|fuel]; [lia|]. rewrite Hturn by done. by rewrite H0, decide_True. }
  destruct (scan name off l) as [res|].
  - intros fuel Hf. destruct fuel as [|fuel]; [lia|]. rewrite Hturn by done. rewrite H0, decide_False by done.
    apply IH. lia.
  - intros [|fuel]; [cbn [find_in_block_loop]; by rewrite (proj2 (Nat.ltb_lt _ _))|].
    rewrite Hturn by done. rewrite H0, decide_False by done. apply IH.
Qed.

(** The search of a well-formed directory block for a name returns the first entry of that name, or
    nothing, when it meets no unused entry before; when it does, it reads that entry for ever. *)
Theorem dir_find_terminates l :
  dir_chain data lim 0 l →
  match scan name 0 l with
  | Some res => dir_find_in_block data name (Z.of_nat (length name)) = Ok res
  | None => ∀ fuel, find_in_block_loop fuel data name (Z.of_nat (length name)) 0 0 = NoFuel
  end.
Proof.
  intros Hc. pose proof (find_in_chain 0 l Hc 0) as H. destruct (scan name 0 l) as [res|]; [|exact H].
  apply H. lia.
Qed.
End search.

(** ** Lookup of a name in a directory *)

Definition used (p : nat * Ext4DirEntry) : Prop := de_inode p.2 ≠ 0.

Lemma scan_used name l : Forall used l → ∀ last,
  ∃ res, scan name last l = Some res ∧ (λ p, p.1.1) <$> res = snd <$> list_find (named name) (l.*2).
Proof.
  induction 1 as [|[off de] l Hu Hl IH]; intros last; cbn [scan]; [by exists None|].
  unfold used in Hu. cbn in Hu. rewrite (proj2 (Z.eqb_neq _ _)) by done. cbn [fmap list_fmap list_find snd].
  case_decide; [eexists; split; reflexivity|]. destruct (IH off) as (res & E & Hres). exists res. split; [done|]. rewrite Hres.
  by destruct (list_find _ _) as [[? ?]|].
Qed.

(** A directory on the disk: its extents map all blocks of its size, and every block is a chain of
    entries in use. *)
Record directory (img : image) (i : list Z) (entries : list (list (nat * Ext4DirEntry))) : Prop := {
  dir_flat : flat_inode i;
  dir_blocks : in_get IN_size i / BLOCK_SIZE = Z.of_nat (length entries);
  dir_block b l :
    entries !! b = Some l →
    ∃ pb, extent_map (inode_extents i) (Z.of_nat b) = Some pb ∧
      dir_chain (img_bytes img (pb * 4096) 4096) (4096 - Ext4DirEntryTail_size) 0 l ∧ Forall used l;
}.
(** The first entry of a name *)
Definition dir_lookup (entries : list (list (nat * Ext4DirEntry))) (name : list Z) : option Ext4DirEntry :=
  snd <$> list_find (named name) ((mjoin entries).*2).

Lemma dir_lookup_cons l rest name :
  dir_lookup (l :: rest) name =
    match snd <$> list_find (named name) (l.*2) with Some de => Some de | None => dir_lookup rest name end.
Proof.
  unfold dir_lookup. cbn [mjoin list_join]. rewrite fmap_app.
  destruct (list_find (named name) l.*2) as [[k de]|] eqn:E; cbn [fmap option_fmap option_map snd].
  - by rewrite (list_find_app_l _ _ _ _ _ E).
  - rewrite list_find_app_r by done. rewrite <-option_fmap_compose. apply option_fmap_ext. by intros [? ?].
Qed.

Section lookup.
Context {D : Type} `{!OffsetDevice D, !OffsetDeviceOk D}.
Implicit Types (img : image).

Lemma find_entry_loop fs parent img name entries : directory img (inode parent) entries →
  ∀ rest k result fuel, drop k entries = rest → (k + length rest = length entries)%nat → (length rest ≤ fuel)%nat →
  ∃ found res, runs (loopM (S fuel) (find_entry_turn (D := D) fs parent name (Z.of_nat (length name)) (Z.of_nat (length entries)))
                      (Z.of_nat k, result)) img (found, res) img ∧
    match dir_lookup rest name with Some de => found = true ∧ sr_dentry res = de | None => found = false end.
Proof.
  intros [Hflat _ Hblk]. induction rest as [|l rest IH]; intros k result fuel Hdrop Hk Hf; cbn [loopM].
  { exists false, result. split; [|done]. cbn in Hk. rewrite Nat.add_0_r in Hk. rewrite Hk.
    eapply runs_bind; [unfold find_entry_turn; rewrite Z.ltb_irrefl; apply runs_ret|apply runs_ret]. }
  assert (entries !! k = Some l) as Hl.
  { rewrite <-(Nat.add_0_r k), <-lookup_drop, Hdrop. done. }
  destruct (Hblk k l Hl) as (pb & Hpb & Hchain & Hused). set (data := img_bytes img (pb * 4096) 4096) in *.
  destruct (scan_used name l Hused 0) as (res & Hscan & Hres).
  pose proof (find_in_chain data name 0 l) as Hfind. replace (length data) with 4096%nat in Hfind by (symmetry; apply length_img_bytes).
  specialize (Hfind Hchain 0%nat). rewrite Hscan in Hfind. cbn [length] in Hk, Hf.
  pose proof (get_pblock_flat fs parent img (Z.of_nat k) Hflat) as Hp. rewrite Hpb in Hp.
  pose proof (extent_map_range _ _ _ Hpb) as Hr.
  assert (∀ k', runs (find_entry_turn (D := D) fs parent name (Z.of_nat (length name)) (Z.of_nat (length entries)) (Z.of_nat k, k')) img
            (match res with
             | Some (de, offset, last_offset) => inr (true, {| sr_dentry := de; sr_offset := offset; sr_last_offset := last_offset; sr_block_id := pb |})
             | None => inl (Z.of_nat k + 1, k' <| sr_block_id := pb |>) end) img) as Hturn.
  { intros k'. unfold find_entry_turn. rewrite (proj2 (Z.ltb_lt _ _)) by lia. cbn [negb].
    eapply runs_bind; [exact Hp|]. eapply runs_bind; [apply runs_block_at; unfold W64; lia|]. fold data.
    eapply runs_bind; [apply runs_lift, (Hfind (length data))|].
    { unfold data. rewrite length_img_bytes. lia. }
    destruct res as [[[de off] lo]|]; apply runs_ret. }
  specialize (Hturn result). rewrite dir_lookup_cons.
  destruct res as [[[de off] lo]|]; cbn [fmap option_fmap option_map fst] in Hres; rewrite <-Hres.
  - eexists true, _. split; [eapply runs_bind; [exact Hturn|apply runs_ret]|by split].
  - destruct fuel as [|fuel]; [lia|].
    destruct (IH (S k) (result <| sr_block_id := pb |>) fuel) as (found & res & Hr' & Hm);
      [by rewrite <-Nat.add_1_r, <-drop_drop, Hdrop|lia|lia|].
    exists found, res. split; [|exact Hm]. eapply runs_bind; [exact Hturn|]. cbv beta iota.
    replace (Z.of_nat k + 1) with (Z.of_nat (S k)) by lia. exact Hr'.
Qed.

Lemma find_entry_runs fs parent img name entries result :
  directory img (inode parent) entries →
  ∃ found res, runs (ext4_dir_find_entry (D := D) fs parent name (Z.of_nat (length name)) result) img (found, res) img ∧
    match dir_lookup entries name with Some de => found = true ∧ sr_dentry res = de | None => found = false end.
Proof.
  intros Hd. unfold ext4_dir_find_entry. rewrite (dir_blocks _ _ _ Hd), Nat2Z.id.
  apply (find_entry_loop fs parent img name entries Hd entries 0); rewrite ?drop_0; done || lia.
Qed.

Lemma char_boundary_end path : char_boundary path (length path) = true.
Proof. unfold char_boundary. by rewrite Nat.leb_refl, lookup_ge_None_2 by done. Qed.

(** A name without separators is not changed by skipping separators. *)
Lemma path_skip_component name :
  name ≠ [] → path_check_new name = (length name, true) → ext4_path_skip name SLASH = name.
Proof.
  destruct name as [|c name]; [done|]. intros _ H. cbn [ext4_path_skip]. destruct (Z.eqb_spec c SLASH) as [->|]; [|done].
  cbv [path_check_new path_check_new_loop utf8_cont SLASH] in H. cbn in H. done.
Qed.

(** One step of the walk along a path, at its last component *)
Lemma walk_last fs img file name ftype r entries :
  directory img (inode r) entries → name ≠ [] → path_check_new name = (length name, true) →
  (∀ de, dir_lookup entries name = Some de → ∃ pos', cached_inode_pos fs (de_inode de) pos') →
  ∃ res, runs (walk (D := D) false fs file name O_RDONLY ftype r r) img res img ∧
    match dir_lookup entries name with
    | Some de => res.1 = inl EOK ∧ f_inode res.2.1.1 = de_inode de
    | None => res.1 = inr Err_ENOENT
    end.
Proof.
  intros Hd Hne Hc Hpos. unfold walk.
  set (st := {| ws_current := r; ws_path := name; ws_is_goal := false; ws_parent := r; ws_name_off := 0;
                ws_result := Ext4DirSearchResult_new |}).
  destruct (find_entry_runs fs r img name entries Ext4DirSearchResult_new Hd) as (found & sr & Hfind & Hm).
  assert (∃ x, runs (walk_turn (D := D) false fs O_RDONLY ftype st) img (inr x) img ∧
            match dir_lookup entries name with
            | Some de => x.1 = inl EOK ∧ ws_is_goal x.2 = true ∧ inode_num (ws_current x.2) = de_inode de
            | None => x.1 = inr Err_ENOENT
            end) as ([v st'] & Hturn & Hx).
  { unfold walk_turn. cbn [ws_path ws_current ws_result st]. rewrite (path_skip_component name Hne Hc), Hc.
    unfold str_to, str_from. rewrite char_boundary_end, firstn_all, drop_all.
    assert ((length name =? 0)%nat = false) as Hn0 by (destruct name; done).
    destruct (dir_lookup entries name) as [de|] eqn:El.
    - destruct Hm as [-> Hde]. destruct (Hpos de eq_refl) as [pos' Hp]. rewrite <-Hde in Hp.
      eexists. split.
      { eapply runs_bind; [by apply runs_lift|]. rewrite Hn0.
        eapply runs_bind; [by apply runs_lift|]. eapply runs_bind; [exact Hfind|]. cbv beta iota. cbn [negb].
        eapply runs_bind; [by apply runs_get_inode_ref|]. apply runs_ret. }
      cbn. by rewrite Hde.
    - subst found. eexists. split.
      { eapply runs_bind; [by apply runs_lift|]. rewrite Hn0.
        eapply runs_bind; [by apply runs_lift|]. eapply runs_bind; [exact Hfind|]. cbv beta iota. cbn [negb].
        change (Z.land O_RDONLY O_CREAT =? 0) with true. apply runs_ret. }
      done. }
  eexists. split.
  { eapply runs_bind; [cbn [loopM]; eapply runs_bind; [exact Hturn|apply runs_ret]|]. cbv beta iota. apply runs_ret. }
  cbn [fst snd]. destruct (dir_lookup entries name) as [de|]; cbn in Hx.
  - destruct Hx as (-> & -> & Hn). split; [done|]. cbn. exact Hn.
  - exact Hx.
Qed.

(** The look-up of the kernel's inode, for the callers of the virtual file system *)
Lemma lookup_runs fs img ino pos entries name :
  cached_inode_pos fs ino pos → directory img (disk_inode img pos) entries →
  name ≠ [] → path_check_new name = (length name, true) →
  (∀ de, dir_lookup entries name = Some de → ∃ pos', cached_inode_pos fs (de_inode de) pos') →
  runs (Inode_lookup (D := D) fs ino name) img (de_inode <$> dir_lookup entries name) img.
Proof.
  intros Hp Hd Hne Hc Hpos. set (r := {| inode_num := ino; inode := disk_inode img pos |}).
  destruct (walk_last fs img Ext4File_new name (open_ftype false) r entries Hd Hne Hc Hpos) as ([v [[f p] o]] & Hw & Hm).
  unfold Inode_lookup. eapply runs_bind with (a := (v, (f, p, o))) (img1 := img).
  { unfold ext4_open_from. change (ext4_parse_flags [114]) with (@inl Z Errnum O_RDONLY).
    eapply runs_bind; [apply runs_ret|]. unfold ext4_generic_open_from.
    eapply runs_bind; [by apply runs_get_inode_ref|]. exact Hw. }
  cbv beta iota. cbn in Hm. destruct (dir_lookup entries name) as [de|]; cbn.
  - destruct Hm as [-> ->]. apply runs_ret.
  - rewrite Hm. apply runs_ret.
Qed.

(** C14: Looking up a name in a directory returns the inode of the first entry of that name, and nothing
    when the directory has no such entry; the disk does not change. *)
Theorem lookup_finds_entry fs img ino pos entries name :
  cached_inode_pos fs ino pos → directory img (disk_inode img pos) entries →
  name ≠ [] → path_check_new name = (length name, true) →
  (∀ de, dir_lookup entries name = Some de → ∃ pos', cached_inode_pos fs (de_inode de) pos') →
  runs (Inode_lookup (D := D) fs ino name) img (de_inode <$> dir_lookup entries name) img.
Proof. apply lookup_runs. Qed.
End lookup.

(** ** Changes of a directory *)

Lemma set_csum_never fs r data x : (0xff4 < length data)%nat → inode_ext4_dir_set_csum fs r data ≠ Ok x.
Proof.
  intros Hl H. unfold inode_ext4_dir_set_csum in H.
  apply obind_Ok_inv in H as (de & _ & H). apply obind_Ok_inv in H as (t & _ & H).
  apply obind_Ok_inv in H as (tail & _ & H). apply obind_Ok_inv in H as (tail' & Ht & _).
  unfold tail_ext4_dir_set_csum, ext4_dir_get_csum in Ht. apply obind_Ok_inv in Ht as (c & Hc & _).
  do 3 apply obind_Ok_inv in Hc as (? & _ & Hc). apply obind_Ok_inv in Hc as (b & Hb & _).
  unfold dir_csum_data in Hb. by rewrite (proj2 (Nat.leb_gt _ _)) in Hb by done.
Qed.

Lemma write_struct_length b a o a' : write_struct b a o = Ok a' → length a' = length a.
Proof.
  unfold write_struct. destruct (Nat.leb_spec (o + length b) (length a)); [|done].
  intros [= <-]. rewrite length_splice; lia.
Qed.

Lemma insert_entry_length fuel data child name nl req : ∀ off data',
  insert_entry_loop fuel data child name nl req off = Ok (Some data') → length data' = length data.
Proof.
  induction fuel as [|fuel IH]; intros off data'; cbn [insert_entry_loop].
  { by destruct (negb _). }
  destruct (negb _); [done|]. intros H. apply obind_Ok_inv in H as (de & _ & H).
  destruct (de_inode de =? 0); [by eapply IH|]. cbv zeta in H. destruct (_ <=? _); [|by eapply IH].
  apply obind_Ok_inv in H as (ne & _ & H). apply obind_Ok_inv in H as (d1 & H1 & H). apply obind_Ok_inv in H as (d2 & H2 & H).
  injection H as <-. apply write_struct_length in H1, H2. congruence.
Qed.

Section changes.
Context {D : Type} `{!OffsetDevice D, !OffsetDeviceOk D}.

(** Every block that is read is whole. *)
Lemma block_at_length b (d : D) l d' : block_at b d = Ok (l, d') → length l = 4096%nat.
Proof.
  unfold block_at. set (o := wmul b BLOCK_SIZE). assert (0 ≤ o ∧ o mod 512 = 0) as [Ho Hm].
  { unfold o, wmul, wrap, W64. change BLOCK_SIZE with 4096. Z.to_euclidean_division_equations; lia. }
  destruct (read_offset_ok d o Ho) as (d1 & E & _). rewrite E. intros [= <- _].
  by rewrite length_fmap, length_seqZ, Hm.
Qed.

Lemma dir_insert_never fs parent blk data child name len (d d' : D) :
  (0xff4 < length data)%nat → dir_try_insert_entry fs parent blk data child name len d ≠ Ok (true, d').
Proof.
  intros Hl H. unfold dir_try_insert_entry in H. apply bind_Ok_inv in H as (sp & d1 & E & H).
  destruct sp as [data'|]; [|done]. apply bind_Ok_inv in H as (x & d2 & Ec & _).
  unfold lift in E, Ec. destruct (insert_entry_loop _ _ _ _ _ _ _) as [o| |] eqn:Ei; try done. injection E as -> <-.
  destruct (inode_ext4_dir_set_csum fs parent data') as [y| |] eqn:Ey; try done.
  apply insert_entry_length in Ei. by apply (set_csum_never fs parent data' y) in Ey; [|lia].
Qed.

Lemma new_dir_block_never fs parent child name len data x :
  (0xff4 < length data)%nat → new_dir_block fs parent child name len data ≠ Ok x.
Proof.
  intros Hl H. unfold new_dir_block in H. apply obind_Ok_inv in H as (ne & _ & H).
  apply obind_Ok_inv in H as (d1 & H1 & H). apply obind_Ok_inv in H as (d2 & H2 & H).
  apply write_struct_length in H1, H2. apply set_csum_never in H; [done|lia].
Qed.

Lemma dir_remove_never fs parent path len (d : D) r : ext4_dir_remove_entry_new fs parent path len d ≠ Ok r.
Proof.
  intros H. destruct r as [u d']. unfold ext4_dir_remove_entry_new in H.
  apply bind_Ok_inv in H as (nm & d1 & _ & H). apply bind_Ok_inv in H as ([b res] & d2 & _ & H).
  apply bind_Ok_inv in H as (data & d3 & Eb & H). apply bind_Ok_inv in H as (data' & d4 & Er & H).
  apply bind_Ok_inv in H as (x & d5 & Ec & _). apply block_at_length in Eb. unfold lift in Er, Ec.
  destruct (remove_from_block data (sr_last_offset res) (sr_offset res)) as [y| |] eqn:Ey; try done. injection Er as -> _.
  destruct (inode_ext4_dir_set_csum fs parent data') as [z| |] eqn:Ez; try done.
  apply set_csum_never in Ez; [done|]. unfold remove_from_block in Ey.
  apply obind_Ok_inv in Ey as (p & _ & Ey). apply obind_Ok_inv in Ey as (q & _ & Ey). cbv zeta in Ey.
  destruct (Nat.leb_spec (sr_last_offset res + Ext4DirEntry_size) (length data)); [|done]. injection Ey as <-.
  unfold splice. rewrite !length_app, length_take, length_drop. unfold Ext4DirEntry_size in *. lia.
Qed.

Lemma unlink_never fs parent child name len (d : D) r : ext4_unlink fs parent child name len d ≠ Ok r.
Proof.
  intros H. destruct r as [[] d']. unfold ext4_unlink in H. apply bind_Ok_inv in H as (u & d1 & E & _). by apply dir_remove_never in E.
Qed.

(** C37: No change of a directory has a defined successful outcome: the checksum of a directory block
    copies 4096 bytes into an array of 4084, past its end.  No entry is inserted into a block, no
    new block of a directory is completed, and no file or directory is removed without that copy. *)
Theorem dir_changes_never_return fs parent child name len (d : D) :
  (∀ blk data d', (0xff4 < length data)%nat → dir_try_insert_entry fs parent blk data child name len d ≠ Ok (true, d')) ∧
  (∀ data x, (0xff4 < length data)%nat → new_dir_block fs parent child name len data ≠ Ok x) ∧
  (∀ ino r, Inode_unlink fs ino name d ≠ Ok r) ∧
  (∀ ino d', Inode_rmdir fs ino name d ≠ Ok (true, d')).
Proof.
  split_and!.
  - intros. by apply dir_insert_never.
  - intros. by apply new_dir_block_never.
  - intros ino [b d'] H. unfold Inode_unlink in H. apply bind_Ok_inv in H as (x & d1 & E & _). unfold ext4_file_remove in E.
    apply bind_Ok_inv in E as (root & e1 & _ & E). apply bind_Ok_inv in E as ([v [[f p] o]] & e2 & _ & E). cbv zeta in E.
    apply bind_Ok_inv in E as (c1 & e3 & _ & E). apply bind_Ok_inv in E as (? & e4 & _ & E).
    apply bind_Ok_inv in E as (c2 & e5 & _ & E). apply bind_Ok_inv in E as (p' & e6 & _ & E).
    destruct (path_check_new p') as [ln g]. apply bind_Ok_inv in E as (nm & e7 & _ & E).
    apply bind_Ok_inv in E as (u & e8 & E & _). by apply unlink_never in E.
  - intros ino d' H. unfold Inode_rmdir in H. apply bind_Ok_inv in H as (x & d1 & E & H). unfold ext4_dir_remove in E.
    apply bind_Ok_inv in E as (pr & e1 & _ & E). apply bind_Ok_inv in E as ([de|e] & e2 & _ & E).
    2: { injection E as <- _. done. }
    apply bind_Ok_inv in E as (ch & e3 & _ & E). apply bind_Ok_inv in E as (h & e4 & _ & E).
    destruct h; [injection E as <- _; done|]. apply bind_Ok_inv in E as ([v ch'] & e5 & _ & E).
    apply bind_Ok_inv in E as (u & e6 & E & _). by apply unlink_never in E.
Qed.
End changes.

(** ** A directory with the entries [.], [..] and [a] in block 6, at the inode 2 *)

Definition entry (ino len : Z) (name : list Z) : list Z :=
  de_bytes {| de_inode := ino; de_entry_len := len; de_name_len := Z.of_nat (length name); de_inode_type := 2;
              de_name := name ++ replicate (255 - length name) 0; de_pad := 0 |}.
Definition dir_data : list Z :=
  splice (splice (splice (replicate 4096 0) 0 (entry 2 12 [46])) 12 (entry 2 12 [46; 46])) 24 (entry 12 4060 [97]).
Definition dir_list : list (nat * Ext4DirEntry) := (λ off, (off, entry_of dir_data off)) <$> [0; 12; 24]%nat.

Lemma dir_data_chain : dir_chain dir_data (length dir_data - Ext4DirEntryTail_size) 0 dir_list.
Proof.
  unfold dir_list. cbn [fmap list_fmap].
  apply chain_entry; [decide_vm|decide_vm|decide_vm|decide_vm|].
  replace (0 + Z.to_nat (de_entry_len (entry_of dir_data 0)))%nat with 12%nat by (vm_compute; reflexivity).
  apply chain_entry; [decide_vm|decide_vm|decide_vm|decide_vm|].
  replace (12 + Z.to_nat (de_entry_len (entry_of dir_data 12)))%nat with 24%nat by (vm_compute; reflexivity).
  apply chain_entry; [decide_vm|decide_vm|decide_vm|decide_vm|]. apply chain_end. decide_vm.
Qed.

Lemma dir_find_terminates_witness :
  ∃ de, de_inode de = 12 ∧ dir_find_in_block dir_data [97] 1 = Ok (Some (de, 24%nat, 12%nat)).
Proof.
  pose proof (dir_find_terminates dir_data [97] dir_list dir_data_chain) as H.
  exists (entry_of dir_data 24). split; [vm_compute; reflexivity|].
  replace (scan [97] 0 dir_list) with (Some (Some (entry_of dir_data 24, 24%nat, 12%nat))) in H by (vm_compute; reflexivity).
  exact H.
Defined.

(** A block whose first entry is unused *)
Example unused_entry_diverges : ∀ fuel, find_in_block_loop fuel (replicate 4096 0) [97] 1 0 0 = NoFuel.
Proof.
  induction fuel as [|fuel IH]; [vm_compute; reflexivity|]. cbn [find_in_block_loop].
  replace (negb _) with false by (vm_compute; reflexivity).
  replace (entry_in_block (replicate 4096 0) 0) with (Ok (entry_of (replicate 4096 0) 0)) by (vm_compute; reflexivity).
  exact IH.
Qed.

Definition dir_inode : list Z := inode_of 4096
  [{| ee_first_block := 0; ee_block_count := 1; ee_start_hi := 0; ee_start_lo := 6 |}].
Definition dir_img : image := img_write (img_write (λ _, 0) (4 * 4096 + 256) dir_inode) (6 * 4096) dir_data.

Lemma dir_pos : cached_inode_pos file_fs 2 (4 * 4096 + 256).
Proof.
  exists 0, 1, (group_of [(BG_inode_table_first_block_lo, 4)]).
  split_and!; [vm_compute; reflexivity..|unfold W64; lia].
Qed.
Lemma dir_directory : directory dir_img (disk_inode dir_img (4 * 4096 + 256)) [dir_list].
Proof.
  split.
  - split; [apply length_img_bytes|vm_compute; reflexivity|decide_vm].
  - vm_compute. reflexivity.
  - intros [|b] l Hl; [|done]. injection Hl as <-. exists 6. split; [vm_compute; reflexivity|].
    assert (img_bytes dir_img (6 * 4096) 4096 = dir_data) as -> by (vm_compute; reflexivity).
    split; [exact dir_data_chain|]. repeat constructor; unfold used; decide_vm.
Qed.

Lemma lookup_finds_entry_witness :
  runs (D := RamDisk) (Inode_lookup file_fs 2 [97]) dir_img (Some 12) dir_img ∧
  runs (D := RamDisk) (Inode_lookup file_fs 2 [98]) dir_img None dir_img.
Proof.
  split.
  - replace (Some 12) with (de_inode <$> dir_lookup [dir_list] [97]) by (vm_compute; reflexivity).
    apply (lookup_finds_entry (D := RamDisk) _ _ _ _ _ _ dir_pos dir_directory); [done|vm_compute; reflexivity|].
    intros de Hde. exists (4 * 4096 + 11 * 256).
    assert (de_inode <$> dir_lookup [dir_list] [97] = Some 12) as E by (vm_compute; reflexivity).
    rewrite Hde in E. injection E as ->. exact file_pos.
  - replace (@None Z) with (de_inode <$> dir_lookup [dir_list] [98]) by (vm_compute; reflexivity).
    apply (lookup_finds_entry (D := RamDisk) _ _ _ _ _ _ dir_pos dir_directory); [done|vm_compute; reflexivity|].
    intros de Hde. assert (dir_lookup [dir_list] [98] = None) as E by (vm_compute; reflexivity). congruence.
Defined.

Lemma dir_changes_never_return_witness :
  (∀ ino r, Inode_unlink file_fs ino [97] (Ram dir_img) ≠ Ok r) ∧ (0xff4 < length dir_data)%nat.
Proof.
  split; [|decide_vm].
  apply (dir_changes_never_return (D := RamDisk) file_fs {| inode_num := 2; inode := dir_inode |}
           {| inode_num := 12; inode := file_inode |} [97] 1 (Ram dir_img)).
Defined.
