(* ===== verification/Time.v ===== *)
(** * Time ([os/src/timer.rs], the clock system calls of [os/src/syscall])

    Durations of seconds and nanoseconds, the conversions of clock ticks (the value of the [time]
    register, an argument of the definitions), and the theorems that relate them to exact
    arithmetic on nanoseconds. *)

From Stdlib Require Import ZArith Lia.
From stdpp Require Import prelude.
From S2P Require Import Prelude Config.

Open Scope Z_scope.

Definition NSEC_PER_SEC : Z := 1000000000.
Definition NSEC_PER_MSEC : Z := 1000000.
Definition NSEC_PER_USEC : Z := 1000.
Definition TICKS_PER_SEC : Z := 10.
Definition MSEC_PER_SEC : Z := 1000.
Definition USEC_PER_SEC : Z := 1000000.
Definition MICRO_PER_SEC : Z := 1000000.

(** ** [TimeSpec] *)

Record TimeSpec := { tv_sec : Z; tv_nsec : Z }.

Definition TimeSpec_add_assign (self rhs : TimeSpec) : TimeSpec :=
  {| tv_sec := wadd (tv_sec self) (tv_sec rhs); tv_nsec := wadd (tv_nsec self) (tv_nsec rhs) |}.

Definition TimeSpec_add (self other : TimeSpec) : TimeSpec :=
  let sec := wadd (tv_sec self) (tv_sec other) in
  let nsec := wadd (tv_nsec self) (tv_nsec other) in
  {| tv_sec := wadd sec (nsec / NSEC_PER_SEC); tv_nsec := nsec mod NSEC_PER_SEC |}.

Definition TimeSpec_new : TimeSpec := {| tv_sec := 0; tv_nsec := 0 |}.
Definition TimeSpec_from_tick (tick : Z) : TimeSpec :=
  {| tv_sec := tick / CLOCK_FREQ; tv_nsec := wmul (tick mod CLOCK_FREQ) NSEC_PER_SEC / CLOCK_FREQ |}.
Definition TimeSpec_from_s (s : Z) : TimeSpec := {| tv_sec := s; tv_nsec := 0 |}.
Definition TimeSpec_from_ms (ms : Z) : TimeSpec :=
  {| tv_sec := ms / MSEC_PER_SEC; tv_nsec := wmul (ms mod MSEC_PER_SEC) NSEC_PER_MSEC |}.
Definition TimeSpec_from_us (us : Z) : TimeSpec :=
  {| tv_sec := us / USEC_PER_SEC; tv_nsec := wmul (us mod USEC_PER_SEC) NSEC_PER_USEC |}.
Definition TimeSpec_from_ns (ns : Z) : TimeSpec :=
  {| tv_sec := ns / NSEC_PER_SEC; tv_nsec := ns mod NSEC_PER_SEC |}.
Definition TimeSpec_to_ns (self : TimeSpec) : Z := wadd (wmul (tv_sec self) NSEC_PER_SEC) (tv_nsec self).
Definition TimeSpec_is_zero (self : TimeSpec) : bool := (tv_sec self =? 0) && (tv_nsec self =? 0).
Definition TimeSpec_now (tick : Z) : TimeSpec := TimeSpec_from_tick tick.

Definition TimeSpec_sub (self other : TimeSpec) : TimeSpec :=
  let self_ns := TimeSpec_to_ns self in
  let other_ns := TimeSpec_to_ns other in
  if self_ns <=? other_ns then TimeSpec_new else TimeSpec_from_ns (wsub self_ns other_ns).

Definition TimeSpec_cmp (self other : TimeSpec) : comparison :=
  match tv_sec self ?= tv_sec other with
  | Lt => Lt
  | Eq => tv_nsec self ?= tv_nsec other
  | Gt => Gt
  end.

(** ** Clock ticks *)

Definition get_time_ms (tick : Z) : Z := wmul tick MSEC_PER_SEC / CLOCK_FREQ.
Definition get_time_us (tick : Z) : Z := wmul tick MICRO_PER_SEC / CLOCK_FREQ.
(** The argument of the firmware's [set_timer] in [set_next_trigger] *)
Definition set_next_trigger (tick : Z) : Z := wadd tick (CLOCK_FREQ / TICKS_PER_SEC).

(** [sys_sleep] ends once the clock reaches this tick; [is_end] is its test. *)
Definition sleep_end_time (tick sec nano_sec : Z) : Z :=
  wadd (wadd tick (wmul sec CLOCK_FREQ)) (wmul nano_sec CLOCK_FREQ / NSEC_PER_SEC).
Definition sleep_is_end (tick end_time : Z) : bool := end_time <=? tick.

(** [sys_gettimeofday]: the seconds and microseconds it stores *)
Definition sys_gettimeofday (tick : Z) : Z * Z :=
  let us := get_time_us tick in (us / 1000000, us mod 1000000).

Inductive ClockId :=
| Realtime | Monotonic | ProcessCputimeId | ThreadCputimeId | MonotonicRaw | RealtimeCoarse
| MonotonicCoarse | Boottime | RealtimeAlarm | BoottimeAlarm | Tai.

Definition ClockId_from (clock_id : Z) : outcome ClockId :=
  match clock_id with
  | 0 => Ok Realtime
  | 1 => Ok Monotonic
  | 2 => Ok ProcessCputimeId
  | 3 => Ok ThreadCputimeId
  | 4 => Ok MonotonicRaw
  | 5 => Ok RealtimeCoarse
  | 6 => Ok MonotonicCoarse
  | 7 => Ok Boottime
  | 8 => Ok RealtimeAlarm
  | 9 => Ok BoottimeAlarm
  | 11 => Ok Tai
  | _ => Panic Explicit
  end.

(** What [sys_clock_gettime] stores, when it does not panic *)
Definition sys_clock_gettime (tick clock_id : Z) : outcome TimeSpec :=
  c ← ClockId_from clock_id;
  match c with
  | Monotonic | Realtime | ProcessCputimeId => Ok (TimeSpec_now tick)
  | _ => Panic Explicit
  end.

(** ** Theorems *)

(** The exact number of nanoseconds of a duration, and durations in normal form *)
Definition ns_of (t : TimeSpec) : Z := tv_sec t * NSEC_PER_SEC + tv_nsec t.
Definition normal (t : TimeSpec) : Prop := 0 ≤ tv_sec t ∧ 0 ≤ tv_nsec t < NSEC_PER_SEC.

Ltac clock := unfold is_usize, NSEC_PER_SEC, NSEC_PER_MSEC, NSEC_PER_USEC, MSEC_PER_SEC, USEC_PER_SEC, MICRO_PER_SEC,
  TICKS_PER_SEC, CLOCK_FREQ, W64 in *.

Lemma to_ns_exact t : normal t → ns_of t < W64 → TimeSpec_to_ns t = ns_of t.
Proof.
  intros [? ?] Ht. unfold TimeSpec_to_ns, ns_of in *. unfold wmul. rewrite wrap_small by (clock; lia).
  apply wadd_small; clock; lia.
Qed.

Lemma from_ns_exact ns : 0 ≤ ns → normal (TimeSpec_from_ns ns) ∧ ns_of (TimeSpec_from_ns ns) = ns.
Proof.
  intros Hn. unfold normal, ns_of, TimeSpec_from_ns. cbn [tv_sec tv_nsec]. clock. Z.to_euclidean_division_equations; lia.
Qed.

Lemma ns_of_inj a b : normal a → normal b → ns_of a = ns_of b → a = b.
Proof.
  destruct a as [s1 n1], b as [s2 n2]. unfold normal, ns_of. cbn [tv_sec tv_nsec]. clock. intros ? ? ?.
  assert (s1 = s2) as -> by lia. f_equal. lia.
Qed.

Lemma add_exact a b :
  normal a → normal b → ns_of a + ns_of b < W64 →
  TimeSpec_add a b = {| tv_sec := tv_sec a + tv_sec b + (tv_nsec a + tv_nsec b) / NSEC_PER_SEC;
                        tv_nsec := (tv_nsec a + tv_nsec b) mod NSEC_PER_SEC |}.
Proof.
  intros [? ?] [? ?] Hr. unfold TimeSpec_add, ns_of in *. clock.
  rewrite (wadd_small (tv_nsec a)), (wadd_small (tv_sec a)) by (clock; lia).
  rewrite wadd_small by (clock; Z.to_euclidean_division_equations; lia). done.
Qed.

(** Durations compute as exact numbers of nanoseconds: on normal durations below the range of
    the 64-bit counter, the sum is exact and normal, the difference is the exact difference or zero,
    and the order is the order of the numbers. *)
Theorem timespec_arithmetic a b :
  normal a → normal b → ns_of a + ns_of b < W64 →
  normal (TimeSpec_add a b) ∧ ns_of (TimeSpec_add a b) = ns_of a + ns_of b ∧
  normal (TimeSpec_sub a b) ∧ ns_of (TimeSpec_sub a b) = Z.max 0 (ns_of a - ns_of b) ∧
  TimeSpec_cmp a b = (ns_of a ?= ns_of b).
Proof.
  intros Ha Hb Hr. pose proof Ha as [? ?]. pose proof Hb as [? ?].
  assert (0 ≤ ns_of a ∧ 0 ≤ ns_of b) as [? ?] by (unfold ns_of; clock; lia).
  split_and!.
  - rewrite add_exact by done. unfold normal. cbn [tv_sec tv_nsec]. clock. Z.to_euclidean_division_equations; lia.
  - rewrite add_exact by done. unfold ns_of. cbn [tv_sec tv_nsec]. clock. Z.to_euclidean_division_equations; lia.
  - unfold TimeSpec_sub. rewrite !to_ns_exact by (done || lia). destruct (Z.leb_spec (ns_of a) (ns_of b)).
    + unfold normal, TimeSpec_new; cbn; clock; lia.
    + rewrite wsub_small by (clock; lia). by apply from_ns_exact; lia.
  - unfold TimeSpec_sub. rewrite !to_ns_exact by (done || lia). destruct (Z.leb_spec (ns_of a) (ns_of b)).
    + rewrite Z.max_l by lia. done.
    + rewrite wsub_small by (clock; lia). rewrite Z.max_r by lia. apply from_ns_exact. lia.
  - unfold TimeSpec_cmp, ns_of in *. clock.
    destruct (Z.compare_spec (tv_sec a) (tv_sec b)), (Z.compare_spec (tv_sec a * 1000000000 + tv_nsec a) (tv_sec b * 1000000000 + tv_nsec b));
      try lia; try done; destruct (Z.compare_spec (tv_nsec a) (tv_nsec b)); lia || done.
Qed.

Lemma timespec_arithmetic_witness :
  TimeSpec_cmp {| tv_sec := 1; tv_nsec := 999999999 |} {| tv_sec := 0; tv_nsec := 2 |}
  = (1999999999 ?= 2).
Proof.
  apply (timespec_arithmetic {| tv_sec := 1; tv_nsec := 999999999 |} {| tv_sec := 0; tv_nsec := 2 |}).
  - vm_compute. repeat split; congruence.
  - vm_compute. repeat split; congruence.
  - vm_compute. reflexivity.
Defined.

(** A duration made of clock ticks is the number of ticks in nanoseconds, rounded down. *)
Lemma from_tick_exact tick :
  is_usize tick → normal (TimeSpec_from_tick tick) ∧ ns_of (TimeSpec_from_tick tick) = tick * NSEC_PER_SEC / CLOCK_FREQ.
Proof.
  intros Ht. unfold normal, ns_of, TimeSpec_from_tick. cbn [tv_sec tv_nsec]. clock. unfold wmul.
  pose proof (Z.mod_pos_bound tick 12500000 ltac:(lia)). rewrite wrap_small by (clock; lia).
  split; [Z.to_euclidean_division_equations; lia|].
  rewrite (Z.div_mod tick 12500000) at 3 by lia. rewrite Z.mul_add_distr_r.
  replace (12500000 * (tick / 12500000) * 1000000000) with ((tick / 12500000 * 1000000000) * 12500000) by lia.
  rewrite Z.div_add_l by lia. done.
Qed.

Lemma from_ms_exact ms : 0 ≤ ms → normal (TimeSpec_from_ms ms) ∧ ns_of (TimeSpec_from_ms ms) = ms * NSEC_PER_MSEC.
Proof.
  intros Hm. pose proof (Z.mod_pos_bound ms 1000 ltac:(lia)). unfold normal, ns_of, TimeSpec_from_ms. cbn [tv_sec tv_nsec]. clock.
  unfold wmul. rewrite wrap_small by (clock; lia). Z.to_euclidean_division_equations; lia.
Qed.

Lemma from_us_exact us : 0 ≤ us → normal (TimeSpec_from_us us) ∧ ns_of (TimeSpec_from_us us) = us * NSEC_PER_USEC.
Proof.
  intros Hm. pose proof (Z.mod_pos_bound us 1000000 ltac:(lia)). unfold normal, ns_of, TimeSpec_from_us. cbn [tv_sec tv_nsec]. clock.
  unfold wmul. rewrite wrap_small by (clock; lia). Z.to_euclidean_division_equations; lia.
Qed.

(** The clock conversions are exact as long as their intermediate products fit in 64 bits:
    [get_time_us] for the first 2^64/10^6 ticks (about 17 days) and [get_time_ms] for the first
    2^64/10^3, while [TimeSpec::now] is exact for every value of the counter.  At tick
    18446744073710 the microsecond clock, and with it [sys_gettimeofday], starts again from zero. *)
Theorem clock_conversions tick :
  is_usize tick →
  ns_of (TimeSpec_now tick) = tick * NSEC_PER_SEC / CLOCK_FREQ ∧
  (tick * 1000 < W64 → get_time_ms tick = tick * 1000 / CLOCK_FREQ) ∧
  (tick * 1000000 < W64 → get_time_us tick = tick * 1000000 / CLOCK_FREQ) ∧
  sys_gettimeofday 18446744073709 = (1475739, 525896) ∧ sys_gettimeofday 18446744073710 = (0, 0).
Proof.
  intros Ht. split_and!.
  - by apply from_tick_exact.
  - intros H. unfold get_time_ms, wmul. rewrite wrap_small by (clock; lia). done.
  - intros H. unfold get_time_us, wmul. rewrite wrap_small by (clock; lia). done.
  - reflexivity.
  - reflexivity.
Qed.

Lemma clock_conversions_witness : get_time_us 25000000 = 2000000.
Proof.
  destruct (clock_conversions 25000000) as (_ & _ & H & _); [split; vm_compute; congruence|].
  rewrite H; reflexivity.
Defined.
