(* ===== verification/Task.v ===== *)
(** * Tasks ([os/src/task], [os/src/sync/semaphore.rs], the task part of [os/src/timer.rs])

    Identifier allocators and kernel stacks, task control blocks, the ready queue, the processor,
    blocking, timers, semaphores and the end of a task.  A reference [Arc<TaskControlBlock>] is a
    key of the table [k_tasks], so that a control block is shared by all its holders.  The files and
    directories a task holds are an arbitrary type.

    [schedule] switches to the idle loop, which takes the next ready task: an operation that gives
    up the processor ends with no current task, and [run_tasks_turn] is the turn of the idle loop
    that follows. *)

From Stdlib Require Import ZArith Lia.
From stdpp Require Import functions prelude gmap.
From S2P Require Import Prelude Config Address FrameAllocator PageTable MemorySet Time.

Open Scope Z_scope.

(** ** Identifiers ([task/res.rs]) *)

Record RecycleAllocator := { ra_current : Z; ra_recycled : list Z }.
#[export] Instance RecycleAllocator_eta : Settable RecycleAllocator :=
  λ r, {| ra_current := ra_current r; ra_recycled := ra_recycled r |}.

Definition RecycleAllocator_new : RecycleAllocator := {| ra_current := 0; ra_recycled := [] |}.

(** [recycled] is a stack: its last element is handed out first. *)
Definition RecycleAllocator_alloc : M RecycleAllocator Z :=
  r ← get;
  match last (ra_recycled r) with
  | Some id => put (r <| ra_recycled := take (length (ra_recycled r) - 1) (ra_recycled r) |>);; mret id
  | None => put (r <| ra_current := wadd (ra_current r) 1 |>);; mret (wsub (wadd (ra_current r) 1) 1)
  end.

Definition RecycleAllocator_dealloc (id : Z) : M RecycleAllocator unit :=
  r ← get;
  assertM (id <? ra_current r);;
  assertM (negb (existsb (Z.eqb id) (ra_recycled r)));;
  put (r <| ra_recycled := ra_recycled r ++ [id] |>).

Definition IDLE_PID : Z := 0.

(** The bottom and the top of a kernel stack *)
Definition kernel_stack_position (kstack_id : Z) : Z * Z :=
  let bottom := wadd MEMORY_END (wmul kstack_id (wadd KERNEL_STACK_SIZE PAGE_SIZE)) in
  (bottom, wadd bottom KERNEL_STACK_SIZE).
Definition KernelStack_get_top (kstack_id : Z) : Z := (kernel_stack_position kstack_id).2.

Definition trap_cx_bottom_from_tid (tid : Z) : Z := wsub TRAP_CONTEXT_BASE (wmul tid PAGE_SIZE).
Definition ustack_bottom_from_tid (ustack_base tid : Z) : Z :=
  wadd ustack_base (wmul tid (wadd PAGE_SIZE USER_STACK_SIZE)).
Definition ustack_top_from_id (ustack_top id : Z) : Z :=
  wsub ustack_top (wmul id (wadd PAGE_SIZE USER_STACK_SIZE)).

(** ** Signals ([task/signal.rs], [task/sigaction.rs]) *)

Definition MAX_SIG : Z := 63.
Definition SIG_BLOCK : Z := 0.
Definition SIG_UNBLOCK : Z := 1.
Definition SIG_SETMASK : Z := 2.
Definition SIG_DFL : Z := 0.

Definition SIGINT : Z := Z.shiftl 1 1.
Definition SIGILL : Z := Z.shiftl 1 3.
Definition SIGABRT : Z := Z.shiftl 1 5.
Definition SIGFPE : Z := Z.shiftl 1 7.
Definition SIGKILL : Z := Z.shiftl 1 8.
Definition SIGSEGV : Z := Z.shiftl 1 10.
Definition SIGSTOP : Z := Z.shiftl 1 18.

(** Every one of the 64 bits is a flag, so [from_bits] accepts every word. *)
Definition SignalFlags_all : Z := W64 - 1.
Definition SignalFlags_from_bits (b : Z) : option Z := if Z.land b (wnot SignalFlags_all) =? 0 then Some b else None.
Definition SignalFlags_contains (flags f : Z) : bool := Z.land flags f =? f.

(** The exit code of a fatal signal *)
Definition SignalFlags_check_error (flags : Z) : option Z :=
  if SignalFlags_contains flags SIGINT then Some (-2)
  else if SignalFlags_contains flags SIGILL then Some (-4)
  else if SignalFlags_contains flags SIGABRT then Some (-6)
  else if SignalFlags_contains flags SIGFPE then Some (-8)
  else if SignalFlags_contains flags SIGSEGV then Some (-11)
  else None.

Record SignalAction := { sa_handler : Z; sa_flags : Z; sa_restorer : Z; sa_mask : Z }.
Definition SignalAction_default : SignalAction :=
  {| sa_handler := SIG_DFL; sa_flags := 0; sa_restorer := 0; sa_mask := 40 |}.
Definition SignalActions_default : list SignalAction := replicate (Z.to_nat (MAX_SIG + 1)) SignalAction_default.

(** ** Contexts ([task/context.rs]) *)

Record TaskContext := { cx_ra : Z; cx_sp : Z; cx_s : list Z }.
Definition TaskContext_zero_init : TaskContext := {| cx_ra := 0; cx_sp := 0; cx_s := replicate 12 0 |}.

(** ** Control blocks ([task/task.rs]) *)

Inductive TaskStatus := Ready | Running | Blocked | Zombie | Exit.
#[export] Instance TaskStatus_eq_dec : EqDecision TaskStatus.
Proof. solve_decision. Defined.

(** [Arc<TaskControlBlock>] *)
Abbreviation task_ref := nat (only parsing).

Section tasks.
Context {File Dentry : Type}.

Record TaskControlBlockInner := {
  memory_set : MemorySet;
  trap_cx_ppn : PhysPageNum;
  task_cx : TaskContext;
  task_status : TaskStatus;
  syscall_times : list Z;
  first_time : option Z;
  clear_child_tid : Z;
  work_dir : Dentry;
  parent : option task_ref;
  children : list task_ref;
  threads : list (option task_ref);
  user_stack_top : Z;
  exit_code : option Z;
  fd_table : list (option File);
  clock_stop_watch : Z;
  user_clock : Z;
  kernel_clock : Z;
  heap_base : VirtAddr;
  heap_end : VirtAddr;
  is_zombie : bool;
  signals : Z;
  signal_actions : list SignalAction;
  signals_pending : Z;
  signal_mask : Z;
}.
#[global] Instance TaskControlBlockInner_eta : Settable TaskControlBlockInner := λ r,
  {| memory_set := memory_set r; trap_cx_ppn := trap_cx_ppn r; task_cx := task_cx r; task_status := task_status r;
     syscall_times := syscall_times r; first_time := first_time r; clear_child_tid := clear_child_tid r;
     work_dir := work_dir r; parent := parent r; children := children r; threads := threads r;
     user_stack_top := user_stack_top r; exit_code := exit_code r; fd_table := fd_table r;
     clock_stop_watch := clock_stop_watch r; user_clock := user_clock r; kernel_clock := kernel_clock r;
     heap_base := heap_base r; heap_end := heap_end r; is_zombie := is_zombie r; signals := signals r;
     signal_actions := signal_actions r; signals_pending := signals_pending r; signal_mask := signal_mask r |}.

Record TaskControlBlock := {
  kstack : Z;
  tid : Z;
  pid : Z;
  send_sigchld_when_exit : bool;
  inner : TaskControlBlockInner;
}.
#[global] Instance TaskControlBlock_eta : Settable TaskControlBlock := λ r,
  {| kstack := kstack r; tid := tid r; pid := pid r; send_sigchld_when_exit := send_sigchld_when_exit r;
     inner := inner r |}.

(** Clock accounting; [tick] is the value of the [time] register *)
Definition clock_time_refresh (tick : Z) (i : TaskControlBlockInner) : TaskControlBlockInner :=
  i <| clock_stop_watch := tick |>.
Definition user_clock_time_end (tick : Z) (i : TaskControlBlockInner) : Z * TaskControlBlockInner :=
  let user := wadd (user_clock i) (wsub tick (clock_stop_watch i)) in
  (user, i <| clock_stop_watch := tick |> <| user_clock := user |>).
Definition user_clock_time_start (tick : Z) (i : TaskControlBlockInner) : Z * TaskControlBlockInner :=
  let kernel := wadd (kernel_clock i) (wsub tick (clock_stop_watch i)) in
  (kernel, i <| clock_stop_watch := tick |> <| kernel_clock := kernel |>).
Definition get_process_clock_time (tick : Z) (i : TaskControlBlockInner) : (Z * Z) * TaskControlBlockInner :=
  let kernel := wadd (kernel_clock i) (wsub tick (clock_stop_watch i)) in
  ((as_isize kernel, as_isize (user_clock i)), i <| clock_stop_watch := tick |> <| kernel_clock := kernel |>).

(** File descriptors: the lowest free one, or a new one at the end *)
Definition alloc_fd (i : TaskControlBlockInner) : nat * TaskControlBlockInner :=
  match list_find (λ o, o = None) (fd_table i) with
  | Some (fd, _) => (fd, i)
  | None => (length (fd_table i), i <| fd_table ::= λ l, l ++ [None] |>)
  end.

(** ** The task manager, the processor and the kernel's global state *)

Record TaskManager := {
  ready_queue : list task_ref;
  block_queue : list task_ref;
  stop_task : option task_ref;
}.
#[global] Instance TaskManager_eta : Settable TaskManager := λ r,
  {| ready_queue := ready_queue r; block_queue := block_queue r; stop_task := stop_task r |}.

Definition TaskManager_new : TaskManager := {| ready_queue := []; block_queue := []; stop_task := None |}.
Definition TaskManager_add (task : task_ref) (m : TaskManager) : TaskManager :=
  m <| ready_queue ::= λ q, q ++ [task] |>.
Definition TaskManager_add_block (task : task_ref) (m : TaskManager) : TaskManager :=
  m <| block_queue ::= λ q, q ++ [task] |>.
Definition TaskManager_fetch (m : TaskManager) : option task_ref * TaskManager :=
  match ready_queue m with
  | [] => (None, m)
  | t :: q => (Some t, m <| ready_queue := q |>)
  end.
Definition TaskManager_remove (task : task_ref) (m : TaskManager) : TaskManager :=
  match list_find (λ t, t = task) (ready_queue m) with
  | Some (id, _) => m <| ready_queue ::= delete id |>
  | None => m
  end.
Definition TaskManager_add_stop (task : task_ref) (m : TaskManager) : TaskManager :=
  m <| stop_task := Some task |>.

Record TimerCondVar := { expire_ms : Z; timer_task : task_ref }.

Record Processor := { current : option task_ref; idle_task_cx : TaskContext }.
#[global] Instance Processor_eta : Settable Processor := λ r,
  {| current := current r; idle_task_cx := idle_task_cx r |}.
Definition Processor_new : Processor := {| current := None; idle_task_cx := TaskContext_zero_init |}.
Definition Processor_take_current (p : Processor) : option task_ref * Processor := (current p, p <| current := None |>).

Record Kernel := {
  k_mm : Mm;
  k_space : MemorySet;
  k_tasks : gmap task_ref TaskControlBlock;
  k_initproc : task_ref;
  k_manager : TaskManager;
  k_pid2pcb : gmap Z task_ref;
  k_processor : Processor;
  k_pids : RecycleAllocator;
  k_kstacks : RecycleAllocator;
  k_timers : list TimerCondVar;
  k_time : Z;
}.
#[global] Instance Kernel_eta : Settable Kernel := λ r,
  {| k_mm := k_mm r; k_space := k_space r; k_tasks := k_tasks r; k_initproc := k_initproc r; k_manager := k_manager r;
     k_pid2pcb := k_pid2pcb r; k_processor := k_processor r; k_pids := k_pids r; k_kstacks := k_kstacks r;
     k_timers := k_timers r; k_time := k_time r |}.

(** [task.inner_exclusive_access()], to read and to write *)
Definition task_inner (t : task_ref) : M Kernel TaskControlBlockInner :=
  k ← get; tcb ← unwrap (k_tasks k !! t); mret (inner tcb).
Definition set_inner (t : task_ref) (f : TaskControlBlockInner → TaskControlBlockInner) (k : Kernel) : Kernel :=
  k <| k_tasks ::= alter (λ tcb, tcb <| inner ::= f |>) t |>.
Definition inner_modify (t : task_ref) (f : TaskControlBlockInner → TaskControlBlockInner) : M Kernel unit :=
  task_inner t;; modify (set_inner t f).
Definition task_pid (t : task_ref) : M Kernel Z := k ← get; tcb ← unwrap (k_tasks k !! t); mret (pid tcb).
Definition task_tid (t : task_ref) : M Kernel Z := k ← get; tcb ← unwrap (k_tasks k !! t); mret (tid tcb).

(** *** [task/manager.rs] *)

Definition add_task (task : task_ref) : M Kernel unit := modify (λ k, k <| k_manager ::= TaskManager_add task |>).
Definition add_block_task (task : task_ref) : M Kernel unit :=
  modify (λ k, k <| k_manager ::= TaskManager_add_block task |>).
Definition wakeup_task (task : task_ref) : M Kernel unit :=
  inner_modify task (λ i, i <| task_status := Ready |>);;
  add_task task.
Definition remove_task (task : task_ref) : M Kernel unit := modify (λ k, k <| k_manager ::= TaskManager_remove task |>).
Definition fetch_task : M Kernel (option task_ref) :=
  k ← get; let '(o, m) := TaskManager_fetch (k_manager k) in put (k <| k_manager := m |>);; mret o.
Definition add_stopping_task (task : task_ref) : M Kernel unit :=
  modify (λ k, k <| k_manager ::= TaskManager_add_stop task |>).
Definition pid2process (pid : Z) : M Kernel (option task_ref) := gets (λ k, k_pid2pcb k !! pid).
Definition insert_into_pid2process (pid : Z) (task : task_ref) : M Kernel unit :=
  modify (λ k, k <| k_pid2pcb ::= <[pid := task]> |>).
Definition remove_from_pid2process (pid : Z) : M Kernel unit :=
  o ← pid2process pid;
  match o with
  | Some _ => modify (λ k, k <| k_pid2pcb ::= delete pid |>)
  | None => panic Explicit
  end.
Definition unblock_task (task : task_ref) : M Kernel unit :=
  inner_modify task (λ i, i <| task_status := Ready |>);;
  modify (λ k, match list_find (λ t, t = task) (block_queue (k_manager k)) with
               | Some (idx, _) => k <| k_manager ::= λ m, m <| block_queue ::= delete idx |> <| ready_queue ::= cons task |> |>
               | None => k
               end).

(** *** [task/processor.rs] *)

Definition take_current_task : M Kernel (option task_ref) :=
  k ← get; let '(o, p) := Processor_take_current (k_processor k) in put (k <| k_processor := p |>);; mret o.
Definition current_task : M Kernel (option task_ref) := gets (λ k, current (k_processor k)).
Definition current_pid : M Kernel (option Z) :=
  o ← current_task; match o with Some t => p ← task_pid t; mret (Some p) | None => mret None end.
Definition current_tid : M Kernel (option Z) :=
  o ← current_task; match o with Some t => p ← task_tid t; mret (Some p) | None => mret None end.
Definition current_user_token : M Kernel Z :=
  o ← current_task; t ← unwrap o; i ← task_inner t; mret (MemorySet_token (memory_set i)).

(** The control block of a task that is about to run *)
Definition dispatch (tick : Z) (i : TaskControlBlockInner) : TaskControlBlockInner :=
  let i := i <| task_status := Running |> in
  let i := match first_time i with None => i <| first_time := Some (get_time_ms tick) |> | Some _ => i end in
  clock_time_refresh tick i.

(** One turn of [run_tasks], up to the switch; [false] when there is nothing to run *)
Definition run_tasks_turn : M Kernel bool :=
  o ← fetch_task;
  match o with
  | Some task =>
      tick ← gets k_time;
      inner_modify task (dispatch tick);;
      modify (λ k, k <| k_processor ::= λ p, p <| current := Some task |> |>);;
      mret true
  | None => mret false
  end.

(** *** Suspending, blocking ([task/mod.rs]) *)

Definition suspend_current_and_run_next : M Kernel unit :=
  o ← take_current_task;
  task ← unwrap o;
  inner_modify task (λ i, i <| task_status := Ready |>);;
  add_task task.

Definition block_current_and_run_next : M Kernel unit :=
  o ← take_current_task;
  task ← unwrap o;
  inner_modify task (λ i, i <| task_status := Blocked |>);;
  add_block_task task.

(** *** Process identifiers and kernel stacks *)

Definition pid_alloc : M Kernel Z := zoom k_pids RecycleAllocator_alloc.
Definition PidHandle_drop (pid : Z) : M Kernel unit := zoom k_pids (RecycleAllocator_dealloc pid).

Definition kstack_alloc : M Kernel Z :=
  kstack_id ← zoom k_kstacks RecycleAllocator_alloc;
  let '(kstack_bottom, kstack_top) := kernel_stack_position kstack_id in
  b ← lift (VirtAddr_from_usize kstack_bottom);
  e ← lift (VirtAddr_from_usize kstack_top);
  space ← gets k_space;
  space ← zoom k_mm (MemorySet_insert_framed_area space b e (Z.lor MapPermission_R MapPermission_W));
  modify (λ k, k <| k_space := space |>);;
  mret kstack_id.

Definition KernelStack_drop (kstack_id : Z) : M Kernel unit :=
  let '(kernel_stack_bottom, _) := kernel_stack_position kstack_id in
  va ← lift (VirtAddr_from_usize kernel_stack_bottom);
  vpn ← lift (VirtPageNum_from_va va);
  space ← gets k_space;
  space ← zoom k_mm (MemorySet_remove_area_with_start_vpn space vpn);
  modify (λ k, k <| k_space := space |>);;
  zoom k_kstacks (RecycleAllocator_dealloc kstack_id).

(** *** Timers ([timer.rs])

    A [BinaryHeap] hands out a greatest element first, with [-(expire_ms as isize)] as the order;
    the model keeps the timers in the order in which they are handed out.  The order of timers
    that expire at the same time is not specified. *)

Definition timer_key (t : TimerCondVar) : Z := as_isize (wrap (- as_isize (expire_ms t))).
Fixpoint timers_push (t : TimerCondVar) (l : list TimerCondVar) : list TimerCondVar :=
  match l with
  | [] => [t]
  | x :: l' => if timer_key x <? timer_key t then t :: l else x :: timers_push t l'
  end.

Definition add_timer (expire_ms : Z) (task : task_ref) : M Kernel unit :=
  modify (λ k, k <| k_timers ::= timers_push {| expire_ms := expire_ms; timer_task := task |} |>).
Definition remove_timer (task : task_ref) : M Kernel unit :=
  modify (λ k, k <| k_timers ::= filter (λ t, timer_task t ≠ task) |>).

Fixpoint check_timer_loop (current_ms : Z) (timers : list TimerCondVar) : M Kernel (list TimerCondVar) :=
  match timers with
  | [] => mret []
  | t :: l =>
      if expire_ms t <=? current_ms then wakeup_task (timer_task t);; check_timer_loop current_ms l
      else mret timers
  end.
Definition check_timer : M Kernel unit :=
  k ← get;
  timers ← check_timer_loop (get_time_ms (k_time k)) (k_timers k);
  modify (λ k, k <| k_timers := timers |>).

(** *** Semaphores ([sync/semaphore.rs])

    The operations return the semaphore as it is when another task may use it. *)

Record Semaphore := { count : Z; wait_queue : list task_ref }.
#[global] Instance Semaphore_eta : Settable Semaphore := λ r, {| count := count r; wait_queue := wait_queue r |}.

Definition Semaphore_new (res_count : Z) : Semaphore := {| count := as_isize res_count; wait_queue := [] |}.

Definition Semaphore_up (s : Semaphore) : M Kernel Semaphore :=
  let s := s <| count := as_isize (wrap (count s + 1)) |> in
  if count s <=? 0 then
    match wait_queue s with
    | task :: q => wakeup_task task;; mret (s <| wait_queue := q |>)
    | [] => mret s
    end
  else mret s.

Definition Semaphore_down (s : Semaphore) : M Kernel Semaphore :=
  let s := s <| count := as_isize (wrap (count s - 1)) |> in
  if count s <? 0 then
    o ← current_task;
    task ← unwrap o;
    block_current_and_run_next;;
    mret (s <| wait_queue ::= λ q, q ++ [task] |>)
  else mret s.

(** *** The end of a task ([task/mod.rs]) *)

Definition remove_inactive_task (task : task_ref) : M Kernel unit := remove_task task;; remove_timer task.

(** [for child in children { child.parent = INITPROC; INITPROC.children.push(child) }] *)
Definition adopt (child : task_ref) : M Kernel unit :=
  initproc ← gets k_initproc;
  inner_modify child (λ i, i <| parent := Some initproc |>);;
  inner_modify initproc (λ i, i <| children ::= λ l, l ++ [child] |>).

Definition exit_current_and_run_next (code : Z) : M Kernel unit :=
  o ← take_current_task;
  task ← unwrap o;
  tid ← task_tid task;
  pid ← task_pid task;
  if tid =? pid then
    (if pid =? IDLE_PID then panic Halt else mret ());;
    remove_from_pid2process pid;;
    inner_modify task (λ i, i <| is_zombie := true |> <| exit_code := Some code |>);;
    i ← task_inner task;
    foldM (λ _ child, adopt child) () (children i);;
    foldM (λ _ t, remove_inactive_task t) () (omap id (threads i));;
    i ← task_inner task;
    ms ← zoom k_mm (MemorySet_recycle_data_pages (memory_set i));
    inner_modify task (λ i, i <| children := [] |> <| memory_set := ms |> <| fd_table := [] |> <| threads := [] |>)
  else mret ().

(** *** Signals of the current task *)

Definition check_signals_of_current : M Kernel (option Z) :=
  o ← current_task; t ← unwrap o; i ← task_inner t; mret (SignalFlags_check_error (signals i)).
Definition current_add_signal (signal : Z) : M Kernel unit :=
  o ← current_task; t ← unwrap o; inner_modify t (λ i, i <| signals ::= Z.lor signal |>).
End tasks.
