(* ===== verification/Syscall.v ===== *)
(** * System calls on tasks, signals, file descriptors and the heap ([os/src/syscall])

    A pointer argument is modelled by the value it points to ([None] for a null pointer) and a store
    through a pointer by a component of the result; copying between user memory and the kernel is
    the subject of [PageTable] and [MemorySet]. *)

From Stdlib Require Import ZArith Lia.
From stdpp Require Import functions prelude gmap.
From S2P Require Import Prelude Config Address FrameAllocator PageTable MemorySet Time Task.

Open Scope Z_scope.

(** ** Error numbers ([syscall/errno.rs]) *)

Definition SUCCESS : Z := 0.
Definition EPERM : Z := -1.
Definition ENOENT : Z := -2.
Definition ESRCH : Z := -3.
Definition EBADF : Z := -9.
Definition ECHILD : Z := -10.
Definition EINVAL : Z := -22.

(** ** The kernel heap *)

(** The size of an [Option<Arc<dyn File>>], a pointer and a table of functions *)
Definition FD_ENTRY_SIZE : Z := 16.

(** What the heap, a crate of its own, does when the table of descriptors of a task is to grow [from] a length [to] another one:
    it has room or not, as the other allocations and its rounding have it, and it never gives more than its size. *)
Class KernelHeap := {
  heap_room (from to : nat) : bool;
  heap_limit from to : heap_room from to = true → FD_ENTRY_SIZE * Z.of_nat to ≤ KERNEL_HEAP_SIZE;
}.
(** A heap that is used for nothing else *)
Program Definition empty_heap : KernelHeap := {| heap_room _ to := FD_ENTRY_SIZE * Z.of_nat to <=? KERNEL_HEAP_SIZE |}.
Next Obligation. intros from to H. by apply Z.leb_le. Qed.

Section syscalls.
Context {File Dentry Inode : Type}.
Abbreviation Kernel := (@Kernel File Dentry) (only parsing).
Abbreviation TaskControlBlockInner := (@TaskControlBlockInner File Dentry) (only parsing).

(** Run an operation on the inner block of the current task. *)
Definition with_current {A} (c : M TaskControlBlockInner A) : M Kernel A :=
  o ← current_task;
  t ← unwrap o;
  i ← task_inner t;
  '(a, i) ← lift (c i);
  modify (set_inner t (λ _, i));;
  mret a.

(** ** Processes ([syscall/process.rs]) *)

Definition sys_yield : M Kernel Z := suspend_current_and_run_next;; mret 0.
Definition sys_getpid : M Kernel Z := o ← current_task; t ← unwrap o; p ← task_pid t; mret (as_isize p).
Definition sys_gettid : M Kernel Z := o ← current_task; t ← unwrap o; p ← task_tid t; mret (as_isize p).
Definition sys_getppid : M Kernel Z :=
  o ← current_task;
  t ← unwrap o;
  i ← task_inner t;
  match parent i with
  | Some p => pid ← task_pid p; mret (as_isize pid)
  | None => mret ESRCH
  end.
Definition sys_set_tid_address (tidptr : Z) : M Kernel Z :=
  o ← current_task;
  t ← unwrap o;
  inner_modify t (λ i, i <| clear_child_tid := tidptr |>);;
  p ← task_tid t; mret (as_isize p).

(** The options of [wait4]; other bits make [from_bits(..).unwrap()] panic. *)
Definition WNOHANG : Z := 1.
Definition WaitOption_all : Z := Z.lor (Z.lor (Z.lor (Z.lor 1 2) 4) 8) 0x1000000.
Definition WaitOption_from_bits (b : Z) : option Z := if Z.land b (wnot WaitOption_all) =? 0 then Some b else None.

(** [pid == -1 || pid as usize == p.pid.0] *)
Definition wait_matches (pid p : Z) : bool := (pid =? -1) || (wrap pid =? p).

(** What the scans of [wait4] look at *)
Definition child_status (c : nat) : M Kernel (Z * bool) :=
  p ← task_pid c; i ← task_inner c; mret (p, is_zombie i).
Fixpoint map_children {A} (f : nat → M Kernel A) (l : list nat) : M Kernel (list A) :=
  match l with
  | [] => mret []
  | c :: l => a ← f c; r ← map_children f l; mret (a :: r)
  end.

(** One turn of the loop of [wait4]: [inl (ret, exit code stored)] when it returns, [inr ()] when the
    task has given up the processor and goes on with another turn once it runs again. *)
Definition sys_wait4_turn (pid option : Z) : M Kernel ((Z * Datatypes.option Z) + unit) :=
  o ← current_task;
  t ← unwrap o;
  i ← task_inner t;
  st ← map_children child_status (children i);
  if negb (existsb (λ s, wait_matches pid s.1) st) then mret (inl (ECHILD, None))
  else
    match list_find (λ s : Z * bool, s.2 && wait_matches pid s.1) st with
    | Some (idx, (found_pid, _)) =>
        child ← unwrap (children i !! idx);
        ci ← task_inner child;
        inner_modify t (λ i, i <| children ::= delete idx |>);;
        code ← unwrap (exit_code ci);
        mret (inl (as_isize found_pid, Some code))
    | None =>
        if Z.land option WNOHANG =? WNOHANG then mret (inl (0, None))
        else suspend_current_and_run_next;; mret (inr ())
    end.

Definition sys_kill (pid signal : Z) : M Kernel Z :=
  o ← pid2process pid;
  match o with
  | Some process =>
      match SignalFlags_from_bits signal with
      | Some flag => inner_modify process (λ i, i <| signals ::= Z.lor flag |>);; mret 0
      | None => mret EINVAL
      end
  | None => mret ESRCH
  end.

(** The running time and the counts that [sys_task_info] stores *)
Definition sys_task_info : M Kernel (TaskStatus * list Z * Z) :=
  o ← current_task;
  t ← unwrap o;
  i ← task_inner t;
  tick ← gets k_time;
  first ← unwrap (first_time i);
  mret (Running, syscall_times i, wsub (get_time_ms tick) first).

(** [sys_brk]: growing past the last page maps the pages up to the new end. *)
Definition brk_align (x : Z) : Z := Z.land (wsub (wadd x PAGE_SIZE) 1) (wnot (wsub PAGE_SIZE 1)).
Definition sys_brk (addr : Z) : M Kernel Z :=
  o ← current_task;
  t ← unwrap o;
  i ← task_inner t;
  if addr =? 0 then mret (as_isize (heap_end i))
  else if addr <? heap_base i then mret EINVAL
  else
    let align_addr := brk_align addr in
    let align_end := brk_align (heap_end i) in
    if addr <=? align_end then
      va ← lift (VirtAddr_from_usize addr);
      inner_modify t (λ i, i <| heap_end := va |>);;
      mret (as_isize align_addr)
    else
      va ← lift (VirtAddr_from_usize align_addr);
      '(_, ms) ← zoom k_mm (MemorySet_map_heap (memory_set i) (heap_end i) va);
      inner_modify t (λ i, i <| memory_set := ms |> <| heap_end := va |>);;
      mret (as_isize addr).

(** [mmap] of the current task.  The files are not under this development: the inode behind a file
    and the bytes [read_all] returns for it are arguments. *)
Definition Flags_all : Z :=
  foldr Z.lor 0 [0x01; 0x02; 0x10; 0x20; 0x0100; 0x0800; 0x1000; 0x2000; 0x4000; 0x8000; 0x10000; 0x20000;
                 0x40000; 0x80000; 0x100000; 0x4000000].
Definition Flags_from_bits (b : Z) : option Z := if Z.land b (wnot Flags_all) =? 0 then Some b else None.

Definition sys_mmap (cast_file_to_inode : File → option Inode) (read_all : Inode → list Z)
    (start len flags fd off : Z) : M Kernel Z :=
  if (as_isize start =? -1) || (len =? 0) then mret EINVAL
  else
    o ← current_task;
    t ← unwrap o;
    i ← task_inner t;
    flags ← unwrap (Flags_from_bits (as_u32 flags));
    slot ← lift (match fd_table i !! Z.to_nat fd with Some s => Ok s | None => Panic Bounds end);
    file ← unwrap slot;
    inode ← unwrap (cast_file_to_inode file);
    if flags_contains flags MAP_ANONYMOUS then
      '(r, ms) ← zoom k_mm (MemorySet_mmap (memory_set i) start len off [] flags);
      inner_modify t (λ i, i <| memory_set := ms |>);; mret r
    else
      let context := read_all inode in
      let file_len := Z.of_nat (length context) in
      let length := Z.min len (wsub file_len off) in
      if file_len <=? off then mret EPERM
      else
        '(r, ms) ← zoom k_mm (MemorySet_mmap (memory_set i) start length off context flags);
        inner_modify t (λ i, i <| memory_set := ms |>);; mret r.

Definition sys_munmap (start len : Z) : M Kernel Z :=
  o ← current_task;
  t ← unwrap o;
  i ← task_inner t;
  '(r, ms) ← zoom k_mm (MemorySet_munmap (memory_set i) start len);
  inner_modify t (λ i, i <| memory_set := ms |>);;
  mret r.

(** ** Signals ([syscall/signal.rs]) *)

(** The result and the mask stored through [old_set] *)
Definition sys_sigprocmask (how : Z) (set : option Z) : M Kernel (Z * Z) :=
  with_current (λ i,
    let mask := signal_mask i in
    match set with
    | None => Ok ((SUCCESS, mask), i)
    | Some new_set =>
        match SignalFlags_from_bits new_set with
        | None => Panic Unwrap
        | Some set_flags =>
            if how =? SIG_BLOCK then Ok ((SUCCESS, mask), i <| signal_mask := Z.lor mask set_flags |>)
            else if how =? SIG_UNBLOCK then Ok ((SUCCESS, mask), i <| signal_mask := Z.land mask (wnot set_flags) |>)
            else if how =? SIG_SETMASK then Ok ((SUCCESS, mask), i <| signal_mask := set_flags |>)
            else Ok ((EPERM, mask), i)
        end
    end).

Definition check_sigaction_error (signal : Z) : bool := (signal =? SIGKILL) || (signal =? SIGSTOP).

(** The result and the action stored through a non-null [old_action]; the shift count of
    [1 << (signum - 1)] is taken modulo 64. *)
Definition sys_sigaction (signum : Z) (action : option SignalAction) : M Kernel (Z * option SignalAction) :=
  with_current (λ i,
    if MAX_SIG <? signum then Ok ((EPERM, None), i)
    else
      match signal_actions i !! Z.to_nat signum with
      | None => Panic Bounds
      | Some old =>
          match SignalFlags_from_bits (wshl 1 (wsub signum 1 mod 64)) with
          | Some flag =>
              if check_sigaction_error flag then Ok ((EPERM, Some old), i)
              else
                match action with
                | Some a => Ok ((SUCCESS, Some old), i <| signal_actions ::= <[Z.to_nat signum := a]> |>)
                | None => Ok ((SUCCESS, Some old), i)
                end
          | None => Ok ((EPERM, Some old), i)
          end
      end).

(** ** File descriptors ([syscall/fs.rs]) *)

(** [if fd >= fd_table.len() || fd_table[fd].is_none() { return EBADF }] *)
Definition fd_file (i : TaskControlBlockInner) (fd : nat) : option File := mjoin (fd_table i !! fd).
Definition set_fd (fd : nat) (o : option File) (i : TaskControlBlockInner) : TaskControlBlockInner :=
  i <| fd_table ::= <[fd := o]> |>.

Definition sys_close (fd : nat) : M Kernel Z :=
  with_current (λ i, match fd_file i fd with
                     | None => Ok (EBADF, i)
                     | Some _ => Ok (0, set_fd fd None i)
                     end).

Definition sys_dup (fd : nat) : M Kernel Z :=
  with_current (λ i, match fd_file i fd with
                     | None => Ok (EBADF, i)
                     | Some f => let '(new_fd, i) := alloc_fd i in Ok (Z.of_nat new_fd, set_fd new_fd (Some f) i)
                     end).

(** The table is extended up to [new_fd]; one of the pushes panics when the heap has no room for it. *)
Definition sys_dup3 `{KernelHeap} (fd new_fd : nat) : M Kernel Z :=
  with_current (λ i, match fd_file i fd with
                     | None => Ok (EBADF, i)
                     | Some f =>
                         let n := length (fd_table i) in
                         if (n <=? new_fd)%nat && negb (heap_room n (S new_fd)) then Panic Explicit
                         else
                           let i := i <| fd_table ::= λ l, l ++ replicate (S new_fd - length l) None |> in
                           Ok (as_isize (Z.of_nat new_fd), set_fd new_fd (Some f) i)
                     end).

(** [pipe_read] and [pipe_write] are the two ends [make_pipe] returns; the result is the pair of
    descriptors stored through the pointer. *)
Definition sys_pipe (pipe_read pipe_write : File) : M Kernel (Z * (Z * Z)) :=
  with_current (λ i,
    let '(read_fd, i) := alloc_fd i in
    let i := set_fd read_fd (Some pipe_read) i in
    let '(write_fd, i) := alloc_fd i in
    let i := set_fd write_fd (Some pipe_write) i in
    Ok ((0, (as_u32 (Z.of_nat read_fd), as_u32 (Z.of_nat write_fd))), i)).

Definition sys_fcntl (fd : nat) (cmd : Z) : M Kernel Z :=
  with_current (λ i,
    match fd_file i fd with
    | None => Ok (EBADF, i)
    | Some f =>
        if (cmd =? 0) || (cmd =? 1030) then
          let '(new_fd, i) := alloc_fd i in Ok (Z.of_nat new_fd, set_fd new_fd (Some f) i)
        else if (cmd =? 2) || (cmd =? 4) then Ok (0, i)
        else Panic Todo
    end).
End syscalls.
