(* ===== verification/Process.v ===== *)
(** * Creating processes ([os/src/task/task.rs], [os/src/trap/context.rs], [os/src/syscall/process.rs])

    The initial process, [fork], threads and [exec].  Trap contexts are bytes of the address spaces:
    the kernel reads and writes them through the active page table, which is the one of the running
    process, or the kernel's own while the initial process is built.  The addresses of kernel entry
    points, the [sstatus] register and the ELF parser are arguments. *)

From Stdlib Require Import ZArith Lia.
From stdpp Require Import functions prelude gmap.
From S2P Require Import Prelude Config Address FrameAllocator PageTable MemorySet Time Task Syscall.

Open Scope Z_scope.

(** ** Trap contexts ([trap/context.rs]) *)

Record TrapContext := {
  cx_x : list Z;
  cx_sstatus : Z;
  cx_sepc : Z;
  cx_kernel_satp : Z;
  cx_kernel_sp : Z;
  cx_trap_handler : Z;
}.
#[export] Instance TrapContext_eta : Settable TrapContext := λ r,
  {| cx_x := cx_x r; cx_sstatus := cx_sstatus r; cx_sepc := cx_sepc r; cx_kernel_satp := cx_kernel_satp r;
     cx_kernel_sp := cx_kernel_sp r; cx_trap_handler := cx_trap_handler r |}.

Definition TrapContext_set_x (i : nat) (v : Z) (cx : TrapContext) : TrapContext := cx <| cx_x ::= <[i := v]> |>.
Definition TrapContext_set_sp (sp : Z) (cx : TrapContext) : TrapContext := TrapContext_set_x 2 sp cx.

(** [sstatus.set_spp(SPP::User)] clears bit 8. *)
Definition TrapContext_app_init_context (sstatus entry sp kernel_satp kernel_sp trap_handler : Z) : TrapContext :=
  TrapContext_set_sp sp
    {| cx_x := replicate 32 0; cx_sstatus := Z.ldiff sstatus (2 ^ 8); cx_sepc := entry; cx_kernel_satp := kernel_satp;
       cx_kernel_sp := kernel_sp; cx_trap_handler := trap_handler |}.

(** The bytes of a context: [repr(C)], thirty-seven words *)
Definition TrapContext_words (cx : TrapContext) : list Z :=
  cx_x cx ++ [cx_sstatus cx; cx_sepc cx; cx_kernel_satp cx; cx_kernel_sp cx; cx_trap_handler cx].
Definition TrapContext_bytes (cx : TrapContext) : list Z := TrapContext_words cx ≫= le_bytes 8.
Definition TRAP_CONTEXT_SIZE : Z := 37 * 8.
Definition x_offset (i : Z) : Z := 8 * i.
Definition kernel_sp_offset : Z := 8 * 35.

(** The addresses of kernel code *)
Record EntryPoints := { at_trap_handler : Z; at_trap_return : Z; at_initproc_entry : Z; at_user_entry : Z }.

Definition TaskContext_goto_trap_return (ep : EntryPoints) (kstack_ptr : Z) : TaskContext :=
  {| cx_ra := at_trap_return ep; cx_sp := kstack_ptr; cx_s := replicate 12 0 |}.
Definition TaskContext_goto_initproc_entry (ep : EntryPoints) (kstack_ptr : Z) : TaskContext :=
  {| cx_ra := at_initproc_entry ep; cx_sp := kstack_ptr; cx_s := replicate 12 0 |}.
Definition TaskContext_goto_user_entry (ep : EntryPoints) (kstack_ptr : Z) : TaskContext :=
  {| cx_ra := at_user_entry ep; cx_sp := kstack_ptr; cx_s := replicate 12 0 |}.

(** A load through the MMU *)
Definition mmu_load_byte (pt : PageTable) (va : Z) : M Mm Z :=
  o ← PageTable_translate pt (VirtAddr_floor va);
  match o with
  | Some e =>
      v ← lift (PageTableEntry_is_valid e);
      r ← lift (PageTableEntry_readable e);
      ppn ← lift (PageTableEntry_ppn e);
      st ← get;
      if (v : bool) && r then unwrap (get_bytes_array st ppn !! Z.to_nat (VirtAddr_page_offset va)) else panic PageFault
  | None => panic PageFault
  end.
Definition mmu_load (pt : PageTable) (va : Z) (n : nat) : M Mm (list Z) :=
  foldM (λ l i, b ← mmu_load_byte pt (wadd va (Z.of_nat i)); mret (l ++ [b])) [] (seq 0 n).

Section processes.
Context {File Dentry : Type}.
Abbreviation Kernel := (@Kernel File Dentry) (only parsing).
Abbreviation TaskControlBlock := (@TaskControlBlock File Dentry) (only parsing).

(** ** Control blocks *)

Definition task_block (t : nat) : M Kernel TaskControlBlock := k ← get; unwrap (k_tasks k !! t).

(** [Arc::new]: a reference that is not in use *)
Definition next_ref (k : Kernel) : nat := S (map_fold (λ t _ m, Nat.max t m) 0%nat (k_tasks k)).
Definition arc_new_task (tcb : TaskControlBlock) : M Kernel nat :=
  k ← get;
  put (k <| k_tasks ::= <[next_ref k := tcb]> |>);;
  mret (next_ref k).

Definition trap_cx_user_va (tcb : TaskControlBlock) : outcome VirtAddr :=
  VirtAddr_from_usize (trap_cx_bottom_from_tid (pid tcb)).
Definition task_trap_cx_ppn (t : nat) : M Kernel PhysPageNum :=
  tcb ← task_block t;
  va ← lift (VirtAddr_from_usize (trap_cx_bottom_from_tid (tid tcb)));
  vpn ← lift (VirtPageNum_from_va va);
  o ← zoom k_mm (MemorySet_translate (memory_set (inner tcb)) vpn);
  e ← unwrap o;
  lift (PageTableEntry_ppn e).

Definition RW : Z := Z.lor MapPermission_R MapPermission_W.
Definition RWU : Z := Z.lor RW MapPermission_U.

(** The page of a trap context, in the address space it belongs to *)
Definition alloc_trap_cx (ms : MemorySet) (id : Z) : M Mm MemorySet :=
  let trap_cx_bottom := trap_cx_bottom_from_tid id in
  b ← lift (VirtAddr_from_usize trap_cx_bottom);
  e ← lift (VirtAddr_from_usize (wadd trap_cx_bottom PAGE_SIZE));
  MemorySet_insert_framed_area ms b e RW.
Definition trap_cx_frame (ms : MemorySet) (id : Z) : M Mm PhysPageNum :=
  va ← lift (VirtAddr_from_usize (trap_cx_bottom_from_tid id));
  vpn ← lift (VirtPageNum_from_va va);
  o ← MemorySet_translate ms vpn;
  e ← unwrap o;
  lift (PageTableEntry_ppn e).

(** ... and in the page table that is active *)
Definition map_trap_cx (pt : PageTable) (id : Z) (ppn : PhysPageNum) : M Mm PageTable :=
  va ← lift (VirtAddr_from_usize (trap_cx_bottom_from_tid id));
  flags ← unwrap (PTEFlags_from_bits RW);
  PageTable_map pt (VirtAddr_floor va) ppn flags.

(** ** The initial process *)

Definition init_task (ep : EntryPoints) (sstatus : Z) (parse : list Z → option ElfFile) (stdin stdout : File) (root : Dentry)
    (elf_data : list Z) : M Kernel nat :=
  kstack ← kstack_alloc;
  space ← gets k_space;
  '(ms, user_heap_base, ustack_top, entry_point, auxv) ←
    zoom k_mm (MemorySet_from_elf (root_ppn (page_table space)) parse elf_data);
  pid ← pid_alloc;
  b ← lift (VirtAddr_from_usize (wsub ustack_top USER_STACK_SIZE));
  e ← lift (VirtAddr_from_usize ustack_top);
  ms ← zoom k_mm (MemorySet_insert_framed_area ms b e RWU);
  ms ← zoom k_mm (alloc_trap_cx ms pid);
  trap_cx_ppn ← zoom k_mm (trap_cx_frame ms pid);
  pt ← zoom k_mm (map_trap_cx (page_table space) pid trap_cx_ppn);
  modify (λ k, k <| k_space := ms_with_pt space pt |>);;
  let kstack_top := KernelStack_get_top kstack in
  heap ← lift (VirtAddr_from_usize user_heap_base);
  task ← arc_new_task
    {| kstack := kstack; tid := pid; pid := pid; send_sigchld_when_exit := false;
       inner :=
         {| is_zombie := false; memory_set := ms; trap_cx_ppn := trap_cx_ppn;
            task_cx := TaskContext_goto_initproc_entry ep kstack_top; task_status := Ready; exit_code := None;
            syscall_times := replicate (Z.to_nat MAX_SYSCALL_NUM) 0; first_time := None; clear_child_tid := 0; parent := None; children := [];
            threads := []; user_stack_top := wsub ustack_top 8; fd_table := [Some stdin; Some stdout; Some stdout];
            signals := 0; clock_stop_watch := 0; user_clock := 0; kernel_clock := 0; heap_base := heap; heap_end := heap;
            work_dir := root; signal_actions := SignalActions_default; signals_pending := 0; signal_mask := 0 |} |};
  zoom k_mm (mmu_store pt (trap_cx_bottom_from_tid pid)
    (TrapContext_bytes (TrapContext_app_init_context sstatus entry_point (wsub ustack_top 8) (PageTable_token pt)
      kstack_top (at_trap_handler ep))));;
  add_task task;;
  mret task.

(** [INITPROC] is built on first use. *)
Definition add_initproc (ep : EntryPoints) (sstatus : Z) (parse : list Z → option ElfFile) (stdin stdout : File)
    (root : Dentry) (data : list Z) : M Kernel unit :=
  task ← init_task ep sstatus parse stdin stdout root data;
  modify (λ k, k <| k_initproc := task |>).

(** ** [fork] *)

(** [core::ptr::copy] of as many contexts as fit into a page, through the active page table *)
Definition copy_trap_cx (pt : PageTable) (src dst : Z) : M Mm unit :=
  bytes ← mmu_load pt src (Z.to_nat (PAGE_SIZE / TRAP_CONTEXT_SIZE * TRAP_CONTEXT_SIZE));
  mmu_store pt dst bytes.

Definition fork_child (ep : EntryPoints) (self : nat) (i : @TaskControlBlockInner File Dentry) (kstack pid : Z)
    (ms : MemorySet) (trap_cx_ppn : PhysPageNum) : TaskControlBlock :=
  {| kstack := kstack; tid := pid; pid := pid; send_sigchld_when_exit := false;
     inner :=
       {| is_zombie := false; memory_set := ms; trap_cx_ppn := trap_cx_ppn;
          task_cx := TaskContext_goto_user_entry ep (KernelStack_get_top kstack); task_status := Ready; exit_code := None;
          syscall_times := replicate (Z.to_nat MAX_SYSCALL_NUM) 0; first_time := None; clear_child_tid := 0;
          parent := Some self; children := []; threads := []; user_stack_top := user_stack_top i; fd_table := fd_table i;
          signals := 0; clock_stop_watch := 0; user_clock := 0; kernel_clock := 0; heap_base := heap_base i;
          heap_end := heap_end i; work_dir := work_dir i; signal_actions := SignalActions_default;
          signals_pending := signals_pending i; signal_mask := 0 |} |}.

Definition TaskControlBlock_fork (ep : EntryPoints) (self : nat) : M Kernel Z :=
  child_pid ← pid_alloc;
  trap_cx_ppn ← task_trap_cx_ppn self;
  tcb ← task_block self;
  let i := inner tcb in
  kstack ← kstack_alloc;
  space ← gets k_space;
  ms ← zoom k_mm (MemorySet_from_existed_user (root_ppn (page_table space)) (memory_set i));
  ms ← zoom k_mm (alloc_trap_cx ms child_pid);
  ppn ← zoom k_mm (trap_cx_frame ms child_pid);
  pt ← zoom k_mm (map_trap_cx (page_table (memory_set i)) child_pid ppn);
  inner_modify self (λ i, i <| memory_set ::= λ ms, ms_with_pt ms pt |>);;
  child ← arc_new_task (fork_child ep self i kstack child_pid ms trap_cx_ppn);
  inner_modify self (λ i, i <| children ::= λ l, l ++ [child] |>);;
  src ← lift (trap_cx_user_va tcb);
  dst ← lift (VirtAddr_from_usize (trap_cx_bottom_from_tid child_pid));
  zoom k_mm (copy_trap_cx pt src dst);;
  zoom k_mm (mmu_store pt (wadd dst (x_offset 10)) (le_bytes 8 0));;
  zoom k_mm (mmu_store pt (wadd dst kernel_sp_offset) (le_bytes 8 (KernelStack_get_top kstack)));;
  insert_into_pid2process child_pid child;;
  add_task child;;
  mret child_pid.

(** ** Threads

    The first borrow of the control block lasts to the end of [clone2], and the page of the trap
    context is looked up with its address in the place of its number. *)
Definition TaskControlBlock_clone2 (ep : EntryPoints) (self : nat) (stdin stdout : File) (stack_ptr tls : Z)
    : M Kernel nat :=
  child_pid ← pid_alloc;
  tcb ← task_block self;
  let i := inner tcb in
  thread_stack_top ← (if negb (stack_ptr =? 0) then mret stack_ptr else panic Borrowed);
  kstack ← kstack_alloc;
  let trap_cx_bottom := trap_cx_bottom_from_tid child_pid in
  vpn ← lift (VirtPageNum_from_usize trap_cx_bottom);
  o ← zoom k_mm (PageTable_translate (page_table (memory_set i)) vpn);
  e ← unwrap o;
  trap_cx_ppn ← lift (PageTableEntry_ppn e);
  father ← zoom k_mm (alloc_trap_cx (memory_set i) child_pid);
  inner_modify self (λ i, i <| memory_set := father |>);;
  space ← gets k_space;
  ms ← zoom k_mm (MemorySet_from_existed_user (root_ppn (page_table space)) father);
  let new := fork_child ep self (i <| user_stack_top := thread_stack_top |>
                                   <| fd_table := [Some stdin; Some stdout; Some stdout] |>) kstack child_pid ms trap_cx_ppn in
  new_task ← arc_new_task (new <| tid := pid tcb |> <| inner ::= λ i, i <| parent := None |> |>);
  inner_modify self (λ i, i <| threads ::= λ l, l ++ [Some new_task] |>);;
  src ← lift (trap_cx_user_va tcb);
  dst ← lift (VirtAddr_from_usize trap_cx_bottom);
  cx ← zoom k_mm (mmu_load (page_table father) src (Z.to_nat TRAP_CONTEXT_SIZE));
  zoom k_mm (mmu_store (page_table father) dst cx);;
  zoom k_mm (mmu_store (page_table father) (wadd dst (x_offset 10)) (le_bytes 8 0));;
  zoom k_mm (mmu_store (page_table father) (wadd dst (x_offset 4)) (le_bytes 8 tls));;
  zoom k_mm (mmu_store (page_table father) (wadd dst (x_offset 2)) (le_bytes 8 thread_stack_top));;
  zoom k_mm (mmu_store (page_table father) (wadd dst kernel_sp_offset) (le_bytes 8 (KernelStack_get_top kstack)));;
  add_task new_task;;
  mret new_task.

(** ** [exec]

    The old address space stays active while the new one is built, its arguments are pushed through
    it, and the last store still goes through it after it has been dropped. *)
Definition TaskControlBlock_exec (ep : EntryPoints) (sstatus : Z) (parse : list Z → option ElfFile) (self : nat)
    (elf_data : list Z) (argv_vec envp_vec : list (list Z)) : M Kernel unit :=
  tcb ← task_block self;
  assertM (pid tcb =? tid tcb);;
  space ← gets k_space;
  '(ms, user_heap_base, ustack_top, entry_point, auxv) ←
    zoom k_mm (MemorySet_from_elf (root_ppn (page_table space)) parse elf_data);
  heap ← lift (VirtAddr_from_usize user_heap_base);
  let ustack_top := wsub ustack_top 8 in
  inner_modify self (λ i, i <| heap_base := heap |> <| heap_end := heap |> <| user_stack_top := ustack_top |>);;
  b ← lift (VirtAddr_from_usize (wadd (wsub ustack_top USER_STACK_SIZE) 8));
  e ← lift (VirtAddr_from_usize ustack_top);
  ms ← zoom k_mm (MemorySet_insert_framed_area ms b e RWU);
  '(old, (user_sp, argc, argv_base, envp_base, aux_base)) ←
    zoom k_mm (MemorySet_build_stack (memory_set (inner tcb)) ustack_top argv_vec envp_vec auxv (MemorySet_token ms));
  zoom k_mm (MemorySet_drop old);;
  let kstack_top := KernelStack_get_top (kstack tcb) in
  let cx := TrapContext_app_init_context sstatus entry_point user_sp (PageTable_token (page_table space)) kstack_top
              (at_trap_handler ep) in
  let cx := TrapContext_set_x 13 aux_base (TrapContext_set_x 12 envp_base
              (TrapContext_set_x 11 argv_base (TrapContext_set_x 10 argc cx))) in
  let trap_cx_bottom := trap_cx_bottom_from_tid (pid tcb) in
  b ← lift (VirtAddr_from_usize trap_cx_bottom);
  e ← lift (VirtAddr_from_usize (wadd trap_cx_bottom PAGE_SIZE));
  ms ← zoom k_mm (MemorySet_insert_framed_area_with_data ms b e RW (TrapContext_bytes cx));
  inner_modify self (λ i, i <| memory_set := ms |> <| task_cx := TaskContext_goto_user_entry ep kstack_top |>);;
  zoom k_mm (mmu_store (page_table old) trap_cx_bottom (TrapContext_bytes cx)).

(** [Drop for TaskControlBlock]: the control block is borrowed while it is borrowed. *)
Definition dealloc_user_res (t : nat) : M Kernel unit := task_inner t;; panic Borrowed.

(** ** The calls ([syscall/process.rs]) *)

Definition CSIGNAL : Z := 0xff.
Definition CloneFlags_all : Z :=
  foldr Z.lor 0 [0x80; 0x100; 0x200; 0x400; 0x800; 0x1000; 0x2000; 0x4000; 0x8000; 0x10000; 0x20000; 0x40000; 0x80000;
                 0x100000; 0x200000; 0x400000; 0x800000; 0x1000000; 0x2000000; 0x4000000; 0x8000000; 0x10000000;
                 0x20000000; 0x40000000; 0x80000000].
Definition CLONE_THREAD : Z := 0x10000.
Definition CLONE_PARENT_SETTID : Z := 0x100000.
Definition CLONE_CHILD_CLEARTID : Z := 0x200000.
Definition CLONE_CHILD_SETTID : Z := 0x1000000.
Definition CloneFlags_from_bits (b : Z) : option Z := if Z.land b (wnot CloneFlags_all) =? 0 then Some b else None.

(** The result and the values stored through [ptid] and [ctid] *)
Definition sys_clone (ep : EntryPoints) (stdin stdout : File) (flags stack_ptr ptid tls ctid : Z)
    : M Kernel (Z * (option Z * option Z)) :=
  o ← current_task;
  t ← unwrap o;
  unwrap (SignalFlags_from_bits (wshl 1 (wsub (Z.land flags CSIGNAL) 1 mod 64)));;
  clone_signals ← unwrap (CloneFlags_from_bits (as_u32 (Z.land flags (wnot CSIGNAL))));
  if negb (flags_contains clone_signals CLONE_THREAD) then
    pid ← TaskControlBlock_fork ep t; mret (as_isize pid, (None, None))
  else
    new_thread ← TaskControlBlock_clone2 ep t stdin stdout stack_ptr tls;
    process_pid ← task_pid t;
    ttid ← task_tid new_thread;
    let ttid := if ttid =? process_pid then 0 else ttid in
    (if flags_contains clone_signals CLONE_CHILD_CLEARTID
     then inner_modify new_thread (λ i, i <| clear_child_tid := ctid |>) else mret ());;
    mret (as_isize ttid,
      (if flags_contains clone_signals CLONE_PARENT_SETTID && negb (ptid =? 0) then Some ttid else None,
       if flags_contains clone_signals CLONE_CHILD_SETTID && negb (ctid =? 0) then Some ttid else None)).

(** [c_ptr_to_string]: each byte up to the terminator is a character; a [String] is kept as its
    UTF-8 bytes. *)
Definition char_utf8 (c : Z) : list Z := if c <? 128 then [c] else [0xC0 + c / 64; 0x80 + c mod 64].
Definition c_ptr_to_string (fuel : nat) (pt : PageTable) (c_ptr : Z) : M Mm (list Z) :=
  loopM fuel (λ '(i, res),
    c ← mmu_load_byte pt (wadd c_ptr i);
    if c =? 0 then mret (inr res) else mret (inl (wadd i 1, res ++ char_utf8 c))) (0, []).
Definition load_usize (pt : PageTable) (va : Z) : M Mm Z := l ← mmu_load pt va 8; mret (le_word l).

(** The argument vector: pointers to strings, up to a null pointer *)
Definition read_args (fuel : nat) (pt : PageTable) (args : Z) : M Mm (list (list Z)) :=
  loopM fuel (λ '(args, v),
    p ← load_usize pt args;
    if p =? 0 then mret (inr v)
    else st ← c_ptr_to_string fuel pt p; mret (inl (wadd args 8, v ++ [st]))) (args, []).

(** The environment: the loop turns the vector itself into strings instead of what it points to. *)
Definition read_envp (fuel : nat) (pt : PageTable) (envp : Z) : M Mm (list (list Z)) :=
  if envp =? 0 then mret []
  else
    loopM fuel (λ '(envp, v),
      p ← load_usize pt envp;
      if p =? 0 then mret (inr v)
      else st ← c_ptr_to_string fuel pt envp; mret (inl (wadd envp 8, v ++ [st]))) (envp, []).

Definition dot_sh : list Z := [46; 115; 104].
Definition ends_with (l suffix : list Z) : bool := bool_decide (drop (length l - length suffix) l = suffix ∧ (length suffix ≤ length l)%nat).
Definition str_sh : list Z := [115; 104].
Definition str_slash_busybox : list Z := [47; 98; 117; 115; 121; 98; 111; 120].
Definition str_dot_busybox : list Z := 46 :: str_slash_busybox.

(** [open_file] returns the contents of the file at a path, seen from a directory. *)
Definition sys_execve (ep : EntryPoints) (sstatus : Z) (parse : list Z → option ElfFile)
    (open_file : Dentry → list Z → option (list Z)) (fuel : nat) (path args envp : Z) : M Kernel Z :=
  o ← current_task;
  t ← unwrap o;
  i ← task_inner t;
  let pt := page_table (memory_set i) in
  path ← zoom k_mm (c_ptr_to_string fuel pt path);
  args_vec ← zoom k_mm (read_args fuel pt args);
  envp_vec ← zoom k_mm (read_envp fuel pt envp);
  let '(args_vec, path) :=
    if ends_with path dot_sh then (str_slash_busybox :: str_sh :: args_vec, str_dot_busybox) else (args_vec, path) in
  match open_file (work_dir i) path with
  | Some all_data =>
      TaskControlBlock_exec ep sstatus parse t all_data args_vec envp_vec;;
      mret (as_isize (Z.of_nat (length args_vec)))
  | None => mret ENOENT
  end.

(** [exit_current_and_run_next] does not return to the caller. *)
Definition sys_exit (exit_code : Z) : M Kernel unit := exit_current_and_run_next exit_code.
Definition sys_exit_group (exit_code : Z) : M Kernel unit := exit_current_and_run_next exit_code.
End processes.
