(* ===== verification/SchedSpec.v ===== *)
(** * Theorems on identifiers, scheduling and semaphores

    Identifier allocators hand out each identifier once, so that kernel stacks never overlap; the
    queues of the task manager and the status of the tasks agree in every reachable state; a ready
    task runs after the tasks before it in the queue; semaphores admit as many tasks as they have
    permits, in order. *)

From Stdlib Require Import ZArith Lia.
From stdpp Require Import functions prelude gmap.
From S2P Require Import Prelude Config Address FrameAllocator PageTable MemorySet Time Task.

Open Scope Z_scope.

(** ** Identifiers *)

(** The invariant of an allocator whose identifiers in use are [live] *)
Record ra_ok (r : RecycleAllocator) (live : list Z) : Prop := {
  ra_range : 0 ≤ ra_current r;
  ra_live id : id ∈ live ↔ 0 ≤ id < ra_current r ∧ id ∉ ra_recycled r;
  ra_rec id : id ∈ ra_recycled r → 0 ≤ id < ra_current r;
  ra_nodup : NoDup (ra_recycled r);
  ra_live_nodup : NoDup live;
}.

Lemma ra_new_ok : ra_ok RecycleAllocator_new [].
Proof.
  split; cbn; [lia| |by intros ? ?%not_elem_of_nil|apply NoDup_nil_2|apply NoDup_nil_2].
  intros id. rewrite elem_of_nil. split; [done|lia].
Qed.

Lemma NoDup_snoc {A} (l : list A) x : NoDup l → x ∉ l → NoDup (l ++ [x]).
Proof.
  intros Hl Hx. apply NoDup_app. split_and!; [done| |apply NoDup_singleton].
  intros y Hy ->%list_elem_of_singleton. done.
Qed.

Lemma ra_alloc_ok r live :
  ra_ok r live → ra_current r < 2 ^ 63 →
  ∃ id r', RecycleAllocator_alloc r = Ok (id, r') ∧ ra_ok r' (live ++ [id]) ∧ (id ∉ live) ∧
    ra_current r ≤ ra_current r' ≤ ra_current r + 1.
Proof.
  intros [Hr Hl Hrec Hnd Hln] Hb. unfold RecycleAllocator_alloc, get, mbind, M_bind.
  destruct (last (ra_recycled r)) as [id|] eqn:El.
  - apply last_Some in El as [l' El]. rewrite El, length_app. cbn [length]. rewrite Nat.add_sub, take_app_length.
    eexists id, _. split; [reflexivity|]. cbn. rewrite El in Hl, Hrec, Hnd.
    apply NoDup_app in Hnd as (Hnd & Hdis & _).
    assert (id ∈ l' ++ [id]) as Hin by (apply elem_of_app; right; by left).
    assert (id ∉ l') as Hid by (intros H; apply (Hdis id H); by left).
    pose proof (Hrec id Hin) as Hir.
    assert (id ∉ live) as Hil by (intros [_ H]%Hl; by apply H).
    split; [split; cbn; [lia| | |done|]|split; [done|lia]].
    + intros x. rewrite elem_of_app, Hl, list_elem_of_singleton. split.
      * intros [[? Hx]| ->]; [|done]. split; [done|]. intros Hx'. apply Hx, elem_of_app. by left.
      * intros [? Hx]. destruct (decide (x = id)); [by right|]. left. split; [done|].
        intros [Hx'|Hx'%list_elem_of_singleton]%elem_of_app; done.
    + intros x Hx. apply Hrec, elem_of_app. by left.
    + by apply NoDup_snoc.
  - apply last_None in El. rewrite wadd_small by (unfold W64; lia). rewrite wsub_small by (unfold W64; lia).
    replace (ra_current r + 1 - 1) with (ra_current r) by lia.
    eexists (ra_current r), _. split; [reflexivity|]. cbn.
    assert (ra_current r ∉ live) as Hil by (rewrite Hl; lia).
    split; [split; cbn; [lia| | |done|]|split; [done|lia]].
    + intros x. rewrite elem_of_app, Hl, list_elem_of_singleton, El. rewrite El in *. split.
      * intros [[? ?]| ->]; split; try done; lia || apply not_elem_of_nil.
      * intros [? ?]. destruct (decide (x = ra_current r)); [by right|]. left. split; [lia|done].
    + intros x Hx. rewrite El in Hx. by apply not_elem_of_nil in Hx.
    + by apply NoDup_snoc.
Qed.

Lemma existsb_eqb id l : existsb (Z.eqb id) l = true ↔ id ∈ l.
Proof.
  rewrite existsb_exists. split.
  - intros (x & Hx & ->%Z.eqb_eq). by apply list_elem_of_In.
  - intros H. exists id. split; [by apply list_elem_of_In|apply Z.eqb_refl].
Qed.

Lemma ra_dealloc_live r live id :
  ra_ok r live → id ∈ live →
  ∃ r', RecycleAllocator_dealloc id r = Ok ((), r') ∧ ra_ok r' (filter (λ x, x ≠ id) live) ∧ ra_current r' = ra_current r.
Proof.
  intros [Hr Hl Hrec Hnd Hln] Hid. pose proof (proj1 (Hl id) Hid) as [Hir Hin].
  unfold RecycleAllocator_dealloc, get, mbind, M_bind, assertM, assertO, lift. rewrite (proj2 (Z.ltb_lt _ _)) by lia.
  destruct (existsb _ _) eqn:E; [by apply existsb_eqb in E|]. cbn [negb].
  eexists. split; [reflexivity|]. cbn. split; [split; cbn; [lia| | | |]|done].
  - intros x. rewrite list_elem_of_filter, Hl, not_elem_of_app, not_elem_of_cons. split.
    + intros (? & ? & ?). split; [done|]. split; [done|]. split; [done|apply not_elem_of_nil].
    + intros [? (? & ? & ?)]. done.
  - intros x [?| ->%list_elem_of_singleton]%elem_of_app; [by apply Hrec|lia].
  - by apply NoDup_snoc.
  - by apply NoDup_filter.
Qed.

Lemma ra_dealloc_dead r live id :
  ra_ok r live → 0 ≤ id → id ∉ live → RecycleAllocator_dealloc id r = Panic Assert.
Proof.
  intros [Hr Hl Hrec Hnd Hln] H0 Hid. unfold RecycleAllocator_dealloc, get, mbind, M_bind, assertM, assertO, lift.
  destruct (Z.ltb_spec id (ra_current r)) as [Hlt|]; [|done].
  destruct (existsb _ _) eqn:E; [done|]. exfalso. apply Hid, Hl. split; [lia|].
  intros H. apply existsb_eqb in H. congruence.
Qed.

Inductive id_op := IdAlloc | IdFree (id : Z).

(** A client of an allocator, with the list of identifiers it holds *)
Definition run_id_op (live : list Z) (op : id_op) : M RecycleAllocator (list Z) :=
  match op with
  | IdAlloc => id ← RecycleAllocator_alloc; mret (live ++ [id])
  | IdFree id => RecycleAllocator_dealloc id;; mret (filter (λ x, x ≠ id) live)
  end.
Definition run_id_ops (ops : list id_op) : M RecycleAllocator (list Z) := foldM run_id_op [] ops.

Definition id_op_ok (op : id_op) : Prop := match op with IdAlloc => True | IdFree id => 0 ≤ id end.

Lemma run_id_ops_ok ops : ∀ live r,
  ra_ok r live → Forall id_op_ok ops → ra_current r + Z.of_nat (length ops) < 2 ^ 63 →
  match foldM run_id_op live ops r with
  | Ok (live', r') => ra_ok r' live'
  | Panic f => f = Assert
  | NoFuel => False
  end.
Proof.
  induction ops as [|op ops IH]; intros live r Hok Hops Hb; [exact Hok|]. cbn [foldM length] in *.
  apply Forall_cons in Hops as [Hop Hops]. destruct op as [|id]; cbn [run_id_op].
  - destruct (ra_alloc_ok r live Hok) as (id & r' & E & Hok' & _ & Hc); [lia|].
    rewrite (bind_Ok _ _ _ (live ++ [id]) r') by (by erewrite bind_Ok by exact E). apply IH; [done..|lia].
  - destruct (decide (id ∈ live)) as [Hin|Hin].
    + destruct (ra_dealloc_live r live id Hok Hin) as (r' & E & Hok' & Hc).
      rewrite (bind_Ok _ _ _ (filter (λ x, x ≠ id) live) r') by (by erewrite bind_Ok by exact E). apply IH; [done..|lia].
    + pose proof (ra_dealloc_dead r live id Hok Hop Hin) as E.
      rewrite (bind_Panic _ _ _ Assert) by (by rewrite (bind_Panic _ _ _ Assert)). done.
Qed.

(** ** Kernel stacks *)

(** The largest number of kernel stacks the address space has room for *)
Definition kstack_limit : Z := (W64 - MEMORY_END) / (KERNEL_STACK_SIZE + PAGE_SIZE).

Lemma kernel_stack_position_eq id :
  0 ≤ id < kstack_limit →
  kernel_stack_position id = (MEMORY_END + id * 36864, MEMORY_END + id * 36864 + KERNEL_STACK_SIZE).
Proof.
  unfold kstack_limit, kernel_stack_position, MEMORY_END, KERNEL_STACK_SIZE, PAGE_SIZE, W64. intros Hid.
  change (wadd (4096 * 8) 0x1000) with 36864. change ((2 ^ 64 - 0xffffffc088000000) / (4096 * 8 + 0x1000)) with 7394645 in Hid.
  unfold wmul. rewrite wrap_small by word. rewrite (wadd_small _ (id * 36864)) by word. by rewrite wadd_small by word.
Qed.

(** C35: Kernel stacks are never shared: whatever sequence of allocations and deallocations of
    identifiers the kernel performs, the identifiers in use are distinct, so the stacks of two
    of them do not overlap and have an unmapped guard page between them; a deallocation of an
    identifier that is not in use is the only panic, and it does panic. *)
Theorem kernel_stacks_disjoint ops :
  Forall id_op_ok ops → Z.of_nat (length ops) < 2 ^ 63 →
  match run_id_ops ops RecycleAllocator_new with
  | Ok (live, r) =>
      NoDup live ∧
      (∀ i j, i ∈ live → j ∈ live → i < j < kstack_limit →
        (kernel_stack_position i).2 + PAGE_SIZE ≤ (kernel_stack_position j).1 ∧ (kernel_stack_position j).2 < W64) ∧
      (∀ id, 0 ≤ id → id ∉ live → RecycleAllocator_dealloc id r = Panic Assert)
  | Panic f => f = Assert
  | NoFuel => False
  end.
Proof.
  intros Hops Hb. pose proof (run_id_ops_ok ops [] RecycleAllocator_new ra_new_ok Hops) as H.
  unfold run_id_ops. cbn [ra_current RecycleAllocator_new] in H. specialize (H ltac:(lia)).
  destruct (foldM _ _ _ _) as [[live r]| |]; [|done..]. split_and!; [apply H| |].
  - intros i j Hi Hj Hij. apply (ra_live _ _ H) in Hi as [Hi _]. rewrite !kernel_stack_position_eq by lia.
    cbn [fst snd]. unfold kstack_limit, MEMORY_END, KERNEL_STACK_SIZE, PAGE_SIZE, W64 in *.
    change ((2 ^ 64 - 0xffffffc088000000) / (4096 * 8 + 0x1000)) with 7394645 in Hij. lia.
  - intros id H0 Hid. by apply (ra_dealloc_dead r live).
Qed.

Lemma kernel_stacks_disjoint_witness :
  let live := [0; 2; 1] in
  run_id_ops [IdAlloc; IdAlloc; IdAlloc; IdFree 1; IdAlloc] RecycleAllocator_new
    = Ok (live, {| ra_current := 3; ra_recycled := [] |}) ∧
  (kernel_stack_position 1).2 + PAGE_SIZE ≤ (kernel_stack_position 2).1.
Proof.
  assert (Forall id_op_ok [IdAlloc; IdAlloc; IdAlloc; IdFree 1; IdAlloc]) as Hok.
  { repeat (apply Forall_cons_2; [simpl; done || lia|]). apply Forall_nil_2. }
  pose proof (kernel_stacks_disjoint [IdAlloc; IdAlloc; IdAlloc; IdFree 1; IdAlloc] Hok ltac:(simpl; lia)) as (_ & H & _).
  split; [reflexivity|]. apply (H 1 2); [simpl; set_solver|simpl; set_solver|]. vm_compute. done.
Defined.

(** ** Scheduling *)

Section sched.
Context {File Dentry : Type}.
Abbreviation Kernel := (@Kernel File Dentry) (only parsing).
Implicit Types (k : Kernel) (t : nat).

Definition ready k : list nat := ready_queue (k_manager k).
Definition blocked k : list nat := block_queue (k_manager k).
Definition cur k : option nat := current (k_processor k).
Definition status k t : option TaskStatus := (λ tcb, task_status (inner tcb)) <$> k_tasks k !! t.

(** [k'] is [k] with the status of [t] set to [st] *)
Definition status_upd k k' t (st : TaskStatus) : Prop :=
  is_Some (k_tasks k !! t) ∧ ∀ u, status k' u = if decide (u = t) then Some st else status k u.

(** [k'] has the queues, the processor and the statuses of [k] *)
Definition keeps k k' : Prop :=
  k_manager k' = k_manager k ∧ k_processor k' = k_processor k ∧ ∀ u, status k' u = status k u.

Lemma keeps_refl k : keeps k k.
Proof. done. Qed.

Lemma keeps_trans k1 k2 k3 : keeps k1 k2 → keeps k2 k3 → keeps k1 k3.
Proof. intros (H1 & H2 & H3) (H4 & H5 & H6). split_and!; [congruence|congruence|]. intros u. by rewrite H6. Qed.

Lemma status_set_inner k t u f :
  status (set_inner t f k) u
  = if decide (u = t) then (λ tcb, task_status (f (inner tcb))) <$> k_tasks k !! t else status k u.
Proof.
  unfold status, set_inner. cbn. destruct (decide (u = t)) as [->|Hne].
  - rewrite lookup_alter_eq. by destruct (k_tasks k !! t).
  - by rewrite lookup_alter_ne by done.
Qed.

Lemma inner_modify_inv t f k u k' :
  inner_modify t f k = Ok (u, k') → is_Some (k_tasks k !! t) ∧ k' = set_inner t f k.
Proof.
  unfold inner_modify, task_inner. intros H. inv_ok. split; [|done]. eauto.
Qed.

Lemma set_inner_upd k t f st :
  is_Some (k_tasks k !! t) → (∀ i, task_status (f i) = st) → status_upd k (set_inner t f k) t st.
Proof.
  intros Ht Hf. split; [done|]. intros u. rewrite status_set_inner. case_decide; [|done].
  destruct Ht as [tcb ->]. cbn. by rewrite Hf.
Qed.

Lemma set_inner_keeps k t f : (∀ i, task_status (f i) = task_status i) → keeps k (set_inner t f k).
Proof.
  intros Hf. split_and!; [done|done|]. intros u. rewrite status_set_inner. case_decide as Hu; [|done]. subst.
  unfold status. destruct (k_tasks k !! t); [|done]. cbn. by rewrite Hf.
Qed.

Lemma run_tasks_turn_inv k b k' :
  run_tasks_turn k = Ok (b, k') →
  match ready k with
  | [] => b = false
  | t :: q => b = true ∧ ready k' = q ∧ cur k' = Some t ∧ blocked k' = blocked k ∧ status_upd k k' t Running
  end.
Proof.
  unfold run_tasks_turn, fetch_task, TaskManager_fetch. intros H. fold (ready k).
  apply bind_Ok_inv in H as (o & k1 & H1 & H). unfold ready.
  unfold get, put, mbind, M_bind in H1. cbn in H1. destruct (ready_queue (k_manager k)) as [|t q] eqn:Eq.
  { cbn in H1. simplify_eq. cbn in H. by inv_ok. }
  cbn in H1. simplify_eq. inv_ok.
  match goal with H : inner_modify _ _ _ = Ok _ |- _ => apply inner_modify_inv in H as [Ht ->] end.
  split_and!; [done..|]. apply (set_inner_upd k t (dispatch (k_time k)) Running); [done|].
  intros i. unfold dispatch, clock_time_refresh. cbn. by destruct (first_time i).
Qed.

Lemma take_current_inv k o k' :
  take_current_task k = Ok (o, k') → o = cur k ∧ k' = k <| k_processor ::= λ p, p <| current := None |> |>.
Proof. unfold take_current_task, Processor_take_current. intros H. by inv_ok. Qed.

Lemma suspend_inv k u k' :
  suspend_current_and_run_next k = Ok (u, k') →
  ∃ t, cur k = Some t ∧ cur k' = None ∧ ready k' = ready k ++ [t] ∧ blocked k' = blocked k ∧
    status_upd k k' t Ready.
Proof.
  unfold suspend_current_and_run_next, add_task. intros H.
  apply bind_Ok_inv in H as (o & k1 & [-> ->]%take_current_inv & H).
  apply bind_Ok_inv in H as (t & k2 & [Hc ->]%unwrap_Ok_inv & H).
  apply bind_Ok_inv in H as ([] & k3 & [Ht ->]%inner_modify_inv & H). inv_ok.
  exists t. split_and!; [done..|]. by apply (set_inner_upd k).
Qed.

Lemma block_inv k u k' :
  block_current_and_run_next k = Ok (u, k') →
  ∃ t, cur k = Some t ∧ cur k' = None ∧ ready k' = ready k ∧ blocked k' = blocked k ++ [t] ∧
    status_upd k k' t Blocked.
Proof.
  unfold block_current_and_run_next, add_block_task. intros H.
  apply bind_Ok_inv in H as (o & k1 & [-> ->]%take_current_inv & H).
  apply bind_Ok_inv in H as (t & k2 & [Hc ->]%unwrap_Ok_inv & H).
  apply bind_Ok_inv in H as ([] & k3 & [Ht ->]%inner_modify_inv & H). inv_ok.
  exists t. split_and!; [done..|]. by apply (set_inner_upd k).
Qed.

Lemma wakeup_inv t k u k' :
  wakeup_task t k = Ok (u, k') →
  cur k' = cur k ∧ ready k' = ready k ++ [t] ∧ blocked k' = blocked k ∧ status_upd k k' t Ready.
Proof.
  unfold wakeup_task, add_task. intros H.
  apply bind_Ok_inv in H as ([] & k1 & [Ht ->]%inner_modify_inv & H). inv_ok.
  split_and!; [done..|]. by apply (set_inner_upd k).
Qed.

(** *** The end of a task *)

Lemma gets_inv {S A} (f : S → A) s a s' : gets f s = Ok (a, s') → a = f s ∧ s' = s.
Proof. unfold gets. by intros [= <- <-]. Qed.
Lemma modify_inv {S} (f : S → S) s u s' : modify f s = Ok (u, s') → s' = f s.
Proof. unfold modify. by intros [= <- <-]. Qed.

Lemma foldM_rel {S A} (R : S → S → Prop) `{!PreOrder R} (f : A → M S unit) l : ∀ u s u' s',
  (∀ x s u s', x ∈ l → f x s = Ok (u, s') → R s s') → foldM (λ _ x, f x) u l s = Ok (u', s') → R s s'.
Proof.
  induction l as [|x l IH]; intros u s u' s' Hf H; cbn [foldM] in H; [by inv_ok|].
  apply bind_Ok_inv in H as (u1 & s1 & H1 & H). transitivity s1.
  - eapply Hf; [left|exact H1].
  - eapply IH; [|exact H]. intros. eapply Hf; [by right|done].
Qed.

#[local] Instance keeps_preorder : PreOrder keeps.
Proof. split; [exact keeps_refl|exact keeps_trans]. Qed.

Lemma adopt_keeps c k u k' : adopt c k = Ok (u, k') → keeps k k'.
Proof.
  unfold adopt. intros H. apply bind_Ok_inv in H as (p & k1 & [-> ->]%gets_inv & H).
  apply bind_Ok_inv in H as ([] & k2 & [_ ->]%inner_modify_inv & [_ ->]%inner_modify_inv).
  etransitivity; by apply set_inner_keeps.
Qed.

(** [k'] may have lost some ready tasks, and nothing else *)
Definition drops k k' : Prop :=
  k_processor k' = k_processor k ∧ (∀ u, status k' u = status k u) ∧ blocked k' = blocked k ∧
  ready k' `sublist_of` ready k.

#[local] Instance drops_preorder : PreOrder drops.
Proof.
  split; [done|]. intros k1 k2 k3 (H1 & H2 & H3 & H4) (H5 & H6 & H7 & H8). split_and!; [congruence| |congruence|by etrans].
  intros u. by rewrite H6.
Qed.

Lemma keeps_drops k k' : keeps k k' → drops k k'.
Proof. intros (H1 & H2 & H3). unfold drops, blocked, ready. by rewrite H1. Qed.

Lemma remove_inactive_drops t k u k' : remove_inactive_task t k = Ok (u, k') → drops k k'.
Proof.
  unfold remove_inactive_task, remove_task, remove_timer. intros H. inv_ok.
  unfold drops, blocked, ready, TaskManager_remove. cbn. destruct (list_find _ _) as [[i x]|]; [|done]. cbn.
  split_and!; [done..|]. apply sublist_delete.
Qed.

Lemma zoom_mm_inv {A} (c : M Mm A) k a k' : zoom k_mm c k = Ok (a, k') → ∃ m, k' = k <| k_mm := m |>.
Proof. unfold zoom. destruct (c (k_mm k)) as [[a' m]| |]; intros; simplify_eq. by exists m. Qed.

Lemma task_pid_inv t k p k' : task_pid t k = Ok (p, k') → k' = k ∧ ∃ tcb, k_tasks k !! t = Some tcb ∧ p = pid tcb.
Proof. unfold task_pid. intros H. inv_ok. eauto. Qed.
Lemma task_tid_inv t k p k' : task_tid t k = Ok (p, k') → k' = k ∧ ∃ tcb, k_tasks k !! t = Some tcb ∧ p = tid tcb.
Proof. unfold task_tid. intros H. inv_ok. eauto. Qed.
Lemma task_inner_inv t k i k' : task_inner t k = Ok (i, k') → k' = k ∧ ∃ tcb, k_tasks k !! t = Some tcb ∧ i = inner tcb.
Proof. unfold task_inner. intros H. inv_ok. eauto. Qed.

Lemma remove_pid_inv p k u k' : remove_from_pid2process p k = Ok (u, k') → k' = k <| k_pid2pcb ::= delete p |>.
Proof.
  unfold remove_from_pid2process, pid2process. intros H. apply bind_Ok_inv in H as (o & k1 & [-> ->]%gets_inv & H).
  destruct (k_pid2pcb k !! p); [|done]. by apply modify_inv in H.
Qed.

Lemma exit_inv code k u k' :
  exit_current_and_run_next code k = Ok (u, k') →
  ∃ t tcb, cur k = Some t ∧ k_tasks k !! t = Some tcb ∧ cur k' = None ∧ (∀ v, status k' v = status k v) ∧
    blocked k' = blocked k ∧ ready k' `sublist_of` ready k ∧ (threads (inner tcb) = [] → ready k' = ready k).
Proof.
  unfold exit_current_and_run_next. intros H.
  apply bind_Ok_inv in H as (o & k1 & [-> ->]%take_current_inv & H).
  apply bind_Ok_inv in H as (t & k2 & [Hc ->]%unwrap_Ok_inv & H).
  apply bind_Ok_inv in H as (tid' & k3 & (-> & tcb & Ht & ->)%task_tid_inv & H).
  apply bind_Ok_inv in H as (pid' & k4 & (-> & tcb' & Ht' & ->)%task_pid_inv & H). simplify_eq.
  exists t, tcb. split; [done|]. split; [done|].
  destruct (tid tcb =? pid tcb); [|by unfold mret, M_ret in H; simplify_eq].
  apply bind_Ok_inv in H as ([] & k5 & H5 & H). destruct (pid tcb =? IDLE_PID); [done|].
  unfold mret at 1, M_ret in H5. injection H5 as <-.
  apply bind_Ok_inv in H as ([] & k6 & H6 & H). apply remove_pid_inv in H6 as ->.
  apply bind_Ok_inv in H as ([] & k7 & [_ ->]%inner_modify_inv & H).
  apply bind_Ok_inv in H as (i & k8 & (-> & tcb8 & Ht8 & ->)%task_inner_inv & H).
  apply bind_Ok_inv in H as (u9 & k9 & H9 & H). apply (foldM_rel keeps) in H9; [|intros x k0 u0 k0' _; apply adopt_keeps].
  apply bind_Ok_inv in H as (u10 & k10 & H10 & H).
  assert (threads (inner tcb8) = threads (inner tcb)) as Hth.
  { change (k_tasks k !! t = Some tcb) in Ht. cbn in Ht8. rewrite lookup_alter_eq, Ht in Ht8. cbn in Ht8. by simplify_eq. }
  apply bind_Ok_inv in H as (i & k11 & (-> & tcb11 & Ht11 & ->)%task_inner_inv & H).
  apply bind_Ok_inv in H as (ms & k12 & [m ->]%zoom_mm_inv & [_ ->]%inner_modify_inv).
  set (k0 := k <| k_processor ::= λ p, p <| current := None |> |>) in *.
  assert (keeps k0 k9) as Hk9.
  { etransitivity; [|exact H9]. transitivity (k0 <| k_pid2pcb ::= delete (pid tcb) |>); [done|].
    by apply set_inner_keeps. }
  assert (drops k0 k10) as Hd10.
  { transitivity k9; [by apply keeps_drops|]. eapply (foldM_rel drops); [|exact H10].
    intros x s0 u0 s0' _. apply remove_inactive_drops. }
  assert (drops k0 (set_inner t (λ i, i <| children := [] |> <| memory_set := ms |> <| fd_table := [] |> <| threads := [] |>)
             (k10 <| k_mm := m |>))) as (Hp & Hst & Hbq & Hsub).
  { transitivity (k10 <| k_mm := m |>); [exact Hd10|]. apply keeps_drops. by apply set_inner_keeps. }
  split_and!; [|done|done|done|].
  - unfold cur. by rewrite Hp.
  - intros Hnil. rewrite Hth, Hnil in H10. cbn in H10. unfold mret, M_ret in H10. simplify_eq.
    unfold ready. cbn. destruct Hk9 as [-> _]. done.
Qed.

(** *** Steps of the system *)

(** What the running task does without giving up the processor: it wakes a blocked task or adds a
    new one *)
Inductive busy_step : Kernel → Kernel → Prop :=
| step_wakeup t k u k' : status k t = Some Blocked → wakeup_task t k = Ok (u, k') → busy_step k k'
| step_spawn t k u k' : status k t = Some Ready → t ∉ ready k → add_task t k = Ok (u, k') → busy_step k k'.

(** The running task gives up the processor *)
Inductive yield_step : Kernel → Kernel → Prop :=
| step_suspend k u k' : suspend_current_and_run_next k = Ok (u, k') → yield_step k k'
| step_block k u k' : block_current_and_run_next k = Ok (u, k') → yield_step k k'
| step_exit code k u k' : exit_current_and_run_next code k = Ok (u, k') → yield_step k k'.

Inductive sched_step : Kernel → Kernel → Prop :=
| step_run k k' : cur k = None → run_tasks_turn k = Ok (true, k') → sched_step k k'
| step_busy k k' : busy_step k k' → sched_step k k'
| step_yield k k' : yield_step k k' → sched_step k k'.

Record sched_ok k : Prop := {
  so_nodup : NoDup (ready k);
  so_ready t : t ∈ ready k → status k t = Some Ready;
  so_cur t : cur k = Some t → status k t = Some Running;
  so_blocked t : status k t = Some Blocked → t ∈ blocked k;
}.

Lemma so_cur_not_ready k t : sched_ok k → cur k = Some t → t ∉ ready k.
Proof. intros H Hc Hr. apply (so_ready k H) in Hr. apply (so_cur k H) in Hc. congruence. Qed.

Lemma sched_ok_enqueue k k' t :
  sched_ok k → t ∉ ready k → cur k' = None ∨ cur k' = cur k ∧ cur k ≠ Some t → ready k' = ready k ++ [t] →
  blocked k' = blocked k → status_upd k k' t Ready → sched_ok k'.
Proof.
  intros [H1 H2 H3 H4] Ht Hc Hr Hb [_ Hu]. split.
  - rewrite Hr. by apply NoDup_snoc.
  - intros u Hx. rewrite Hu. case_decide as Hut; [done|]. apply H2. rewrite Hr in Hx.
    by apply elem_of_app in Hx as [?|?%list_elem_of_singleton].
  - intros u Hcu. rewrite Hu. destruct Hc as [Hc|[Hc Hne]]; [congruence|]. rewrite Hc in Hcu.
    case_decide; [congruence|]. by apply H3.
  - intros u Hbu. rewrite Hu in Hbu. case_decide; [done|]. rewrite Hb. by apply H4.
Qed.

Lemma busy_ok k k' : sched_ok k → busy_step k k' → sched_ok k'.
Proof.
  intros Hok Hstep. revert Hok. destruct Hstep as [t k0 u k0' Hs H|t k0 u k0' Hs Hn H]; intros Hok.
  - apply wakeup_inv in H as (Hc & Hr & Hb & Hu). apply (sched_ok_enqueue k0 k0' t); [done| | |done|done|done].
    + intros Ht%(so_ready _ Hok). congruence.
    + right. split; [done|]. intros Ht%(so_cur _ Hok). congruence.
  - apply modify_inv in H as ->. apply (sched_ok_enqueue k0 _ t); [done|done| |done|done|].
    + right. split; [done|]. intros Ht%(so_cur _ Hok). congruence.
    + split; [unfold status in Hs; by destruct (k_tasks k0 !! t)|]. intros u'. case_decide; [by subst|done].
Qed.

Lemma yield_ok k k' : sched_ok k → yield_step k k' → sched_ok k'.
Proof.
  intros Hok Hstep. revert Hok. destruct Hstep as [k0 u k0' H|k0 u k0' H|code k0 u k0' H]; intros Hok.
  - apply suspend_inv in H as (t & Hc & Hc' & Hr & Hb & Hu).
    apply (sched_ok_enqueue k0 k0' t); [done| |by left|done|done|done].
    by apply so_cur_not_ready.
  - apply block_inv in H as (t & Hc & Hc' & Hr & Hb & Hu). pose proof (so_cur_not_ready k0 t Hok Hc) as Hn. split.
    + rewrite Hr. apply Hok.
    + intros x Hx. rewrite Hr in Hx. destruct Hu as [_ ->]. case_decide; [congruence|]. by apply (so_ready _ Hok).
    + congruence.
    + intros x Hx. destruct Hu as [_ Hu]. rewrite Hu in Hx. rewrite Hb. apply elem_of_app.
      case_decide; [right; by apply list_elem_of_singleton|left; by apply (so_blocked _ Hok)].
  - apply exit_inv in H as (t & tcb & Hc & _ & Hc' & Hst & Hb & Hsub & _). split.
    + eapply sublist_NoDup; [apply Hok|done].
    + intros x Hx. rewrite Hst. apply (so_ready _ Hok). eapply elem_of_submseteq; [exact Hx|by apply sublist_submseteq].
    + congruence.
    + intros x Hx. rewrite Hst in Hx. rewrite Hb. by apply (so_blocked _ Hok).
Qed.

Lemma run_ok k k' : sched_ok k → run_tasks_turn k = Ok (true, k') → sched_ok k'.
Proof.
  intros Hok H. apply run_tasks_turn_inv in H. pose proof (so_nodup k Hok) as Hn. pose proof (so_ready k Hok) as Hr.
  destruct (ready k) as [|t q]; [done|]. destruct H as (_ & Hq & Hc & Hb & _ & Hu). apply NoDup_cons in Hn as [Hnt Hn]. split.
  - by rewrite Hq.
  - intros x Hx. rewrite Hq in Hx. rewrite Hu. case_decide; [congruence|]. apply Hr. by right.
  - intros x Hx. rewrite Hu. case_decide; [done|congruence].
  - intros x Hx. rewrite Hu in Hx. rewrite Hb. case_decide; [done|]. by apply (so_blocked _ Hok).
Qed.

(** The block queue only grows. *)
Lemma sched_step_blocked k k' : sched_step k k' → blocked k `prefix_of` blocked k'.
Proof.
  assert (∀ k1 k2, blocked k2 = blocked k1 → blocked k1 `prefix_of` blocked k2) as Heq by (by intros k1 k2 ->).
  intros [k0 k0' _ H|k0 k0' H|k0 k0' H].
  - apply run_tasks_turn_inv in H. destruct (ready k0); [done|]. apply Heq, H.
  - destruct H as [t k0 u k0' _ H|t k0 u k0' _ _ H]; apply Heq; [by apply wakeup_inv in H as (_ & _ & ? & _)|].
    by apply modify_inv in H as ->.
  - destruct H as [k0 u k0' H|k0 u k0' H|code k0 u k0' H].
    + apply suspend_inv in H as (t & _ & _ & _ & Hb & _). by apply Heq.
    + apply block_inv in H as (t & _ & _ & _ & -> & _). by apply prefix_app_r.
    + apply exit_inv in H as (t & tcb & _ & _ & _ & _ & Hb & _). by apply Heq.
Qed.


(** *** Progress *)

(** A full turn: the idle loop picks a task, the task runs, and gives up the processor; a task that
    ends has no other threads *)
Definition no_threads k : Prop :=
  ∀ t tcb, cur k = Some t → k_tasks k !! t = Some tcb → threads (inner tcb) = [].
Definition turn k k' : Prop :=
  ∃ k1 k2, run_tasks_turn k = Ok (true, k1) ∧ rtc busy_step k1 k2 ∧ no_threads k2 ∧ yield_step k2 k'.

Lemma busy_ready k k' : rtc busy_step k k' → ∃ l, ready k' = ready k ++ l.
Proof.
  induction 1 as [k|k k1 k2 Hs _ [l IH]]; [exists []; by rewrite app_nil_r|].
  assert (∃ t, ready k1 = ready k ++ [t]) as [t Ht].
  { destruct Hs as [t ??? _ H|t ??? _ _ H]; exists t; [by apply wakeup_inv in H as (_ & ? & _)|].
    by apply modify_inv in H as ->. }
  exists (t :: l). by rewrite IH, Ht, <-app_assoc.
Qed.

Lemma yield_ready k k' : no_threads k → yield_step k k' → ∃ l, ready k' = ready k ++ l.
Proof.
  intros Hn Hstep. revert Hn. destruct Hstep as [k0 u k0' H|k0 u k0' H|code k0 u k0' H]; intros Hn.
  - apply suspend_inv in H as (t & _ & _ & Hr & _). by exists [t].
  - apply block_inv in H as (t & _ & _ & Hr & _). exists []. by rewrite app_nil_r.
  - apply exit_inv in H as (t & tcb & Hc & Ht & _ & _ & _ & _ & Hr). exists []. rewrite app_nil_r. apply Hr. by eapply Hn.
Qed.

Lemma turn_ready k k' : turn k k' → ∃ t q l, ready k = t :: q ∧ ready k' = q ++ l.
Proof.
  intros (k1 & k2 & Hrun & Hb & Hn & Hy). apply run_tasks_turn_inv in Hrun. destruct (ready k) as [|t q]; [done|].
  destruct Hrun as (_ & Hq & _). apply busy_ready in Hb as [l1 Hb]. apply yield_ready in Hy as [l2 Hy]; [|done].
  exists t, q, (l1 ++ l2). split; [done|]. by rewrite Hy, Hb, Hq, app_assoc.
Qed.

Lemma turn_ok k k' : sched_ok k → turn k k' → sched_ok k'.
Proof.
  intros Hok (k1 & k2 & Hrun & Hb & _ & Hy). eapply yield_ok; [|exact Hy]. apply (run_ok _ _ Hok) in Hrun as Hok1.
  clear - Hok1 Hb. induction Hb as [|k1 k3 k2 Hs _ IH]; [done|]. apply IH. by eapply busy_ok.
Qed.

(** C22: No ready task starves: the task at position [i] of the ready queue is the one that runs after
    [i] turns of the scheduler, whatever the tasks before it do in their turns, as long as each of
    them gives up the processor and none of them is a process with threads, whose end takes the
    threads out of the queue. *)
Theorem ready_task_runs k k' t i :
  sched_ok k → ready k !! i = Some t → nsteps turn i k k' →
  ∃ k'', run_tasks_turn k' = Ok (true, k'') ∧ cur k'' = Some t.
Proof.
  intros Hok Hi Hn. revert k Hok Hi Hn. induction i as [|i IH]; intros k Hok Hi Hn.
  - inversion Hn; subst. assert (t ∈ ready k') as Ht by (by eapply list_elem_of_lookup_2).
    apply (so_ready _ Hok) in Ht. unfold status in Ht. destruct (k_tasks k' !! t) as [tcb|] eqn:Et; [|done].
    unfold ready in Hi. destruct (ready_queue (k_manager k')) as [|t' q] eqn:Eq; [done|]. cbn in Hi. simplify_eq.
    assert (∃ k'', run_tasks_turn k' = Ok (true, k'')) as [k'' E].
    { eexists. unfold run_tasks_turn, fetch_task, TaskManager_fetch. run. rewrite Eq. run.
      unfold inner_modify, task_inner. run. cbn. rewrite Et. run. done. }
    exists k''. split; [done|]. apply run_tasks_turn_inv in E. unfold ready in E. rewrite Eq in E. apply E.
  - inversion Hn as [|? ? k1 ? Ht Hn']; subst. pose proof (turn_ok _ _ Hok Ht) as Hok1.
    apply turn_ready in Ht as (t' & q & l & Hr & Hr1). apply (IH k1 Hok1); [|done].
    rewrite Hr in Hi. cbn in Hi. rewrite Hr1. by apply lookup_app_l_Some.
Qed.

(** ** Semaphores *)

(** A semaphore in use: the kernel, the semaphore, how many times [up] and [down] were called, the
    tasks that blocked in [down], in order, and how many of them were woken *)
Record SemState := {
  ss_kernel : Kernel;
  ss_sem : Semaphore;
  ss_ups : Z;
  ss_downs : Z;
  ss_blocked : list nat;
  ss_woken : nat;
}.
#[local] Instance SemState_eta : Settable SemState := λ r,
  {| ss_kernel := ss_kernel r; ss_sem := ss_sem r; ss_ups := ss_ups r; ss_downs := ss_downs r;
     ss_blocked := ss_blocked r; ss_woken := ss_woken r |}.

(** The other steps of the system wake no task that waits for this semaphore. *)
Inductive sem_step : SemState → SemState → Prop :=
| sem_run S k' :
    cur (ss_kernel S) = None → run_tasks_turn (ss_kernel S) = Ok (true, k') → sem_step S (S <| ss_kernel := k' |>)
| sem_yield S k' : yield_step (ss_kernel S) k' → sem_step S (S <| ss_kernel := k' |>)
| sem_wake S t u k' :
    t ∉ wait_queue (ss_sem S) → status (ss_kernel S) t = Some Blocked → wakeup_task t (ss_kernel S) = Ok (u, k') →
    sem_step S (S <| ss_kernel := k' |>)
| sem_spawn S t u k' :
    status (ss_kernel S) t = Some Ready → t ∉ ready (ss_kernel S) → add_task t (ss_kernel S) = Ok (u, k') →
    sem_step S (S <| ss_kernel := k' |>)
| sem_down S s' k' :
    cur (ss_kernel S) ≠ None → Semaphore_down (ss_sem S) (ss_kernel S) = Ok (s', k') →
    sem_step S (S <| ss_kernel := k' |> <| ss_sem := s' |> <| ss_downs ::= Z.add 1 |>
                  <| ss_blocked ::= λ l, if decide (cur k' = None) then l ++ option_list (cur (ss_kernel S)) else l |>)
| sem_up S s' k' :
    Semaphore_up (ss_sem S) (ss_kernel S) = Ok (s', k') →
    sem_step S (S <| ss_kernel := k' |> <| ss_sem := s' |> <| ss_ups ::= Z.add 1 |>
                  <| ss_woken ::= λ w, (w + (length (ready k') - length (ready (ss_kernel S))))%nat |>).

Record sem_ok (n : Z) (S : SemState) : Prop := {
  sk_sched : sched_ok (ss_kernel S);
  sk_range : 0 ≤ ss_ups S ∧ 0 ≤ ss_downs S;
  sk_count : count (ss_sem S) = n + ss_ups S - ss_downs S;
  sk_length : Z.of_nat (length (wait_queue (ss_sem S))) = Z.max 0 (- count (ss_sem S));
  sk_nodup : NoDup (wait_queue (ss_sem S));
  sk_wait t : t ∈ wait_queue (ss_sem S) → status (ss_kernel S) t = Some Blocked;
  sk_fifo : wait_queue (ss_sem S) = drop (ss_woken S) (ss_blocked S) ∧ (ss_woken S ≤ length (ss_blocked S))%nat;
}.

Lemma isize_wrap x : - 2 ^ 63 ≤ x < 2 ^ 63 → as_isize (wrap x) = x.
Proof.
  intros Hx. unfold as_isize, wrap, W64. destruct (Z.ltb_spec (x mod 2 ^ 64) (2 ^ 63)); Z.to_euclidean_division_equations; lia.
Qed.

(** Steps of other tasks keep the invariant: the waiting tasks are neither running nor ready. *)
Lemma sem_other_ok n S k' :
  sem_ok n S → sched_ok k' →
  (∀ t, status (ss_kernel S) t = Some Blocked → t ∈ wait_queue (ss_sem S) → status k' t = Some Blocked) →
  sem_ok n (S <| ss_kernel := k' |>).
Proof. intros [H1 H2 H3 H4 H5 H6 H7] Hok Hst. split; cbn; [done..| |done]. intros t Ht. by apply Hst; [apply H6|]. Qed.

Lemma status_upd_other k k' t st u : status_upd k k' t st → u ≠ t → status k' u = status k u.
Proof. intros [_ H] Hu. rewrite H. by rewrite decide_False. Qed.

Lemma yield_blocked k k' t : sched_ok k → yield_step k k' → status k t = Some Blocked → status k' t = Some Blocked.
Proof.
  intros Hok Hstep. revert Hok. destruct Hstep as [k0 u k0' H|k0 u k0' H|code k0 u k0' H]; intros Hok Ht.
  - apply suspend_inv in H as (t' & Hc%(so_cur _ Hok) & _ & _ & _ & Hu). rewrite (status_upd_other _ _ _ _ _ Hu); congruence.
  - apply block_inv in H as (t' & Hc%(so_cur _ Hok) & _ & _ & _ & Hu). rewrite (status_upd_other _ _ _ _ _ Hu); congruence.
  - apply exit_inv in H as (t' & tcb & _ & _ & _ & Hst & _). by rewrite Hst.
Qed.

Lemma sem_down_ok n S s' k' :
  sem_ok n S → cur (ss_kernel S) ≠ None → - 2 ^ 62 < n + ss_ups S - ss_downs S < 2 ^ 62 →
  Semaphore_down (ss_sem S) (ss_kernel S) = Ok (s', k') →
  sem_ok n (S <| ss_kernel := k' |> <| ss_sem := s' |> <| ss_downs ::= Z.add 1 |>
              <| ss_blocked ::= λ l, if decide (cur k' = None) then l ++ option_list (cur (ss_kernel S)) else l |>).
Proof.
  intros [H1 H2 H3 H4 H5 H6 [H7 H8]] Hcur Hb H. unfold Semaphore_down in H. cbn in H. rewrite H3, isize_wrap in H by lia.
  destruct (Z.ltb_spec (n + ss_ups S - ss_downs S - 1) 0) as [Hlt|Hge].
  - apply bind_Ok_inv in H as (o & k1 & [-> ->]%gets_inv & H).
    apply bind_Ok_inv in H as (t & k2 & [Hc ->]%unwrap_Ok_inv & H).
    apply bind_Ok_inv in H as ([] & k3 & Hblk & H). unfold mret, M_ret in H. injection H as <- <-.
    assert (sched_ok k3) as Hok3 by (by eapply yield_ok, step_block).
    apply block_inv in Hblk as (t' & Hc' & Hc3 & Hr & _ & Hu). assert (t' = t) as -> by (unfold cur in Hc'; congruence).
    assert (t ∉ wait_queue (ss_sem S)) as Htw by (intros Ht%H6; apply (so_cur _ H1) in Hc'; congruence).
    split; cbn.
    + done.
    + lia.
    + lia.
    + rewrite length_app. cbn [length]. lia.
    + by apply NoDup_snoc.
    + intros x [Hx|Hx%list_elem_of_singleton]%elem_of_app.
      * rewrite (status_upd_other _ _ _ _ _ Hu) by congruence. by apply H6.
      * subst. destruct Hu as [_ ->]. by rewrite decide_True.
    + rewrite decide_True by done. rewrite Hc'. cbn [option_list]. rewrite length_app, H7, drop_app_le by lia. cbn [length].
      split; [done|lia].
  - unfold mret, M_ret in H. injection H as <- <-. split; cbn; [done|lia|lia|lia|done|done|].
    rewrite decide_False by done. done.
Qed.

Lemma sem_up_ok n S s' k' :
  sem_ok n S → - 2 ^ 62 < n + ss_ups S - ss_downs S < 2 ^ 62 →
  Semaphore_up (ss_sem S) (ss_kernel S) = Ok (s', k') →
  sem_ok n (S <| ss_kernel := k' |> <| ss_sem := s' |> <| ss_ups ::= Z.add 1 |>
              <| ss_woken ::= λ w, (w + (length (ready k') - length (ready (ss_kernel S))))%nat |>).
Proof.
  intros [H1 H2 H3 H4 H5 H6 [H7 H8]] Hb H. unfold Semaphore_up in H. cbn in H. rewrite H3, isize_wrap in H by lia.
  destruct (Z.leb_spec (n + ss_ups S - ss_downs S + 1) 0) as [Hle|Hgt].
  - destruct (wait_queue (ss_sem S)) as [|t q] eqn:Eq; [cbn in H4; lia|].
    apply bind_Ok_inv in H as ([] & k1 & Hw & H). unfold mret, M_ret in H. injection H as <- <-.
    assert (status (ss_kernel S) t = Some Blocked) as Hst by (apply H6; left).
    assert (sched_ok k1) as Hok1 by (by eapply busy_ok, step_wakeup).
    apply wakeup_inv in Hw as (Hc & Hr & _ & Hu). apply NoDup_cons in H5 as [Htq H5]. cbn [length] in H4.
    split; cbn.
    + done.
    + lia.
    + lia.
    + lia.
    + done.
    + intros x Hx. rewrite (status_upd_other _ _ _ _ _ Hu) by congruence. apply H6. by right.
    + rewrite Hr, length_app. cbn [length]. replace (length (ready (ss_kernel S)) + 1 - length (ready (ss_kernel S)))%nat with 1%nat by lia.
      rewrite <-drop_drop, <-H7. split; [done|]. assert (length (t :: q) = length (drop (ss_woken S) (ss_blocked S))) as E by by rewrite H7.
      rewrite length_drop in E. cbn [length] in E. lia.
  - assert (s' = (ss_sem S) <| count := n + ss_ups S - ss_downs S + 1 |> ∧ k' = ss_kernel S) as [-> ->].
    { unfold mret, M_ret in H. by injection H as <- <-. }
    split; cbn; [done|lia|lia|lia|done|done|]. rewrite Nat.sub_diag, Nat.add_0_r. done.
Qed.

Lemma sem_step_ok n S S' :
  0 ≤ n < 2 ^ 61 → sem_ok n S → sem_step S S' → ss_ups S + ss_downs S < 2 ^ 61 → sem_ok n S'.
Proof.
  intros Hn Hok Hstep. pose proof (sk_sched n S Hok) as Hs. pose proof (sk_range n S Hok) as Hrg. revert Hok Hs Hrg.
  destruct Hstep as [S k' Hc H|S k' H|S t u k' Hw Hst H|S t u k' Hst Hr H|S s' k' Hc H|S s' k' H]; intros Hok Hs Hrg Hb.
  - apply sem_other_ok; [done|by eapply run_ok|]. intros t Ht _. apply run_tasks_turn_inv in H.
    pose proof (so_ready _ Hs) as Hrd. destruct (ready (ss_kernel S)) as [|t' q]; [done|]. destruct H as (_ & _ & _ & _ & Hu).
    rewrite (status_upd_other _ _ _ _ _ Hu); [done|]. intros ->. specialize (Hrd t' ltac:(left)). congruence.
  - apply sem_other_ok; [done|by eapply yield_ok|]. intros t Ht _. by eapply yield_blocked.
  - apply sem_other_ok; [done|by eapply busy_ok, step_wakeup|]. intros x Hx Hxw.
    apply wakeup_inv in H as (_ & _ & _ & Hu). rewrite (status_upd_other _ _ _ _ _ Hu); [done|congruence].
  - apply sem_other_ok; [done|by eapply busy_ok, step_spawn|]. intros x Hx _. by apply modify_inv in H as ->.
  - apply sem_down_ok; [done|done|lia|done].
  - apply sem_up_ok; [done|lia|done].
Qed.

Lemma sem_step_counts S S' : sem_step S S' → ss_ups S + ss_downs S ≤ ss_ups S' + ss_downs S'.
Proof. destruct 1; cbn; lia. Qed.

(** C21: A semaphore admits as many tasks as it has permits, and in order: in every state reached from
    a new semaphore by calls of [down] and [up] interleaved with any other steps of the system, the
    number of [down] calls that were let through is the smaller of the number of calls and the
    number of permits, the tasks that wait are the last ones that blocked, in the order in which
    they blocked, and each of them is blocked, neither running nor ready. *)
Theorem semaphore_admits_in_order n k S :
  sched_ok k → 0 ≤ n < 2 ^ 61 →
  rtc sem_step {| ss_kernel := k; ss_sem := Semaphore_new n; ss_ups := 0; ss_downs := 0; ss_blocked := []; ss_woken := 0 |} S →
  ss_ups S + ss_downs S < 2 ^ 61 →
  ss_downs S - Z.of_nat (length (wait_queue (ss_sem S))) = Z.min (ss_downs S) (n + ss_ups S) ∧
  wait_queue (ss_sem S) = drop (ss_woken S) (ss_blocked S) ∧
  ∀ t, t ∈ wait_queue (ss_sem S) → status (ss_kernel S) t = Some Blocked ∧ (t ∉ ready (ss_kernel S)) ∧ cur (ss_kernel S) ≠ Some t.
Proof.
  intros Hok Hn Hs Hb. assert (sem_ok n S) as HS.
  { revert S Hs Hb. apply (rtc_ind_r (λ S, ss_ups S + ss_downs S < 2 ^ 61 → sem_ok n S)); [intros _|intros S1 S2 _ Hstep IH Hb].
    - split; cbn; [done|lia| | |apply NoDup_nil_2|by intros ? ?%not_elem_of_nil|done].
      + unfold as_isize. rewrite (proj2 (Z.ltb_lt _ _)) by lia. lia.
      + unfold as_isize. rewrite (proj2 (Z.ltb_lt _ _)) by lia. lia.
    - pose proof (sem_step_counts _ _ Hstep). eapply sem_step_ok; [done|apply IH; lia|done|lia]. }
  destruct HS as [H1 H2 H3 H4 H5 H6 [H7 H8]]. split_and!; [lia|done|]. intros t Ht. pose proof (H6 t Ht) as Hst.
  split_and!; [done| |].
  - intros Hr%(so_ready _ H1). congruence.
  - intros Hc%(so_cur _ H1). congruence.
Qed.
End sched.

(** ** A kernel with two ready tasks, for the witnesses *)

Definition demo_memory_set : MemorySet :=
  {| page_table := {| root_ppn := 0; frames := [] |}; areas := []; heap_area := ∅; mmap_area := ∅;
     mmap_base := 0; mmap_end := 0 |}.
Definition demo_inner (parent : option nat) (children : list nat) : @TaskControlBlockInner unit unit :=
  {| memory_set := demo_memory_set; trap_cx_ppn := 0; task_cx := TaskContext_zero_init; task_status := Ready;
     syscall_times := []; first_time := None; clear_child_tid := 0; work_dir := (); parent := parent;
     children := children; threads := []; user_stack_top := 0; exit_code := None; fd_table := [Some (); None; Some ()];
     clock_stop_watch := 0; user_clock := 0; kernel_clock := 0; heap_base := 0; heap_end := 0; is_zombie := false;
     signals := 0; signal_actions := SignalActions_default; signals_pending := 0; signal_mask := 0 |}.
Definition demo_task (p : Z) (parent : option nat) (children : list nat) : @TaskControlBlock unit unit :=
  {| kstack := p; tid := p; pid := p; send_sigchld_when_exit := false; inner := demo_inner parent children |}.
Definition demo_kernel : @Kernel unit unit :=
  {| k_mm := {| mem := λ _, []; fa := StackFrameAllocator_new |}; k_space := demo_memory_set;
     k_tasks := <[0%nat := demo_task 0 None [1%nat]]> (<[1%nat := demo_task 1 (Some 0%nat) []]> ∅); k_initproc := 0%nat;
     k_manager := {| ready_queue := [0%nat; 1%nat]; block_queue := []; stop_task := None |};
     k_pid2pcb := <[1 := 1%nat]> ∅; k_processor := Processor_new;
     k_pids := {| ra_current := 2; ra_recycled := [] |}; k_kstacks := {| ra_current := 2; ra_recycled := [] |};
     k_timers := []; k_time := 25000000 |}.

Definition exec {S A} (c : M S A) (s : S) : S := match c s with Ok (_, s') => s' | _ => s end.

Lemma demo_kernel_ok : sched_ok demo_kernel.
Proof.
  split.
  - apply (bool_decide_unpack _). vm_compute. done.
  - intros t Ht. apply elem_of_cons in Ht as [->|Ht%list_elem_of_singleton]; [|subst]; vm_compute; reflexivity.
  - vm_compute. congruence.
  - intros t Ht. exfalso. unfold status in Ht. cbn [demo_kernel k_tasks] in Ht.
    destruct t as [|[|t]]; [by vm_compute in Ht..|].
    rewrite !lookup_insert_ne in Ht by done. done.
Qed.


Lemma ready_task_runs_witness :
  let k' := exec suspend_current_and_run_next (exec run_tasks_turn demo_kernel) in
  ∃ k'', run_tasks_turn k' = Ok (true, k'') ∧ cur k'' = Some 1%nat.
Proof.
  apply (ready_task_runs demo_kernel _ 1%nat 1); [apply demo_kernel_ok|reflexivity|].
  apply nsteps_once. exists (exec run_tasks_turn demo_kernel), (exec run_tasks_turn demo_kernel). split_and!.
  - vm_compute. reflexivity.
  - apply rtc_refl.
  - intros t tcb Ht Htcb. vm_compute in Ht. injection Ht as <-. vm_compute in Htcb. by injection Htcb as <-.
  - apply (step_suspend _ ()). vm_compute. reflexivity.
Defined.

(** Both tasks ask for the only permit; the second one blocks. *)
Definition demo_sem (k : @Kernel unit unit) (s : Semaphore) (downs : Z) (blocked : list nat) : SemState :=
  {| ss_kernel := k; ss_sem := s; ss_ups := 0; ss_downs := downs; ss_blocked := blocked; ss_woken := 0 |}.

Lemma sem_down_to (S S' : @SemState unit unit) s' k' :
  cur (ss_kernel S) ≠ None → Semaphore_down (ss_sem S) (ss_kernel S) = Ok (s', k') →
  S' = {| ss_kernel := k'; ss_sem := s'; ss_ups := ss_ups S; ss_downs := 1 + ss_downs S;
          ss_blocked := if decide (cur k' = None) then ss_blocked S ++ option_list (cur (ss_kernel S)) else ss_blocked S;
          ss_woken := ss_woken S |} → sem_step S S'.
Proof. intros Hc H ->. exact (sem_down S s' k' Hc H). Qed.

Lemma semaphore_admits_in_order_witness :
  let k1 := exec run_tasks_turn demo_kernel in
  let k2 := exec run_tasks_turn (exec suspend_current_and_run_next k1) in
  let S := demo_sem (exec block_current_and_run_next k2) {| count := -1; wait_queue := [1%nat] |} 2 [1%nat] in
  ss_downs S - 1 = 1 ∧ status (ss_kernel S) 1 = Some Blocked ∧ (1%nat ∉ ready (ss_kernel S)) ∧ cur (ss_kernel S) ≠ Some 1%nat.
Proof.
  intros k1 k2 S. destruct (semaphore_admits_in_order 1 demo_kernel S) as (H1 & _ & H2);
    [apply demo_kernel_ok|lia| |vm_compute; reflexivity|split; [reflexivity|apply H2; left]].
  apply (rtc_l _ _ (demo_sem k1 (Semaphore_new 1) 0 [])).
  { apply sem_run; [reflexivity|]. vm_compute. reflexivity. }
  apply (rtc_l _ _ (demo_sem k1 {| count := 0; wait_queue := [] |} 1 [])).
  { apply (sem_down_to _ _ {| count := 0; wait_queue := [] |} k1); [done|vm_compute; reflexivity..]. }
  apply (rtc_l _ _ (demo_sem (exec suspend_current_and_run_next k1) {| count := 0; wait_queue := [] |} 1 [])).
  { apply sem_yield, (step_suspend _ ()). vm_compute. reflexivity. }
  apply (rtc_l _ _ (demo_sem k2 {| count := 0; wait_queue := [] |} 1 [])).
  { apply sem_run; [reflexivity|]. vm_compute. reflexivity. }
  apply rtc_once.
  apply (sem_down_to _ _ {| count := -1; wait_queue := [1%nat] |} (exec block_current_and_run_next k2)); [done|vm_compute; reflexivity..].
Defined.
