(* ===== verification/SpawnSpec.v ===== *)
(** * Theorems on process creation

    The kernel half of every page table is shared: [shares_kernel] says how the table of a process
    and the kernel's own table overlap, and the kernel may map pages of its half without disturbing
    the process.  With it, [fork] is followed through the allocation of the kernel stack, the copy
    of the address space and the copy of the trap context. *)

From Stdlib Require Import ZArith Lia.
From stdpp Require Import functions prelude gmap sorting.
From S2P Require Import Prelude Config Address FrameAllocator PageTable PageTableSpec MemorySet MemorySetSpec ForkSpec Time Task Syscall Process SchedSpec.

Open Scope Z_scope.

(** ** The shared kernel half *)

Record shares_kernel (s : Mm) (k p : PageTable) : Prop := {
  sk_half : ∀ i, 256 ≤ i < 512 → child (mem s) (root_ppn p) i = child (mem s) (root_ppn k) i;
  sk_private : ∀ q, is_unode s p q → ¬ is_node s k q;
}.

Lemma child_page_ext m m' p i : m' p = m p → child m' p i = child m p i.
Proof. intros E. by apply child_ext, rd_pte_ext. Qed.

#[local] Instance user_path_dec path : Decision (user_path path).
Proof. destruct path; apply _. Defined.

(** Tables on user paths whose pages have not changed *)
Lemma unode_agree s s' p path :
  (∀ q, is_unode s p q → mem s' q = mem s q) → good_path path → user_path path →
  node (mem s') (root_ppn p) path = node (mem s) (root_ppn p) path.
Proof.
  intros Hm Hg Hu. assert (mem s' (root_ppn p) = mem s (root_ppn p)) as Hr.
  { apply Hm. exists []. split_and!; [apply good_path_nil|done|done]. }
  destruct path as [|i path]; [done|]. cbn [node]. rewrite (child_page_ext (mem s) (mem s')) by done.
  destruct (child (mem s) (root_ppn p) i) as [q|] eqn:Eq; [|done].
  assert (mem s' q = mem s q) as Hq.
  { apply Hm. exists [i]. split_and!; [|done|cbn; by rewrite Eq]. destruct Hg as [_ Hf].
    apply good_path_1. by inversion Hf. }
  destruct path as [|j path]; [done|]. cbn [node]. rewrite (child_page_ext (mem s) (mem s')) by done.
  destruct Hg as [Hl _]. cbn in Hl. destruct path; [done|]. cbn in Hl. lia.
Qed.

Lemma unode_same s s' p q :
  (∀ q, is_unode s p q → mem s' q = mem s q) → is_unode s' p q ↔ is_unode s p q.
Proof.
  intros Hm. split; intros (path & Hg & Hu & Hn); exists path; split_and!; try done.
  - by rewrite <-(unode_agree s s').
  - by rewrite (unode_agree s s').
Qed.

(** ... translate the same pages *)
Lemma user_lookup_same s s' p v :
  (∀ q, is_unode s p q → mem s' q = mem s q) → user_vpn v → pt_lookup s' p v = pt_lookup s p v.
Proof.
  intros Hm Hv. unfold pt_lookup, walk.
  assert (user_path [idx0 v; idx1 v]) as Hu by (by apply user_vpn_idx0).
  rewrite (unode_agree s s') by (done || auto with chaos).
  destruct (node (mem s) (root_ppn p) [idx0 v; idx1 v]) as [q|] eqn:Hq; [|done].
  rewrite (rd_pte_ext (mem s) (mem s')); [done|]. apply Hm. exists [idx0 v; idx1 v]. split_and!; auto with chaos.
Qed.

(** The tree of a process, given that of the kernel *)
Lemma shared_pt_inv s s' k p :
  pt_inv s (root_ppn p) → pt_inv s' (root_ppn k) → shares_kernel s k p →
  (∀ q, is_unode s p q → mem s' q = mem s q) → fa_current (fa s) ≤ fa_current (fa s') →
  (∀ i, 256 ≤ i < 512 → child (mem s') (root_ppn p) i = child (mem s') (root_ppn k) i) →
  (∀ q, q < fa_current (fa s) → is_node s' k q → is_node s k q) →
  pt_inv s' (root_ppn p).
Proof.
  intros Hp Hk [Hh Hpr] Hm Hc Hhalf Hback.
  assert (∀ i path, good_path (i :: path) → ¬ i < 256 →
    node (mem s') (root_ppn p) (i :: path) = node (mem s') (root_ppn k) (i :: path)) as Hkn.
  { intros i path [_ Hf] Hi. cbn. rewrite Hhalf; [done|]. inversion Hf as [|? ? [? ?]]. lia. }
  assert (∀ path q, good_path path → user_path path → node (mem s') (root_ppn p) path = Some q →
    node (mem s) (root_ppn p) path = Some q ∧ q < fa_current (fa s) ∧ is_unode s p q) as Hun.
  { intros path q Hg Hu Hn. rewrite (unode_agree s s') in Hn by done.
    split_and!; [done|by eapply pt_inv_bound|by exists path]. }
  assert (∀ path path' q, good_path path → good_path path' → user_path path → ¬ user_path path' →
    node (mem s') (root_ppn p) path = Some q → node (mem s') (root_ppn p) path' ≠ Some q) as Hmix.
  { intros path path' q Hg Hg' Hu Hu' Hn Hn'. destruct (Hun _ _ Hg Hu Hn) as (_ & Hlt & Hq).
    apply (Hpr q Hq), Hback; [done|]. exists path'. split; [done|].
    destruct path' as [|i path']; [done|]. by rewrite <-Hkn. }
  split.
  - intros path q Hg Hn. destruct path as [|i path].
    { destruct (Hun [] q) as (_ & ? & _); [apply good_path_nil|done|done|lia]. }
    destruct (decide (i < 256)).
    + destruct (Hun (i :: path) q) as (_ & ? & _); [done|done|done|lia].
    + rewrite Hkn in Hn by done. by eapply pt_inv_bound.
  - intros path path' q Hg Hg' Hn Hn'.
    destruct (decide (user_path path)) as [Hu|Hu], (decide (user_path path')) as [Hu'|Hu'].
    + destruct (Hun _ _ Hg Hu Hn) as (H1 & _), (Hun _ _ Hg' Hu' Hn') as (H2 & _). by eapply (pt_inv_inj _ _ Hp).
    + by destruct (Hmix path path' q).
    + by destruct (Hmix path' path q).
    + destruct path as [|i path]; [done|]. destruct path' as [|i' path']; [done|].
      rewrite Hkn in Hn by done. rewrite Hkn in Hn' by done. by eapply (pt_inv_inj _ _ Hk).
Qed.

(** ** Mapping pages of the kernel half *)

(** A step of the kernel's table [k] seen from a process with table [p] *)
Record kernel_step (k k' p : PageTable) (s s' : Mm) : Prop := {
  ks_step : as_step k k' s s';
  ks_shares : shares_kernel s' k' p;
  ks_pt : pt_inv s' (root_ppn p);
  ks_mem : ∀ q, is_unode s p q → mem s' q = mem s q;
  ks_keep : ∀ i q, good_index i → child (mem s) (root_ppn k) i = Some q → child (mem s') (root_ppn k') i = Some q;
}.

Lemma kernel_step_refl k p s :
  mm_inv s → pt_inv s (root_ppn k) → pt_inv s (root_ppn p) → shares_kernel s k p → kernel_step k k p s s.
Proof. intros. by split. Qed.

Lemma kernel_step_trans k1 k2 k3 p s1 s2 s3 :
  kernel_step k1 k2 p s1 s2 → kernel_step k2 k3 p s2 s3 → kernel_step k1 k3 p s1 s3.
Proof.
  intros H12 H23. split; [eapply as_step_trans; [apply H12|apply H23]|apply H23|apply H23|..].
  - intros q Hq. rewrite (ks_mem _ _ _ _ _ H23); [by apply (ks_mem _ _ _ _ _ H12)|].
    apply (unode_same s1 s2); [apply (ks_mem _ _ _ _ _ H12)|done].
  - intros i q Hi Hq. by apply (ks_keep _ _ _ _ _ H23), (ks_keep _ _ _ _ _ H12).
Qed.

Lemma unode_old s k p q : pt_inv s (root_ppn p) → shares_kernel s k p → is_unode s p q → q < fa_current (fa s) ∧ ¬ is_node s k q.
Proof. intros Hp Hs Hq. split; [|by apply Hs]. destruct Hq as (path & Hg & _ & Hn). by eapply pt_inv_bound. Qed.

Lemma kernel_step_alloc k p s :
  mm_inv s → pt_inv s (root_ppn k) → pt_inv s (root_ppn p) → shares_kernel s k p → fa_current (fa s) < fa_end (fa s) →
  kernel_step k k p s (mm_bump s).
Proof.
  intros Hmm Hk Hp Hs Hlt. destruct (alloc_step s k Hmm Hk Hlt) as (St & _ & _).
  assert (∀ q, q < fa_current (fa s) → mem (mm_bump s) q = mem s q) as Hsame.
  { intros q Hq. simpl. rewrite fn_lookup_insert_ne; [done|lia]. }
  assert (∀ q, is_unode s p q → mem (mm_bump s) q = mem s q) as Hm.
  { intros q Hq. apply Hsame. by apply (unode_old s k p). }
  assert (∀ r i, pt_inv s r → child (mem (mm_bump s)) r i = child (mem s) r i) as Hch.
  { intros r i Hr. apply child_page_ext, Hsame. by apply (pt_inv_bound _ _ Hr [] r good_path_nil). }
  assert (∀ i, 256 ≤ i < 512 → child (mem (mm_bump s)) (root_ppn p) i = child (mem (mm_bump s)) (root_ppn k) i) as Hhalf.
  { intros i Hi. rewrite !Hch by done. by apply Hs. }
  split; [done|split|..].
  - done.
  - intros q Hq%(unode_same s) Hn; [|done]. destruct (unode_old _ _ _ _ Hp Hs Hq) as [Hlt' Hno].
    by apply Hno, (as_nodes _ _ _ _ St).
  - eapply (shared_pt_inv s _ k p); [done|apply St|done|done|simpl; lia|done|]. apply (as_nodes _ _ _ _ St).
  - done.
  - intros i q _ Hq. by rewrite Hch.
Qed.

Lemma kernel_step_update k k' p v new s s' :
  pt_update k k' v new s s' → pt_inv s (root_ppn k) → pt_inv s (root_ppn p) → shares_kernel s k p →
  is_Some (child (mem s) (root_ppn k) (idx0 v)) → kernel_step k k' p s s'.
Proof.
  intros U Hk Hp Hs [c Hc]. pose proof (pt_update_step _ _ _ _ _ _ U) as St.
  pose proof (as_root _ _ _ _ St) as Hr.
  assert (∀ q, is_unode s p q → mem s' q = mem s q) as Hm.
  { intros q Hq. destruct (unode_old _ _ _ _ Hp Hs Hq). by apply (as_frame _ _ _ _ St). }
  assert (∀ i, good_index i → child (mem s') (root_ppn k') i = child (mem s) (root_ppn k) i) as Hck.
  { intros i Hi. pose proof (upd_keep _ _ _ _ _ _ U [i]) as Hkeep. pose proof (upd_back _ _ _ _ _ _ U [i]) as Hback.
    pose proof (upd_new _ _ _ _ _ _ U [i]) as Hnew. cbn in Hkeep, Hback, Hnew.
    destruct (child (mem s) (root_ppn k) i) as [q|] eqn:Ei.
    - specialize (Hkeep q (good_path_1 _ Hi) eq_refl). by destruct (child (mem s') (root_ppn k') i).
    - destruct (child (mem s') (root_ppn k') i) as [q'|] eqn:Ei'; [exfalso|done].
      destruct (decide (q' < fa_current (fa s))) as [Hlt|Hge].
      + by specialize (Hback q' (good_path_1 _ Hi) Hlt eq_refl).
      + specialize (Hnew q' (good_path_1 _ Hi) ltac:(lia) eq_refl). apply prefix_cons_inv_1 in Hnew as ->. congruence. }
  assert (∀ i, 256 ≤ i < 512 → child (mem s') (root_ppn p) i = child (mem s') (root_ppn k') i) as Hhalf.
  { intros i Hi. rewrite Hck by (unfold good_index; lia). rewrite <-(sk_half _ _ _ Hs) by done.
    apply child_page_ext, Hm. exists []. split_and!; [apply good_path_nil|done|done]. }
  split; [done|split|..].
  - done.
  - intros q Hq%(unode_same s) Hn; [|done]. destruct (unode_old _ _ _ _ Hp Hs Hq) as [Hlt' Hno].
    by apply Hno, (as_nodes _ _ _ _ St).
  - eapply (shared_pt_inv s _ k p); [done|rewrite <-Hr; apply St|done|done|apply St|rewrite <-Hr; done|].
    intros q Hq Hn. apply (as_nodes _ _ _ _ St); [done|]. unfold is_node. by rewrite Hr.
  - done.
  - intros i q Hi Hq. by rewrite Hck.
Qed.

Lemma kernel_map_one a k v p s a' k' s' :
  MapArea_map_one a k v s = Ok ((a', k'), s') → map_type a = Framed → data_frames a !! v = None → 0 ≤ map_perm a < 2 ^ 8 →
  mm_inv s → pt_inv s (root_ppn k) → pt_inv s (root_ppn p) → shares_kernel s k p →
  is_Some (child (mem s) (root_ppn k) (idx0 v)) → kernel_step k k' p s s'.
Proof.
  unfold MapArea_map_one. intros H Hty Hnone Hperm Hmm Hk Hp Hs [c Hc]. rewrite Hty in H.
  pose proof (frame_alloc_eq s Hmm) as Ha. pose proof (fa_inv_le _ (mm_inv_fa _ Hmm)) as Hle. revert H. run.
  destruct (decide _) as [He|Hne]; rewrite (bind_Ok _ _ _ _ _ Ha); run; [done|].
  unfold btree_insert. rewrite Hnone. simpl drop_option. run. rewrite PTEFlags_from_bits_some. run. intros H.
  pose proof (kernel_step_alloc k p s Hmm Hk Hp Hs ltac:(lia)) as K1.
  assert (0 ≤ fa_current (fa s) < 2 ^ 44) as Hf by (destruct (mm_inv_fa _ Hmm); lia).
  pose proof (PageTable_map_spec k (mm_bump s) v (fa_current (fa s)) (map_perm a)
    (as_pt _ _ _ _ (ks_step _ _ _ _ _ K1)) (as_mm _ _ _ _ (ks_step _ _ _ _ _ K1)) Hf Hperm) as Hm.
  apply bind_Ok_inv in H as (k1 & s1 & E & H). rewrite E in Hm. destruct Hm as [_ U].
  unfold mret, M_ret in H. injection H as <- <- <-.
  eapply kernel_step_trans; [exact K1|]. eapply kernel_step_update; [exact U|apply K1|apply K1|apply K1|].
  exists c. apply (ks_keep _ _ _ _ _ K1); [apply good_idx0|done].
Qed.

Lemma kernel_map_pages l : ∀ a k p s a' k' s',
  foldM (λ '(a, pt) vpn, MapArea_map_one a pt vpn) (a, k) l s = Ok ((a', k'), s') →
  map_type a = Framed → NoDup l → (∀ v, v ∈ l → data_frames a !! v = None) → 0 ≤ map_perm a < 2 ^ 8 →
  mm_inv s → pt_inv s (root_ppn k) → pt_inv s (root_ppn p) → shares_kernel s k p →
  (∀ v, v ∈ l → is_Some (child (mem s) (root_ppn k) (idx0 v))) → kernel_step k k' p s s'.
Proof.
  induction l as [|v l IH]; intros a k p s a' k' s' H Hty Hnd Hfr Hperm Hmm Hk Hp Hs Hc; cbn [foldM] in H.
  { unfold mret, M_ret in H. injection H as <- <- <-. by apply kernel_step_refl. }
  apply NoDup_cons in Hnd as [Hv Hnd]. apply bind_Ok_inv in H as ([a1 k1] & s1 & E1 & H).
  assert (kernel_step k k1 p s s1) as K1.
  { eapply kernel_map_one; try done; [apply Hfr; left|apply Hc; left]. }
  pose proof (map_one_area _ _ _ _ _ _ _ E1) as (_ & T1 & P1).
  eapply kernel_step_trans; [exact K1|]. eapply IH; [exact H|congruence|done| |by rewrite P1|apply K1..|].
  - intros w Hw. rewrite (map_one_frames _ _ _ _ _ _ _ w E1); [apply Hfr; by right|]. intros ->. done.
  - intros w Hw. destruct (Hc w) as [c Hcw]; [by right|]. exists c. apply (ks_keep _ _ _ _ _ K1); [apply good_idx0|done].
Qed.

(** ** The pages of a kernel stack *)

Definition kstack_vpn (id : Z) : Z := 0xffffffc088000 + 9 * id.
Definition kstack_pages (id : Z) : list Z := seqZ (kstack_vpn id) 8.

(** The stacks below this identifier are in the gigabyte of the kernel image. *)
Definition kstack_gigabyte : Z := 25485.

Lemma kstack_idx0 id v : 0 ≤ id < kstack_gigabyte → v ∈ kstack_pages id → idx0 v = 258.
Proof.
  unfold kstack_gigabyte, kstack_pages, kstack_vpn, idx0. intros Hid Hv%elem_of_seqZ.
  change (2 ^ 18) with 262144. replace (v / 262144) with 17179868930; [done|]. Z.to_euclidean_division_equations; lia.
Qed.

(** Allocating a kernel stack succeeds when its pages are free and memory suffices, and a process
    does not see it. *)
Lemma insert_kstack space id p s :
  mm_inv s → pt_inv s (root_ppn (page_table space)) → pt_inv s (root_ppn p) → shares_kernel s (page_table space) p →
  0 ≤ id < kstack_gigabyte → is_Some (child (mem s) (root_ppn (page_table space)) 258) →
  (∀ v, v ∈ kstack_pages id → pt_lookup s (page_table space) v = None) → 24 ≤ fa_end (fa s) - fa_current (fa s) →
  ∃ space' s', MemorySet_insert_framed_area space (kernel_stack_position id).1 (kernel_stack_position id).2 RW s = Ok (space', s') ∧
    kernel_step (page_table space) (page_table space') p s s' ∧ fa_current (fa s') ≤ fa_current (fa s) + 24.
Proof.
  intros Hmm Hk Hp Hs Hid Hc Hfree Hmem. unfold kstack_gigabyte in Hid.
  rewrite kernel_stack_position_eq by (change kstack_limit with 7394645; lia). cbn [fst snd].
  unfold MemorySet_insert_framed_area, MapArea_new.
  unfold MEMORY_END, KERNEL_STACK_SIZE in *. rewrite VirtAddr_ceil_eq by (unfold W64; lia).
  change (VirtAddr_floor (0xffffffc088000000 + id * 36864)) with ((0xffffffc088000000 + id * 36864) / 4096).
  replace ((0xffffffc088000000 + id * 36864) / 4096) with (kstack_vpn id)
    by (unfold kstack_vpn; Z.to_euclidean_division_equations; lia).
  replace ((0xffffffc088000000 + id * 36864 + 4096 * 8 + 4095) / 4096) with (kstack_vpn id + 8)
    by (unfold kstack_vpn; Z.to_euclidean_division_equations; lia).
  unfold SimpleRange_new. rewrite (proj2 (Z.leb_le _ _)) by lia. cbn [assertO mbind outcome_bind mret outcome_ret]. run.
  set (a := {| vpn_range := _; data_frames := _ |}). unfold MemorySet_push, MapArea_map. run.
  assert (range_pages (vpn_range a) = kstack_pages id) as -> by (unfold range_pages, kstack_pages; cbn; f_equal; lia).
  assert (Forall canonical_vpn (kstack_pages id)) as Hcan.
  { apply Forall_forall. intros v Hv%elem_of_seqZ. unfold kstack_vpn in Hv. right. lia. }
  pose proof (map_pages_framed (kstack_pages id) a (page_table space) s Hmm Hk eq_refl ltac:(vm_compute; split; congruence)
    Hcan (NoDup_seqZ _ _) ltac:(intros; apply lookup_empty)) as H.
  destruct (foldM _ (a, page_table space) _ s) as [[[a' k'] s']|f|] eqn:E; [| |done].
  - rewrite (bind_Ok _ _ _ _ _ E). run. eexists _, _. split; [reflexivity|]. destruct H as [_ F]. split.
    + eapply (kernel_map_pages (kstack_pages id) a);
        [exact E|done|apply NoDup_seqZ|intros; apply lookup_empty|vm_compute; split; congruence|done..|].
      intros v Hv. by rewrite (kstack_idx0 id).
    + pose proof (fm_bound _ _ _ _ _ _ _ F) as Hb. unfold kstack_pages in Hb. rewrite length_seqZ in Hb. lia.
  - exfalso. destruct H as [(v & Hv & [e He])|H]; [by rewrite Hfree in He|].
    unfold kstack_pages in H. rewrite length_seqZ in H. lia.
Qed.

Lemma forkable_kernel_step k k' parent s s' :
  kernel_step k k' (page_table parent) s s' → forkable s parent →
  forkable s' parent ∧ fork_plan s' parent = fork_plan s parent.
Proof.
  intros K [Hp Ha Hh Hm Hnd]. pose proof (as_cur _ _ _ _ (ks_step _ _ _ _ _ K)) as Hc.
  assert (∀ a, a ∈ areas parent → area_ok s' (page_table parent) a ∧ area_plan s' (page_table parent) a = area_plan s (page_table parent) a) as Hareas.
  { intros a (Hty & Hpm & Hle & Hlo & Hhi & Hsrc)%(proj1 (Forall_forall _ _) Ha).
    assert (∀ v, v ∈ range_pages (vpn_range a) → pt_lookup s' (page_table parent) v = pt_lookup s (page_table parent) v) as Hl.
    { intros v Hv%elem_of_range_pages. apply user_lookup_same; [apply K|]. unfold user_vpn. lia. }
    split.
    - refine (conj Hty (conj Hpm (conj Hle (conj Hlo (conj Hhi _))))). intros v Hv. destruct (Hsrc v Hv) as [H1 H2]. unfold src_frame in *. rewrite Hl by done. split; [done|lia].
    - unfold area_plan. apply Forall_fmap_ext_1, Forall_forall. intros v Hv. unfold src_frame. by rewrite Hl. }
  assert (fork_plan s' parent = fork_plan s parent) as Hplan.
  { unfold fork_plan. f_equal. clear - Hareas. induction (areas parent) as [|a l IH]; [done|]. cbn.
    rewrite (proj2 (Hareas a ltac:(left))), IH; [done|]. intros b Hb. apply Hareas. by right. }
  split; [|done]. split; [apply K| | | |by rewrite Hplan].
  - apply Forall_forall. intros a Hin. by apply Hareas.
  - intros v p Hv. destruct (Hh v p Hv). split; [done|lia].
  - intros v p Hv. destruct (Hm v p Hv). split; [done|lia].
Qed.

(** ** Loads and stores inside a page *)

Lemma PTE_readable_eq e : PageTableEntry_readable e = Ok (Z.testbit e 1).
Proof. apply (flag_test e 1). lia. Qed.
Lemma PTE_writable_eq e : PageTableEntry_writable e = Ok (Z.testbit e 2).
Proof. apply (flag_test e 2). lia. Qed.

(** The page [v] is mapped to the frame [p] for reading and writing. *)
Definition rw_page (s : Mm) (pt : PageTable) (v p : Z) : Prop :=
  ∃ e, pt_lookup s pt v = Some e ∧ pte_ppn e = p ∧ Z.testbit e 1 = true ∧ Z.testbit e 2 = true.

Lemma lookup_valid s pt v e : pt_lookup s pt v = Some e → Z.testbit e 0 = true.
Proof.
  unfold pt_lookup, walk. destruct (node _ _ _) as [p|]; [|done]. destruct (Z.testbit _ 0) eqn:E; [|done]. by intros [= <-].
Qed.

Lemma page_split v o : 0 ≤ o < 4096 → VirtAddr_floor (v * 4096 + o) = v ∧ VirtAddr_page_offset (v * 4096 + o) = o.
Proof.
  intros Ho. rewrite page_offset_mod. unfold VirtAddr_floor, PAGE_SIZE. Z.to_euclidean_division_equations. lia.
Qed.

Lemma mmu_load_byte_ok s pt v p o :
  mm_inv s → rw_page s pt v p → (o < 4096)%nat →
  ∃ b, mem s p !! o = Some b ∧ mmu_load_byte pt (v * 4096 + Z.of_nat o) s = Ok (b, s).
Proof.
  intros Hmm (e & He & <- & Hr & Hw) Ho. destruct (page_split v (Z.of_nat o)) as [E1 E2]; [lia|].
  destruct (lookup_lt_is_Some_2 (mem s (pte_ppn e)) o) as [b Hb]; [rewrite (mm_inv_len _ Hmm); lia|].
  exists b. split; [done|]. unfold mmu_load_byte. rewrite E1, E2.
  rewrite (bind_Ok _ _ _ _ _ (translate_mapped _ _ _ _ He)). run. rewrite PTE_readable_eq. run.
  rewrite (lookup_valid _ _ _ _ He), Hr, Nat2Z.id. cbn [andb]. unfold get_bytes_array. by rewrite Hb.
Qed.

Lemma slice_snoc {A} (l : list A) i n x : l !! (i + n)%nat = Some x → slice l i (i + n) ++ [x] = slice l i (i + S n).
Proof.
  intros Hx. unfold slice. replace (i + S n - i)%nat with (S (i + n - i)) by lia.
  symmetry. apply take_S_r. rewrite lookup_drop. by replace (i + (i + n - i))%nat with (i + n)%nat by lia.
Qed.

Lemma mmu_load_ok s pt v p o n :
  mm_inv s → rw_page s pt v p → user_vpn v → (o + n ≤ 4096)%nat →
  mmu_load pt (v * 4096 + Z.of_nat o) n s = Ok (slice (mem s p) o (o + n), s).
Proof.
  intros Hmm Hp Hv. unfold user_vpn in Hv. unfold mmu_load. induction n as [|n IH]; intros Hn.
  { cbn. unfold slice. by rewrite Nat.add_0_r, Nat.sub_diag. }
  rewrite seq_S, foldM_app. erewrite bind_Ok by (apply IH; lia). cbn [foldM plus].
  rewrite wadd_small by (unfold W64; lia).
  replace (v * 4096 + Z.of_nat o + Z.of_nat n) with (v * 4096 + Z.of_nat (o + n)) by lia.
  destruct (mmu_load_byte_ok s pt v p (o + n) Hmm Hp) as (b & Hb & E); [lia|].
  run. rewrite (bind_Ok _ _ _ _ _ E). unfold mret, M_ret. by rewrite (slice_snoc _ _ _ _ Hb).
Qed.

(** The state after the page [p] has been overwritten *)
Record page_written (p : Z) (new : list Z) (s s' : Mm) : Prop := {
  pw_fa : fa s' = fa s;
  pw_new : mem s' p = new;
  pw_same : ∀ q, q ≠ p → mem s' q = mem s q;
}.

(** A tree whose tables have not changed *)
Lemma tree_same s s' pt :
  (∀ q, is_node s pt q → mem s' q = mem s q) → fa_current (fa s) ≤ fa_current (fa s') → pt_inv s (root_ppn pt) →
  pt_inv s' (root_ppn pt) ∧ (∀ v, pt_lookup s' pt v = pt_lookup s pt v) ∧ (∀ q, is_node s' pt q ↔ is_node s pt q).
Proof.
  intros Hm Hc [Hb Hi].
  assert (∀ path, good_path path → node (mem s') (root_ppn pt) path = node (mem s) (root_ppn pt) path) as Hn.
  { intros path Hg. apply node_agree; [done|]. intros path' q Hg' Hq. apply Hm. by exists path'. }
  split_and!.
  - split.
    + intros path q Hg. rewrite Hn by done. intros Hq. specialize (Hb path q Hg Hq). lia.
    + intros path path' q Hg Hg'. rewrite !Hn by done. by apply Hi.
  - intros v. unfold pt_lookup, walk. rewrite Hn by auto with chaos.
    destruct (node (mem s) (root_ppn pt) [idx0 v; idx1 v]) as [q|] eqn:Hq; [|done].
    rewrite (rd_pte_ext (mem s) (mem s')); [done|]. apply Hm. exists [idx0 v; idx1 v]. split; auto with chaos.
  - intros q. split; intros (path & Hg & Hq); exists path; split; try done; by rewrite ?Hn in * by done.
Qed.

Lemma page_written_mm p new s s' :
  page_written p new s s' → mm_inv s → length new = 4096%nat → Forall is_byte new → mm_inv s'.
Proof.
  intros [Hf Hn Hs] [H1 H2 H3] Hl Hb. split; [by rewrite Hf|..]; intros q; destruct (decide (q = p)) as [->|];
    rewrite ?Hn, ?Hs by done; done.
Qed.

Lemma splice_snoc {A} (l k : list A) i x :
  (i + length k < length l)%nat → splice (splice l i k) (i + length k) [x] = splice l i (k ++ [x]).
Proof.
  intros Hi. apply list_eq_lookup_lt; rewrite !length_splice; rewrite ?length_app; cbn; rewrite ?length_splice; try lia.
  intros j Hj. destruct (decide (j = i + length k)%nat) as [->|Hne].
  - rewrite !lookup_splice_new; rewrite ?length_app, ?length_splice; cbn; try lia.
    rewrite lookup_app_r by lia. f_equal. lia.
  - rewrite lookup_splice_old by (rewrite ?length_splice; cbn; lia).
    destruct (decide (i ≤ j < i + length k)%nat).
    + rewrite !lookup_splice_new by (rewrite ?length_app; cbn; lia). by rewrite lookup_app_l by lia.
    + by rewrite !lookup_splice_old by (rewrite ?length_app; cbn; lia).
Qed.

(** Storing bytes inside one page that is not a table of the tree it is reached through *)
Lemma mmu_store_ok s pt v p o bytes :
  mm_inv s → pt_inv s (root_ppn pt) → rw_page s pt v p → ¬ is_node s pt p → user_vpn v →
  (o + length bytes ≤ 4096)%nat → Forall is_byte bytes →
  ∃ s', mmu_store pt (v * 4096 + Z.of_nat o) bytes s = Ok ((), s') ∧ page_written p (splice (mem s p) o bytes) s s'.
Proof.
  intros Hmm Hpt Hp Hn Hv Hl Hb. unfold user_vpn in Hv.
  assert (∃ s', foldM (λ i b, mmu_store_byte pt (wadd (v * 4096 + Z.of_nat o) i) b;; mret (wadd i 1)) 0 bytes s
    = Ok (Z.of_nat (length bytes), s') ∧ page_written p (splice (mem s p) o bytes) s s') as (s' & E & W).
  2: { exists s'. split; [|done]. unfold mmu_store. by rewrite (bind_Ok _ _ _ _ _ E). }
  induction bytes as [|b bytes IH] using rev_ind.
  { exists s. split; [done|]. split; [done| |done]. unfold splice. cbn. by rewrite Nat.add_0_r, take_drop. }
  rewrite length_app in Hl. cbn in Hl. apply Forall_app in Hb as [Hb [Hb1 _]%Forall_cons].
  destruct IH as (s1 & E & W); [lia|done|]. pose proof (mm_inv_len _ Hmm p) as Hlen.
  rewrite foldM_app, (bind_Ok _ _ _ _ _ E). cbn [foldM]. rewrite !wadd_small by (unfold W64; lia).
  replace (v * 4096 + Z.of_nat o + Z.of_nat (length bytes)) with (v * 4096 + Z.of_nat (o + length bytes)) by lia.
  destruct Hp as (e & He & <- & Hr & Hw). destruct (page_split v (Z.of_nat (o + length bytes))) as [E1 E2]; [lia|].
  assert (pt_lookup s1 pt v = Some e) as He1.
  { rewrite (proj1 (proj2 (tree_same s s1 pt ltac:(intros q Hq; apply (pw_same _ _ _ _ W); congruence)
      ltac:(by rewrite (pw_fa _ _ _ _ W)) Hpt))). done. }
  run. unfold mmu_store_byte. rewrite E1, E2. run. rewrite (bind_Ok _ _ _ _ _ (translate_mapped _ _ _ _ He1)). run.
  rewrite PTE_writable_eq. run. rewrite (lookup_valid _ _ _ _ He), Hw. cbn [andb]. unfold copy_into_page.
  rewrite (proj2 (Z.leb_le _ _)) by (cbn; lia). run. unfold set_bytes_array, get_bytes_array. run.
  replace (Z.of_nat (length (bytes ++ [b]))) with (Z.of_nat (length bytes) + 1) by (rewrite length_app; cbn; lia).
  eexists. split; [reflexivity|]. split; cbn.
  - apply W.
  - rewrite fn_lookup_insert, (pw_new _ _ _ _ W), Nat2Z.id. apply splice_snoc. lia.
  - intros q Hq. rewrite fn_lookup_insert_ne by done. by apply W.
Qed.

(** ** The page of a trap context *)

Definition trap_vpn (id : Z) : Z := 0x3fffffe - id.
Definition max_trap_id : Z := 0x3ffffff.

Lemma trap_cx_bottom_eq id : 0 ≤ id < max_trap_id →
  user_vpn (trap_vpn id) ∧ trap_cx_bottom_from_tid id = trap_vpn id * 4096 ∧
  VirtAddr_from_usize (trap_vpn id * 4096) = Ok (trap_vpn id * 4096) ∧
  VirtAddr_from_usize (trap_vpn id * 4096 + 4096) = Ok (trap_vpn id * 4096 + 4096) ∧
  VirtPageNum_from_va (trap_vpn id * 4096) = Ok (trap_vpn id).
Proof.
  unfold max_trap_id, trap_vpn, user_vpn. intros Hid. split_and!; [lia|lia|..].
  - unfold trap_cx_bottom_from_tid, wmul. rewrite wrap_small by (unfold is_usize, W64, PAGE_SIZE; lia).
    change TRAP_CONTEXT_BASE with 0x3fffffe000. rewrite wsub_small by (unfold W64, PAGE_SIZE; lia). unfold PAGE_SIZE. lia.
  - rewrite VirtAddr_from_usize_eq by (unfold is_usize, W64; lia). by rewrite bool_decide_true by lia.
  - rewrite VirtAddr_from_usize_eq by (unfold is_usize, W64; lia). by rewrite bool_decide_true by lia.
  - unfold VirtPageNum_from_va. rewrite page_offset_mod. unfold PAGE_SIZE. rewrite Z.mod_mul, Z.eqb_refl by lia.
    cbn. unfold VirtAddr_floor, PAGE_SIZE. by rewrite Z.div_mul by lia.
Qed.

(** The address space of the child with its trap page: [fork_inv] holds of it, with the copies of
    the plan and the fresh trap page. *)
Lemma child_space_ok k parent id s :
  mm_inv s → pt_inv s k → forkable s parent → 0 ≤ id < max_trap_id → trap_vpn id ∉ (fork_plan s parent).*1.*1 →
  4 + 3 * Z.of_nat (length (fork_plan s parent)) ≤ fa_end (fa s) - fa_current (fa s) →
  ∃ ms0 s0 ms s' D p, MemorySet_from_existed_user k parent s = Ok (ms0, s0) ∧ alloc_trap_cx ms0 id s0 = Ok (ms, s') ∧
    trap_cx_frame ms id s' = Ok (p, s') ∧ fork_inv k (fa_current (fa s)) (mem s) D (page_table ms) s' ∧
    copied_plan s (fork_plan s parent) ∅ (delete (trap_vpn id) D) ∧ D !! trap_vpn id = Some (RW, p, zero_page) ∧
    fa_end (fa s') = fa_end (fa s) ∧ fa_current (fa s') ≤ fa_current (fa s) + 4 + 3 * Z.of_nat (length (fork_plan s parent)).
Proof.
  intros Hmm Hk Hf Hid Hnot Hmem. destruct (trap_cx_bottom_eq id Hid) as (Hu & Hb & V1 & V2 & V3).
  pose proof (from_existed_user_outcome k parent s Hmm Hk Hf ltac:(lia)) as H.
  unfold fork_outcome in H. cbn [fa np_state mm_bump fa_set_current fa_current fa_end] in H.
  destruct (MemorySet_from_existed_user k parent s) as [[ms0 s0]|f|] eqn:E0; [|lia|done].
  destruct H as (D & I & [Hin Hout] & He & Hc). exists ms0, s0.
  unfold alloc_trap_cx. rewrite Hb. rewrite wadd_small by (unfold user_vpn, W64, PAGE_SIZE in *; lia).
  change PAGE_SIZE with 4096. rewrite V1, V2. run.
  unfold MemorySet_insert_framed_area, MapArea_new.
  rewrite VirtAddr_ceil_eq by (unfold user_vpn, W64 in *; lia).
  change (VirtAddr_floor (trap_vpn id * 4096)) with (trap_vpn id * 4096 / 4096). rewrite Z.div_mul by lia.
  replace ((trap_vpn id * 4096 + 4096 + 4095) / 4096) with (trap_vpn id + 1) by (Z.to_euclidean_division_equations; lia).
  unfold SimpleRange_new. rewrite (proj2 (Z.leb_le _ _)) by lia. cbn [assertO mbind outcome_bind mret outcome_ret]. run.
  set (a := {| vpn_range := _; data_frames := _ |}). unfold MemorySet_push, MapArea_map. run.
  replace (range_pages (vpn_range a)) with [trap_vpn id]
    by (unfold range_pages; cbn; replace (trap_vpn id + 1 - trap_vpn id) with 1 by lia; done).
  assert (D !! trap_vpn id = None) as HDn by (rewrite Hout by done; apply lookup_empty).
  pose proof (fork_map_pages _ _ _ [trap_vpn id] D a (page_table ms0) s0 I ltac:(by apply Forall_singleton)
    ltac:(apply NoDup_singleton) eq_refl ltac:(vm_compute; split; congruence)) as H.
  specialize (H ltac:(intros v ->%list_elem_of_singleton; split; [done|apply lookup_empty])).
  destruct (foldM _ (a, page_table ms0) _ s0) as [[[a' pt'] s']|f|] eqn:E; [|cbn [length] in H; lia|done].
  destruct H as (D' & I' & Hnew & Hold & He' & Hc'). destruct (Hnew (trap_vpn id)) as [p Hp]; [by left|].
  rewrite (bind_Ok _ _ _ _ _ E). run. eexists _, s', D', p. split; [done|]. split; [reflexivity|].
  cbn [length] in Hc'. split; [|split; [exact I'|split; [|split; [exact Hp|lia]]]].
  - unfold trap_cx_frame. rewrite Hb, V1. run. rewrite V3. run. unfold MemorySet_translate.
    destruct (fi_done _ _ _ _ _ _ I' _ _ _ _ Hp) as (Hl & Hr & _).
    rewrite (bind_Ok _ _ _ _ _ (translate_mapped _ _ _ _ Hl)). run. rewrite PTE_new_ppn; [done|..].
    + pose proof (mm_inv_fa _ (fi_mm _ _ _ _ _ _ I')) as [? ? ? _ _]. pose proof (fi_cur _ _ _ _ _ _ I'). lia.
    + vm_compute. split; congruence.
  - split.
    + intros v src perm Hv. destruct (Hin v src perm Hv) as [q Hq]. exists q.
      assert (v ≠ trap_vpn id). { intros ->. apply Hnot. apply list_elem_of_fmap. exists (trap_vpn id, src). split; [done|].
        apply list_elem_of_fmap. by exists (trap_vpn id, src, perm). }
      rewrite lookup_delete_ne by done. rewrite Hold; [done|]. by rewrite list_elem_of_singleton.
    + intros v Hv. destruct (decide (v = trap_vpn id)) as [->|Hne]; [by rewrite lookup_delete_eq, lookup_empty|].
      rewrite lookup_delete_ne by done. rewrite Hold by (by rewrite list_elem_of_singleton). by apply Hout.
Qed.

(** ** Mapping pages of the user half *)

(** An update at a user page, seen from the kernel *)
Lemma user_update_shares k p p' v new s s' :
  pt_update p p' v new s s' → user_vpn v → pt_inv s (root_ppn k) → shares_kernel s k p → 
  pt_inv s' (root_ppn k) ∧ shares_kernel s' k p' ∧ (∀ q, is_node s k q → mem s' q = mem s q) ∧
  (∀ q, q < fa_current (fa s) → ¬ is_unode s p q → mem s' q = mem s q).
Proof.
  intros U Hv Hk Hs. pose proof (pt_update_step _ _ _ _ _ _ U) as St.
  assert (∀ q, q < fa_current (fa s) → ¬ is_unode s p q → mem s' q = mem s q) as Hf.
  { intros q Hq Hn. apply (upd_frame _ _ _ _ _ _ U); [done|]. intros path Hpre Hpath. apply Hn. exists path.
    split_and!; [by eapply prefix_good_path|by eapply user_path_prefix|done]. }
  assert (∀ q, is_node s k q → mem s' q = mem s q) as Hm.
  { intros q Hq. apply Hf; [|by intros Hu%(sk_private _ _ _ Hs)]. destruct Hq as (path & Hg & Hn). by eapply pt_inv_bound. }
  destruct (tree_same s s' k Hm (as_cur _ _ _ _ St) Hk) as (Hk' & _ & Hn'). split_and!; try done. split.
  - intros i Hi. rewrite (user_update_half _ _ _ _ _ _ _ U) by done. rewrite (sk_half _ _ _ Hs) by done.
    symmetry. apply child_page_ext, Hm. exists []. split; [apply good_path_nil|done].
  - intros q (path & Hg & Hu & Hn) Hq. apply Hn' in Hq as Hq0. apply (sk_private _ _ _ Hs q); [|done].
    exists path. split_and!; [done|done|]. apply (upd_back _ _ _ _ _ _ U); [done| |done].
    destruct Hq0 as (path' & Hg' & Hn0). by eapply pt_inv_bound.
Qed.

(** The child of a copy shares the kernel half. *)
Lemma fork_inv_shares k D pt s s' :
  fork_inv (root_ppn k) (fa_current (fa s)) (mem s) D pt s' → pt_inv s (root_ppn k) →
  pt_inv s' (root_ppn k) ∧ shares_kernel s' k pt.
Proof.
  intros I Hk. assert (∀ q, is_node s k q → q < fa_current (fa s)) as Hlt.
  { intros q (path & Hg & Hn). by eapply pt_inv_bound. }
  destruct (tree_same s s' k) as (Hk' & _ & Hn); [|apply I|done|].
  { intros q Hq. by apply (fi_old _ _ _ _ _ _ I), Hlt. }
  split; [done|]. split.
  - intros i Hi. rewrite (fi_half _ _ _ _ _ _ I) by done. symmetry. apply child_page_ext, (fi_old _ _ _ _ _ _ I), Hlt.
    exists []. split; [apply good_path_nil|done].
  - intros q Hu%(fi_own _ _ _ _ _ _ I) Hq%Hn%Hlt. lia.
Qed.

(** The tables of a process are its own or the kernel's. *)
Lemma node_cases s k p q : shares_kernel s k p → is_node s p q → is_unode s p q ∨ is_node s k q.
Proof.
  intros Hs (path & Hg & Hn). destruct (decide (user_path path)) as [Hu|Hu]; [left; by exists path|right].
  exists path. split; [done|]. destruct path as [|i path]; [done|]. cbn in *.
  rewrite <-(sk_half _ _ _ Hs); [done|]. destruct Hg as [_ [[? ?] _]%Forall_cons]. lia.
Qed.

Lemma page_written_trans p a b s1 s2 s3 : page_written p a s1 s2 → page_written p b s2 s3 → page_written p b s1 s3.
Proof. intros [F1 N1 S1] [F2 N2 S2]. split; [congruence|done|]. intros q Hq. by rewrite S2, S1. Qed.

(** ** The copy of the trap context *)

(** As many bytes of the parent's page as whole contexts fill, with the result and the kernel stack
    of the child *)
Definition fork_trap_page (page : list Z) (kstack_top : Z) : list Z :=
  splice (splice (splice zero_page 0 (slice page 0 3848)) 80 (le_bytes 8 0)) 280 (le_bytes 8 kstack_top).

Lemma length_zero_page : length zero_page = 4096%nat.
Proof. reflexivity. Qed.

Ltac page_len :=
  repeat first [rewrite length_zero_page | rewrite length_le_bytes | rewrite length_slice by lia
               | rewrite length_splice by (page_len; lia)]; lia.

Lemma fork_trap_page_wf page top :
  length page = 4096%nat → Forall is_byte page → length (fork_trap_page page top) = 4096%nat ∧ Forall is_byte (fork_trap_page page top).
Proof.
  intros Hl Hb. unfold fork_trap_page. split.
  - page_len.
  - auto 7 using Forall_splice, Forall_slice, le_bytes_byte, zero_page_byte.
Qed.

Lemma rw_page_same s s' pt v p : pt_lookup s' pt v = pt_lookup s pt v → rw_page s pt v p → rw_page s' pt v p.
Proof. intros E (e & He & H). exists e. by rewrite E. Qed.

Lemma store_again s s1 pt v p old o bytes :
  page_written p old s s1 → mm_inv s → pt_inv s (root_ppn pt) → rw_page s pt v p → ¬ is_node s pt p → user_vpn v →
  length old = 4096%nat → Forall is_byte old → (o + length bytes ≤ 4096)%nat → Forall is_byte bytes →
  ∃ s', mmu_store pt (v * 4096 + Z.of_nat o) bytes s1 = Ok ((), s') ∧ page_written p (splice old o bytes) s s'.
Proof.
  intros W Hmm Hpt Hp Hn Hv Hl Hb Ho Hb'.
  destruct (tree_same s s1 pt) as (Hpt1 & Hl1 & Hn1); [|by rewrite (pw_fa _ _ _ _ W)|done|].
  { intros q Hq. apply (pw_same _ _ _ _ W). congruence. }
  destruct (mmu_store_ok s1 pt v p o bytes) as (s' & E & W'); try done.
  - by eapply page_written_mm.
  - by apply (rw_page_same s).
  - by rewrite Hn1.
  - exists s'. split; [done|]. rewrite (pw_new _ _ _ _ W) in W'. by eapply page_written_trans.
Qed.

Lemma trap_copied pt id cid src p top s :
  mm_inv s → pt_inv s (root_ppn pt) → 0 ≤ id < max_trap_id → 0 ≤ cid < max_trap_id →
  rw_page s pt (trap_vpn id) src → rw_page s pt (trap_vpn cid) p → ¬ is_node s pt p → mem s p = zero_page →
  ∃ s1 s2 s3, copy_trap_cx pt (trap_vpn id * 4096) (trap_vpn cid * 4096) s = Ok ((), s1) ∧
    mmu_store pt (wadd (trap_vpn cid * 4096) (x_offset 10)) (le_bytes 8 0) s1 = Ok ((), s2) ∧
    mmu_store pt (wadd (trap_vpn cid * 4096) kernel_sp_offset) (le_bytes 8 top) s2 = Ok ((), s3) ∧
    page_written p (fork_trap_page (mem s src) top) s s3.
Proof.
  intros Hmm Hpt Hid Hcid Hsrc Hp Hn Hz.
  destruct (trap_cx_bottom_eq id Hid) as (Hu & _), (trap_cx_bottom_eq cid Hcid) as (Hu' & _).
  pose proof (mm_inv_len _ Hmm src) as Hl. pose proof (mm_inv_byte _ Hmm src) as Hb.
  pose proof (mmu_load_ok s pt _ src 0 3848 Hmm Hsrc Hu ltac:(lia)) as E0. cbn [Z.of_nat] in E0. rewrite Z.add_0_r in E0.
  destruct (mmu_store_ok s pt _ p 0 (slice (mem s src) 0 3848) Hmm Hpt Hp Hn Hu') as (s1 & E1 & W1);
    [rewrite length_slice; lia|by apply Forall_slice|]. cbn [Z.of_nat] in E1. rewrite Z.add_0_r in E1. rewrite Hz in W1.
  destruct (store_again s s1 pt _ p _ 80 (le_bytes 8 0) W1 Hmm Hpt Hp Hn Hu') as (s2 & E2 & W2).
  { page_len. }
  { auto using Forall_splice, Forall_slice, zero_page_byte. }
  { rewrite length_le_bytes. lia. }
  { apply le_bytes_byte. }
  destruct (store_again s s2 pt _ p _ 280 (le_bytes 8 top) W2 Hmm Hpt Hp Hn Hu') as (s3 & E3 & W3).
  { page_len. }
  { auto 7 using Forall_splice, Forall_slice, le_bytes_byte, zero_page_byte. }
  { rewrite length_le_bytes. lia. }
  { apply le_bytes_byte. }
  exists s1, s2, s3. unfold user_vpn in *. split_and!; [| | |done].
  - unfold copy_trap_cx. change (Z.to_nat _) with 3848%nat. by rewrite (bind_Ok _ _ _ _ _ E0).
  - rewrite wadd_small by (unfold x_offset, W64; lia). exact E2.
  - rewrite wadd_small by (unfold kernel_sp_offset, W64; lia). exact E3.
Qed.

(** What [fork] leaves of the memory of [s], when the child has the copies [D] and the trap page
    [p] at [v], which the parent shares *)
Record forked (k ptp ptp' ptc : PageTable) (D : copies) (v p : Z) (page : list Z) (s s' : Mm) : Prop := {
  fd_mm : mm_inv s';
  fd_kernel : pt_inv s' (root_ppn k);
  fd_parent : pt_inv s' (root_ppn ptp') ∧ shares_kernel s' k ptp';
  fd_child : pt_inv s' (root_ppn ptc) ∧ shares_kernel s' k ptc;
  fd_lookup : ∀ w, user_vpn w → pt_lookup s' ptp' w =
    if decide (w = v) then Some (PageTableEntry_new p (leaf_flags RW)) else pt_lookup s ptp w;
  fd_same : ∀ q, q < fa_current (fa s) → ¬ is_unode s ptp q → mem s' q = mem s q;
  fd_copies : ∀ w perm q c, D !! w = Some (perm, q, c) → w ≠ v →
    pt_lookup s' ptc w = Some (PageTableEntry_new q (leaf_flags perm)) ∧ fa_current (fa s) ≤ q < fa_current (fa s') ∧ q ≠ p ∧ mem s' q = c;
  fd_trap : pt_lookup s' ptc v = Some (PageTableEntry_new p (leaf_flags RW)) ∧ fa_current (fa s) ≤ p < fa_current (fa s') ∧ mem s' p = page;
  fd_others : ∀ w, user_vpn w → D !! w = None → pt_lookup s' ptc w = None;
  fd_data : ¬ is_node s' k p ∧ ¬ is_node s' ptp' p ∧ ¬ is_node s' ptc p;
}.

Lemma forked_write k ptp ptp' ptc D v p page new s s1 s2 :
  forked k ptp ptp' ptc D v p page s s1 → page_written p new s1 s2 → length new = 4096%nat → Forall is_byte new →
  forked k ptp ptp' ptc D v p new s s2.
Proof.
  intros [Hmm Hk [Hp Hsp] [Hc Hsc] Hl Hsame Hcop (Ht & Hpr & _) Hoth (N1 & N2 & N3)] W Hlen Hb.
  assert (∀ pt, ¬ is_node s1 pt p → ∀ q, is_node s1 pt q → mem s2 q = mem s1 q) as Hm.
  { intros pt Hn q Hq. apply (pw_same _ _ _ _ W). congruence. }
  pose proof (pw_fa _ _ _ _ W) as Hfa. assert (fa_current (fa s1) ≤ fa_current (fa s2)) as Hcur by (by rewrite Hfa).
  destruct (tree_same s1 s2 k (Hm k N1) Hcur Hk) as (K1 & _ & K3).
  destruct (tree_same s1 s2 ptp' (Hm ptp' N2) Hcur Hp) as (P1 & P2 & P3).
  destruct (tree_same s1 s2 ptc (Hm ptc N3) Hcur Hc) as (C1 & C2 & C3).
  assert (∀ pt, ¬ is_node s1 pt p → shares_kernel s1 k pt → shares_kernel s2 k pt) as Hsh.
  { intros pt Hn [Hh Hpriv]. split.
    - intros i Hi. rewrite !(child_page_ext (mem s1) (mem s2)); [by apply Hh|..];
        [apply (Hm k N1)|apply (Hm pt Hn)]; exists []; (split; [apply good_path_nil|done]).
    - intros q Hq. rewrite K3. apply Hpriv. revert Hq. apply (unode_same s1 s2). intros r (path & Hg & _ & Hr).
      apply (Hm pt Hn). by exists path. }
  split; [|done|by auto|by auto| | | | | |by rewrite K3, P3, C3].
  - by eapply page_written_mm.
  - intros w Hw. rewrite P2. auto.
  - intros q Hq Hn. rewrite (pw_same _ _ _ _ W) by lia. auto.
  - intros w perm q c Hw Hne. rewrite C2, Hfa. destruct (Hcop w perm q c Hw Hne) as (? & ? & ? & ?).
    rewrite (pw_same _ _ _ _ W) by done. done.
  - rewrite C2, Hfa, (pw_new _ _ _ _ W). done.
  - intros w Hw Hn. rewrite C2. auto.
Qed.

Lemma trap_page_mapped k ptp ptc D cid p s0 s :
  fork_inv (root_ppn k) (fa_current (fa s0)) (mem s0) D ptc s → pt_inv s0 (root_ppn k) → pt_inv s0 (root_ppn ptp) →
  shares_kernel s0 k ptp → 0 ≤ cid < max_trap_id → D !! trap_vpn cid = Some (RW, p, zero_page) →
  pt_lookup s0 ptp (trap_vpn cid) = None → 2 ≤ fa_end (fa s) - fa_current (fa s) →
  ∃ pt' s1, map_trap_cx ptp cid p s = Ok (pt', s1) ∧ forked k ptp pt' ptc D (trap_vpn cid) p zero_page s0 s1.
Proof.
  intros I Hk Hp Hs Hcid HD Hnone Hmem. destruct (trap_cx_bottom_eq cid Hcid) as (Hu & Hb & V1 & _).
  destruct (fork_inv_shares _ _ _ _ _ I Hk) as [Hk1 Hsc].
  destruct (fi_done _ _ _ _ _ _ I _ _ _ _ HD) as (Hlp & Hpr & Hpn & Hpz & _).
  assert (∀ pt q, pt_inv s0 (root_ppn pt) → is_node s0 pt q → q < fa_current (fa s0)) as Hb0.
  { intros pt q Hpt (path & Hg & Hn). by eapply pt_inv_bound. }
  assert (∀ pt, pt_inv s0 (root_ppn pt) → pt_inv s (root_ppn pt) ∧ (∀ v, pt_lookup s pt v = pt_lookup s0 pt v) ∧ (∀ q, is_node s pt q ↔ is_node s0 pt q)) as Hsame.
  { intros pt Hpt. apply tree_same; [|apply I|done]. intros q Hq. apply (fi_old _ _ _ _ _ _ I). by eapply Hb0. }
  destruct (Hsame ptp Hp) as (Hp1 & Hl1 & Hn1), (Hsame k Hk) as (_ & _ & Hnk1).
  assert (∀ q, is_unode s ptp q ↔ is_unode s0 ptp q) as Hu1.
  { intros q. apply unode_same. intros r (path & Hg & _ & Hn). apply (fi_old _ _ _ _ _ _ I). by eapply pt_inv_bound. }
  assert (∀ q, is_unode s ptp q → q < fa_current (fa s0)) as Hult.
  { intros q (path & Hg & _ & Hn)%Hu1. by eapply pt_inv_bound. }
  assert (∀ q, fa_current (fa s0) ≤ q → ¬ is_unode s ptp q) as Hnu by (intros q Hq Hn%Hult; lia).
  assert (shares_kernel s k ptp) as Hs1.
  { split; [|intros q Hq%Hu1; rewrite Hnk1; by apply Hs]. intros i Hi.
    rewrite !(child_page_ext (mem s0) (mem s)); [by apply Hs|..]; apply (fi_old _ _ _ _ _ _ I);
      [apply (Hb0 k)|apply (Hb0 ptp)]; try done; exists []; (split; [apply good_path_nil|done]). }
  unfold map_trap_cx. rewrite Hb, V1. run. rewrite PTEFlags_from_bits_some. run.
  change (VirtAddr_floor (trap_vpn cid * 4096)) with (trap_vpn cid * 4096 / 4096). rewrite Z.div_mul by lia.
  pose proof (mm_inv_fa _ (fi_mm _ _ _ _ _ _ I)) as [F1 F2 F3 _ _]. pose proof (fi_cur _ _ _ _ _ _ I) as Hcur0.
  pose proof (PageTable_map_spec ptp s (trap_vpn cid) p RW Hp1 (fi_mm _ _ _ _ _ _ I) ltac:(lia) ltac:(vm_compute; split; congruence)) as H.
  destruct (PageTable_map ptp (trap_vpn cid) p RW s) as [[pt' s1]|f|]; [| |done].
  2: { destruct H as [[_ [e He]]|[_ H]]; [|lia]. by rewrite Hl1, Hnone in He. }
  destruct H as [_ U]. exists pt', s1. split; [done|]. pose proof (pt_update_step _ _ _ _ _ _ U) as St.
  destruct (user_update_shares k ptp pt' _ _ s s1 U Hu Hk1 Hs1) as (Hk2 & Hs2 & Hmk & Hfr).
  destruct (tree_same s s1 k Hmk (as_cur _ _ _ _ St) Hk1) as (_ & _ & Hnk2).
  assert (∀ q, is_node s ptc q → mem s1 q = mem s q) as Hmc.
  { intros q [Hq|Hq]%(node_cases s k ptc); [|by auto|done]. apply Hfr; [|apply Hnu; by apply (fi_own _ _ _ _ _ _ I)].
    destruct Hq as (path & Hg & _ & Hn). eapply pt_inv_bound; [apply I|done|done]. }
  destruct (tree_same s s1 ptc Hmc (as_cur _ _ _ _ St) (fi_pt _ _ _ _ _ _ I)) as (Hc2 & Hlc2 & Hnc2).
  pose proof (as_cur _ _ _ _ St) as Hcur.
  split; [apply St|done|split; [apply St|done]|split; [done|]|..].
  - split; [|intros q Hq; rewrite Hnk2; apply Hsc; revert Hq; apply (unode_same s s1)].
    + intros i Hi. rewrite !(child_page_ext (mem s) (mem s1)); [by apply Hsc|..]; [apply Hmk|apply Hmc];
        exists []; (split; [apply good_path_nil|done]).
    + intros r (path & Hg & _ & Hr). apply Hmc. by exists path.
  - intros w Hw. rewrite (pt_update_canonical _ _ _ _ _ _ _ U) by (by apply user_vpn_canonical). by rewrite Hl1.
  - intros q Hq Hn. rewrite Hfr by (lia || by rewrite Hu1). by apply (fi_old _ _ _ _ _ _ I).
  - intros w perm q c Hw Hne. destruct (fi_done _ _ _ _ _ _ I _ _ _ _ Hw) as (H1 & H2 & _ & H4 & _).
    rewrite Hlc2, Hfr by (lia || apply Hnu; lia). split_and!; try done; try lia.
    intros ->. apply Hne. by eapply (fi_inj _ _ _ _ _ _ I).
  - rewrite Hlc2, Hfr by (lia || apply Hnu; lia). split_and!; try done; lia.
  - intros w Hw Hn. rewrite Hlc2. by apply (fi_undone _ _ _ _ _ _ I).
  - rewrite Hnk2, Hnk1, Hnc2. split_and!; [|intros Hn|done].
    + intros Hn%(Hb0 k); [lia|done].
    + apply (as_nodes _ _ _ _ St) in Hn; [|lia]. apply Hn1, (Hb0 ptp) in Hn; [lia|done].
Qed.

Lemma trap_page_shared k ptp ptc D id cid src p top s0 s :
  fork_inv (root_ppn k) (fa_current (fa s0)) (mem s0) D ptc s → pt_inv s0 (root_ppn k) → pt_inv s0 (root_ppn ptp) →
  shares_kernel s0 k ptp → 0 ≤ id < max_trap_id → 0 ≤ cid < max_trap_id → D !! trap_vpn cid = Some (RW, p, zero_page) →
  pt_lookup s0 ptp (trap_vpn cid) = None → rw_page s0 ptp (trap_vpn id) src → src < fa_current (fa s0) →
  ¬ is_unode s0 ptp src → 2 ≤ fa_end (fa s) - fa_current (fa s) →
  ∃ pt' s1 s2 s3 s4, map_trap_cx ptp cid p s = Ok (pt', s1) ∧
    copy_trap_cx pt' (trap_vpn id * 4096) (trap_vpn cid * 4096) s1 = Ok ((), s2) ∧
    mmu_store pt' (wadd (trap_vpn cid * 4096) (x_offset 10)) (le_bytes 8 0) s2 = Ok ((), s3) ∧
    mmu_store pt' (wadd (trap_vpn cid * 4096) kernel_sp_offset) (le_bytes 8 top) s3 = Ok ((), s4) ∧
    forked k ptp pt' ptc D (trap_vpn cid) p (fork_trap_page (mem s0 src) top) s0 s4.
Proof.
  intros I Hk Hp Hs Hid Hcid HD Hnone (e & He & Hesrc & Hr & Hw) Hlt Hnsrc Hmem.
  destruct (trap_cx_bottom_eq id Hid) as (Hu & _), (trap_cx_bottom_eq cid Hcid) as (Hu' & _).
  destruct (trap_page_mapped k ptp ptc D cid p s0 s) as (pt' & s1 & E1 & F); try done.
  pose proof (fi_cur _ _ _ _ _ _ I). pose proof (mm_inv_fa _ (fd_mm _ _ _ _ _ _ _ _ _ _ F)) as [? ? ? _ _].
  destruct (fd_trap _ _ _ _ _ _ _ _ _ _ F) as (_ & Hpr & Hz).
  assert (rw_page s1 pt' (trap_vpn id) src) as R1.
  { exists e. split_and!; try done. rewrite (fd_lookup _ _ _ _ _ _ _ _ _ _ F) by done.
    rewrite decide_False; [done|]. intros E. by rewrite E, Hnone in He. }
  assert (rw_page s1 pt' (trap_vpn cid) p) as R2.
  { eexists. rewrite (fd_lookup _ _ _ _ _ _ _ _ _ _ F), decide_True by done. split; [reflexivity|].
    rewrite PTE_new_ppn, !PTE_new_testbit by (lia || (vm_compute; split; congruence)). done. }
  destruct (trap_copied pt' id cid src p top s1) as (s2 & s3 & s4 & E2 & E3 & E4 & W); try done; try apply F.
  pose proof (fork_trap_page_wf (mem s1 src) top (mm_inv_len _ (fd_mm _ _ _ _ _ _ _ _ _ _ F) _)
    (mm_inv_byte _ (fd_mm _ _ _ _ _ _ _ _ _ _ F) _)) as [L B].
  rewrite (fd_same _ _ _ _ _ _ _ _ _ _ F) in W, L, B by done.
  exists pt', s1, s2, s3, s4. split_and!; try done. by eapply forked_write.
Qed.

(** ** [fork] *)

Section spawn.
Context {File Dentry : Type}.
Abbreviation Kernel := (@Kernel File Dentry) (only parsing).
Abbreviation TaskControlBlock := (@TaskControlBlock File Dentry) (only parsing).
Implicit Types (k : Kernel) (tcb : TaskControlBlock).

Lemma next_ref_fresh k : k_tasks k !! next_ref k = None.
Proof.
  unfold next_ref. assert (∀ t, is_Some (k_tasks k !! t) → (t ≤ map_fold (λ t _ m, Nat.max t m) 0%nat (k_tasks k))%nat) as H.
  { apply (map_fold_weak_ind (λ r m, ∀ t, is_Some (m !! t) → (t ≤ r)%nat)).
    - intros t [x Hx]. by rewrite lookup_empty in Hx.
    - intros i x m r _ IH t [y [[<- _]|[_ Ht]]%lookup_insert_Some]; [lia|]. specialize (IH t ltac:(by exists y)). lia. }
  destruct (k_tasks k !! S _) eqn:E; [|done]. specialize (H _ (mk_is_Some _ _ E)). lia.
Qed.

Lemma zoom_mm {A} (c : M Mm A) k a m : c (k_mm k) = Ok (a, m) → zoom k_mm c k = Ok (a, k <| k_mm := m |>).
Proof. intros E. unfold zoom. by rewrite E. Qed.

Lemma inner_modify_eq t f k tcb : k_tasks k !! t = Some tcb → inner_modify t f k = Ok ((), set_inner t f k).
Proof. intros E. unfold inner_modify, task_inner. run. rewrite E. by run. Qed.

Lemma kstack_alloc_ok k kid ks space m :
  RecycleAllocator_alloc (k_kstacks k) = Ok (kid, ks) → 0 ≤ kid < kstack_gigabyte →
  MemorySet_insert_framed_area (k_space k) (kernel_stack_position kid).1 (kernel_stack_position kid).2 RW (k_mm k) = Ok (space, m) →
  kstack_alloc k = Ok (kid, k <| k_kstacks := ks |> <| k_mm := m |> <| k_space := space |>).
Proof.
  unfold kstack_gigabyte. intros Ha Hid. unfold kstack_alloc.
  rewrite (bind_Ok _ _ _ kid (k <| k_kstacks := ks |>)) by (unfold zoom; by rewrite Ha).
  rewrite kernel_stack_position_eq by (change kstack_limit with 7394645; lia). cbn [fst snd].
  unfold MEMORY_END, KERNEL_STACK_SIZE. intros E.
  rewrite !VirtAddr_from_usize_eq by (unfold is_usize, W64; lia).
  rewrite !bool_decide_true by (unfold W64; lia). run.
  by erewrite bind_Ok by (apply (zoom_mm _ (k <| k_kstacks := ks |>)); exact E).
Qed.

(** What [fork] relies on: a process whose tables share the kernel half, whose trap context is at the
    page of its identifier, and whose child has identifiers, a kernel stack and a trap page that are
    not in use *)
Record fork_ready (k : Kernel) (self : nat) (tcb : TaskControlBlock) (src cid kid : Z) (pids kstacks : RecycleAllocator) : Prop := {
  fr_task : k_tasks k !! self = Some tcb;
  fr_pid : tid tcb = pid tcb ∧ 0 ≤ pid tcb < max_trap_id;
  fr_cid : RecycleAllocator_alloc (k_pids k) = Ok (cid, pids) ∧ 0 ≤ cid < max_trap_id;
  fr_kid : RecycleAllocator_alloc (k_kstacks k) = Ok (kid, kstacks) ∧ 0 ≤ kid < kstack_gigabyte;
  fr_mm : mm_inv (k_mm k);
  fr_kernel : pt_inv (k_mm k) (root_ppn (page_table (k_space k)));
  fr_shares : shares_kernel (k_mm k) (page_table (k_space k)) (page_table (memory_set (inner tcb)));
  fr_forkable : forkable (k_mm k) (memory_set (inner tcb));
  fr_image : is_Some (child (mem (k_mm k)) (root_ppn (page_table (k_space k))) 258);
  fr_stack : ∀ v, v ∈ kstack_pages kid → pt_lookup (k_mm k) (page_table (k_space k)) v = None;
  fr_plan : ∀ v q perm, (v, q, perm) ∈ fork_plan (k_mm k) (memory_set (inner tcb)) → ¬ is_node (k_mm k) (page_table (k_space k)) q;
  fr_trap : rw_page (k_mm k) (page_table (memory_set (inner tcb))) (trap_vpn (pid tcb)) src;
  fr_frame : src < fa_current (fa (k_mm k)) ∧ ¬ is_node (k_mm k) (page_table (k_space k)) src ∧
    ¬ is_unode (k_mm k) (page_table (memory_set (inner tcb))) src;
  fr_free : pt_lookup (k_mm k) (page_table (memory_set (inner tcb))) (trap_vpn cid) = None ∧
    trap_vpn cid ∉ (fork_plan (k_mm k) (memory_set (inner tcb))).*1.*1;
  fr_memory : 30 + 3 * Z.of_nat (length (fork_plan (k_mm k) (memory_set (inner tcb)))) ≤ fa_end (fa (k_mm k)) - fa_current (fa (k_mm k));
}.

(** The memory side of [fork], from the allocation of the kernel stack to the last store *)
Lemma fork_memory k self tcb src cid kid pids kstacks :
  fork_ready k self tcb src cid kid pids kstacks →
  let parent := memory_set (inner tcb) in
  ∃ space s1 ms0 s2 ms s3 D p pt' s4 s5 s6 s7,
    MemorySet_insert_framed_area (k_space k) (kernel_stack_position kid).1 (kernel_stack_position kid).2 RW (k_mm k) = Ok (space, s1) ∧
    MemorySet_from_existed_user (root_ppn (page_table space)) parent s1 = Ok (ms0, s2) ∧ alloc_trap_cx ms0 cid s2 = Ok (ms, s3) ∧
    trap_cx_frame ms cid s3 = Ok (p, s3) ∧ map_trap_cx (page_table parent) cid p s3 = Ok (pt', s4) ∧
    copy_trap_cx pt' (trap_vpn (pid tcb) * 4096) (trap_vpn cid * 4096) s4 = Ok ((), s5) ∧
    mmu_store pt' (wadd (trap_vpn cid * 4096) (x_offset 10)) (le_bytes 8 0) s5 = Ok ((), s6) ∧
    mmu_store pt' (wadd (trap_vpn cid * 4096) kernel_sp_offset) (le_bytes 8 (KernelStack_get_top kid)) s6 = Ok ((), s7) ∧
    kernel_step (page_table (k_space k)) (page_table space) (page_table parent) (k_mm k) s1 ∧
    copied_plan s1 (fork_plan s1 parent) ∅ (delete (trap_vpn cid) D) ∧ D !! trap_vpn cid = Some (RW, p, zero_page) ∧
    forked (page_table space) (page_table parent) pt' (page_table ms) D (trap_vpn cid) p
      (fork_trap_page (mem (k_mm k) src) (KernelStack_get_top kid)) s1 s7.
Proof.
  intros R parent. destruct (fr_cid _ _ _ _ _ _ _ _ R) as [_ Hcid]. destruct (fr_kid _ _ _ _ _ _ _ _ R) as [_ Hkid].
  destruct (fr_pid _ _ _ _ _ _ _ _ R) as [_ Hpid]. destruct (fr_frame _ _ _ _ _ _ _ _ R) as (Hlt & Hnk & Hnu).
  destruct (fr_free _ _ _ _ _ _ _ _ R) as [Hfree Hnot]. pose proof (fr_memory _ _ _ _ _ _ _ _ R) as Hmem.
  pose proof (fr_forkable _ _ _ _ _ _ _ _ R) as Hf. fold parent in Hnu, Hfree, Hnot, Hmem, Hf.
  destruct (insert_kstack (k_space k) kid (page_table parent) (k_mm k)) as (space & s1 & E1 & K & Hc1);
    try apply R; [lia|].
  pose proof (ks_step _ _ _ _ _ K) as St. destruct (forkable_kernel_step _ _ _ _ _ K Hf) as [Hf1 Hplan].
  pose proof (as_end _ _ _ _ St) as He1. pose proof (as_cur _ _ _ _ St) as Hcur1.
  destruct (trap_cx_bottom_eq cid Hcid) as (Hu & _). destruct (trap_cx_bottom_eq (pid tcb) Hpid) as (Hu0 & _).
  assert (∀ v, user_vpn v → pt_lookup s1 (page_table parent) v = pt_lookup (k_mm k) (page_table parent) v) as Hl1.
  { intros v Hv. apply user_lookup_same; [apply K|done]. }
  destruct (child_space_ok (root_ppn (page_table space)) parent cid s1) as (ms0 & s2 & ms & s3 & D & p & E2 & E3 & E4 & I & Hcp & HD & He3 & Hc3);
    [apply St|apply St|done|done|by rewrite Hplan|rewrite Hplan; lia|].
  rewrite Hplan in Hc3.
  destruct (trap_page_shared (page_table space) (page_table parent) (page_table ms) D (pid tcb) cid src p (KernelStack_get_top kid) s1 s3)
    as (pt' & s4 & s5 & s6 & s7 & E5 & E6 & E7 & E8 & F); try done; try apply K; try apply St.
  - by rewrite Hl1.
  - apply (rw_page_same (k_mm k)); [by apply Hl1|apply R].
  - lia.
  - by rewrite (unode_same (k_mm k)) by apply K.
  - lia.
  - rewrite (as_frame _ _ _ _ St) in F by done.
    exists space, s1, ms0, s2, ms, s3, D, p, pt', s4, s5, s6, s7. by split_and!.
Qed.

Lemma fork_runs ep k self tcb src cid kid pids kstacks space s1 ms0 s2 ms s3 p pt' s4 s5 s6 s7 :
  fork_ready k self tcb src cid kid pids kstacks →
  let parent := memory_set (inner tcb) in
  MemorySet_insert_framed_area (k_space k) (kernel_stack_position kid).1 (kernel_stack_position kid).2 RW (k_mm k) = Ok (space, s1) →
  MemorySet_from_existed_user (root_ppn (page_table space)) parent s1 = Ok (ms0, s2) → alloc_trap_cx ms0 cid s2 = Ok (ms, s3) →
  trap_cx_frame ms cid s3 = Ok (p, s3) → map_trap_cx (page_table parent) cid p s3 = Ok (pt', s4) →
  copy_trap_cx pt' (trap_vpn (pid tcb) * 4096) (trap_vpn cid * 4096) s4 = Ok ((), s5) →
  mmu_store pt' (wadd (trap_vpn cid * 4096) (x_offset 10)) (le_bytes 8 0) s5 = Ok ((), s6) →
  mmu_store pt' (wadd (trap_vpn cid * 4096) kernel_sp_offset) (le_bytes 8 (KernelStack_get_top kid)) s6 = Ok ((), s7) →
  ∃ k' child, TaskControlBlock_fork ep self k = Ok (cid, k') ∧ k_tasks k !! child = None ∧ k_mm k' = s7 ∧ k_space k' = space ∧
    k_pids k' = pids ∧ k_kstacks k' = kstacks ∧ k_manager k' = TaskManager_add child (k_manager k) ∧
    k_pid2pcb k' = <[cid := child]> (k_pid2pcb k) ∧
    k_tasks k' !! child = Some (fork_child ep self (inner tcb) kid cid ms src) ∧
    k_tasks k' !! self = Some (tcb <| inner ::= λ i, i <| memory_set ::= λ ms, ms_with_pt ms pt' |> <| children ::= λ l, l ++ [child] |> |>) ∧
    (∀ t, t ≠ self → t ≠ child → k_tasks k' !! t = k_tasks k !! t).
Proof.
  intros R parent E1 E2 E3 E4 E5 E6 E7 E8. destruct (fr_cid _ _ _ _ _ _ _ _ R) as [Ha Hcid].
  destruct (fr_kid _ _ _ _ _ _ _ _ R) as [Hka Hkid]. destruct (fr_pid _ _ _ _ _ _ _ _ R) as [Htid Hpid].
  destruct (trap_cx_bottom_eq cid Hcid) as (_ & B1 & V1 & _). destruct (trap_cx_bottom_eq (pid tcb) Hpid) as (_ & B2 & V2 & _ & V3).
  pose proof (fr_task _ _ _ _ _ _ _ _ R) as Ht. destruct (fr_trap _ _ _ _ _ _ _ _ R) as (e & He & Hsrc & _).
  unfold TaskControlBlock_fork. set (k1 := k <| k_pids := pids |>).
  rewrite (bind_Ok _ _ _ cid k1) by (unfold pid_alloc, zoom; by rewrite Ha).
  assert (task_trap_cx_ppn self k1 = Ok (src, k1)) as T1.
  { unfold task_trap_cx_ppn, task_block. run. cbn. rewrite Ht. run. rewrite Htid, B2, V2. run. rewrite V3. run.
    erewrite bind_Ok by (apply (zoom_mm _ k1); unfold MemorySet_translate; apply translate_mapped; exact He). run. by rewrite Hsrc. }
  rewrite (bind_Ok _ _ _ _ _ T1). assert (task_block self k1 = Ok (tcb, k1)) as T2 by (unfold task_block; run; cbn; by rewrite Ht).
  rewrite (bind_Ok _ _ _ _ _ T2). cbv zeta. rewrite (bind_Ok _ _ _ _ _ (kstack_alloc_ok k1 kid kstacks space s1 Hka Hkid E1)).
  set (k2 := _ <| k_space := space |>). run. change (k_space k2) with space.
  rewrite (bind_Ok _ _ _ _ _ (zoom_mm _ k2 _ _ E2)). set (k3 := k2 <| k_mm := s2 |>).
  rewrite (bind_Ok _ _ _ _ _ (zoom_mm _ k3 _ _ E3)). set (k4 := k3 <| k_mm := s3 |>).
  rewrite (bind_Ok _ _ _ _ _ (zoom_mm _ k4 _ _ E4)). set (k5 := k4 <| k_mm := s3 |>).
  rewrite (bind_Ok _ _ _ _ _ (zoom_mm _ k5 _ _ E5)). set (k6 := k5 <| k_mm := s4 |>).
  assert (k_tasks k6 !! self = Some tcb) as Ht6 by done.
  rewrite (bind_Ok _ _ _ _ _ (inner_modify_eq self _ k6 tcb Ht6)). set (k7 := set_inner self _ k6).
  pose proof (next_ref_fresh k7) as Hfresh. set (child := next_ref k7) in *.
  assert (k_tasks k !! child = None) as Hnone.
  { change (k_tasks k7) with (alter (λ tcb, tcb <| inner ::= λ i, i <| memory_set ::= λ ms, ms_with_pt ms pt' |> |>) self (k_tasks k)) in Hfresh.
    by rewrite lookup_alter_None in Hfresh. }
  assert (self ≠ child) as Hne by congruence.
  rewrite (bind_Ok _ _ _ child (k7 <| k_tasks ::= <[child := fork_child ep self (inner tcb) kid cid ms src]> |>)) by done.
  set (k8 := k7 <| k_tasks ::= _ |>).
  set (tcb7 := tcb <| inner ::= λ i, i <| memory_set ::= λ ms, ms_with_pt ms pt' |> |>).
  assert (k_tasks k8 !! self = Some tcb7) as Ht8.
  { cbn. rewrite lookup_insert_ne by done. by rewrite lookup_alter_eq, Ht. }
  rewrite (bind_Ok _ _ _ _ _ (inner_modify_eq self _ k8 tcb7 Ht8)). set (k9 := set_inner self _ k8).
  unfold trap_cx_user_va. rewrite B2, V2. run. rewrite B1, V1. run.
  rewrite (bind_Ok _ _ _ _ _ (zoom_mm _ k9 _ _ E6)). set (k10 := _ <| k_mm := s5 |>).
  rewrite (bind_Ok _ _ _ _ _ (zoom_mm _ k10 _ _ E7)). set (k11 := _ <| k_mm := s6 |>).
  rewrite (bind_Ok _ _ _ _ _ (zoom_mm _ k11 _ _ E8)).
  unfold insert_into_pid2process, add_task. run. eexists _, child. split; [reflexivity|]. cbn.
  split_and!; try done.
  - rewrite lookup_alter_ne by done. by rewrite lookup_insert_eq.
  - rewrite lookup_alter_eq. rewrite lookup_insert_ne by done. rewrite lookup_alter_eq, Ht. done.
  - intros t H1 H2. by rewrite lookup_alter_ne, lookup_insert_ne, lookup_alter_ne by done.
Qed.

Lemma plan_source s ms v q perm : forkable s ms → (v, q, perm) ∈ fork_plan s ms → q < fa_current (fa s).
Proof.
  intros [_ Ha Hh Hm _] [(a & Hin & H)%list_elem_of_bind|[H|H]%elem_of_app]%elem_of_app.
  - rewrite Forall_forall in Ha. destruct (Ha a H) as (_ & _ & _ & _ & _ & Hsrc).
    apply list_elem_of_fmap in Hin as (w & [= -> -> ->] & Hw). by apply Hsrc.
  - apply list_elem_of_fmap in H as ([w r] & [= -> -> ->] & Hw%elem_of_btree_iter). by apply (Hh w).
  - apply list_elem_of_fmap in H as ([w r] & [= -> -> ->] & Hw%elem_of_btree_iter). by apply (Hm w).
Qed.

(** C8: [fork] on a process that is ready for it returns the identifier of the child.  The child's
    control block is new, is the one the code fills in, is appended to the parent's children and to
    the ready queue and is found under its identifier; no other block changes.  In the child's
    address space every page of the parent's plan is a fresh frame with the bytes and permissions of
    the parent's, its trap page holds the parent's trap context with result 0 and the top of its own
    kernel stack, and no other user page is mapped.  The parent keeps its translations, with the
    child's trap page added; frames that are neither its tables nor the kernel's keep their bytes;
    and the tables of parent and child again share the kernel's half. *)
Theorem fork_creates_process (ep : EntryPoints) (k : Kernel) (self : nat) (tcb : TaskControlBlock)
    (src cid kid : Z) (pids kstacks : RecycleAllocator) :
  fork_ready k self tcb src cid kid pids kstacks →
  let parent := memory_set (inner tcb) in
  ∃ k' child ms pt' p, TaskControlBlock_fork ep self k = Ok (cid, k') ∧
    k_tasks k !! child = None ∧
    k_tasks k' !! child = Some (fork_child ep self (inner tcb) kid cid ms src) ∧
    k_tasks k' !! self = Some (tcb <| inner ::= λ i, i <| memory_set ::= λ ms, ms_with_pt ms pt' |> <| children ::= λ l, l ++ [child] |> |>) ∧
    (∀ t, t ≠ self → t ≠ child → k_tasks k' !! t = k_tasks k !! t) ∧
    k_manager k' = TaskManager_add child (k_manager k) ∧ k_pid2pcb k' = <[cid := child]> (k_pid2pcb k) ∧
    (∀ v q perm, (v, q, perm) ∈ fork_plan (k_mm k) parent →
       ∃ r, pt_lookup (k_mm k') (page_table ms) v = Some (PageTableEntry_new r (leaf_flags perm)) ∧
         fa_current (fa (k_mm k)) ≤ r ∧ get_bytes_array (k_mm k') r = get_bytes_array (k_mm k) q) ∧
    pt_lookup (k_mm k') (page_table ms) (trap_vpn cid) = Some (PageTableEntry_new p (leaf_flags RW)) ∧
    fa_current (fa (k_mm k)) ≤ p ∧
    get_bytes_array (k_mm k') p = fork_trap_page (get_bytes_array (k_mm k) src) (KernelStack_get_top kid) ∧
    (∀ v, user_vpn v → v ≠ trap_vpn cid → v ∉ (fork_plan (k_mm k) parent).*1.*1 → pt_lookup (k_mm k') (page_table ms) v = None) ∧
    (∀ v, user_vpn v → pt_lookup (k_mm k') pt' v =
       if decide (v = trap_vpn cid) then Some (PageTableEntry_new p (leaf_flags RW)) else pt_lookup (k_mm k) (page_table parent) v) ∧
    (∀ q, q < fa_current (fa (k_mm k)) → ¬ is_unode (k_mm k) (page_table parent) q →
       ¬ is_node (k_mm k) (page_table (k_space k)) q → get_bytes_array (k_mm k') q = get_bytes_array (k_mm k) q) ∧
    mm_inv (k_mm k') ∧ pt_inv (k_mm k') (root_ppn (page_table (k_space k'))) ∧
    shares_kernel (k_mm k') (page_table (k_space k')) pt' ∧ shares_kernel (k_mm k') (page_table (k_space k')) (page_table ms).
Proof.
  intros R parent.
  destruct (fork_memory _ _ _ _ _ _ _ _ R) as (space & s1 & ms0 & s2 & ms & s3 & D & p & pt' & s4 & s5 & s6 & s7 &
    E1 & E2 & E3 & E4 & E5 & E6 & E7 & E8 & K & [Hin Hout] & HD & F).
  destruct (fork_runs ep _ _ _ _ _ _ _ _ _ _ _ _ _ _ _ _ _ _ _ _ R E1 E2 E3 E4 E5 E6 E7 E8)
    as (k' & child & Hrun & Hnone & Hmm & Hsp & _ & _ & Hman & Hpid & Hch & Hself & Hoth).
  pose proof (fr_forkable _ _ _ _ _ _ _ _ R) as Hf. destruct (forkable_kernel_step _ _ _ _ _ K Hf) as [Hf1 Hplan].
  pose proof (ks_step _ _ _ _ _ K) as St. pose proof (as_cur _ _ _ _ St) as Hcur. fold parent in K, F, Hin, Hout, Hplan, Hf.
  rewrite Hplan in Hin, Hout. destruct (fd_trap _ _ _ _ _ _ _ _ _ _ F) as (Ht1 & Ht2 & Ht3).
  exists k', child, ms, pt', p. rewrite Hmm, Hsp. unfold get_bytes_array. split_and!; try done; try apply F; try lia.
  - intros v q perm Hv. destruct (Hin v q perm Hv) as [r Hr]. apply lookup_delete_Some in Hr as [Hne Hr].
    destruct (fd_copies _ _ _ _ _ _ _ _ _ _ F v perm r _ Hr) as (C1 & C2 & _ & C4); [done|]. exists r.
    split_and!; [done|lia|]. rewrite C4. apply (as_frame _ _ _ _ St).
    + by eapply plan_source.
    + by eapply (fr_plan _ _ _ _ _ _ _ _ R).
  - intros v Hv Hne Hnot. apply (fd_others _ _ _ _ _ _ _ _ _ _ F); [done|]. specialize (Hout v Hnot).
    by rewrite lookup_delete_ne, lookup_empty in Hout by done.
  - intros v Hv. rewrite (fd_lookup _ _ _ _ _ _ _ _ _ _ F) by done. destruct (decide _); [done|].
    apply user_lookup_same; [apply K|done].
  - intros q Hq Hu Hn. rewrite (fd_same _ _ _ _ _ _ _ _ _ _ F); [by apply (as_frame _ _ _ _ St)|lia|].
    by rewrite (unode_same (k_mm k)) by apply K.
Qed.
End spawn.

(** ** A process that is ready to fork *)

Definition image_vpn : Z := 0xffffffc080200.

(** A kernel with one page of its image *)
Lemma demo_image : ∃ ptk s, PageTable_map demo_pt0 image_vpn 0x80200 0xe (mm_bump demo_mm) = Ok (ptk, s) ∧
  mm_inv s ∧ pt_inv s (root_ppn ptk) ∧ is_Some (child (mem s) (root_ppn ptk) 258) ∧
  (∀ v, v ∈ kstack_pages 1 → pt_lookup s ptk v = None) ∧ fa_current (fa s) ≤ 0x80303 ∧ fa_end (fa s) = 0x80340.
Proof.
  destruct demo_pt0_inv as [Hm Hp].
  pose proof (PageTable_map_spec demo_pt0 (mm_bump demo_mm) image_vpn 0x80200 0xe Hp Hm ltac:(lia) ltac:(lia)) as H.
  destruct (PageTable_map demo_pt0 image_vpn 0x80200 0xe (mm_bump demo_mm)) as [[ptk s]|f|] eqn:E.
  - destruct H as [_ U]. exists ptk, s. pose proof (upd_cur _ _ _ _ _ _ U) as Hc. pose proof (upd_fa _ _ _ _ _ _ U) as Hfa.
    change (fa_current (fa (mm_bump demo_mm))) with 0x80301 in Hc. split_and!; [done|apply U|apply U| | |lia|by rewrite Hfa].
    + pose proof (upd_lookup _ _ _ _ _ _ U image_vpn) as Hl. rewrite decide_True in Hl by done.
      apply pt_lookup_node in Hl as (q & Hq & _). change (idx0 image_vpn) with 258 in Hq. cbn in Hq.
      destruct (child (mem s) (root_ppn ptk) 258); [by eexists|done].
    + intros v Hv%elem_of_seqZ. rewrite (upd_lookup _ _ _ _ _ _ U). rewrite decide_False.
      * unfold pt_lookup. by rewrite walk_zero by (reflexivity || auto with chaos).
      * unfold kstack_vpn, image_vpn in *. change (2 ^ 27) with 134217728. Z.to_euclidean_division_equations. lia.
  - exfalso. destruct H as [[_ [e He]]|[_ H]]; [|vm_compute in H; discriminate H].
    unfold pt_lookup in He. rewrite walk_zero in He by (reflexivity || auto with chaos). discriminate He.
  - destruct H.
Qed.

Definition empty_space (pt : PageTable) (l : list MapArea) : MemorySet :=
  {| page_table := pt; areas := l; heap_area := ∅; mmap_area := ∅; mmap_base := MMAP_BASE; mmap_end := MMAP_BASE |}.

Definition trap_area (id p : Z) : MapArea :=
  {| vpn_range := {| range_l := trap_vpn id; range_r := trap_vpn id + 1 |}; data_frames := {[ trap_vpn id := p ]};
     map_type := Framed; map_perm := RW |}.

(** ... and a process whose only page is its trap context *)
Lemma demo_process : ∃ ptk pt s p, mm_inv s ∧ pt_inv s (root_ppn ptk) ∧ shares_kernel s ptk pt ∧
  is_Some (child (mem s) (root_ppn ptk) 258) ∧ (∀ v, v ∈ kstack_pages 1 → pt_lookup s ptk v = None) ∧
  forkable s (empty_space pt [trap_area 5 p]) ∧ fork_plan s (empty_space pt [trap_area 5 p]) = [(trap_vpn 5, p, RW)] ∧
  rw_page s pt (trap_vpn 5) p ∧ p < fa_current (fa s) ∧ ¬ is_node s ptk p ∧ ¬ is_unode s pt p ∧
  pt_lookup s pt (trap_vpn 6) = None ∧ 33 ≤ fa_end (fa s) - fa_current (fa s) ∧ 0 ≤ root_ppn pt.
Proof.
  destruct demo_image as (ptk & s0 & _ & Hm & Hk & [c Hc] & Hst & Hcur & Hend).
  destruct (child_space_ok (root_ppn ptk) (empty_space ptk []) 5 s0) as (ms0 & s1 & ms & s & D & p & _ & _ & _ & I & [_ Hout] & HD & He & Hcu);
    [done|done|..].
  { split; try done. apply NoDup_nil_2. }
  { unfold max_trap_id. lia. }
  { apply not_elem_of_nil. }
  { change (fork_plan s0 (empty_space ptk [])) with (@nil (Z * Z * Z)). cbn. lia. }
  change (fork_plan s0 (empty_space ptk [])) with (@nil (Z * Z * Z)) in *. cbn in Hcu.
  destruct (fork_inv_shares ptk D _ s0 s I Hk) as [Hk1 Hs].
  destruct (fi_done _ _ _ _ _ _ I _ _ _ _ HD) as (Hl & Hpr & Hpn & _ & Hu & _).
  destruct (tree_same s0 s ptk) as (_ & Hlk & Hnk); [|apply I|done|].
  { intros q (path & Hg & Hn). apply (fi_old _ _ _ _ _ _ I). by eapply pt_inv_bound. }
  pose proof (mm_inv_fa _ (fi_mm _ _ _ _ _ _ I)) as [F1 F2 F3 _ _]. pose proof (fi_cur _ _ _ _ _ _ I) as Hcur0.
  set (pt := page_table ms) in *.
  assert (pte_ppn (PageTableEntry_new p (leaf_flags RW)) = p) as Hppn by (apply PTE_new_ppn; [lia|vm_compute; split; congruence]).
  assert (range_pages (vpn_range (trap_area 5 p)) = [trap_vpn 5]) as Hrange by (vm_compute; reflexivity).
  assert (fork_plan s (empty_space pt [trap_area 5 p]) = [(trap_vpn 5, p, RW)]) as Hplan.
  { unfold fork_plan. cbn [areas heap_area mmap_area empty_space mbind list_bind]. unfold area_plan. rewrite Hrange.
    cbn. unfold src_frame. rewrite Hl, Hppn. reflexivity. }
  exists ptk, pt, s, p. split_and!.
  - apply I.
  - done.
  - done.
  - exists c. rewrite <-Hc. apply child_page_ext, (fi_old _ _ _ _ _ _ I). by apply (pt_inv_bound _ _ Hk [] _ good_path_nil).
  - intros v Hv. rewrite Hlk. auto.
  - split; [apply I| |intros v q Hv; change ((∅ : gmap Z Z) !! v = Some q) in Hv; by rewrite lookup_empty in Hv..|].
    + apply Forall_singleton. unfold area_ok. rewrite Hrange. cbn [map_type map_perm vpn_range range_l range_r trap_area page_table empty_space].
      unfold user_vpn in Hu. split_and!; [done|by vm_compute|by vm_compute|lia|lia|lia|].
      intros v ->%list_elem_of_singleton. unfold src_frame. rewrite Hl, Hppn. split; [by eexists|lia].
    + rewrite Hplan. apply NoDup_singleton.
  - done.
  - eexists. split; [exact Hl|]. rewrite !PTE_new_testbit by (lia || (vm_compute; split; congruence)). done.
  - lia.
  - intros (path & Hg & Hn)%Hnk. pose proof (pt_inv_bound _ _ Hk _ _ Hg Hn). lia.
  - intros (path & Hg & _ & Hn). apply Hpn. by exists path.
  - apply (fi_undone _ _ _ _ _ _ I); [unfold user_vpn; vm_compute; split; congruence|].
    specialize (Hout (trap_vpn 6) (not_elem_of_nil _)). by rewrite lookup_delete_ne, lookup_empty in Hout by done.
  - lia.
  - enough (fa_current (fa s0) ≤ root_ppn pt) by lia. apply (fi_own _ _ _ _ _ _ I). exists []. split; [apply good_path_nil|done].
Qed.

Definition demo_ep : EntryPoints := {| at_trap_handler := 0; at_trap_return := 0; at_initproc_entry := 0; at_user_entry := 0xffffffc080201000 |}.
Definition forking_task (ms : MemorySet) : @TaskControlBlock unit unit :=
  (demo_task 5 None []) <| inner ::= λ i, i <| memory_set := ms |> |>.
Definition forking_kernel (s : Mm) (space ms : MemorySet) : @Kernel unit unit :=
  demo_kernel <| k_mm := s |> <| k_space := space |> <| k_tasks := {[ 1%nat := forking_task ms ]} |>
    <| k_pids := {| ra_current := 6; ra_recycled := [] |} |> <| k_kstacks := {| ra_current := 1; ra_recycled := [] |} |>.

Lemma fork_creates_process_witness :
  ∃ (k k' : @Kernel unit unit) child tcb p, TaskControlBlock_fork demo_ep 1 k = Ok (6, k') ∧ k_tasks k' !! child = Some tcb ∧ pid tcb = 6 ∧
    parent (inner tcb) = Some 1%nat ∧ k_pid2pcb k' !! 6 = Some child ∧
    pt_lookup (k_mm k') (page_table (memory_set (inner tcb))) (trap_vpn 6) = Some (PageTableEntry_new p 0xc7).
Proof.
  destruct demo_process as (ptk & pt & s & p & Hm & Hk & Hs & Hc & Hst & Hf & Hplan & Hrw & Hp & Hn & Hnu & Hfree & Hmem & _).
  set (k := forking_kernel s (empty_space ptk []) (empty_space pt [trap_area 5 p])).
  assert (fork_ready k 1 (forking_task (empty_space pt [trap_area 5 p])) p 6 1
    {| ra_current := 7; ra_recycled := [] |} {| ra_current := 2; ra_recycled := [] |}) as R.
  { split.
    - reflexivity.
    - split; [reflexivity|]. cbn. unfold max_trap_id. lia.
    - split; [reflexivity|]. unfold max_trap_id. lia.
    - split; [reflexivity|]. unfold kstack_gigabyte. lia.
    - exact Hm.
    - exact Hk.
    - exact Hs.
    - exact Hf.
    - exact Hc.
    - exact Hst.
    - intros v q perm. change (memory_set _) with (empty_space pt [trap_area 5 p]). change (k_mm k) with s. rewrite Hplan.
      intros [= -> -> ->]%list_elem_of_singleton. exact Hn.
    - exact Hrw.
    - split_and!; assumption.
    - split; [exact Hfree|]. change (memory_set _) with (empty_space pt [trap_area 5 p]). change (k_mm k) with s. rewrite Hplan.
      intros H%list_elem_of_singleton. discriminate H.
    - change (memory_set _) with (empty_space pt [trap_area 5 p]). change (k_mm k) with s. rewrite Hplan. cbn [length]. lia. }
  destruct (fork_creates_process demo_ep k 1 _ p 6 1 _ _ R) as (k' & child & ms & pt' & r & E & _ & Hch & _ & _ & _ & Hpid & _ & Ht & _).
  exists k, k', child, (fork_child demo_ep 1 (inner (forking_task (empty_space pt [trap_area 5 p]))) 1 6 ms p), r.
  split; [exact E|]. split; [exact Hch|]. split; [reflexivity|]. split; [reflexivity|].
  split; [rewrite Hpid; apply lookup_insert_eq|]. exact Ht.
Defined.

(** ** Threads *)

(** The address of a trap context is not a page number. *)
Lemma trap_cx_not_vpn id : 0 ≤ id < 0x3ff0000 → VirtPageNum_from_usize (trap_cx_bottom_from_tid id) = Panic Assert.
Proof.
  intros Hid. destruct (trap_cx_bottom_eq id) as (_ & -> & _); [unfold max_trap_id; lia|].
  unfold trap_vpn. rewrite VirtPageNum_from_usize_eq by lia.
  rewrite decide_False; [done|]. unfold canonical_vpn. lia.
Qed.

(** [clone2] never creates a thread: without a stack of its own the new thread's stack is looked up
    while the control block is borrowed, and with one the page of its trap context is looked up with
    the address in the place of the page number, which the conversion rejects. *)
Theorem clone_thread_panics {File Dentry : Type} (ep : EntryPoints) (k : @Kernel File Dentry) (self : nat)
    (tcb : TaskControlBlock) (stdin stdout : File) (stack_ptr tls cid : Z) (pids : RecycleAllocator) :
  k_tasks k !! self = Some tcb → RecycleAllocator_alloc (k_pids k) = Ok (cid, pids) → 0 ≤ cid < 0x3ff0000 →
  (stack_ptr = 0 → TaskControlBlock_clone2 ep self stdin stdout stack_ptr tls k = Panic Borrowed) ∧
  ∀ r, TaskControlBlock_clone2 ep self stdin stdout stack_ptr tls k ≠ Ok r.
Proof.
  intros Ht Ha Hcid. unfold TaskControlBlock_clone2. set (k1 := k <| k_pids := pids |>).
  rewrite (bind_Ok _ _ _ cid k1) by (unfold pid_alloc, zoom; by rewrite Ha).
  rewrite (bind_Ok _ _ _ tcb k1) by (unfold task_block; run; cbn; by rewrite Ht). cbv zeta.
  destruct (Z.eqb_spec stack_ptr 0) as [->|Hne]; cbn [negb]; [by split|]. run.
  split; [done|]. intros [t k'] (kid & k2 & _ & H)%bind_Ok_inv.
  rewrite trap_cx_not_vpn in H by done. discriminate H.
Qed.

Lemma clone_thread_panics_witness :
  TaskControlBlock_clone2 demo_ep 0 () () 0 0 demo_kernel = Panic Borrowed ∧
  TaskControlBlock_clone2 demo_ep 0 () () 0x10000 0 demo_kernel ≠ Ok (0%nat, demo_kernel).
Proof.
  pose proof (clone_thread_panics demo_ep demo_kernel 0) as H. split.
  - eapply H; [reflexivity|vm_compute; reflexivity|lia|reflexivity].
  - eapply H; [reflexivity|vm_compute; reflexivity|lia].
Defined.
