(* ===== verification/ProcSpec.v ===== *)
(** * Theorems on processes: exit and wait

    What [wait4] sees of a task survives task switches, and an exit leaves behind exactly what the
    parent's [wait4] looks for. *)

From Stdlib Require Import ZArith Lia.
From stdpp Require Import functions prelude gmap.
From S2P Require Import Prelude Config Address FrameAllocator PageTable MemorySet Time Task Syscall SchedSpec.

Open Scope Z_scope.

Section proc.
Context {File Dentry : Type}.
Abbreviation Kernel := (@Kernel File Dentry) (only parsing).
Implicit Types (k : Kernel) (t c p : nat).

(** What [wait4] looks at: the identifier, the zombie mark and the exit code of a task, and the
    children of a task *)
Definition state_of k t : option (Z * bool * option Z) :=
  (λ tcb, (pid tcb, is_zombie (inner tcb), exit_code (inner tcb))) <$> k_tasks k !! t.
Definition kids k t : option (list nat) := (λ tcb, children (inner tcb)) <$> k_tasks k !! t.

(** [k'] agrees with [k] on these, up to the children of [initproc], which gained [l] *)
Definition same_procs k k' (l : list nat) : Prop :=
  k_initproc k' = k_initproc k ∧ (∀ t, state_of k' t = state_of k t) ∧
  ∀ t, kids k' t = (λ ch, if decide (t = k_initproc k) then ch ++ l else ch) <$> kids k t.

Lemma same_procs_refl k : same_procs k k [].
Proof. split_and!; [done|done|]. intros t. destruct (kids k t); [|done]. cbn. case_decide; [by rewrite app_nil_r|done]. Qed.

Lemma same_procs_trans k1 k2 k3 l1 l2 :
  same_procs k1 k2 l1 → same_procs k2 k3 l2 → same_procs k1 k3 (l1 ++ l2).
Proof.
  intros (H1 & H2 & H3) (H4 & H5 & H6). split_and!; [congruence| |].
  - intros t. by rewrite H5.
  - intros t. rewrite H6, H3, H1. destruct (kids k1 t); [|done]. cbn. case_decide; [by rewrite app_assoc|done].
Qed.

Lemma set_inner_state k t f u :
  state_of (set_inner t f k) u
  = if decide (u = t) then (λ tcb, (pid tcb, is_zombie (f (inner tcb)), exit_code (f (inner tcb)))) <$> k_tasks k !! t
    else state_of k u.
Proof.
  unfold state_of, set_inner. cbn. destruct (decide (u = t)) as [->|].
  - rewrite lookup_alter_eq. by destruct (k_tasks k !! t).
  - by rewrite lookup_alter_ne by done.
Qed.

Lemma set_inner_kids k t f u :
  kids (set_inner t f k) u
  = if decide (u = t) then (λ tcb, children (f (inner tcb))) <$> k_tasks k !! t else kids k u.
Proof.
  unfold kids, set_inner. cbn. destruct (decide (u = t)) as [->|].
  - rewrite lookup_alter_eq. by destruct (k_tasks k !! t).
  - by rewrite lookup_alter_ne by done.
Qed.

(** An update of a control block that touches neither of them *)
Lemma set_inner_same k t f :
  (∀ i, is_zombie (f i) = is_zombie i ∧ exit_code (f i) = exit_code i ∧ children (f i) = children i) →
  same_procs k (set_inner t f k) [].
Proof.
  intros Hf. split_and!; [done| |].
  - intros u. rewrite set_inner_state. case_decide; [|done]. subst. unfold state_of. destruct (k_tasks k !! t) as [tcb|]; [|done].
    cbn. by destruct (Hf (inner tcb)) as (-> & -> & _).
  - intros u. rewrite set_inner_kids. unfold kids. destruct (decide (u = t)) as [->|]; [|].
    + destruct (k_tasks k !! t) as [tcb|]; [|done]. cbn. destruct (Hf (inner tcb)) as (_ & _ & ->).
      case_decide; [by rewrite app_nil_r|done].
    + destruct (k_tasks k !! u); [|done]. cbn. case_decide; [by rewrite app_nil_r|done].
Qed.

Lemma adopt_same c k u k' : adopt c k = Ok (u, k') → same_procs k k' [c].
Proof.
  unfold adopt. intros H. apply bind_Ok_inv in H as (p & k1 & [-> ->]%gets_inv & H).
  apply bind_Ok_inv in H as ([] & k2 & [_ ->]%inner_modify_inv & [_ ->]%inner_modify_inv).
  set (k1 := set_inner c _ k). apply (same_procs_trans k k1 _ [] [c]); [by apply set_inner_same|].
  split_and!; [done| |].
  - intros t. rewrite set_inner_state. case_decide; [|done]. subst. unfold state_of. by destruct (k_tasks k1 !! _).
  - intros t. rewrite set_inner_kids. change (k_initproc k1) with (k_initproc k).
    destruct (decide (t = k_initproc k)) as [->|].
    + unfold kids. destruct (k_tasks k1 !! _); done.
    + by destruct (kids k1 t).
Qed.

Lemma adopt_all l : ∀ u k u' k', foldM (λ _ c, adopt c) u l k = Ok (u', k') → same_procs k k' l.
Proof.
  induction l as [|c l IH]; intros u k u' k' H; cbn [foldM] in H.
  - unfold mret, M_ret in H. injection H as <- <-. apply same_procs_refl.
  - apply bind_Ok_inv in H as (u1 & k1 & H1 & H). apply (same_procs_trans k k1 k' [c] l); [by eapply adopt_same|by eapply IH].
Qed.

Lemma remove_all_same l : ∀ u k u' k', foldM (λ _ t, remove_inactive_task t) u l k = Ok (u', k') → same_procs k k' [].
Proof.
  induction l as [|c l IH]; intros u k u' k' H; cbn [foldM] in H.
  - unfold mret, M_ret in H. injection H as <- <-. apply same_procs_refl.
  - apply bind_Ok_inv in H as (u1 & k1 & H1 & H). apply (same_procs_trans k k1 k' [] []); [|by eapply IH]. unfold remove_inactive_task in H1.
    apply bind_Ok_inv in H1 as (u2 & k2 & ->%modify_inv & ->%modify_inv). apply (same_procs_refl k).
Qed.

(** What the end of the main thread of a process leaves behind *)
Lemma exit_procs code k u k' c tcb :
  exit_current_and_run_next code k = Ok (u, k') → cur k = Some c → k_tasks k !! c = Some tcb → tid tcb = pid tcb →
  k_initproc k ≠ c →
  state_of k' c = Some (pid tcb, true, Some code) ∧ (∀ t, t ≠ c → state_of k' t = state_of k t) ∧
  (∀ t, t ≠ c → kids k' t = (λ ch, if decide (t = k_initproc k) then ch ++ children (inner tcb) else ch) <$> kids k t).
Proof.
  intros H Hc Ht Htp Hinit. unfold exit_current_and_run_next in H.
  apply bind_Ok_inv in H as (o & k1 & [-> ->]%take_current_inv & H). rewrite Hc in H.
  set (k0 := k <| k_processor ::= λ pr, pr <| current := None |> |>) in *.
  apply bind_Ok_inv in H as (t & k2 & [[= <-] ->]%unwrap_Ok_inv & H).
  apply bind_Ok_inv in H as (tid' & k3 & (-> & tcb1 & Ht1 & ->)%task_tid_inv & H).
  apply bind_Ok_inv in H as (pid' & k4 & (-> & tcb2 & Ht2 & ->)%task_pid_inv & H).
  change (k_tasks k !! c = Some tcb1) in Ht1. change (k_tasks k !! c = Some tcb2) in Ht2.
  rewrite Ht in Ht1, Ht2. injection Ht1 as <-. injection Ht2 as <-.
  rewrite Htp, Z.eqb_refl in H.
  apply bind_Ok_inv in H as ([] & k5 & H5 & H). destruct (pid tcb =? IDLE_PID); [done|].
  unfold mret at 1, M_ret in H5. injection H5 as <-.
  apply bind_Ok_inv in H as ([] & k6 & ->%remove_pid_inv & H).
  apply bind_Ok_inv in H as ([] & k7 & [_ ->]%inner_modify_inv & H). set (k7 := set_inner c _ _) in *.
  apply bind_Ok_inv in H as (i & k8 & (-> & tcb8 & Ht8 & ->)%task_inner_inv & H).
  assert (k_tasks k7 !! c = Some (tcb <| inner ::= λ i, i <| is_zombie := true |> <| exit_code := Some code |> |>)) as Hk7.
  { unfold k7, set_inner. cbn. by rewrite lookup_alter_eq, Ht. }
  rewrite Hk7 in Ht8. injection Ht8 as <-. cbn [inner] in H.
  apply bind_Ok_inv in H as (u9 & k9 & H9%adopt_all & H).
  apply bind_Ok_inv in H as (u10 & k10 & H10%remove_all_same & H).
  apply bind_Ok_inv in H as (i & k11 & (-> & tcb11 & Ht11 & ->)%task_inner_inv & H).
  apply bind_Ok_inv in H as (ms & k12 & [m ->]%zoom_mm_inv & [_ ->]%inner_modify_inv).
  destruct (same_procs_trans _ _ _ _ _ H9 H10) as (_ & Hs & Hk). rewrite app_nil_r in Hk.
  assert (∀ t, t ≠ c → k_tasks k7 !! t = k_tasks k !! t) as Hother.
  { intros t Hne. unfold k7, set_inner. cbn. by rewrite lookup_alter_ne. }
  split_and!.
  - rewrite set_inner_state, decide_True by done.
    pose proof (Hs c) as Hsc. unfold state_of in Hsc. rewrite Ht11, Hk7 in Hsc. cbn in Hsc. cbn. rewrite Ht11. exact Hsc.
  - intros t Hne. rewrite set_inner_state, decide_False by done. change (state_of (k10 <| k_mm := m |>) t) with (state_of k10 t).
    rewrite Hs. unfold state_of. by rewrite Hother.
  - intros t Hne. rewrite set_inner_kids, decide_False by done. change (kids (k10 <| k_mm := m |>) t) with (kids k10 t).
    rewrite Hk. unfold kids. by rewrite Hother.
Qed.

Lemma run_tasks_procs k k' : run_tasks_turn k = Ok (true, k') → (∀ t, state_of k' t = state_of k t) ∧ (∀ t, kids k' t = kids k t).
Proof.
  unfold run_tasks_turn, fetch_task, TaskManager_fetch. intros H.
  apply bind_Ok_inv in H as (o & k1 & H1 & H). unfold get, put, mbind, M_bind in H1. cbn in H1.
  destruct (ready_queue (k_manager k)) as [|t q] eqn:Eq; unfold mret, M_ret in H1; injection H1 as <- <-; [done|].
  apply bind_Ok_inv in H as (tick & k2 & [-> ->]%gets_inv & H).
  apply bind_Ok_inv in H as ([] & k3 & [_ ->]%inner_modify_inv & H).
  apply bind_Ok_inv in H as ([] & k4 & ->%modify_inv & H). unfold mret, M_ret in H. injection H as <-.
  set (k0 := k <| k_manager := (k_manager k) <| ready_queue := q |> |>).
  destruct (set_inner_same k0 t (dispatch (k_time k0))) as (_ & Hs & Hk).
  { intros i. unfold dispatch, clock_time_refresh. cbn. by destruct (first_time i). }
  split; [exact Hs|]. intros u. etransitivity; [exact (Hk u)|]. change (kids k0 u) with (kids k u).
  destruct (kids k u); [|done]. cbn. case_decide; [by rewrite app_nil_r|done].
Qed.

Lemma child_statuses k l :
  (∀ c, c ∈ l → is_Some (k_tasks k !! c)) →
  ∃ st, map_children child_status l k = Ok (st, k) ∧
    Forall2 (λ c s, ∃ code, state_of k c = Some (s.1, s.2, code)) l st.
Proof.
  induction l as [|c l IH]; intros Hl; [by exists []|].
  destruct (Hl c ltac:(left)) as [tcb Ht]. destruct IH as (st & E & Hst); [intros x Hx; apply Hl; by right|].
  exists ((pid tcb, is_zombie (inner tcb)) :: st). split.
  - cbn [map_children]. rewrite (bind_Ok _ _ _ (pid tcb, is_zombie (inner tcb)) k).
    + erewrite bind_Ok by exact E. done.
    + unfold child_status, task_pid, task_inner. run. rewrite Ht. run. rewrite Ht. done.
  - constructor; [|done]. exists (exit_code (inner tcb)). unfold state_of. by rewrite Ht.
Qed.

(** The parent reaps a zombie among its children by its identifier. *)
Lemma wait4_reaps k p c tcb l n code option :
  cur k = Some p → k_tasks k !! p = Some tcb → children (inner tcb) = l → c ∈ l →
  (∀ x, x ∈ l → is_Some (k_tasks k !! x)) → state_of k c = Some (n, true, Some code) → 0 ≤ n < 2 ^ 63 →
  (∀ x b e, x ∈ l → state_of k x = Some (n, b, e) → x = c) →
  ∃ k' idx, sys_wait4_turn n option k = Ok (inl (n, Some code), k') ∧ l !! idx = Some c ∧ kids k' p = Some (delete idx l).
Proof.
  intros Hc Hp Hl Hcl Hall Hst Hn Huniq. destruct (child_statuses k l Hall) as (st & E & Hf).
  apply list_elem_of_lookup in Hcl as [j Hj]. destruct (Forall2_lookup_l _ _ _ _ _ Hf Hj) as ([n' z'] & Hsj & code' & Hcj).
  rewrite Hst in Hcj. cbn in Hcj. injection Hcj as <- <- <-.
  assert (wait_matches n n = true) as Hm.
  { unfold wait_matches. rewrite wrap_small by word. rewrite Z.eqb_refl. apply orb_true_r. }
  destruct (list_find_elem_of (λ s : Z * bool, s.2 && wait_matches n s.1) st (n, true)) as [[idx [n1 z1]] Hfind].
  { by eapply list_elem_of_lookup_2. }
  { cbn. by rewrite Hm. }
  apply list_find_Some in Hfind as Hfs. destruct Hfs as (Hsi & Hmi & _).
  destruct (Forall2_lookup_r _ _ _ _ _ Hf Hsi) as (x & Hx & code1 & Hcx). cbn in Hcx, Hmi.
  apply Is_true_true, andb_true_iff in Hmi as [-> Hmi].
  assert (n1 = n) as ->.
  { unfold wait_matches in Hmi. rewrite wrap_small in Hmi by word.
    destruct (Z.eqb_spec n (-1)); [lia|]. apply Z.eqb_eq in Hmi. done. }
  assert (x = c) as -> by (eapply Huniq; [by eapply list_elem_of_lookup_2|exact Hcx]).
  unfold sys_wait4_turn. rewrite (bind_Ok _ _ _ (Some p) k) by (unfold current_task, gets; unfold cur in Hc; by rewrite Hc). run.
  rewrite (bind_Ok _ _ _ (inner tcb) k) by (unfold task_inner; run; by rewrite Hp).
  rewrite Hl. erewrite bind_Ok by exact E.
  assert (existsb (λ s : Z * bool, wait_matches n s.1) st = true) as ->.
  { apply existsb_exists. exists (n, true). split; [by eapply list_elem_of_In, list_elem_of_lookup_2|done]. }
  cbn [negb]. rewrite Hfind. run. rewrite Hx. run.
  unfold state_of in Hst. destruct (k_tasks k !! c) as [tc|] eqn:Htc; [|done]. injection Hst as Hpid Hz He.
  rewrite (bind_Ok _ _ _ (inner tc) k) by (unfold task_inner; run; by rewrite Htc).
  exists (set_inner p (λ i, i <| children ::= delete idx |>) k), idx. split_and!; [|done|].
  - unfold inner_modify, task_inner. run. rewrite Hp. run. rewrite He. run. unfold as_isize.
    rewrite (proj2 (Z.ltb_lt _ _)) by lia. done.
  - rewrite set_inner_kids, decide_True by done. rewrite Hp. cbn. by rewrite Hl.
Qed.

(** Turns of the scheduler loop and calls of [suspend_current_and_run_next] *)
Definition switch k k' : Prop := run_tasks_turn k = Ok (true, k') ∨ suspend_current_and_run_next k = Ok ((), k').

Lemma suspend_procs k k' :
  suspend_current_and_run_next k = Ok ((), k') → (∀ t, state_of k' t = state_of k t) ∧ (∀ t, kids k' t = kids k t).
Proof.
  unfold suspend_current_and_run_next, add_task. intros H.
  apply bind_Ok_inv in H as (o & k1 & [-> ->]%take_current_inv & H).
  apply bind_Ok_inv in H as (t & k2 & [Hc ->]%unwrap_Ok_inv & H).
  apply bind_Ok_inv in H as ([] & k3 & [Ht ->]%inner_modify_inv & ->%modify_inv).
  set (k0 := k <| k_processor ::= λ pr, pr <| current := None |> |>).
  destruct (set_inner_same k0 t (λ i, i <| task_status := Ready |>)) as (_ & Hs & Hk); [done|].
  split; [exact Hs|]. intros u. etransitivity; [exact (Hk u)|]. change (kids k0 u) with (kids k u).
  destruct (kids k u); [|done]. cbn. case_decide; [by rewrite app_nil_r|done].
Qed.

Lemma switches_procs k k' : rtc switch k k' → (∀ t, state_of k' t = state_of k t) ∧ (∀ t, kids k' t = kids k t).
Proof.
  induction 1 as [|k1 k2 k3 H12 _ [IHs IHk]]; [done|].
  assert ((∀ t, state_of k2 t = state_of k1 t) ∧ (∀ t, kids k2 t = kids k1 t)) as [Hs Hk].
  { destruct H12; [by apply run_tasks_procs|by apply suspend_procs]. }
  split; intros t; [by rewrite IHs|by rewrite IHk].
Qed.

(** C9: (exit and wait compose) When the main thread of a process [c] exits with [code] and, after any
    number of task switches, a task [p] with [c] among its children runs, [wait4] on the identifier of
    [c] returns at once: it stores [code], returns the identifier, and takes exactly [c] out of the
    children of [p]; those of [initproc] include the orphans of [c] by then. *)
Theorem exit_then_wait k k1 k2 c tcb p l code option :
  cur k = Some c → k_tasks k !! c = Some tcb → tid tcb = pid tcb → 0 ≤ pid tcb < 2 ^ 63 → k_initproc k ≠ c →
  p ≠ c → kids k p = Some l → c ∈ l →
  (∀ x, x ∈ l ++ children (inner tcb) → ∃ n b e, state_of k x = Some (n, b, e) ∧ (n = pid tcb → x = c)) →
  exit_current_and_run_next code k = Ok ((), k1) → rtc switch k1 k2 → cur k2 = Some p →
  let l' := if decide (p = k_initproc k) then l ++ children (inner tcb) else l in
  ∃ k3 idx, sys_wait4_turn (pid tcb) option k2 = Ok (inl (pid tcb, Some code), k3) ∧
    l' !! idx = Some c ∧ kids k3 p = Some (delete idx l').
Proof.
  intros Hc Ht Htp Hpid Hinit Hpc Hl Hcl Hall Hexit [Hsw Hkw]%switches_procs Hp l'.
  destruct (exit_procs _ _ _ _ _ _ Hexit Hc Ht Htp Hinit) as (Hsc & Hst & Hki).
  assert (∀ x, x ∈ l' → ∃ n b e, state_of k2 x = Some (n, b, e) ∧ (n = pid tcb → x = c)) as Hall'.
  { intros x Hx. rewrite Hsw. destruct (decide (x = c)) as [->|Hne]; [by eauto 10|]. rewrite Hst by done.
    apply Hall. subst l'. case_decide; [done|]. apply elem_of_app. by left. }
  assert (kids k2 p = Some l') as Hk2.
  { rewrite Hkw, Hki, Hl by done. cbn. subst l'. by case_decide. }
  unfold kids in Hk2. destruct (k_tasks k2 !! p) as [tp|] eqn:Htp2; [|done]. injection Hk2 as Hk2.
  eapply wait4_reaps; [done|done|done| |..|done|].
  - subst l'. case_decide; [apply elem_of_app; by left|done].
  - intros x (n & b & e & Hx & _)%Hall'. unfold state_of in Hx. by destruct (k_tasks k2 !! x).
  - by rewrite Hsw.
  - intros x b e (n & b' & e' & Hx & Hn)%Hall' Hx'. apply Hn. rewrite Hx in Hx'. by injection Hx'.
Qed.
End proc.

Lemma exit_then_wait_witness :
  let k := exec run_tasks_turn (exec suspend_current_and_run_next (exec run_tasks_turn demo_kernel)) in
  let k2 := exec run_tasks_turn (exec (exit_current_and_run_next 7) k) in
  ∃ k3 idx, sys_wait4_turn 1 0 k2 = Ok (inl (1, Some 7), k3) ∧ [1%nat] !! idx = Some 1%nat ∧ kids k3 0 = Some (delete idx [1%nat]).
Proof.
  intros k k2. destruct (k_tasks k !! 1%nat) as [tcb|] eqn:Htcb; [|vm_compute in Htcb; discriminate].
  assert (pid tcb = 1 ∧ tid tcb = 1 ∧ children (inner tcb) = []) as (E1 & E2 & E3).
  { vm_compute in Htcb. injection Htcb as <-. done. }
  generalize (exit_then_wait k (exec (exit_current_and_run_next 7) k) k2 1 tcb 0 [1%nat] 7 0). rewrite E1, E2, E3.
  intros H. apply H; clear H.
  - vm_compute. reflexivity.
  - exact Htcb.
  - reflexivity.
  - lia.
  - vm_compute. discriminate.
  - discriminate.
  - vm_compute. reflexivity.
  - left.
  - intros x Hx%list_elem_of_singleton. subst x. exists 1, false, None. split; [vm_compute; reflexivity|done].
  - vm_compute. reflexivity.
  - apply rtc_once. left. vm_compute. reflexivity.
  - vm_compute. reflexivity.
Defined.
