(* ===== verification/HeapSpec.v ===== *)
(** * Theorems on the heap: [map_heap] and [sys_brk]

    [map_heap] is shown to map, page by page, the pages of a framed area; the theorem on such areas
    then gives what [brk] does when it grows the heap, and the page of a heap end that is not
    page-aligned shows when it panics. *)

From Stdlib Require Import ZArith Lia.
From stdpp Require Import functions prelude gmap.
From S2P Require Import Prelude Config Address FrameAllocator PageTable PageTableSpec MemorySet MemorySetSpec MmapSpec Time Task Syscall SchedSpec.

Open Scope Z_scope.

(** ** Growing the heap is mapping pages of a framed area *)

Definition heap_as_area (ms : MemorySet) : MapArea :=
  {| vpn_range := {| range_l := 0; range_r := 0 |}; data_frames := heap_area ms;
     map_type := Framed; map_perm := PTEFlags_URW |}.

Lemma map_heap_step_area ms c aim s :
  heap_area ms !! VirtAddr_floor c = None → c < aim → 0 ≤ c → c + 4096 < 2 ^ 39 →
  MemorySet_map_heap_step aim (ms, c) s
  = match MapArea_map_one (heap_as_area ms) (page_table ms) (VirtAddr_floor c) s with
    | Ok ((a, pt), s') => Ok (inl (ms_with_heap (ms_with_pt ms pt) (data_frames a), c + 4096), s')
    | Panic f => Panic f
    | NoFuel => NoFuel
    end.
Proof.
  intros Hn Hlt Hc Hc'. unfold MemorySet_map_heap_step, MapArea_map_one.
  rewrite (proj2 (Z.leb_gt _ _)) by lia. cbn [map_type heap_as_area]. unfold PAGE_SIZE.
  rewrite wadd_small by word. rewrite VirtAddr_from_usize_eq, bool_decide_true by (lia || word). run.
  unfold mbind, M_bind. destruct (frame_alloc s) as [[o s1]| |]; [|done..].
  destruct (unwrap o s1) as [[p s2]| |]; [|done..]. cbn [data_frames heap_as_area].
  assert (∀ s0, btree_insert (heap_area ms) (VirtAddr_floor c) p s0 = Ok (<[VirtAddr_floor c := p]> (heap_area ms), s0)) as Hins.
  { intros s0. unfold btree_insert. by rewrite Hn. }
  rewrite (Hins s2). cbn [mret M_ret]. change (map_perm (heap_as_area ms)) with PTEFlags_URW.
  rewrite PTEFlags_from_bits_some. cbn [unwrap unwrapO lift].
  destruct (PageTable_map (page_table ms) (VirtAddr_floor c) p PTEFlags_URW s2) as [[pt s4]| |]; [|done..]. by rewrite Hins.
Qed.

Lemma map_heap_loop n : ∀ fuel ms c aim s,
  (n < fuel)%nat → 0 ≤ c → c + 4096 * Z.of_nat n < 2 ^ 39 →
  aim ≤ c + 4096 * Z.of_nat n < aim + 4096 ∨ (n = 0%nat ∧ aim ≤ c) →
  (∀ v, v ∈ seqZ (c / 4096) (Z.of_nat n) → heap_area ms !! v = None) →
  loopM fuel (MemorySet_map_heap_step aim) (ms, c) s
  = match foldM (λ '(a, pt) vpn, MapArea_map_one a pt vpn) (heap_as_area ms, page_table ms) (seqZ (c / 4096) (Z.of_nat n)) s with
    | Ok ((a, pt), s') => Ok (ms_with_heap (ms_with_pt ms pt) (data_frames a), s')
    | Panic f => Panic f
    | NoFuel => NoFuel
    end.
Proof.
  induction n as [|n IH]; intros fuel ms c aim s Hf Hc Hb Haim Hfree; (destruct fuel as [|fuel]; [lia|]); cbn [loopM].
  { rewrite (bind_Ok _ _ _ (inr ms) s); [by destruct ms|]. unfold MemorySet_map_heap_step. by rewrite (proj2 (Z.leb_le _ _)) by lia. }
  rewrite seqZ_cons in Hfree |- * by lia. cbn [foldM]. unfold mbind at 1, M_bind at 1.
  rewrite map_heap_step_area; [|apply Hfree; unfold VirtAddr_floor, PAGE_SIZE; left|lia..].
  unfold mbind, M_bind. change (VirtAddr_floor c) with (c / 4096).
  destruct (MapArea_map_one (heap_as_area ms) (page_table ms) (c / 4096) s) as [[[a pt] s1]| |] eqn:E; [|done..].
  pose proof (map_one_area _ _ _ _ _ _ _ E) as (R & T & P).
  assert ((c + 4096) / 4096 = Z.succ (c / 4096)) as Hd by (Z.to_euclidean_division_equations; lia).
  rewrite (IH fuel _ (c + 4096) aim s1); [|lia..|].
  - rewrite Hd. replace (Z.pred (Z.of_nat (S n))) with (Z.of_nat n) by lia.
    replace (heap_as_area (ms_with_heap (ms_with_pt ms pt) (data_frames a))) with a; [done|].
    destruct a; cbn in *. by subst.
  - intros v. rewrite Hd. intros Hv. cbn. rewrite (map_one_frames _ _ _ _ _ _ _ v E).
    + apply Hfree. right. by replace (Z.pred (Z.of_nat (S n))) with (Z.of_nat n) by lia.
    + apply elem_of_seqZ in Hv. lia.
Qed.

(** [map_heap] up to a page boundary *)
Lemma map_heap_area ms c aim s :
  0 ≤ c < 4096 * aim → 4096 * aim + 8192 ≤ 2 ^ 39 → (∀ v, c / 4096 ≤ v < aim → heap_area ms !! v = None) →
  MemorySet_map_heap ms c (4096 * aim) s
  = match foldM (λ '(a, pt) vpn, MapArea_map_one a pt vpn) (heap_as_area ms, page_table ms)
            (seqZ (c / 4096) (aim - c / 4096)) s with
    | Ok ((a, pt), s') => Ok ((0, ms_with_heap (ms_with_pt ms pt) (data_frames a)), s')
    | Panic f => Panic f
    | NoFuel => NoFuel
    end.
Proof.
  intros Hc Haim Hfree. unfold MemorySet_map_heap. unfold mbind, M_bind.
  rewrite (map_heap_loop (Z.to_nat (aim - c / 4096))).
  - rewrite Z2Nat.id by (Z.to_euclidean_division_equations; lia).
    by destruct (foldM _ _ _ s) as [[[a pt] s1]| |].
  - assert ((4096 * aim - c) / 4096 + 2 > aim - c / 4096) by (Z.to_euclidean_division_equations; lia).
    assert (0 ≤ aim - c / 4096) by (Z.to_euclidean_division_equations; lia). lia.
  - lia.
  - Z.to_euclidean_division_equations; lia.
  - left. Z.to_euclidean_division_equations; lia.
  - intros v Hv%elem_of_seqZ. apply Hfree. lia.
Qed.

(** ** [sys_brk] *)

Section brk.
Context {File Dentry : Type}.
Abbreviation Kernel := (@Kernel File Dentry) (only parsing).
Implicit Types (k : Kernel) (t : nat).

Lemma brk_align_eq x : 0 ≤ x → x + 4096 < W64 → brk_align x = (x + 4095) / 4096 * 4096.
Proof. exact (page_align_up_eq x). Qed.

Lemma sys_brk_grow k t tcb addr :
  cur k = Some t → k_tasks k !! t = Some tcb →
  let i := inner tcb in let stop := (addr + 4095) / 4096 in
  0 ≤ heap_base i → 0 ≤ heap_end i → heap_base i ≤ addr → (heap_end i + 4095) / 4096 * 4096 < addr → addr < 2 ^ 38 →
  sys_brk addr k
  = match MemorySet_map_heap (memory_set i) (heap_end i) (4096 * stop) (k_mm k) with
    | Ok ((_, ms), mm) =>
        Ok (addr, set_inner t (λ i, i <| memory_set := ms |> <| heap_end := 4096 * stop |>) (k <| k_mm := mm |>))
    | Panic f => Panic f
    | NoFuel => NoFuel
    end.
Proof.
  intros Hc Ht i stop Hb0 He0 Hb He Ha. unfold sys_brk.
  rewrite (bind_Ok _ _ _ (Some t) k) by (unfold current_task, gets; unfold cur in Hc; by rewrite Hc). run.
  rewrite (bind_Ok _ _ _ i k) by (unfold task_inner; run; by rewrite Ht).
  assert (0 ≤ heap_end i < 2 ^ 38 ∧ 0 < addr) as Hr by (Z.to_euclidean_division_equations; lia).
  rewrite (proj2 (Z.eqb_neq _ _)), (proj2 (Z.ltb_ge _ _)) by lia.
  rewrite !brk_align_eq by word. rewrite (proj2 (Z.leb_gt _ _)) by lia. fold stop.
  assert (0 ≤ stop ∧ stop * 4096 < 2 ^ 38 + 4096) as Hst by (unfold stop; Z.to_euclidean_division_equations; lia).
  rewrite (Z.mul_comm stop), VirtAddr_from_usize_eq, bool_decide_true by (lia || word). run.
  unfold mbind, M_bind, zoom.
  destruct (MemorySet_map_heap _ _ _ _) as [[[r ms] mm]| |]; [|done..].
  unfold inner_modify, task_inner. run. cbn [k_tasks set_field]. change (k_tasks (k <| k_mm := mm |>)) with (k_tasks k).
  rewrite Ht. run. unfold as_isize. by rewrite (proj2 (Z.ltb_lt _ _)) by lia.
Qed.

(** A page of the heap that is already mapped stops [map_heap]. *)
Lemma map_heap_mapped ms c aim s :
  mm_inv s → pt_inv s (root_ppn (page_table ms)) → c < aim → 0 ≤ c →
  is_Some (pt_lookup s (page_table ms) (c / 4096)) → ∃ f, MemorySet_map_heap ms c aim s = Panic f.
Proof.
  intros Hmm Hpt Hlt Hc Hsome. unfold MemorySet_map_heap. rewrite Z2Nat.inj_add by (Z.to_euclidean_division_equations; lia).
  replace (_ + Z.to_nat 2)%nat with (S (S (Z.to_nat ((aim - c) / 4096)))) by lia. cbn [loopM].
  assert (∃ f, MemorySet_map_heap_step aim (ms, c) s = Panic f) as [f Hf].
  { unfold MemorySet_map_heap_step. rewrite (proj2 (Z.leb_gt _ _)) by lia.
    pose proof (frame_alloc_eq s Hmm) as Ha. pose proof (fa_inv_le _ (mm_inv_fa _ Hmm)) as Hle.
    destruct (decide _) as [He|Hne]; rewrite (bind_Ok _ _ _ _ _ Ha); run; [by eexists|].
    destruct (alloc_step s (page_table ms) Hmm Hpt) as (St & Hl & _); [lia|].
    assert (0 ≤ fa_current (fa s) < 2 ^ 44) as Hp by (destruct (mm_inv_fa _ Hmm); lia).
    pose proof (PageTable_map_spec (page_table ms) (mm_bump s) (VirtAddr_floor c) (fa_current (fa s)) PTEFlags_URW
      (as_pt _ _ _ _ St) (as_mm _ _ _ _ St) Hp ltac:(vm_compute; split; congruence)) as Hm.
    destruct (PageTable_map _ _ _ _ _) as [[pt' s']|f|] eqn:E; [|rewrite (bind_Panic _ _ _ _ E); by eexists|done].
    destruct Hm as [Hm _]. rewrite Hl in Hm. change (VirtAddr_floor c) with (c / 4096) in Hm. rewrite Hm in Hsome.
    by destruct Hsome. }
  exists f. by rewrite (bind_Panic _ _ _ f) by (by rewrite (bind_Panic _ _ _ f)).
Qed.

(** C30: [brk] with an address past the last page of the heap returns the address and moves the end of
    the heap to the next page boundary; every page from the old end on is backed by a fresh, cleared
    frame the user can read and write, every other translation, and every other task, stays as it
    was.  It fails only when one of these pages is already mapped or memory runs out. *)
Theorem brk_grows k t tcb addr :
  let i := inner tcb in let pt := page_table (memory_set i) in
  let start := heap_end i / 4096 in let stop := (addr + 4095) / 4096 in
  cur k = Some t → k_tasks k !! t = Some tcb → mm_inv (k_mm k) → pt_inv (k_mm k) (root_ppn pt) →
  0 ≤ heap_base i ≤ addr → 0 ≤ heap_end i → (heap_end i + 4095) / 4096 * 4096 < addr < 2 ^ 37 →
  (∀ v, start ≤ v < stop → heap_area (memory_set i) !! v = None) →
  match sys_brk addr k with
  | Ok (r, k') =>
      r = addr ∧ (∀ u, u ≠ t → k_tasks k' !! u = k_tasks k !! u) ∧
      ∃ tcb', k_tasks k' !! t = Some tcb' ∧ heap_end (inner tcb') = 4096 * stop ∧
        let ms' := memory_set (inner tcb') in
        mm_inv (k_mm k') ∧ pt_inv (k_mm k') (root_ppn (page_table ms')) ∧
        (∀ v, start ≤ v < stop → ∃ p, heap_area ms' !! v = Some p ∧ fa_current (fa (k_mm k)) ≤ p ∧
           get_bytes_array (k_mm k') p = zero_page ∧
           pt_lookup (k_mm k') (page_table ms') v = Some (PageTableEntry_new p (leaf_flags PTEFlags_URW))) ∧
        (∀ v, canonical_vpn v → ¬ (start ≤ v < stop) →
           pt_lookup (k_mm k') (page_table ms') v = pt_lookup (k_mm k) pt v)
  | Panic f => (∃ v, start ≤ v < stop ∧ is_Some (pt_lookup (k_mm k) pt v)) ∨
               fa_end (fa (k_mm k)) - fa_current (fa (k_mm k)) < 3 * (stop - start)
  | NoFuel => False
  end.
Proof.
  intros i pt start stop Hc Ht Hmm Hpt Hb He Ha Hfree. rewrite (sys_brk_grow k t tcb addr) by (done || (fold i; lia)).
  fold i stop. assert (0 ≤ start < stop ∧ stop ≤ 2 ^ 26 ∧ heap_end i < 4096 * stop) as Hss
    by (unfold start, stop; Z.to_euclidean_division_equations; lia).
  rewrite map_heap_area by (done || lia). fold start.
  assert (Forall canonical_vpn (seqZ start (stop - start))) as Hcan.
  { apply Forall_forall. intros v Hv%elem_of_seqZ. left. lia. }
  pose proof (map_pages_framed (seqZ start (stop - start)) (heap_as_area (memory_set i)) pt (k_mm k) Hmm Hpt eq_refl
    ltac:(vm_compute; split; congruence) Hcan (NoDup_seqZ _ _)) as H.
  specialize (H ltac:(intros v Hv%elem_of_seqZ; apply Hfree; lia)). fold pt.
  destruct (foldM _ _ _ (k_mm k)) as [[[a pt'] s1]|f|]; [|..|done].
  - destruct H as [_ F]. pose proof (fm_step _ _ _ _ _ _ _ F) as St. split_and!; [done|..].
    + intros u Hu. cbn. by rewrite lookup_alter_ne.
    + eexists. split; [cbn; by rewrite lookup_alter_eq, Ht|]. split; [done|]. cbv zeta. split_and!; [apply St|apply St|..].
      * intros v Hv. destruct (fm_new _ _ _ _ _ _ _ F v) as (p & ? & ? & ? & _ & ?);
          [apply elem_of_seqZ; lia|]. exists p. split_and!; try done; lia.
      * intros v Hcv Hv. apply (fm_other _ _ _ _ _ _ _ F); [done|]. rewrite elem_of_seqZ. lia.
  - destruct H as [(v & Hv%elem_of_seqZ & ?)|H]; [left; exists v; split; [lia|done]|right].
    rewrite length_seqZ in H. lia.
Qed.

(** after a [brk] to an address inside a page of the heap that is mapped, a [brk] that needs a
    further page panics: it starts at the page of the current end, which has its mapping already. *)
Theorem brk_inside_then_grow_panics k t tcb a :
  let i := inner tcb in let pt := page_table (memory_set i) in
  cur k = Some t → k_tasks k !! t = Some tcb → mm_inv (k_mm k) → pt_inv (k_mm k) (root_ppn pt) →
  0 ≤ heap_base i ≤ a → 0 < a ≤ (heap_end i + 4095) / 4096 * 4096 → heap_end i < 2 ^ 37 →
  is_Some (pt_lookup (k_mm k) pt (a / 4096)) →
  ∃ k', sys_brk a k = Ok ((a + 4095) / 4096 * 4096, k') ∧
    ∀ b, (a + 4095) / 4096 * 4096 < b < 2 ^ 37 → ∃ f, sys_brk b k' = Panic f.
Proof.
  intros i pt Hc Ht Hmm Hpt Hb Ha He Hsome.
  exists (set_inner t (λ i, i <| heap_end := a |>) k). split.
  - unfold sys_brk. rewrite (bind_Ok _ _ _ (Some t) k) by (unfold current_task, gets; unfold cur in Hc; by rewrite Hc). run.
    rewrite (bind_Ok _ _ _ i k) by (unfold task_inner; run; by rewrite Ht).
    pose proof (Z.mul_div_le (heap_end i + 4095) 4096 ltac:(lia)) as Hq.
    rewrite (proj2 (Z.eqb_neq _ _)), (proj2 (Z.ltb_ge _ _)) by lia.
    assert (0 ≤ heap_end i ∧ a < 2 ^ 38) as [He0 Ha2] by lia.
    rewrite !brk_align_eq by word. rewrite (proj2 (Z.leb_le _ _)) by lia.
    rewrite VirtAddr_from_usize_eq, bool_decide_true by (lia || word). run.
    unfold inner_modify, task_inner. run. rewrite Ht. run. unfold as_isize.
    by rewrite (proj2 (Z.ltb_lt _ _)) by (Z.to_euclidean_division_equations; lia).
  - intros b Hbb.
    assert (k_tasks (set_inner t (λ i, i <| heap_end := a |>) k) !! t = Some (tcb <| inner ::= λ i, i <| heap_end := a |> |>)) as Ht'.
    { cbn. by rewrite lookup_alter_eq, Ht. }
    assert (a < b ∧ a < 4096 * ((b + 4095) / 4096)) as Hab by (clear - Hbb; Z.to_euclidean_division_equations; lia).
    rewrite (sys_brk_grow _ t (tcb <| inner ::= λ i, i <| heap_end := a |> |>) b); [|done|exact Ht'|cbn; fold i; lia..].
    cbn [inner set_field memory_set heap_end].
    destruct (map_heap_mapped (memory_set i) a (4096 * ((b + 4095) / 4096)) (k_mm k)) as [f Hf]; try done.
    { lia. }
    { lia. }
    exists f. set (x := MemorySet_map_heap _ _ _ _).
    change x with (MemorySet_map_heap (memory_set i) a (4096 * ((b + 4095) / 4096)) (k_mm k)). by rewrite Hf.
Qed.
End brk.

(** A kernel with one running task, whose heap begins at page [0x10000] *)
Definition heap_demo_task (ms : MemorySet) (e : Z) : @TaskControlBlock unit unit :=
  (demo_task 0 None []) <| inner ::= λ i, i <| memory_set := ms |> <| heap_base := 0x10000000 |> <| heap_end := e |> |>.
Definition heap_demo (mm : Mm) (ms : MemorySet) (e : Z) : @Kernel unit unit :=
  demo_kernel <| k_mm := mm |> <| k_tasks := {[ 0%nat := heap_demo_task ms e ]} |>
              <| k_processor ::= λ pr, pr <| current := Some 0%nat |> |>.

Lemma brk_grows_witness :
  ∃ k' tcb', sys_brk 0x10001800 (heap_demo (mm_bump demo_mm) demo_ms 0x10000000) = Ok (0x10001800, k') ∧ k_tasks k' !! 0%nat = Some tcb' ∧
    heap_end (inner tcb') = 0x10002000.
Proof.
  destruct demo_pt0_inv as [Hm Hp].
  set (k := heap_demo (mm_bump demo_mm) demo_ms 0x10000000).
  pose proof (brk_grows k 0 (heap_demo_task demo_ms 0x10000000) 0x10001800) as H. cbv zeta in H.
  destruct (sys_brk 0x10001800 k) as [[r k']|f|] eqn:E; [|vm_compute in E; discriminate..].
  destruct H as (-> & _ & tcb' & Ht & He & _).
  - reflexivity.
  - reflexivity.
  - exact Hm.
  - exact Hp.
  - vm_compute. split; congruence.
  - vm_compute. congruence.
  - vm_compute. split; congruence.
  - intros v _. apply lookup_empty.
  - exists k', tcb'. split_and!; [reflexivity|exact Ht|rewrite He; reflexivity].
Defined.

Lemma brk_inside_then_grow_panics_witness :
  ∃ mm ms k', sys_brk 0x10000800 (heap_demo mm ms 0x10001000) = Ok (0x10001000, k') ∧ ∃ f, sys_brk 0x10002000 k' = Panic f.
Proof.
  destruct demo_pt0_inv as [Hm Hp].
  pose proof (map_one_framed (heap_as_area demo_ms) demo_pt0 0x10000 (mm_bump demo_mm) Hm Hp eq_refl
    ltac:(vm_compute; split; congruence) ltac:(left; lia) (lookup_empty _)) as H.
  destruct (MapArea_map_one (heap_as_area demo_ms) demo_pt0 0x10000 (mm_bump demo_mm))
    as [[[a pt] s]|f|] eqn:E; [|vm_compute in E; discriminate..].
  destruct H as [_ F]. pose proof (fm_step _ _ _ _ _ _ _ F) as St.
  destruct (fm_new _ _ _ _ _ _ _ F 0x10000) as (p & _ & _ & _ & _ & H3); [by apply list_elem_of_singleton|].
  set (ms := ms_with_heap (ms_with_pt demo_ms pt) (data_frames a)).
  destruct (brk_inside_then_grow_panics (heap_demo s ms 0x10001000) 0 (heap_demo_task ms 0x10001000) 0x10000800)
    as (k' & H1 & H2).
  - reflexivity.
  - reflexivity.
  - apply St.
  - apply St.
  - vm_compute. split; congruence.
  - vm_compute. split; congruence.
  - vm_compute. congruence.
  - change (is_Some (pt_lookup s pt 0x10000)). rewrite H3. eauto.
  - exists s, ms, k'. split; [exact H1|]. apply H2. vm_compute. split; reflexivity.
Defined.
