(* ===== verification/FdSpec.v ===== *)
(** * Theorems on file descriptors and signals

    The descriptor calls are shown to implement a finite map from descriptors to files; [kill] is
    stated on the signal set of its target. *)

From Stdlib Require Import ZArith Lia.
From stdpp Require Import functions prelude gmap.
From S2P Require Import Prelude Config Time Task Syscall SchedSpec.

Open Scope Z_scope.

(** ** The descriptor calls *)

Inductive FdOp (File : Type) :=
| Close (fd : nat)
| Dup (fd : nat)
| Dup3 (fd new_fd : nat)
| Fcntl (fd : nat) (cmd : Z)
| MakePipe (pipe_read pipe_write : File).
Arguments Close {File}.
Arguments Dup {File}.
Arguments Dup3 {File}.
Arguments Fcntl {File}.
Arguments MakePipe {File}.

Section descriptors.
Context {File Dentry : Type} {heap : KernelHeap}.
Abbreviation Kernel := (@Kernel File Dentry) (only parsing).
Implicit Types (k : Kernel) (tcb : @TaskControlBlock File Dentry) (t fd n : nat) (f : File) (m : nat → option File).

(** The call, with the descriptors it stores *)
Definition fd_call (op : FdOp File) : M Kernel (Z * list Z) :=
  match op with
  | Close fd => r ← sys_close fd; mret (r, [])
  | Dup fd => r ← sys_dup fd; mret (r, [])
  | Dup3 fd new_fd => r ← sys_dup3 fd new_fd; mret (r, [])
  | Fcntl fd cmd => r ← sys_fcntl fd cmd; mret (r, [])
  | MakePipe pr pw => '(r, (a, b)) ← sys_pipe pr pw; mret (r, [a; b])
  end.

(** The specification: descriptors are a map *)
Definition lowest_free m n : Prop := m n = None ∧ ∀ j, (j < n)%nat → is_Some (m j).
Definition map_set m n (o : option File) : nat → option File := λ j, if decide (j = n) then o else m j.

Inductive fd_spec m : FdOp File → Z * list Z → (nat → option File) → Prop :=
| spec_closed op fd : m fd = None → op = Close fd ∨ op = Dup fd ∨ (∃ n, op = Dup3 fd n) ∨ (∃ c, op = Fcntl fd c) →
    fd_spec m op (EBADF, []) m
| spec_close fd f : m fd = Some f → fd_spec m (Close fd) (0, []) (map_set m fd None)
| spec_dup op fd f n : m fd = Some f → op = Dup fd ∨ op = Fcntl fd 0 ∨ op = Fcntl fd 1030 → lowest_free m n →
    fd_spec m op (Z.of_nat n, []) (map_set m n (Some f))
| spec_dup3 fd f n : m fd = Some f → fd_spec m (Dup3 fd n) (Z.of_nat n, []) (map_set m n (Some f))
| spec_fcntl fd f cmd : m fd = Some f → cmd = 2 ∨ cmd = 4 → fd_spec m (Fcntl fd cmd) (0, []) m
| spec_pipe pr pw n1 n2 : lowest_free m n1 → lowest_free (map_set m n1 (Some pr)) n2 →
    fd_spec m (MakePipe pr pw) (0, [Z.of_nat n1; Z.of_nat n2]) (map_set (map_set m n1 (Some pr)) n2 (Some pw)).

(** The map a table stands for *)
Definition fd_map (l : list (option File)) : nat → option File := λ fd, mjoin (l !! fd).

Lemma fd_map_None l fd : (length l ≤ fd)%nat → fd_map l fd = None.
Proof. intros H. unfold fd_map. rewrite lookup_ge_None_2 by lia. done. Qed.

Lemma fd_map_pad l n : ∀ fd, fd_map (l ++ replicate n None) fd = fd_map l fd.
Proof.
  intros fd. unfold fd_map. destruct (decide (fd < length l)%nat).
  - by rewrite lookup_app_l by lia.
  - rewrite lookup_app_r, (lookup_ge_None_2 l) by lia. destruct (decide (fd - length l < n)%nat).
    + by rewrite lookup_replicate_2 by lia.
    + rewrite lookup_ge_None_2; [done|rewrite length_replicate; lia].
Qed.

Lemma fd_map_insert l n o fd : (n < length l)%nat → fd_map (<[n := o]> l) fd = map_set (fd_map l) n o fd.
Proof.
  intros Hn. unfold fd_map, map_set. case_decide as Hd; [subst; by rewrite list_lookup_insert_eq|].
  by rewrite list_lookup_insert_ne by done.
Qed.

(** [alloc_fd] finds the lowest free descriptor, and makes room for it. *)
Lemma alloc_fd_spec (i : @TaskControlBlockInner File Dentry) fd i' :
  alloc_fd i = (fd, i') →
  ∃ l, i' = i <| fd_table := l |> ∧ (∀ j, fd_map l j = fd_map (fd_table i) j) ∧ (fd < length l)%nat ∧
    (length l ≤ S (length (fd_table i)))%nat ∧ lowest_free (fd_map (fd_table i)) fd.
Proof.
  unfold alloc_fd. destruct (list_find _ _) as [[n o]|] eqn:E; intros H; injection H as <- <-.
  - apply list_find_Some in E as (Hl & -> & Hlow). exists (fd_table i). split_and!; [by destruct i|done| |lia|split].
    + by eapply lookup_lt_Some.
    + unfold fd_map. by rewrite Hl.
    + intros j Hj. unfold fd_map. destruct (fd_table i !! j) as [o|] eqn:Ej.
      * specialize (Hlow j o Ej Hj). destruct o; [by eexists|done].
      * apply lookup_ge_None in Ej. apply lookup_lt_Some in Hl. lia.
  - apply list_find_None in E. exists (fd_table i ++ [None]). split_and!; [by destruct i|apply (fd_map_pad _ 1)|..|split].
    + rewrite length_app. cbn. lia.
    + rewrite length_app. cbn. lia.
    + by apply fd_map_None.
    + intros j Hj. unfold fd_map. destruct (lookup_lt_is_Some_2 (fd_table i) j Hj) as [o Ho]. rewrite Ho.
      rewrite Forall_forall in E. specialize (E o (list_elem_of_lookup_2 _ _ _ Ho)). destruct o; [by eexists|done].
Qed.

Lemma with_current_Ok {A} (c : M (@TaskControlBlockInner File Dentry) A) k t tcb a i' :
  cur k = Some t → k_tasks k !! t = Some tcb → c (inner tcb) = Ok (a, i') →
  with_current c k = Ok (a, set_inner t (λ _, i') k).
Proof.
  intros Hc Ht E. unfold with_current.
  rewrite (bind_Ok _ _ _ (Some t) k) by (unfold current_task, gets; unfold cur in Hc; by rewrite Hc). run.
  rewrite (bind_Ok _ _ _ (inner tcb) k) by (unfold task_inner; run; by rewrite Ht).
  rewrite E. run. done.
Qed.

Lemma with_current_Panic {A} (c : M (@TaskControlBlockInner File Dentry) A) k t tcb e :
  cur k = Some t → k_tasks k !! t = Some tcb → c (inner tcb) = Panic e → with_current c k = Panic e.
Proof.
  intros Hc Ht E. unfold with_current.
  rewrite (bind_Ok _ _ _ (Some t) k) by (unfold current_task, gets; unfold cur in Hc; by rewrite Hc). run.
  rewrite (bind_Ok _ _ _ (inner tcb) k) by (unfold task_inner; run; by rewrite Ht).
  by rewrite E.
Qed.

(** What a call does when its body on the inner block only changes the table *)
Definition fd_outcome k t tcb op (r : Z * list Z) k' : Prop :=
  ∃ m' l, fd_spec (fd_map (fd_table (inner tcb))) op r m' ∧
    k' = set_inner t (λ i, i <| fd_table := l |>) k ∧ ∀ fd, fd_map l fd = m' fd.

Lemma set_inner_ext k t tcb (g h : TaskControlBlockInner → TaskControlBlockInner) :
  k_tasks k !! t = Some tcb → g (inner tcb) = h (inner tcb) → set_inner t g k = set_inner t h k.
Proof.
  intros Ht E.
  assert (alter (λ tcb, tcb <| inner ::= g |>) t (k_tasks k) = alter (λ tcb, tcb <| inner ::= h |>) t (k_tasks k)) as Ha.
  { apply alter_ext. intros tcb' E'. rewrite Ht in E'. injection E' as <-. unfold set_field. by rewrite E. }
  exact (f_equal (λ tasks, k <| k_tasks := tasks |>) Ha).
Qed.

Lemma fd_outcome_intro {A} k t tcb op (c : M (@TaskControlBlockInner File Dentry) A) (h : A → M Kernel (Z * list Z)) a r l m' :
  cur k = Some t → k_tasks k !! t = Some tcb → c (inner tcb) = Ok (a, (inner tcb) <| fd_table := l |>) →
  (∀ k', h a k' = Ok (r, k')) → fd_spec (fd_map (fd_table (inner tcb))) op r m' → (∀ fd, fd_map l fd = m' fd) →
  ∃ r k', (with_current c ≫= h) k = Ok (r, k') ∧ fd_outcome k t tcb op r k'.
Proof.
  intros Hc Ht E Hh Hs Hm. exists r. eexists. split; [rewrite (bind_Ok _ _ _ _ _ (with_current_Ok c k t tcb a _ Hc Ht E)); apply Hh|].
  exists m', l. split_and!; [done| |done]. by eapply set_inner_ext.
Qed.

(** Binding a file to the descriptor [alloc_fd] returns *)
Lemma bind_fd (i : @TaskControlBlockInner File Dentry) f n i' :
  alloc_fd i = (n, i') →
  ∃ l, set_fd n (Some f) i' = i <| fd_table := l |> ∧ lowest_free (fd_map (fd_table i)) n ∧ (n ≤ length (fd_table i))%nat ∧
    (length l ≤ S (length (fd_table i)))%nat ∧ ∀ j, fd_map l j = map_set (fd_map (fd_table i)) n (Some f) j.
Proof.
  intros (l & -> & Hm & Hn & Hl & Hlow)%alloc_fd_spec. exists (<[n := Some f]> l). rewrite length_insert.
  split_and!; [by destruct i|done|lia|done|]. intros j. rewrite fd_map_insert by done. unfold map_set. case_decide; [done|apply Hm].
Qed.

Lemma lowest_free_ext m m' n : (∀ j, m j = m' j) → lowest_free m n → lowest_free m' n.
Proof. intros E [H1 H2]. split; [by rewrite <-E|]. intros j Hj. rewrite <-E. auto. Qed.

Lemma dup_outcome k t tcb op fd f (c : M (@TaskControlBlockInner File Dentry) Z) :
  cur k = Some t → k_tasks k !! t = Some tcb → fd_map (fd_table (inner tcb)) fd = Some f →
  op = Dup fd ∨ op = Fcntl fd 0 ∨ op = Fcntl fd 1030 →
  c (inner tcb) = (let '(n, i) := alloc_fd (inner tcb) in Ok (Z.of_nat n, set_fd n (Some f) i)) →
  ∃ r k', (x ← with_current c; mret (x, [])) k = Ok (r, k') ∧ fd_outcome k t tcb op r k'.
Proof.
  intros Hc Ht Hf Hop E. destruct (alloc_fd (inner tcb)) as [n i'] eqn:Ea. cbn in E.
  destruct (bind_fd _ f _ _ Ea) as (l & Hl & Hlow & _ & _ & Hm). rewrite Hl in E.
  eapply (fd_outcome_intro k t tcb op c _ (Z.of_nat n)); [done..|by eapply spec_dup|done].
Qed.

(** The heap has no room for the table with the descriptor [n]. *)
Definition no_room (tbl : list (option File)) n : Prop := (length tbl ≤ n)%nat ∧ heap_room (length tbl) (S n) = false.
#[local] Instance no_room_dec tbl n : Decision (no_room tbl n).
Proof. unfold no_room. apply _. Defined.
Lemma no_room_if tbl n : (length tbl <=? n)%nat && negb (heap_room (length tbl) (S n)) = bool_decide (no_room tbl n).
Proof.
  symmetry. case_bool_decide as H; symmetry.
  - destruct H as [H ->]. by rewrite (proj2 (Nat.leb_le _ _) H).
  - apply andb_false_iff. destruct (Nat.leb_spec (length tbl) n) as [Hl|Hl]; [|by left]. right.
    destruct (heap_room (length tbl) (S n)) eqn:E; [done|]. by destruct H.
Qed.
(** A descriptor that the table with room for it has is a small number. *)
Lemma room_small tbl n : ¬ no_room tbl n → Z.of_nat (length tbl) < 2 ^ 32 → Z.of_nat n < 2 ^ 32.
Proof.
  unfold no_room. intros Hn Hl. destruct (decide (length tbl ≤ n)%nat); [|lia].
  destruct (heap_room (length tbl) (S n)) eqn:E; [|by destruct Hn].
  apply heap_limit in E. unfold FD_ENTRY_SIZE, KERNEL_HEAP_SIZE, PAGE_SIZE in E. lia.
Qed.

Lemma dup3_outcome k t tcb fd n f :
  cur k = Some t → k_tasks k !! t = Some tcb → fd_map (fd_table (inner tcb)) fd = Some f → ¬ no_room (fd_table (inner tcb)) n →
  Z.of_nat n < 2 ^ 32 →
  ∃ r k', fd_call (Dup3 fd n) k = Ok (r, k') ∧ fd_outcome k t tcb (Dup3 fd n) r k'.
Proof.
  intros Hc Ht Hf Hn Hs. cbn [fd_call]. unfold sys_dup3. set (tbl := fd_table (inner tcb)) in *.
  replace (as_isize (Z.of_nat n)) with (Z.of_nat n) by (unfold as_isize; rewrite (proj2 (Z.ltb_lt _ _)); lia).
  set (pad := tbl ++ replicate (S n - length tbl) None).
  eapply (fd_outcome_intro k t tcb _ _ _ (Z.of_nat n) _ (<[n := Some f]> pad)); [done..| |done|by eapply spec_dup3|].
  - unfold fd_file. fold tbl. change (mjoin (tbl !! fd)) with (fd_map tbl fd). rewrite Hf, no_room_if, bool_decide_false by done.
    unfold set_fd. by destruct (inner tcb).
  - intros j. rewrite fd_map_insert by (unfold pad; rewrite length_app, length_replicate; lia).
    unfold map_set. case_decide; [done|apply fd_map_pad].
Qed.

Lemma dup3_panics k t tcb fd n f :
  cur k = Some t → k_tasks k !! t = Some tcb → fd_map (fd_table (inner tcb)) fd = Some f → no_room (fd_table (inner tcb)) n →
  fd_call (Dup3 fd n) k = Panic Explicit.
Proof.
  intros Hc Ht Hf Hn. cbn [fd_call]. unfold sys_dup3. erewrite bind_Panic; [done|]. eapply with_current_Panic; [done..|].
  change (fd_file (inner tcb) fd) with (fd_map (fd_table (inner tcb)) fd). by rewrite Hf, no_room_if, bool_decide_true.
Qed.
(** A table larger than the heap has no room, so that such a number stops the kernel. *)
Lemma beyond_heap tbl n : (length tbl ≤ n)%nat → KERNEL_HEAP_SIZE < FD_ENTRY_SIZE * Z.of_nat (S n) → no_room tbl n.
Proof. intros Hl Hn. split; [done|]. destruct (heap_room _ _) eqn:E; [|done]. apply heap_limit in E. lia. Qed.

Lemma pipe_outcome k t tcb pr pw :
  cur k = Some t → k_tasks k !! t = Some tcb → Z.of_nat (length (fd_table (inner tcb))) + 1 < 2 ^ 32 →
  ∃ r k', fd_call (MakePipe pr pw) k = Ok (r, k') ∧ fd_outcome k t tcb (MakePipe pr pw) r k'.
Proof.
  intros Hc Ht Hlen. cbn [fd_call]. unfold sys_pipe.
  destruct (alloc_fd (inner tcb)) as [n1 i1] eqn:E1.
  destruct (bind_fd _ pr _ _ E1) as (l1 & Hi1 & Hlow1 & Hn1 & Hl1 & Hm1).
  destruct (alloc_fd ((inner tcb) <| fd_table := l1 |>)) as [n2 i2] eqn:E2.
  destruct (bind_fd _ pw _ _ E2) as (l2 & Hi2 & Hlow2 & Hn2 & Hl2 & Hm2). cbn [fd_table set_field] in Hlow2, Hn2, Hl2, Hm2.
  set (m := fd_map (fd_table (inner tcb))) in *.
  eapply (fd_outcome_intro k t tcb (MakePipe pr pw) _ _ (0, (Z.of_nat n1, Z.of_nat n2)) _ l2); [done..| |done| |].
  - rewrite E1, Hi1. rewrite E2, Hi2. unfold as_u32. rewrite !Z.mod_small by lia. by destruct (inner tcb).
  - apply spec_pipe; [done|]. by eapply lowest_free_ext.
  - intros j. rewrite Hm2. unfold map_set at 1. unfold map_set at 1. case_decide; [done|]. apply Hm1.
Qed.

Lemma closed_outcome k t tcb op fd :
  cur k = Some t → k_tasks k !! t = Some tcb → fd_map (fd_table (inner tcb)) fd = None →
  op = Close fd ∨ op = Dup fd ∨ (∃ n, op = Dup3 fd n) ∨ (∃ c, op = Fcntl fd c) →
  ∃ r k', fd_call op k = Ok (r, k') ∧ fd_outcome k t tcb op r k'.
Proof.
  intros Hc Ht Hf Hop.
  assert (fd_spec (fd_map (fd_table (inner tcb))) op (EBADF, []) (fd_map (fd_table (inner tcb)))) as Hs by by eapply spec_closed.
  destruct Hop as [->|[->|[[n ->]|[cmd ->]]]]; cbn [fd_call];
    (eapply (fd_outcome_intro k t tcb _ _ _ EBADF _ (fd_table (inner tcb))); [done..| |done|done|done]);
    change (fd_file (inner tcb) fd) with (fd_map (fd_table (inner tcb)) fd); rewrite Hf; by destruct (inner tcb).
Qed.

Lemma close_outcome k t tcb fd f :
  cur k = Some t → k_tasks k !! t = Some tcb → fd_map (fd_table (inner tcb)) fd = Some f →
  ∃ r k', fd_call (Close fd) k = Ok (r, k') ∧ fd_outcome k t tcb (Close fd) r k'.
Proof.
  intros Hc Ht Hf. cbn [fd_call].
  eapply (fd_outcome_intro k t tcb _ _ _ 0 _ (<[fd := None]> (fd_table (inner tcb)))); [done..| |done|by eapply spec_close|].
  - change (fd_file (inner tcb) fd) with (fd_map (fd_table (inner tcb)) fd). rewrite Hf. by destruct (inner tcb).
  - intros j. apply fd_map_insert. unfold fd_map in Hf. destruct (fd_table (inner tcb) !! fd) eqn:E; [|done].
    by eapply lookup_lt_Some.
Qed.

Lemma fcntl_outcome k t tcb fd cmd f :
  cur k = Some t → k_tasks k !! t = Some tcb → fd_map (fd_table (inner tcb)) fd = Some f →
  (∃ r k', fd_call (Fcntl fd cmd) k = Ok (r, k') ∧ fd_outcome k t tcb (Fcntl fd cmd) r k') ∨
  fd_call (Fcntl fd cmd) k = Panic Todo ∧ cmd ∉ [0; 2; 4; 1030].
Proof.
  intros Hc Ht Hf. cbn [fd_call]. unfold sys_fcntl.
  assert (fd_file (inner tcb) fd = Some f) as Hff by done.
  destruct (decide (cmd = 0 ∨ cmd = 1030)) as [Hd|Hn0].
  { left. apply (dup_outcome _ _ _ _ fd f); [done..| |]; rewrite ?Hff; by destruct Hd as [-> | ->]; auto. }
  destruct (decide (cmd = 2 ∨ cmd = 4)) as [Hd|Hn1].
  - left. eapply (fd_outcome_intro k t tcb _ _ _ 0 _ (fd_table (inner tcb))); [done..| |done|by eapply spec_fcntl|done].
    rewrite Hff. destruct (inner tcb). by destruct Hd as [-> | ->].
  - right. split.
    + erewrite bind_Panic; [done|]. eapply with_current_Panic; [done..|]. rewrite Hff.
      by rewrite !(proj2 (Z.eqb_neq _ _)) by lia.
    + rewrite !elem_of_cons, elem_of_nil. lia.
Qed.

End descriptors.

#[local] Existing Instance empty_heap.

(** ** Signals *)

Section signals.
Context {File Dentry : Type}.
Implicit Types (k : @Kernel File Dentry) (t : nat).

Lemma SignalFlags_from_bits_some b : 0 ≤ b < W64 → SignalFlags_from_bits b = Some b.
Proof. intros Hb. unfold SignalFlags_from_bits. change (wnot SignalFlags_all) with 0. by rewrite Z.land_0_r. Qed.

(** [kill] adds the bits of its argument to the pending signals of the process: signal
    numbers are not turned into bits.  So [kill(pid, 9)] on a process with nothing pending does not
    send [SIGKILL]; it marks [SIGHUP] and [SIGILL], and the process dies of an illegal instruction
    when it next checks its signals. *)
Theorem kill_takes_a_mask k pid signal t tcb :
  k_pid2pcb k !! pid = Some t → k_tasks k !! t = Some tcb → 0 ≤ signal < 2 ^ 32 →
  ∃ k' tcb', sys_kill pid signal k = Ok (0, k') ∧ k_tasks k' !! t = Some tcb' ∧
    (∀ b, Z.testbit (signals (inner tcb')) b = Z.testbit signal b || Z.testbit (signals (inner tcb)) b) ∧
    (signal = 9 → signals (inner tcb) = 0 →
       SignalFlags_contains (signals (inner tcb')) SIGKILL = false ∧
       (cur k = Some t → check_signals_of_current k' = Ok (Some (-4), k'))).
Proof.
  intros Hp Ht Hs. exists (set_inner t (λ i, i <| signals ::= Z.lor signal |>) k), (tcb <| inner ::= λ i, i <| signals ::= Z.lor signal |> |>).
  assert (k_tasks (set_inner t (λ i, i <| signals ::= Z.lor signal |>) k) !! t
          = Some (tcb <| inner ::= λ i, i <| signals ::= Z.lor signal |> |>)) as Ht'.
  { unfold set_inner. cbn. by rewrite lookup_alter_eq, Ht. }
  split_and!; [|done|..].
  - unfold sys_kill. rewrite (bind_Ok _ _ _ (Some t) k) by (unfold pid2process, gets; by rewrite Hp).
    rewrite SignalFlags_from_bits_some by (unfold W64; lia). unfold inner_modify, task_inner. run. rewrite Ht. run. done.
  - intros b. cbn. apply Z.lor_spec.
  - intros -> H0. split; [cbn; rewrite H0; reflexivity|]. intros Hc. unfold check_signals_of_current.
    rewrite (bind_Ok _ _ _ (Some t) (set_inner t (λ i, i <| signals ::= Z.lor 9 |>) k)).
    2: { unfold current_task, gets. unfold cur in Hc. cbn. by rewrite Hc. }
    run. unfold task_inner. run. rewrite Ht'. run. cbn [inner signals set_field]. cbn. rewrite H0. reflexivity.
Qed.
End signals.

Lemma kill_takes_a_mask_witness :
  ∃ k' tcb', sys_kill 1 9 demo_kernel = Ok (0, k') ∧ k_tasks k' !! 1%nat = Some tcb' ∧
    SignalFlags_contains (signals (inner tcb')) SIGKILL = false.
Proof.
  destruct (kill_takes_a_mask demo_kernel 1 9 1 (demo_task 1 (Some 0%nat) [])) as (k' & tcb' & H1 & H2 & _ & H3);
    [reflexivity|reflexivity|lia|]. exists k', tcb'. split_and!; [exact H1|exact H2|]. by apply H3.
Defined.
