(* ===== verification/Vfs.v ===== *)
(** * The virtual file system

    The interface of inodes ([fs/inode.rs]), directory entries, mounting and [open_file] ([fs/mod.rs],
    [fs/fs.rs], [fs/dentry.rs], [fs/defs.rs]), the casts between inodes and files ([fs/file.rs]), ext4
    as an implementation ([fs/ext4/inode.rs]) and the calls of [syscall/fs.rs] that take a path or read
    and write a file.  A call starts where the path has been read from user memory, and a buffer is
    given by its bytes. *)

From Stdlib Require Import ZArith Lia.
From stdpp Require Import prelude gmap.
From S2P Require Import Prelude Config Ext4Layout Ext4 Time Task Syscall.

Open Scope Z_scope.

(** ** Flags and entries *)

Definition OF_CREAT : Z := 0x40.
Definition OF_TRUNC : Z := 0x200.
Definition OF_RDWR : Z := 0x2.
Definition OF_DIRECTORY : Z := 0x10000.
(** Every bit that one of the named flags has *)
Definition OpenFlags_all : Z :=
  foldr Z.lor 0 [0x0; 0x1; 0x2; 0x40; 0x80; 0x100; 0x200; 0x400; 0x800; 0x1000; 0x101000; 0x101000; 0x10000;
                 0x20000; 0x80000; 0x2000; 0x4000; 0x8000; 0x40000; 0x200000; 0x410000].
Definition OpenFlags_from_bits (b : Z) : option Z := if Z.ldiff b OpenFlags_all =? 0 then Some b else None.
Definition OpenFlags_contains (flags f : Z) : bool := Z.land flags f =? f.

Inductive InodeType := Regular | Directory | BlockDeviceInode | CharDevice | PipeInode.

Record Dentry (I : Type) := { dentry_name : list Z; dentry_inode : I }.
Arguments dentry_name {I}.
Arguments dentry_inode {I}.

(** ** The interfaces of inodes and of files *)

Class InodeOps (S I : Type) := {
  inode_lookup : I → list Z → M S (option (Dentry I));
  inode_create : I → list Z → InodeType → M S (option (Dentry I));
  inode_unlink : I → list Z → M S bool;
  (* the target is not an argument: no implementation looks at it *)
  inode_link : I → list Z → M S bool;
  inode_clear : I → M S unit;
  inode_ls : I → M S (list (list Z));
  inode_read_at : I → Z → list Z → M S (Z * list Z);
}.

(** ** The status of a file ([fs/inode.rs]) *)

Record Stat := {
  st_dev : Z; st_ino : Z; st_mode : Z; st_nlink : Z; st_uid : Z; st_gid : Z; st_rdev : Z; st_size : Z; st_blksize : Z;
  st_blocks : Z; st_atime : TimeSpec; st_mtime : TimeSpec; st_ctime : TimeSpec;
}.
(** [st_size] and the times are signed; [BLOCK_SZ] is 512. *)
Definition Stat_new (dev ino mode nlink rdev size atime_sec mtime_sec ctime_sec : Z) : Stat :=
  {| st_dev := dev; st_ino := ino; st_mode := mode; st_nlink := nlink; st_uid := 0; st_gid := 0; st_rdev := rdev;
     st_size := size; st_blksize := 512; st_blocks := wsub (wadd (wrap size) 512) 1 / 512;
     st_atime := {| tv_sec := wrap atime_sec; tv_nsec := 0 |};
     st_mtime := {| tv_sec := wrap mtime_sec; tv_nsec := 0 |};
     st_ctime := {| tv_sec := wrap ctime_sec; tv_nsec := 0 |} |}.
Definition SM_DIR : Z := 0x4000.
Definition SM_FILE : Z := 0x8000.
Definition StatMode_from_bits (b : Z) : option Z := if Z.ldiff b (Z.lor SM_DIR SM_FILE) =? 0 then Some b else None.
Definition StatMode_contains (m f : Z) : bool := Z.land m f =? f.
Definition Stat_is_dir (st : Stat) : outcome bool :=
  match StatMode_from_bits (st_mode st) with Some m => Ok (StatMode_contains m SM_DIR) | None => Panic Unwrap end.
Definition Stat_is_file (st : Stat) : outcome bool :=
  match StatMode_from_bits (st_mode st) with Some m => Ok (StatMode_contains m SM_FILE) | None => Panic Unwrap end.

Class FileOps (S F : Type) := {
  file_readable : F → bool;
  file_writable : F → bool;
  file_read : F → list Z → M S (Z * list Z);
  file_write : F → list Z → M S Z;
  file_fstat : F → M S (option Stat);
  file_is_dir : F → M S bool;
  file_hang_up : F → M S bool;
  file_r_ready : F → M S bool;
  file_w_ready : F → M S bool;
}.
(** The default body of [is_dir] *)
Definition default_is_dir {S F : Type} (fstat : F → M S (option Stat)) (f : F) : M S bool :=
  o ← fstat f;
  match o with Some stat => lift (Stat_is_dir stat) | None => mret true end.

Section inodes.
Context {S I : Type} `{!InodeOps S I}.

(** [&buffer[..len]] *)
Definition buffer_to (buffer : list Z) (len : Z) : outcome (list Z) :=
  if len <=? Z.of_nat (length buffer) then Ok (take (Z.to_nat len) buffer) else Panic Bounds.
Definition read_all_step (i : I) (st : Z * list Z * list Z) : M S (Z * list Z * list Z + list Z) :=
  let '(pos, buffer, v) := st in
  '(len, buffer) ← inode_read_at i pos buffer;
  if len =? 0 then mret (inr v)
  else
    data ← lift (buffer_to buffer len);
    mret (inl (wadd pos len, buffer, v ++ data)).
Definition inode_read_all (fuel : nat) (i : I) : M S (list Z) := loopM fuel (read_all_step i) (0, replicate 512 0, []).

Definition open_file (i : I) (name : list Z) (flags : Z) : M S (option (Dentry I)) :=
  if OpenFlags_contains flags OF_CREAT then
    o ← inode_lookup i name;
    match o with
    | Some dentry => inode_clear (dentry_inode dentry);; mret (Some dentry)
    | None => inode_create i name (if OpenFlags_contains flags OF_DIRECTORY then Directory else Regular)
    end
  else
    o ← inode_lookup i name;
    match o with
    | Some dentry =>
        (if OpenFlags_contains flags OF_TRUNC then inode_clear (dentry_inode dentry) else mret ());;
        mret (Some dentry)
    | None => mret None
    end.
End inodes.

(** ** Mounted file systems *)

Definition FileSystemManager (F : Type) := gmap (list Z) F.
Definition FileSystemManager_mount {F} (m : FileSystemManager F) (fs : F) (path : list Z) : FileSystemManager F :=
  <[path := fs]> m.
Definition FileSystemManager_unmount {F} (m : FileSystemManager F) (path : list Z) : FileSystemManager F := delete path m.
Definition FileSystemManager_rootfs {F} (m : FileSystemManager F) : outcome F :=
  match m !! [47] with Some fs => Ok fs | None => Panic Unwrap end.

(** ** ext4 as a file system of the kernel

    The position of a file is a cell that all references to its inode share. *)

Record VState (D : Type) := { v_dev : D; v_fpos : list Z }.
Arguments v_dev {D}.
Arguments v_fpos {D}.
#[export] Instance VState_eta D : Settable (VState D) := λ r, {| v_dev := v_dev r; v_fpos := v_fpos r |}.

Record Ext4Inode := { ei_fs : Ext4; ei_ino : Z; ei_inner : nat }.

Section ext4_inodes.
Context {D : Type} `{!OffsetDevice D}.

(** [Ext4Inode { fs, ino, inner: UPSafeCell::new(Ext4InodeInner { fpos: 0 }) }] *)
Definition Ext4Inode_new (fs : Ext4) (ino : Z) : M (VState D) Ext4Inode :=
  s ← get;
  modify (λ s : VState D, s <| v_fpos ::= λ l, l ++ [0] |>);;
  mret {| ei_fs := fs; ei_ino := ino; ei_inner := length (v_fpos s) |}.
Definition ROOT_INO : Z := 2.
Definition Ext4FS_root_inode (fs : Ext4) : M (VState D) Ext4Inode := Ext4Inode_new fs ROOT_INO.

Definition Ext4Inode_lookup (i : Ext4Inode) (name : list Z) : M (VState D) (option (Dentry Ext4Inode)) :=
  o ← zoom v_dev (Inode_lookup (ei_fs i) (ei_ino i) name);
  match o with
  | Some ino =>
      inode ← Ext4Inode_new (ei_fs i) ino;
      mret (Some {| dentry_name := name; dentry_inode := inode |})
  | None => mret None
  end.
#[export] Instance Ext4Inode_ops : InodeOps (VState D) Ext4Inode := {|
  inode_lookup := Ext4Inode_lookup;
  inode_create := λ _ _ _, panic Todo;
  inode_unlink := λ i name, zoom v_dev (Inode_unlink (ei_fs i) (ei_ino i) name);
  inode_link := λ _ _, panic Todo;
  inode_clear := λ _, panic Todo;
  inode_ls := λ i, zoom v_dev (Inode_ls (ei_fs i) (ei_ino i));
  inode_read_at := λ i offset buf, zoom v_dev (Inode_read_at (ei_fs i) (ei_ino i) offset buf);
|}.

Definition Ext4Inode_read (i : Ext4Inode) (buf : list Z) : M (VState D) (Z * list Z) :=
  s ← get;
  fpos ← unwrap (v_fpos s !! ei_inner i);
  '(read_size, fpos, buf) ← zoom v_dev (Inode_read (ei_fs i) (ei_ino i) fpos buf);
  modify (λ s : VState D, s <| v_fpos ::= <[ei_inner i := fpos]> |>);;
  mret (read_size, buf).
#[export] Instance Ext4Inode_file : FileOps (VState D) Ext4Inode := {|
  file_readable := λ _, true;
  file_writable := λ _, true;
  file_read := Ext4Inode_read;
  file_write := λ i buf, zoom v_dev (Inode_write (ei_fs i) (ei_ino i) buf);
  file_fstat := λ _, panic Todo;
  file_is_dir := λ _, panic Todo;
  file_hang_up := λ _, panic Todo;
  file_r_ready := λ _, mret true;
  file_w_ready := λ _, mret true;
|}.
End ext4_inodes.

(** ** Inodes and files of either file system ([cast_inode_to_file], [cast_file_to_inode])

    [I32] are the inodes of FAT32, which are not mounted, and [F] the files that are no inodes. *)

Inductive AnyInode (I32 : Type) := InFat32 (i : I32) | InExt4 (i : Ext4Inode).
Arguments InFat32 {I32}.
Arguments InExt4 {I32}.
Inductive AnyFile (I32 F : Type) := FileFat32 (i : I32) | FileExt4 (i : Ext4Inode) | FileOther (f : F).
Arguments FileFat32 {I32 F}.
Arguments FileExt4 {I32 F}.
Arguments FileOther {I32 F}.

(** Only inodes of FAT32 are recognised among the files. *)
Definition cast_file_to_inode {I32 F} (f : AnyFile I32 F) : option (AnyInode I32) :=
  match f with FileFat32 i => Some (InFat32 i) | FileExt4 _ | FileOther _ => None end.
Definition cast_inode_to_file {I32 F} (i : AnyInode I32) : option (AnyFile I32 F) :=
  match i with InFat32 i => Some (FileFat32 i) | InExt4 i => Some (FileExt4 i) end.

Section calls.
Context {D I32 F : Type} `{!OffsetDevice D, !InodeOps (VState D) I32, !FileOps (VState D) I32, !FileOps (VState D) F}.
Abbreviation Inode := (AnyInode I32) (only parsing).
Abbreviation File := (AnyFile I32 F) (only parsing).

Definition any_dentry {I} (f : I → Inode) (o : option (Dentry I)) : option (Dentry Inode) :=
  (λ d, {| dentry_name := dentry_name d; dentry_inode := f (dentry_inode d) |}) <$> o.
#[export] Instance AnyInode_ops : InodeOps (VState D) Inode := {|
  inode_lookup i name := match i with
    | InFat32 i => o ← inode_lookup i name; mret (any_dentry InFat32 o)
    | InExt4 i => o ← inode_lookup i name; mret (any_dentry InExt4 o)
    end;
  inode_create i name t := match i with
    | InFat32 i => o ← inode_create i name t; mret (any_dentry InFat32 o)
    | InExt4 i => o ← inode_create i name t; mret (any_dentry InExt4 o)
    end;
  inode_unlink i name := match i with InFat32 i => inode_unlink i name | InExt4 i => inode_unlink i name end;
  inode_link i name := match i with InFat32 i => inode_link i name | InExt4 i => inode_link i name end;
  inode_clear i := match i with InFat32 i => inode_clear i | InExt4 i => inode_clear i end;
  inode_ls i := match i with InFat32 i => inode_ls i | InExt4 i => inode_ls i end;
  inode_read_at i offset buf :=
    match i with InFat32 i => inode_read_at i offset buf | InExt4 i => inode_read_at i offset buf end;
|}.
#[export] Instance AnyFile_ops : FileOps (VState D) File := {|
  file_readable f := match f with FileFat32 i => file_readable i | FileExt4 i => file_readable i | FileOther f => file_readable f end;
  file_writable f := match f with FileFat32 i => file_writable i | FileExt4 i => file_writable i | FileOther f => file_writable f end;
  file_read f buf := match f with FileFat32 i => file_read i buf | FileExt4 i => file_read i buf | FileOther f => file_read f buf end;
  file_write f buf := match f with FileFat32 i => file_write i buf | FileExt4 i => file_write i buf | FileOther f => file_write f buf end;
  file_fstat f := match f with FileFat32 i => file_fstat i | FileExt4 i => file_fstat i | FileOther f => file_fstat f end;
  file_is_dir f := match f with FileFat32 i => file_is_dir i | FileExt4 i => file_is_dir i | FileOther f => file_is_dir f end;
  file_hang_up f := match f with FileFat32 i => file_hang_up i | FileExt4 i => file_hang_up i | FileOther f => file_hang_up f end;
  file_r_ready f := match f with FileFat32 i => file_r_ready i | FileExt4 i => file_r_ready i | FileOther f => file_r_ready f end;
  file_w_ready f := match f with FileFat32 i => file_w_ready i | FileExt4 i => file_w_ready i | FileOther f => file_w_ready f end;
|}.

(** ** The calls *)

Abbreviation Kernel := (@Kernel File (Dentry Inode)) (only parsing).
Record Sys := { sys_kernel : Kernel; sys_vfs : VState D }.
#[export] Instance Sys_eta : Settable Sys := λ r, {| sys_kernel := sys_kernel r; sys_vfs := sys_vfs r |}.

Definition EACCES : Z := -13.
Definition AT_FDCWD : Z := -100.

Definition the_current : M Sys nat := o ← zoom sys_kernel current_task; unwrap o.
Definition the_inner (t : nat) : M Sys (@TaskControlBlockInner File (Dentry Inode)) := zoom sys_kernel (task_inner t).

(** [let fd = inner.alloc_fd(); inner.fd_table[fd] = Some(cast_inode_to_file(inode).unwrap()); fd] *)
Definition install (t : nat) (dentry : Dentry Inode) : M Sys Z :=
  i ← the_inner t;
  let '(fd, i) := alloc_fd i in
  file ← unwrap (cast_inode_to_file (dentry_inode dentry));
  zoom sys_kernel (inner_modify t (λ _, set_fd fd (Some file) i));;
  mret (Z.of_nat fd).

Definition sys_open (path : list Z) (flags : Z) : M Sys Z :=
  t ← the_current;
  i ← the_inner t;
  flags ← unwrap (OpenFlags_from_bits flags);
  o ← zoom sys_vfs (open_file (dentry_inode (work_dir i)) path flags);
  match o with Some dentry => install t dentry | None => mret ENOENT end.

(** A negative descriptor becomes a large [usize], which no table has. *)
Definition dirfd_file (i : @TaskControlBlockInner File (Dentry Inode)) (dirfd : Z) : option File :=
  if dirfd <? 0 then None else fd_file i (Z.to_nat dirfd).
Definition sys_openat (dirfd : Z) (path : list Z) (flags : Z) : M Sys Z :=
  if dirfd =? AT_FDCWD then sys_open path flags
  else
    t ← the_current;
    i ← the_inner t;
    match dirfd_file i dirfd with
    | None => mret EBADF
    | Some dir =>
        inode ← unwrap (cast_file_to_inode dir);
        flags ← unwrap (OpenFlags_from_bits flags);
        o ← zoom sys_vfs (open_file inode path flags);
        match o with Some dentry => install t dentry | None => mret ENOENT end
    end.

Definition sys_chdir (path : list Z) : M Sys Z :=
  t ← the_current;
  i ← the_inner t;
  o ← zoom sys_vfs (open_file (dentry_inode (work_dir i)) path (Z.lor OF_RDWR OF_DIRECTORY));
  dir ← unwrap o;
  zoom sys_kernel (inner_modify t (λ i, i <| work_dir := dir |>));;
  mret 0.

Definition sys_linkat (old_name new_name : list Z) : M Sys Z :=
  t ← the_current;
  i ← the_inner t;
  o ← zoom sys_vfs (inode_lookup (dentry_inode (work_dir i)) old_name);
  unwrap o;;
  b ← zoom sys_vfs (inode_link (dentry_inode (work_dir i)) new_name);
  mret (if (b : bool) then 0 else ENOENT).
Definition sys_unlinkat (name : list Z) : M Sys Z :=
  t ← the_current;
  i ← the_inner t;
  b ← zoom sys_vfs (inode_unlink (dentry_inode (work_dir i)) name);
  mret (if (b : bool) then 0 else ENOENT).

(** The result and the bytes of the buffer afterwards *)
Definition sys_read (fd : nat) (buf : list Z) : M Sys (Z * list Z) :=
  t ← the_current;
  i ← the_inner t;
  match fd_file i fd with
  | None => mret (EBADF, buf)
  | Some file =>
      if negb (file_readable file) then mret (EACCES, buf)
      else '(n, buf) ← zoom sys_vfs (file_read file buf); mret (as_isize n, buf)
  end.
Definition sys_write (fd : nat) (buf : list Z) : M Sys Z :=
  t ← the_current;
  i ← the_inner t;
  match fd_file i fd with
  | None => mret EBADF
  | Some file =>
      if negb (file_writable file) then mret EACCES
      else n ← zoom sys_vfs (file_write file buf); mret (as_isize n)
  end.
(** The offset and the count are not looked at. *)
Definition sys_sendfile (out_fd in_fd : nat) : M Sys Z :=
  t ← the_current;
  i ← the_inner t;
  match fd_file i out_fd, fd_file i in_fd with
  | Some out_file, Some in_file =>
      '(read_size, buf) ← zoom sys_vfs (file_read in_file (replicate (Z.to_nat 10000) 0));
      data ← lift (buffer_to buf read_size);
      n ← zoom sys_vfs (file_write out_file data);
      mret (as_isize n)
  | _, _ => mret EBADF
  end.

(** The result and what is written to [st] *)
Definition sys_fstat (fd : nat) : M Sys (Z * option Stat) :=
  t ← the_current;
  i ← the_inner t;
  match fd_file i fd with
  | None => mret (EBADF, None)
  | Some file =>
      o ← zoom sys_vfs (file_fstat file);
      match o with None => mret (EBADF, None) | Some stat => mret (0, Some stat) end
  end.
(** The result and the bytes written at [buf]: there is no terminating zero. *)
Definition sys_getcwd (buf len : Z) : M Sys (Z * list Z) :=
  t ← the_current;
  i ← the_inner t;
  mret (as_isize buf, take (Z.to_nat len) (dentry_name (work_dir i))).

Definition ENOTDIR : Z := -20.
(** The directory of [mkdirat] and [getdents64]: the current directory means the root. *)
Definition dir_inode (root : Inode) (dirfd : Z) : M Sys (Z + Inode) :=
  t ← the_current;
  i ← the_inner t;
  if dirfd =? AT_FDCWD then mret (inr root)
  else match dirfd_file i dirfd with
  | None => mret (inl EBADF)
  | Some dir =>
      b ← zoom sys_vfs (file_is_dir dir);
      if negb b then mret (inl ENOTDIR)
      else inode ← unwrap (cast_file_to_inode dir); mret (inr inode)
  end.
Definition sys_mkdirat64 (root : Inode) (dirfd : Z) (path : list Z) : M Sys Z :=
  t ← the_current;
  r ← dir_inode root dirfd;
  match r with
  | inl e => mret e
  | inr inode =>
      o ← zoom sys_vfs (open_file inode path 0);
      match o with
      | Some _ => mret (-1)
      | None =>
          o ← zoom sys_vfs (open_file inode path (Z.lor OF_DIRECTORY OF_CREAT));
          match o with Some dentry => install t dentry | None => mret EACCES end
      end
  end.

(** [Dirent::new]: the 64 bytes of the name, from ASCII characters only *)
Definition Dirent_name (name : list Z) : outcome (list Z) :=
  if negb (forallb (λ c, c <? 128) (take 65 name)) then Panic Unwrap
  else if 64 <? Z.of_nat (length name) then Panic Bounds
  else Ok (name ++ replicate (64 - length name) 0).
(** The 88 bytes of a [Dirent] are written into an array of 35. *)
Definition put_dirent (name : list Z) : M Sys unit := lift (Dirent_name name);; panic Undefined.
Definition sys_getdents64 (root : Inode) (dirfd len : Z) : M Sys Z :=
  r ← dir_inode root dirfd;
  match r with
  | inl e => mret e
  | inr inode =>
      names ← zoom sys_vfs (inode_ls inode);
      match names with
      | [] => mret 0
      | name :: _ => if len <? 19 + Z.of_nat (length name) + 1 then mret 0 else put_dirent name;; mret 0
      end
  end.

(** The buffers are given by their bytes. *)
Definition sys_writev (fd : nat) (iov : list (list Z)) : M Sys Z :=
  t ← the_current;
  i ← the_inner t;
  match fd_file i fd with
  | None => mret EBADF
  | Some file =>
      if negb (file_writable file) then mret EACCES
      else
        total_len ← foldM (λ total_len buf, n ← zoom sys_vfs (file_write file buf); mret (wadd total_len n)) 0 iov;
        mret (as_isize total_len)
  end.
End calls.
