(* ===== verification/VfsSpec.v ===== *)
(** * Theorems on the virtual file system

    [read_all] and the reads through a descriptor return the bytes of an ext4 file; opening a path finds
    the entry of its name, binds the lowest free descriptor, or panics where ext4 has no implementation. *)

From Stdlib Require Import ZArith Lia.
From stdpp Require Import functions prelude gmap.
From S2P Require Import Prelude Config FrameAllocator PageTable MemorySet Ext4Layout Ext4 Ext4Spec Ext4FileSpec Ext4DirSpec Time Task Syscall SchedSpec FdSpec Vfs.

Open Scope Z_scope.

(** A file of [size] bytes whose extents [es] map all its blocks *)
Definition mapped_file (fs : Ext4) (img : image) (ino size : Z) (es : list Ext4Extent) : Prop :=
  ∃ pos, let i := disk_inode img pos in
    cached_inode_pos fs ino pos ∧ flat_inode i ∧ inode_get_size i = size ∧ inode_extents i = es ∧ 0 ≤ size < 2 ^ 43 ∧
    ∀ b, 0 ≤ b → b * 4096 < size → is_Some (extent_map es b).

Section reading.
Context {D : Type} `{!OffsetDevice D, !OffsetDeviceOk D}.
Implicit Types (s : VState D) (img : image) (i : Ext4Inode).

(** A run on the device is a run on the state that has it. *)
Lemma zoom_dev {A} (c : M D A) img a img' s :
  runs c img a img' → has_image (v_dev s) img →
  ∃ d, zoom v_dev c s = Ok (a, s <| v_dev := d |>) ∧ has_image d img'.
Proof. intros H Hs. destruct (H _ Hs) as (d & E & Hd). exists d. unfold zoom. by rewrite E. Qed.

Lemma read_at_state i img size es offset buf s :
  let n := (length buf `min` Z.to_nat (size - offset))%nat in
  mapped_file (ei_fs i) img (ei_ino i) size es → 0 ≤ offset ≤ size → has_image (v_dev s) img →
  ∃ d, inode_read_at i offset buf s = Ok ((Z.of_nat n, file_content img es offset n ++ drop n buf), s <| v_dev := d |>) ∧
    has_image d img.
Proof.
  intros n (pos & Hp & Hflat & Hsz & Hes & Hb & Hm) Ho Hs. subst size es.
  apply (zoom_dev (Inode_read_at (ei_fs i) (ei_ino i) offset buf) img); [|done].
  apply (read_at_runs (ei_fs i) img (ei_ino i) pos offset buf); [done|done|done|lia|done].
Qed.

(** One turn of [read_all] *)
Lemma read_all_turn_state i img size es t buffer v s :
  let n := (512 `min` Z.to_nat (size - t))%nat in
  mapped_file (ei_fs i) img (ei_ino i) size es → 0 ≤ t ≤ size → length buffer = 512%nat → has_image (v_dev s) img →
  ∃ d buf', length buf' = 512%nat ∧ has_image d img ∧
    read_all_step i (t, buffer, v) s =
      Ok (if decide (n = 0%nat) then inr v else inl (t + Z.of_nat n, buf', v ++ file_content img es t n), s <| v_dev := d |>).
Proof.
  intros n Hf Ht Hl Hs. assert (size < 2 ^ 43) by (destruct Hf as (pos & _ & _ & _ & _ & ? & _); lia).
  destruct (read_at_state i img size es t buffer s Hf Ht Hs) as (d & E & Hd). rewrite Hl in E. fold n in E.
  set (buf' := _ ++ _) in E.
  assert (length buf' = 512%nat) as Hl' by (unfold buf'; rewrite length_app, length_drop, length_file_content; lia).
  exists d, buf'. split_and!; [done|done|]. unfold read_all_step. rewrite (bind_Ok _ _ _ _ _ E). cbv beta iota.
  destruct (decide (n = 0%nat)) as [->|Hn]; [done|]. rewrite (proj2 (Z.eqb_neq _ _)) by lia.
  unfold buffer_to. rewrite Hl', (proj2 (Z.leb_le _ _)), Nat2Z.id by lia.
  replace (take n buf') with (file_content img es t n) by (unfold buf'; by rewrite take_app_length' by (by rewrite length_file_content)).
  replace (wadd t (Z.of_nat n)) with (t + Z.of_nat n) by (unfold wadd, wrap, W64; rewrite Z.mod_small; lia). done.
Qed.

Lemma ext4_read_all_loop i img size es :
  mapped_file (ei_fs i) img (ei_ino i) size es →
  ∀ fuel t buffer s, 0 ≤ t ≤ size → length buffer = 512%nat → has_image (v_dev s) img →
  (size - t + 511) / 512 < Z.of_nat fuel →
  ∃ d, loopM fuel (read_all_step i) (t, buffer, file_content img es 0 (Z.to_nat t)) s
         = Ok (file_content img es 0 (Z.to_nat size), s <| v_dev := d |>) ∧ has_image d img.
Proof.
  intros Hf. induction fuel as [|fuel IH]; intros t buffer s Ht Hl Hs Hfuel.
  { exfalso. Z.to_euclidean_division_equations; lia. }
  destruct (read_all_turn_state i img size es t buffer (file_content img es 0 (Z.to_nat t)) s Hf Ht Hl Hs)
    as (d & buf' & Hl' & Hd & E).
  set (n := (512 `min` Z.to_nat (size - t))%nat) in *. cbn [loopM]. rewrite (bind_Ok _ _ _ _ _ E).
  case_decide as Hn; cbv iota.
  { assert (t = size) as -> by lia. by exists d. }
  destruct (IH (t + Z.of_nat n) buf' (s <| v_dev := d |>)) as (d' & E' & Hd'); [lia|done|done| |].
  { destruct (decide (n = 512%nat)); [|replace (size - (t + Z.of_nat n)) with 0 by lia];
      Z.to_euclidean_division_equations; lia. }
  exists d'. split; [|done].
  replace (Z.to_nat (t + Z.of_nat n)) with (Z.to_nat t + n)%nat in E' by lia.
  rewrite file_content_app, Z2Nat.id in E' by lia. exact E'.
Qed.

(** C16: [read_all] of an ext4 file without holes whose extents are in its inode ends and returns the whole file: reads of 512
    bytes follow each other up to the end, where a read returns nothing.  One turn per 512 bytes and one for the end are
    enough.  The file is one of [mapped_file]: an inode with a flat extent tree that maps every block below the size, and a
    size below 2^43; a read that meets a hole panics. *)
Theorem read_all_contents i img size es fuel s :
  mapped_file (ei_fs i) img (ei_ino i) size es → has_image (v_dev s) img → (size + 511) / 512 < Z.of_nat fuel →
  ∃ d, inode_read_all fuel i s = Ok (file_content img es 0 (Z.to_nat size), s <| v_dev := d |>) ∧ has_image d img.
Proof.
  intros Hf Hs Hfuel. assert (0 ≤ size) by (destruct Hf as (pos & _ & _ & _ & _ & ? & _); lia).
  apply (ext4_read_all_loop i img size es Hf fuel 0 (replicate 512 0) s); [lia|apply length_replicate|done|].
  by rewrite Z.sub_0_r.
Qed.

(** ** Reading through a file

    Reads follow each other: [read_bufs] reads into one buffer after the other and returns the bytes read. *)
Fixpoint read_bufs (i : Ext4Inode) (bufs : list (list Z)) : M (VState D) (list Z) :=
  match bufs with
  | [] => mret []
  | buf :: bufs => '(n, buf) ← Ext4Inode_read i buf; l ← read_bufs i bufs; mret (take (Z.to_nat n) buf ++ l)
  end.

Lemma read_state i img size es fpos buf s :
  let n := (length buf `min` Z.to_nat (size - fpos))%nat in
  mapped_file (ei_fs i) img (ei_ino i) size es → v_fpos s !! ei_inner i = Some fpos → 0 ≤ fpos ≤ size →
  has_image (v_dev s) img →
  ∃ d, Ext4Inode_read i buf s = Ok ((Z.of_nat n, file_content img es fpos n ++ drop n buf),
         {| v_dev := d; v_fpos := <[ei_inner i := fpos + Z.of_nat n]> (v_fpos s) |}) ∧ has_image d img.
Proof.
  intros n Hf Hp Ho Hs. assert (size < 2 ^ 43) by (destruct Hf as (pos & _ & _ & _ & _ & ? & _); lia).
  destruct (read_at_state i img size es fpos buf s Hf Ho Hs) as (d & E & Hd). fold n in E. exists d. split; [|done].
  cbn in E. unfold zoom in E. destruct (Inode_read_at _ _ _ _ (v_dev s)) as [[x d']| |] eqn:Er; [|done..]. cbn in E.
  injection E as -> ->.
  assert (zoom v_dev (Inode_read (ei_fs i) (ei_ino i) fpos buf) s =
          Ok ((Z.of_nat n, fpos + Z.of_nat n, file_content img es fpos n ++ drop n buf), s <| v_dev := d |>)) as Ez.
  { unfold zoom, Inode_read. rewrite (bind_Ok _ _ _ _ _ Er).
    by replace (wadd fpos (Z.of_nat n)) with (fpos + Z.of_nat n) by (unfold wadd, wrap, W64; rewrite Z.mod_small; lia). }
  unfold Ext4Inode_read. rewrite (bind_Ok _ _ s s s) by done. rewrite (bind_Ok _ _ s fpos s) by (by rewrite Hp).
  by rewrite (bind_Ok _ _ _ _ _ Ez).
Qed.

(** C17: Any sequence of reads through one ext4 file of [mapped_file] (extents in the inode that map every block below the size,
    no holes, size below 2^43), whatever the sizes of the buffers, returns the bytes of the file from the shared position on,
    without a gap or a repetition, up to the end of the file, and moves the position behind them.  On a file with a hole the
    read that meets it panics. *)
Theorem reads_are_sequential i img size es bufs fpos s :
  let n := (length (mjoin bufs) `min` Z.to_nat (size - fpos))%nat in
  mapped_file (ei_fs i) img (ei_ino i) size es → v_fpos s !! ei_inner i = Some fpos → 0 ≤ fpos ≤ size →
  has_image (v_dev s) img →
  ∃ d, read_bufs i bufs s = Ok (file_content img es fpos n,
         {| v_dev := d; v_fpos := <[ei_inner i := fpos + Z.of_nat n]> (v_fpos s) |}) ∧ has_image d img.
Proof.
  intros n Hf. revert fpos s n. induction bufs as [|buf bufs IH]; intros fpos s n Hp Ho Hs.
  { exists (v_dev s). split; [|done]. subst n. cbn. rewrite Z.add_0_r, list_insert_id by done. by destruct s. }
  destruct (read_state i img size es fpos buf s Hf Hp Ho Hs) as (d & E & Hd).
  set (m := (length buf `min` Z.to_nat (size - fpos))%nat) in *. cbn [read_bufs]. rewrite (bind_Ok _ _ _ _ _ E). cbv beta iota.
  assert (ei_inner i < length (v_fpos s))%nat by by eapply lookup_lt_Some.
  destruct (IH (fpos + Z.of_nat m) {| v_dev := d; v_fpos := <[ei_inner i := fpos + Z.of_nat m]> (v_fpos s) |})
    as (d' & E' & Hd'); [by apply list_lookup_insert_eq|lia|done|].
  rewrite (bind_Ok _ _ _ _ _ E'). exists d'. split; [|done]. cbn [v_fpos]. rewrite list_insert_insert_eq.
  rewrite Nat2Z.id, take_app_length' by (by rewrite length_file_content). rewrite <-file_content_app.
  assert (m + (length (mjoin bufs) `min` Z.to_nat (size - (fpos + Z.of_nat m))) = n)%nat as <-.
  { subst n m. change (mjoin (buf :: bufs)) with (buf ++ mjoin bufs). rewrite length_app. lia. }
  by rewrite Nat2Z.inj_add, Z.add_assoc.
Qed.
End reading.

(** ** Opening *)

Section opening.
Context {D I32 F : Type} `{!OffsetDevice D, !OffsetDeviceOk D, !InodeOps (VState D) I32, !FileOps (VState D) I32, !FileOps (VState D) F}.
Abbreviation File := (AnyFile I32 F) (only parsing).
Abbreviation Inode := (AnyInode I32) (only parsing).
Abbreviation Sys := (@Sys D I32 F) (only parsing).
Implicit Types (s : VState D) (img : image) (i : Ext4Inode) (w : Sys).

(** The name is one component, and the entry it leads to has an inode. *)
Definition openable (fs : Ext4) (entries : list (list (nat * Ext4DirEntry))) (name : list Z) : Prop :=
  name ≠ [] ∧ path_check_new name = (length name, true) ∧
  ∀ de, dir_lookup entries name = Some de → ∃ pos, cached_inode_pos fs (de_inode de) pos.

(** The inode that the look-up of a name makes: its position is a new cell, at 0. *)
Definition found_inode i s ino : Ext4Inode := {| ei_fs := ei_fs i; ei_ino := ino; ei_inner := length (v_fpos s) |}.

Lemma lookup_state i img pos entries name s :
  cached_inode_pos (ei_fs i) (ei_ino i) pos → directory img (disk_inode img pos) entries → openable (ei_fs i) entries name →
  has_image (v_dev s) img →
  ∃ d, has_image d img ∧ Ext4Inode_lookup i name s =
    match dir_lookup entries name with
    | Some de => Ok (Some {| dentry_name := name; dentry_inode := found_inode i s (de_inode de) |},
                     {| v_dev := d; v_fpos := v_fpos s ++ [0] |})
    | None => Ok (None, s <| v_dev := d |>)
    end.
Proof.
  intros Hp Hd (Hne & Hc & Hpos) Hs. pose proof (lookup_runs _ _ _ _ _ _ Hp Hd Hne Hc Hpos) as Hr.
  destruct (zoom_dev _ _ _ _ s Hr Hs) as (d & E & Hd'). exists d. split; [done|]. unfold Ext4Inode_lookup.
  rewrite (bind_Ok _ _ _ _ _ E). by destruct (dir_lookup entries name).
Qed.

(** Opening a name in an ext4 directory: without [O_CREAT] and [O_TRUNC] the entry that the directory has, or nothing;
    with [O_CREAT], or with [O_TRUNC] on a name that is there, ext4 has no implementation and the kernel stops. *)
Lemma open_file_state i img pos entries name flags s :
  cached_inode_pos (ei_fs i) (ei_ino i) pos → directory img (disk_inode img pos) entries → openable (ei_fs i) entries name →
  has_image (v_dev s) img →
  let truncates := OpenFlags_contains flags OF_CREAT || OpenFlags_contains flags OF_TRUNC && bool_decide (is_Some (dir_lookup entries name)) in
  if truncates then open_file (InExt4 i : Inode) name flags s = Panic Todo
  else ∃ d, has_image d img ∧ open_file (InExt4 i : Inode) name flags s =
    match dir_lookup entries name with
    | Some de => Ok (Some {| dentry_name := name; dentry_inode := InExt4 (found_inode i s (de_inode de)) |},
                     {| v_dev := d; v_fpos := v_fpos s ++ [0] |})
    | None => Ok (None, s <| v_dev := d |>)
    end.
Proof.
  intros Hp Hd Ho Hs truncates. destruct (lookup_state i img pos entries name s Hp Hd Ho Hs) as (d & Hd' & E).
  assert (∀ A (k : option (Dentry Inode) → M (VState D) A),
    (inode_lookup (InExt4 i : Inode) name ≫= k) s =
      match dir_lookup entries name with
      | Some de => k (Some {| dentry_name := name; dentry_inode := InExt4 (found_inode i s (de_inode de)) |})
                     {| v_dev := d; v_fpos := v_fpos s ++ [0] |}
      | None => k None (s <| v_dev := d |>)
      end) as Hk.
  { intros A k. cbn [inode_lookup AnyInode_ops Ext4Inode_ops]. rewrite bind_bind. destruct (dir_lookup entries name).
    all: by rewrite (bind_Ok _ _ _ _ _ E). }
  unfold truncates, open_file. destruct (OpenFlags_contains flags OF_CREAT); cbn [orb].
  { rewrite Hk. by destruct (dir_lookup entries name). }
  destruct (dir_lookup entries name) as [de|].
  - rewrite bool_decide_true, andb_true_r by done. rewrite Hk. destruct (OpenFlags_contains flags OF_TRUNC); [done|].
    by exists d.
  - rewrite bool_decide_false, andb_false_r by (by intros []). rewrite Hk. by exists d.
Qed.

Lemma the_current_state w t : cur (sys_kernel w) = Some t → the_current w = Ok (t, w).
Proof.
  intros Hc. unfold the_current. rewrite (bind_Ok _ _ w (Some t) w); [done|].
  unfold zoom, current_task, gets. unfold cur in Hc. rewrite Hc. by destruct w.
Qed.
Lemma the_inner_state w t tcb : k_tasks (sys_kernel w) !! t = Some tcb → the_inner t w = Ok (inner tcb, w).
Proof. intros Ht. unfold the_inner, zoom, task_inner. run. rewrite Ht. run. by destruct w. Qed.

(** A new entry is put at the lowest free descriptor, and nothing else changes. *)
Lemma install_state w t tcb (dentry : Dentry Inode) i :
  k_tasks (sys_kernel w) !! t = Some tcb → dentry_inode dentry = InExt4 i →
  ∃ fd l, lowest_free (fd_map (fd_table (inner tcb))) fd ∧
    (∀ j, fd_map l j = map_set (fd_map (fd_table (inner tcb))) fd (Some (FileExt4 i)) j) ∧
    install t dentry w = Ok (Z.of_nat fd, w <| sys_kernel ::= set_inner t (λ _, (inner tcb) <| fd_table := l |>) |>).
Proof.
  intros Ht Hi. unfold install. rewrite (bind_Ok _ _ _ _ _ (the_inner_state w t tcb Ht)).
  destruct (alloc_fd (inner tcb)) as [fd i'] eqn:E.
  destruct (alloc_fd_spec _ _ _ E) as (l & -> & Hl & Hlt & _ & Hfree).
  exists fd, (<[fd := Some (FileExt4 i)]> l). split_and!; [done| |].
  - intros j. rewrite fd_map_insert by done. unfold map_set. by rewrite Hl.
  - rewrite Hi. cbn [cast_inode_to_file]. rewrite (bind_Ok _ _ w (FileExt4 i) w) by done.
    erewrite bind_Ok; [reflexivity|]. unfold zoom, inner_modify, task_inner. run. rewrite Ht. run. reflexivity.
Qed.

(** C15: Opening a name from an ext4 working directory.  The name that is there gets the lowest free descriptor, as a file of
    its inode with a position of its own at 0, and no other descriptor and no other task changes; a name that is not there
    gives [ENOENT] and changes nothing.  Creating or truncating stops the kernel. *)
Theorem sys_open_ext4 w t tcb i img pos entries name flags :
  cur (sys_kernel w) = Some t → k_tasks (sys_kernel w) !! t = Some tcb → dentry_inode (work_dir (inner tcb)) = InExt4 i →
  cached_inode_pos (ei_fs i) (ei_ino i) pos → directory img (disk_inode img pos) entries → openable (ei_fs i) entries name →
  has_image (v_dev (sys_vfs w)) img → OpenFlags_from_bits flags = Some flags →
  if OpenFlags_contains flags OF_CREAT || OpenFlags_contains flags OF_TRUNC && bool_decide (is_Some (dir_lookup entries name))
  then sys_open name flags w = Panic Todo
  else ∃ d, has_image d img ∧
    match dir_lookup entries name with
    | None => sys_open name flags w = Ok (ENOENT, w <| sys_vfs ::= λ s, s <| v_dev := d |> |>)
    | Some de => ∃ fd l, lowest_free (fd_map (fd_table (inner tcb))) fd ∧
        (∀ j, fd_map l j = map_set (fd_map (fd_table (inner tcb))) fd (Some (FileExt4 (found_inode i (sys_vfs w) (de_inode de)))) j) ∧
        sys_open name flags w =
          Ok (Z.of_nat fd, {| sys_kernel := set_inner t (λ _, (inner tcb) <| fd_table := l |>) (sys_kernel w);
                              sys_vfs := {| v_dev := d; v_fpos := v_fpos (sys_vfs w) ++ [0] |} |})
    end.
Proof.
  intros Hc Ht Hw Hp Hd Ho Hs Hfl.
  pose proof (open_file_state i img pos entries name flags (sys_vfs w) Hp Hd Ho Hs) as H. cbv zeta in H.
  assert (∀ (o : outcome (option (Dentry Inode) * VState D)), open_file (InExt4 i : Inode) name flags (sys_vfs w) = o →
    sys_open name flags w = match o with
      | Ok (Some dentry, s) => install t dentry (w <| sys_vfs := s |>)
      | Ok (None, s) => Ok (ENOENT, w <| sys_vfs := s |>)
      | Panic f => Panic f | NoFuel => NoFuel end) as Hrun.
  { intros o <-. unfold sys_open. rewrite (bind_Ok _ _ _ _ _ (the_current_state w t Hc)).
    rewrite (bind_Ok _ _ _ _ _ (the_inner_state w t tcb Ht)), Hfl, (bind_Ok _ _ w flags w), Hw by done.
    unfold zoom, mbind, M_bind. by destruct (open_file _ _ _ _) as [[[dentry|] s]| |]. }
  destruct (_ || _); [by rewrite (Hrun _ H)|]. destruct H as (d & Hd' & H). exists d. split; [done|].
  destruct (dir_lookup entries name) as [de|]; rewrite (Hrun _ H); [|by destruct w].
  set (inode := found_inode i (sys_vfs w) (de_inode de)). set (w' := w <| sys_vfs := _ |>).
  destruct (install_state w' t tcb {| dentry_name := name; dentry_inode := InExt4 inode |} inode Ht eq_refl)
    as (fd & l & Hfree & Hl & E). exists fd, l. by split_and!.
Qed.

(** An open ext4 directory cannot be used as the directory of [openat]: the cast from files to inodes knows only FAT32,
    and every call with such a descriptor stops the kernel. *)
Theorem openat_ext4_panics w t tcb i dirfd path flags :
  cur (sys_kernel w) = Some t → k_tasks (sys_kernel w) !! t = Some tcb → 0 ≤ dirfd →
  fd_map (fd_table (inner tcb)) (Z.to_nat dirfd) = Some (FileExt4 i) → sys_openat dirfd path flags w = Panic Unwrap.
Proof.
  intros Hc Ht Hfd Hf. unfold sys_openat. rewrite (proj2 (Z.eqb_neq _ _)) by (unfold AT_FDCWD; lia).
  rewrite (bind_Ok _ _ _ _ _ (the_current_state w t Hc)), (bind_Ok _ _ _ _ _ (the_inner_state w t tcb Ht)).
  unfold dirfd_file. rewrite (proj2 (Z.ltb_ge _ _)) by lia. change (fd_file (inner tcb) (Z.to_nat dirfd)) with (fd_map (fd_table (inner tcb)) (Z.to_nat dirfd)).
  by rewrite Hf.
Qed.
(** Making a directory from the current directory looks for the name in the root: a name that is there gives -1, and a name
    that is not there stops the kernel, because ext4 inodes cannot create. *)
Theorem mkdirat_ext4 w t i img pos entries name :
  cur (sys_kernel w) = Some t → is_Some (k_tasks (sys_kernel w) !! t) →
  cached_inode_pos (ei_fs i) (ei_ino i) pos → directory img (disk_inode img pos) entries → openable (ei_fs i) entries name →
  has_image (v_dev (sys_vfs w)) img →
  match dir_lookup entries name with
  | Some _ => ∃ d, has_image d img ∧ sys_mkdirat64 (InExt4 i) AT_FDCWD name w =
      Ok (-1, {| sys_kernel := sys_kernel w; sys_vfs := {| v_dev := d; v_fpos := v_fpos (sys_vfs w) ++ [0] |} |})
  | None => sys_mkdirat64 (InExt4 i) AT_FDCWD name w = Panic Todo
  end.
Proof.
  intros Hc [tcb Ht] Hp Hd Ho Hs. unfold sys_mkdirat64.
  rewrite (bind_Ok _ _ _ _ _ (the_current_state w t Hc)).
  assert (dir_inode (InExt4 i) AT_FDCWD w = Ok (inr (InExt4 i), w)) as ->%(bind_Ok _ _ _ _ _).
  { unfold dir_inode. by rewrite (bind_Ok _ _ _ _ _ (the_current_state w t Hc)), (bind_Ok _ _ _ _ _ (the_inner_state w t tcb Ht)). }
  destruct (open_file_state i img pos entries name 0 (sys_vfs w) Hp Hd Ho Hs) as (d & Hd' & E).
  destruct (dir_lookup entries name) as [de|].
  - exists d. split; [done|]. erewrite bind_Ok by (unfold zoom; rewrite E; reflexivity). by destruct w.
  - erewrite bind_Ok by (unfold zoom; rewrite E; reflexivity).
    pose proof (open_file_state i img pos entries name (Z.lor OF_DIRECTORY OF_CREAT) ((sys_vfs w) <| v_dev := d |>) Hp Hd Ho Hd') as E'.
    cbv zeta in E'. change (OpenFlags_contains (Z.lor OF_DIRECTORY OF_CREAT) OF_CREAT) with true in E'. cbn [orb] in E'.
    apply bind_Panic. unfold zoom. cbn. by rewrite E'.
Qed.

(** [getdents64] never reports an entry: when it returns, the result is 0 or an error. *)
Theorem getdents64_reports_nothing w w' root dirfd len r :
  sys_getdents64 root dirfd len w = Ok (r, w') → r = 0 ∨ r = EBADF ∨ r = ENOTDIR.
Proof.
  unfold sys_getdents64, dir_inode. intros (d & w1 & E & H)%bind_Ok_inv.
  destruct d as [e|inode].
  - injection H as <- <-. apply bind_Ok_inv in E as (t & w2 & _ & E). apply bind_Ok_inv in E as (i & w3 & _ & E).
    destruct (dirfd =? AT_FDCWD); [done|]. destruct (dirfd_file i dirfd); [|by injection E as <- <-; auto].
    apply bind_Ok_inv in E as (b & w4 & _ & E). destruct b; [|by injection E as <- <-; auto].
    by apply bind_Ok_inv in E as (? & ? & _ & E).
  - apply bind_Ok_inv in H as (names & w2 & _ & H). left. destruct names as [|name names]; [by injection H|].
    destruct (len <? _); [by injection H|]. apply bind_Ok_inv in H as ([] & w3 & H & _).
    by apply bind_Ok_inv in H as (? & ? & _ & H).
Qed.

(** Writing one buffer with [writev] is writing it with [write]. *)
Theorem writev_single w w' fd buf n :
  (∀ f s n s', file_write (f : File) buf s = Ok (n, s') → 0 ≤ n < 2 ^ 64) →
  sys_write fd buf w = Ok (n, w') → sys_writev fd [buf] w = Ok (n, w').
Proof.
  unfold sys_write, sys_writev. intros Hn (t & w1 & E1 & H)%bind_Ok_inv. rewrite (bind_Ok _ _ _ _ _ E1).
  apply bind_Ok_inv in H as (i & w2 & E2 & H). rewrite (bind_Ok _ _ _ _ _ E2).
  destruct (fd_file i fd) as [file|]; [|done]. destruct (file_writable file); cbn [negb] in *; [|done].
  apply bind_Ok_inv in H as (k & w3 & E3 & H).
  erewrite (bind_Ok _ _ _ k w3); [done|]. unfold foldM. rewrite bind_bind, (bind_Ok _ _ _ _ _ E3).
  unfold zoom in E3. destruct (file_write file buf (sys_vfs w2)) as [[k' s']| |] eqn:E; [|done|done].
  injection E3 as <- <-. apply Hn in E. unfold wadd. cbn. rewrite Z.add_0_l. by rewrite wrap_small.
Qed.
End opening.

(** ** A kernel on a small disk, for the witnesses *)

Definition file_handle : Ext4Inode := {| ei_fs := file_fs; ei_ino := 12; ei_inner := 0 |}.
Definition root_handle : Ext4Inode := {| ei_fs := file_fs; ei_ino := 2; ei_inner := 0 |}.
Definition file_es : list Ext4Extent := inode_extents (disk_inode file_img (4 * 4096 + 11 * 256)).

Lemma file_mapped : mapped_file file_fs file_img 12 5000 file_es.
Proof.
  exists (4 * 4096 + 11 * 256). cbv zeta. split_and!; [exact file_pos|exact file_flat|vm_compute; reflexivity|reflexivity|lia|lia|].
  intros b Hb1 Hb2. assert (b = 0 ∨ b = 1) as [->| ->] by lia; vm_compute; by eexists.
Qed.

(** No FAT32 inodes, and one file that is no inode *)
#[export] Instance no_fat32_inodes D : InodeOps (VState D) Empty_set := {|
  inode_lookup := λ i : Empty_set, match i with end; inode_create := λ i : Empty_set, match i with end; inode_unlink := λ i : Empty_set, match i with end;
  inode_link := λ i : Empty_set, match i with end; inode_clear := λ i : Empty_set, match i with end; inode_ls := λ i : Empty_set, match i with end; inode_read_at := λ i : Empty_set, match i with end |}.
#[export] Instance no_fat32_files D : FileOps (VState D) Empty_set := {|
  file_readable := λ i : Empty_set, match i with end; file_writable := λ i : Empty_set, match i with end; file_read := λ i : Empty_set, match i with end;
  file_write := λ i : Empty_set, match i with end; file_fstat := λ i : Empty_set, match i with end; file_is_dir := λ i : Empty_set, match i with end;
  file_hang_up := λ i : Empty_set, match i with end; file_r_ready := λ i : Empty_set, match i with end; file_w_ready := λ i : Empty_set, match i with end |}.
#[export] Instance null_file D : FileOps (VState D) unit := {|
  file_readable _ := true; file_writable _ := true; file_read _ buf := mret (0, buf);
  file_write _ buf := mret (Z.of_nat (length buf)); file_fstat _ := mret None; file_is_dir _ := mret true;
  file_hang_up _ := mret false; file_r_ready _ := mret true; file_w_ready _ := mret true |}.

Definition open_inner : @TaskControlBlockInner (AnyFile Empty_set unit) (Dentry (AnyInode Empty_set)) :=
  {| memory_set := demo_memory_set; trap_cx_ppn := 0; task_cx := TaskContext_zero_init; task_status := Running;
     syscall_times := []; first_time := None; clear_child_tid := 0;
     work_dir := {| dentry_name := [47]; dentry_inode := InExt4 root_handle |}; parent := None;
     children := []; threads := []; user_stack_top := 0; exit_code := None;
     fd_table := [Some (FileOther ()); None; Some (FileExt4 root_handle)];
     clock_stop_watch := 0; user_clock := 0; kernel_clock := 0; heap_base := 0; heap_end := 0; is_zombie := false;
     signals := 0; signal_actions := SignalActions_default; signals_pending := 0; signal_mask := 0 |}.
Definition open_task : @TaskControlBlock (AnyFile Empty_set unit) (Dentry (AnyInode Empty_set)) :=
  {| kstack := 0; tid := 0; pid := 0; send_sigchld_when_exit := false; inner := open_inner |}.
Definition open_sys : Sys (D := RamDisk) (I32 := Empty_set) (F := unit) :=
  {| sys_kernel :=
       {| k_mm := {| mem := λ _, []; fa := StackFrameAllocator_new |}; k_space := demo_memory_set;
          k_tasks := {[0%nat := open_task]}; k_initproc := 0%nat; k_manager := TaskManager_new; k_pid2pcb := ∅;
          k_processor := {| current := Some 0%nat; idle_task_cx := TaskContext_zero_init |};
          k_pids := {| ra_current := 1; ra_recycled := [] |}; k_kstacks := {| ra_current := 1; ra_recycled := [] |};
          k_timers := []; k_time := 0 |};
     sys_vfs := {| v_dev := Ram dir_img; v_fpos := [0] |} |}.

Lemma read_all_contents_witness :
  ∃ d, inode_read_all 11 file_handle {| v_dev := Ram file_img; v_fpos := [0] |} =
         Ok (file_content file_img file_es 0 5000, {| v_dev := d; v_fpos := [0] |}) ∧ has_image d file_img.
Proof.
  apply (read_all_contents (D := RamDisk) file_handle file_img 5000 file_es 11 {| v_dev := Ram file_img; v_fpos := [0] |} file_mapped).
  - intros b. reflexivity.
  - vm_compute. reflexivity.
Defined.

Lemma reads_are_sequential_witness :
  ∃ d, read_bufs file_handle [[0; 0]; [0; 0; 0]] {| v_dev := Ram file_img; v_fpos := [4998] |} =
         Ok (file_content file_img file_es 4998 2, {| v_dev := d; v_fpos := [5000] |}) ∧ has_image d file_img.
Proof.
  apply (reads_are_sequential (D := RamDisk) file_handle file_img 5000 file_es [[0; 0]; [0; 0; 0]] 4998
           {| v_dev := Ram file_img; v_fpos := [4998] |} file_mapped).
  - reflexivity.
  - lia.
  - intros b. reflexivity.
Defined.

Lemma sys_open_ext4_witness :
  ∃ d fd l, lowest_free (fd_map (fd_table open_inner)) fd ∧
    (∀ j, fd_map l j = map_set (fd_map (fd_table open_inner)) fd (Some (FileExt4 {| ei_fs := file_fs; ei_ino := 12; ei_inner := 1 |})) j) ∧
    sys_open [97] 0 open_sys =
      Ok (Z.of_nat fd, {| sys_kernel := set_inner 0 (λ _, open_inner <| fd_table := l |>) (sys_kernel open_sys);
                          sys_vfs := {| v_dev := d; v_fpos := [0; 0] |} |}).
Proof.
  assert (de_inode <$> dir_lookup [dir_list] [97] = Some 12) as Hde by (vm_compute; reflexivity).
  pose proof (sys_open_ext4 open_sys 0 open_task root_handle dir_img (4 * 4096 + 256) [dir_list] [97] 0) as H.
  destruct (dir_lookup [dir_list] [97]) as [de|] eqn:El; [|discriminate]. injection Hde as Hde.
  destruct H as (d & _ & fd & l & H1 & H2 & H3).
  - reflexivity.
  - reflexivity.
  - reflexivity.
  - exact dir_pos.
  - exact dir_directory.
  - split_and!; [done|vm_compute; reflexivity|]. intros de' E. rewrite El in E. injection E as <-.
    exists (4 * 4096 + 11 * 256). rewrite Hde. exact file_pos.
  - intros b. reflexivity.
  - reflexivity.
  - exists d, fd, l. split_and!; [exact H1| |exact H3]. intros j. rewrite H2. unfold found_inode. rewrite Hde. reflexivity.
Defined.

Lemma openat_ext4_panics_witness : sys_openat 2 [97] 0 open_sys = Panic Unwrap.
Proof.
  apply (openat_ext4_panics open_sys 0 open_task root_handle 2 [97] 0); [reflexivity|reflexivity|lia|reflexivity].
Defined.

Lemma mkdirat_ext4_witness : sys_mkdirat64 (InExt4 root_handle) AT_FDCWD [98] open_sys = Panic Todo.
Proof.
  pose proof (mkdirat_ext4 open_sys 0 root_handle dir_img (4 * 4096 + 256) [dir_list] [98]) as H.
  assert (dir_lookup [dir_list] [98] = None) as El by (vm_compute; reflexivity). rewrite El in H. apply H.
  - reflexivity.
  - exists open_task. reflexivity.
  - exact dir_pos.
  - exact dir_directory.
  - split_and!; [done|vm_compute; reflexivity|]. intros de' E. rewrite El in E. discriminate E.
  - intros b. reflexivity.
Defined.

Lemma getdents64_reports_nothing_witness : ∃ w', sys_getdents64 (InExt4 root_handle) 7 100 open_sys = Ok (EBADF, w') ∧
  (EBADF = 0 ∨ EBADF = EBADF ∨ EBADF = ENOTDIR).
Proof.
  exists open_sys. split; [reflexivity|]. apply (getdents64_reports_nothing open_sys open_sys (InExt4 root_handle) 7 100). reflexivity.
Defined.
