(* ===== verification/SdRegs.v ===== *)
(** * The registers and commands of the SD controller

    [libs/visionfive2-sd/src/register.rs], [cmd.rs] and [utils.rs].  A register is a word; its fields
    are declared from the most significant bit down ([#[bitfield(u32, order = Msb)]]), so that a
    layout is the list of their names and widths in the order of the source. *)

From Stdlib Require Import ZArith Lia String.
From stdpp Require Import prelude.
From S2P Require Import Prelude.

Open Scope Z_scope.

(** ** Bit fields *)

Definition layout := list (string * Z).
Fixpoint layout_width (l : layout) : Z := match l with [] => 0 | (_, w) :: l => w + layout_width l end.
(** The lowest bit and the width of a field *)
Fixpoint field_at (l : layout) (name : string) : option (Z * Z) :=
  match l with
  | [] => None
  | (n, w) :: l => if String.eqb n name then Some (layout_width l, w) else field_at l name
  end.
Definition bits_get (lo w r : Z) : Z := Z.land (Z.shiftr r lo) (Z.ones w).
Definition bits_set (lo w v r : Z) : Z :=
  Z.lor (Z.ldiff r (Z.shiftl (Z.ones w) lo)) (Z.shiftl (Z.land v (Z.ones w)) lo).
(** The accessors [reg.name()] and [reg.with_name(v)] of a declared field *)
Definition field_get (l : layout) (name : string) (r : Z) : Z :=
  match field_at l name with Some (lo, w) => bits_get lo w r | None => 0 end.
Definition field_with (l : layout) (name : string) (v r : Z) : Z :=
  match field_at l name with Some (lo, w) => bits_set lo w v r | None => r end.
Definition flag (l : layout) (name : string) (r : Z) : bool := negb (field_get l name r =? 0).
#[global] Arguments field_get : simpl never.
#[global] Arguments field_with : simpl never.
#[global] Arguments flag : simpl never.

Open Scope string_scope.

Definition CmdReg : layout :=
  [("start_cmd", 1); ("reserved", 1); ("use_hold_reg", 1); ("volt_switch", 1); ("boot_mode", 1); ("disable_boot", 1);
   ("expect_boot_ack", 1); ("enable_boot", 1); ("ccs_expected", 1); ("read_ceata_device", 1);
   ("update_clock_registers_only", 1); ("card_number", 5); ("send_initialization", 1); ("stop_abort_cmd", 1);
   ("wait_prvdata_complete", 1); ("send_auto_stop", 1); ("transfer_mode", 1); ("transfer_dir", 1);
   ("data_expected", 1); ("check_response_crc", 1); ("response_length", 1); ("response_expect", 1); ("cmd_index", 6)].
Definition ClockEnableReg : layout := [("cclk_low_power", 16); ("clk_enable", 16)].
Definition CardTypeReg : layout := [("card_width8", 16); ("card_width4_1", 16)].
Definition ClockDividerReg : layout := [("clk_divider3", 8); ("clk_divider2", 8); ("clk_divider1", 8); ("clk_divider0", 8)].
Definition RawInterruptStatusReg : layout := [("sdiojnterrupt", 16); ("int_status", 16)].
Definition BusModeReg : layout := [("reserved", 21); ("pbl", 3); ("de", 1); ("dsl", 5); ("fd", 1); ("swr", 1)].
Definition StatusReg : layout :=
  [("dma_req", 1); ("dma_ack", 1); ("fifo_count", 13); ("response_index", 6); ("data_state_mc_busy", 1); ("data_busy", 1);
   ("data_3_status", 1); ("command_fsm_states", 4); ("fifo_full", 1); ("fifo_empty", 1); ("fifo_tx_watermark", 1);
   ("fifo_rx_watermark", 1)].
Definition ControlReg : layout :=
  [("reserved", 6); ("use_internal_dmac", 1); ("enable_od_pullup", 1); ("card_voltage_b", 4); ("card_voltage_a", 4);
   ("reserved1", 4); ("ceata_device_interrupt", 1); ("send_auto_stop_ccsd", 1); ("send_ccsd", 1); ("abort_read_data", 1);
   ("send_irq_response", 1); ("read_wait", 1); ("dma_enable", 1); ("int_enable", 1); ("reserved2", 1); ("dma_reset", 1);
   ("fifo_reset", 1); ("controller_reset", 1)].
Definition RawInterrupt : layout :=
  [("ebe", 1); ("acd", 1); ("sbe", 1); ("hle", 1); ("frun", 1); ("hto", 1); ("drto", 1); ("rto", 1); ("dcrc", 1); ("rcrc", 1);
   ("rxdr", 1); ("txdr", 1); ("dto", 1); ("command_done", 1); ("response_err", 1); ("card_dectect", 1)].

Definition have_error (i : Z) : bool :=
  flag RawInterrupt "rto" i || flag RawInterrupt "dcrc" i || flag RawInterrupt "response_err" i
  || flag RawInterrupt "drto" i || flag RawInterrupt "sbe" i || flag RawInterrupt "ebe" i.

(** ** Addresses, as offsets from [SDIO_BASE] *)

Definition CTRL_REG : Z := 0x00.
Definition POWER_REG : Z := 0x04.
Definition CLK_DIVIDER_REG : Z := 0x08.
Definition CLOCK_ENABLE_REG : Z := 0x10.
Definition CTYPE_REG : Z := 0x18.
Definition BLK_SIZE_REG : Z := 0x1c.
Definition BYTE_CNT_REG : Z := 0x20.
Definition ARG_REG : Z := 0x28.
Definition CMD_REG : Z := 0x2c.
Definition RESP0_REG : Z := 0x30.
Definition RESP1_REG : Z := 0x34.
Definition RESP2_REG : Z := 0x38.
Definition RESP3_REG : Z := 0x3c.
Definition RAW_INT_STATUS_REG : Z := 0x44.
Definition STATUS_REG : Z := 0x48.
Definition CDETECT_REG : Z := 0x50.
Definition BUS_MODE_REG : Z := 0x80.
Definition DBADDRL_REG : Z := 0x88.
Definition DBADDRU_REG : Z := 0x8c.
Definition FIFO_DATA_REG : Z := 0x600.

(** ** Commands *)

Inductive Cmd :=
| GoIdleState | AllSendCid | SendRelativeAddr | SetDSR | SelectCard | SendIfCond | SendCsd | SendCid | StopTransmission
| SendStatus | GoInactiveState | SetBlockLen | ReadSingleBlock | ReadMultipleBlock | WriteSingleBlock | WriteMultipleBlock
| EraseWrBlkStart | EraseWrBlkEnd | Erase | AppCmd | GenCmd | SetBusWidth | SdStatus | SendNumWrBlocks | SetWrBlkEraseCnt
| SdSendOpCond | SetClrCardDetect | SendScr | ResetClock.

Definition Cmd_into_u8 (c : Cmd) : outcome Z :=
  match c with
  | GoIdleState => Ok 0 | AllSendCid => Ok 2 | SendRelativeAddr => Ok 3 | SetDSR => Ok 4 | SelectCard => Ok 7
  | SendIfCond => Ok 8 | SendCsd => Ok 9 | SendCid => Ok 10 | StopTransmission => Ok 12 | SendStatus => Ok 13
  | GoInactiveState => Ok 15 | SetBlockLen => Ok 16 | ReadSingleBlock => Ok 17 | ReadMultipleBlock => Ok 18
  | WriteSingleBlock => Ok 24 | WriteMultipleBlock => Ok 25 | EraseWrBlkStart => Ok 32 | EraseWrBlkEnd => Ok 33
  | Erase => Ok 38 | AppCmd => Ok 55 | GenCmd => Ok 56 | SetBusWidth => Ok 6 | SdStatus => Ok 13
  | SendNumWrBlocks => Ok 22 | SetWrBlkEraseCnt => Ok 23 | SdSendOpCond => Ok 41 | SetClrCardDetect => Ok 42
  | SendScr => Ok 51
  | ResetClock => Panic Explicit
  end.

Definition CmdReg_default (card_number cmd_number : Z) : Z :=
  field_with CmdReg "cmd_index" cmd_number
    (field_with CmdReg "card_number" (as_u16 card_number)
      (field_with CmdReg "check_response_crc" 1
        (field_with CmdReg "wait_prvdata_complete" 1
          (field_with CmdReg "response_expect" 1
            (field_with CmdReg "use_hold_reg" 1 (field_with CmdReg "start_cmd" 1 0)))))).
Definition CmdReg_with_no_data (card_number cmd_number : Z) : Z := CmdReg_default card_number cmd_number.
Definition CmdReg_with_data (card_number cmd_number : Z) : Z :=
  field_with CmdReg "data_expected" 1 (CmdReg_default card_number cmd_number).

Definition CmdReg_from (c : Cmd) : outcome Z :=
  match c with
  | GoIdleState => n ← Cmd_into_u8 c; mret (field_with CmdReg "send_initialization" 1 (CmdReg_with_no_data 0 n))
  | SendIfCond | AppCmd | SendRelativeAddr | SelectCard => n ← Cmd_into_u8 c; mret (CmdReg_with_no_data 0 n)
  | SdSendOpCond | SendCsd => n ← Cmd_into_u8 c; mret (field_with CmdReg "check_response_crc" 0 (CmdReg_with_no_data 0 n))
  | AllSendCid =>
      n ← Cmd_into_u8 c;
      mret (field_with CmdReg "response_length" 1 (field_with CmdReg "check_response_crc" 0 (CmdReg_with_no_data 0 n)))
  | SendScr | ReadSingleBlock => n ← Cmd_into_u8 c; mret (CmdReg_with_data 0 n)
  | WriteSingleBlock => n ← Cmd_into_u8 c; mret (field_with CmdReg "transfer_dir" 1 (CmdReg_with_data 0 n))
  | _ => Panic Explicit
  end.

Close Scope string_scope.

(** [u32::get_bit] *)
Definition get_bit (x bit : Z) : bool := negb (Z.land x (Z.shiftl 1 bit) =? 0).

(** ** Fields do not overlap *)

Lemma layout_width_nonneg l : Forall (λ f, 0 ≤ f.2) l → 0 ≤ layout_width l.
Proof. induction 1 as [|[n w] l Hw Hl IH]; cbn in *; lia. Qed.

Lemma field_at_bound l name lo w :
  Forall (λ f, 0 ≤ f.2) l → field_at l name = Some (lo, w) → 0 ≤ lo ∧ 0 ≤ w ∧ lo + w ≤ layout_width l.
Proof.
  induction 1 as [|[n v] l Hv Hl IH]; cbn; [done|]. cbn in Hv. pose proof (layout_width_nonneg l Hl).
  destruct (String.eqb_spec n name); [intros [= <- <-]; lia|]. intros H1%IH. lia.
Qed.

(** Two declared fields are apart. *)
Lemma field_at_apart l a b lo w lo' w' :
  Forall (λ f, 0 ≤ f.2) l → a ≠ b → field_at l a = Some (lo, w) → field_at l b = Some (lo', w') →
  lo + w ≤ lo' ∨ lo' + w' ≤ lo.
Proof.
  intros Hl Hab. induction Hl as [|[n v] l Hv Hl IH]; cbn; [done|].
  destruct (String.eqb_spec n a) as [->|]; [|destruct (String.eqb_spec n b) as [->|]].
  - intros [= <- <-]. destruct (String.eqb_spec a b); [done|]. intros ?%field_at_bound; [lia|done].
  - intros H1 [= <- <-]. apply field_at_bound in H1; [lia|done].
  - exact IH.
Qed.

Lemma bits_get_spec lo w r n : 0 ≤ lo → 0 ≤ w → 0 ≤ n → Z.testbit (bits_get lo w r) n = (n <? w) && Z.testbit r (n + lo).
Proof.
  intros. unfold bits_get. rewrite Z.land_spec, Z.shiftr_spec, Z.testbit_ones by lia.
  rewrite (proj2 (Z.leb_le 0 n)) by lia. cbn. by rewrite andb_comm.
Qed.
Lemma bits_set_spec lo w v r n : 0 ≤ lo → 0 ≤ w → 0 ≤ n →
  Z.testbit (bits_set lo w v r) n = if decide (lo ≤ n < lo + w) then Z.testbit v (n - lo) else Z.testbit r n.
Proof.
  intros. unfold bits_set. rewrite Z.lor_spec, Z.ldiff_spec, !Z.shiftl_spec by lia.
  destruct (decide (lo ≤ n)).
  - rewrite Z.land_spec, Z.testbit_ones by lia. rewrite (proj2 (Z.leb_le 0 (n - lo))) by lia.
    case_decide; [rewrite (proj2 (Z.ltb_lt _ _)) by lia|rewrite (proj2 (Z.ltb_ge _ _)) by lia]; cbn.
    + by rewrite andb_false_r, andb_true_r.
    + by rewrite !andb_true_r, andb_false_r, orb_false_r.
  - rewrite !(Z.testbit_neg_r _ (n - lo)) by lia. rewrite decide_False by lia. by rewrite andb_true_r, orb_false_r.
Qed.

Lemma bits_get_set lo w v r : 0 ≤ lo → 0 ≤ w → bits_get lo w (bits_set lo w v r) = v mod 2 ^ w.
Proof.
  intros. rewrite <-Z.land_ones by lia. apply Z.bits_inj'. intros n Hn.
  rewrite bits_get_spec, bits_set_spec, Z.land_spec, Z.testbit_ones by lia. rewrite (proj2 (Z.leb_le 0 n)) by lia. cbn.
  destruct (Z.ltb_spec n w); cbn; [|by rewrite andb_false_r]. rewrite decide_True by lia. by rewrite Z.add_simpl_r, andb_true_r.
Qed.

Lemma bits_set_range lo w v r m : 0 ≤ lo → 0 ≤ w → lo + w ≤ m → 0 ≤ r < 2 ^ m → 0 ≤ v → 0 ≤ bits_set lo w v r < 2 ^ m.
Proof.
  intros Hlo Hw Hm Hr Hv. assert (bits_set lo w v r mod 2 ^ m = bits_set lo w v r) as <-.
  { rewrite <-Z.land_ones by lia. apply Z.bits_inj'. intros n Hn. rewrite Z.land_spec, Z.testbit_ones by lia.
    rewrite (proj2 (Z.leb_le 0 n)) by lia. cbn. destruct (Z.ltb_spec n m); [by rewrite andb_true_r|].
    rewrite andb_false_r, bits_set_spec, decide_False by lia. rewrite <-(Z.mod_small r (2 ^ m)) by done.
    symmetry. apply Z.mod_pow2_bits_high. lia. }
  apply Z.mod_pos_bound. lia.
Qed.

(** The fields of a register are independent: a field that has been set reads back the value, cut to its
    width, and every other field keeps its own; the register stays a word of the width of its layout. *)
Theorem register_fields_independent l a b v r :
  Forall (λ f, 0 ≤ f.2) l → a ≠ b → is_Some (field_at l a) → 0 ≤ r < 2 ^ layout_width l → 0 ≤ v →
  field_get l a (field_with l a v r) = v mod 2 ^ (default 0 (snd <$> field_at l a)) ∧
  field_get l b (field_with l a v r) = field_get l b r ∧
  0 ≤ field_with l a v r < 2 ^ layout_width l.
Proof.
  intros Hl Hab [[lo w] Ha] Hr Hv. unfold field_get, field_with. rewrite Ha. cbn.
  destruct (field_at_bound l a lo w Hl Ha) as (Hlo & Hw & Hb). split_and!.
  - by apply bits_get_set.
  - destruct (field_at l b) as [[lo' w']|] eqn:Eb; [|done]. destruct (field_at_bound l b lo' w' Hl Eb) as (? & ? & _).
    pose proof (field_at_apart l a b lo w lo' w' Hl Hab Ha Eb). apply Z.bits_inj'. intros n Hn.
    rewrite !bits_get_spec, bits_set_spec by lia. destruct (Z.ltb_spec n w'); [|done]. by rewrite decide_False by lia.
  - by apply (bits_set_range lo w v r (layout_width l)).
  - by apply (bits_set_range lo w v r (layout_width l)).
Qed.

Lemma register_fields_independent_witness :
  field_get CmdReg "cmd_index" (field_with CmdReg "cmd_index" 17 0) = 17 ∧
  field_get CmdReg "start_cmd" (field_with CmdReg "cmd_index" 17 0x80000000) = 1.
Proof.
  split.
  - apply (register_fields_independent CmdReg "cmd_index" "start_cmd" 17 0);
      [repeat constructor; cbn; lia|discriminate|by eexists|cbn; lia|lia].
  - apply (register_fields_independent CmdReg "cmd_index" "start_cmd" 17 0x80000000);
      [repeat constructor; cbn; lia|discriminate|by eexists|cbn; lia|lia].
Defined.

(** The words of the commands, as the controller expects them *)
Example command_words :
  CmdReg_from ReadSingleBlock = Ok 0xA0002351 ∧ CmdReg_from WriteSingleBlock = Ok 0xA0002758 ∧
  CmdReg_from GoIdleState = Ok 0xA000A140 ∧ layout_width CmdReg = 32 ∧ layout_width StatusReg = 32 ∧
  layout_width ControlReg = 32 ∧ layout_width BusModeReg = 32 ∧ layout_width RawInterrupt = 16.
Proof. by vm_compute. Qed.
