(* ===== verification/SdCard.v ===== *)
(** * The SD-card driver

    [libs/visionfive2-sd/src/lib.rs] over the controller's registers, with the busy waiting of
    [timer.rs] and the byte-addressed device [SDCard] of [drivers/block/vf2_sd.rs].  The controller
    and the time counter are the parameter [T]: what a register access returns and does is [SDIo], the
    counter is [Clock].  Log messages are left out, and so is [test_write_read], which nothing calls. *)

From Stdlib Require Import ZArith Lia String.
From stdpp Require Import prelude.
From S2P Require Import Prelude Config Time BlockCache Drivers SdRegs.

Open Scope Z_scope.

Class SDIo (T : Type) := {
  read_reg_at : Z → T → Z * T;
  write_reg_at : Z → Z → T → T;
  read_data_at : Z → T → Z * T;
  write_data_at : Z → Z → T → T;
}.
Class Clock (T : Type) := { read_time : T → Z * T }.

Section driver.
Context {T : Type} `{!SDIo T, !Clock T}.

Definition read_reg (addr : Z) : M T Z := λ t, Ok (read_reg_at addr t).
Definition write_reg (addr v : Z) : M T unit := λ t, Ok ((), write_reg_at addr v t).
Definition read_fifo (addr : Z) : M T Z := λ t, Ok (read_data_at addr t).
Definition write_fifo (addr v : Z) : M T unit := λ t, Ok ((), write_data_at addr v t).

(** ** Busy waiting ([timer.rs], with the clock of [boards/visionfive2.rs]) *)

Definition VF2_CLOCK_FREQ : Z := 4000000.
Definition now_ms : M T Z := λ t, let '(tick, t') := read_time t in Ok (wmul tick MSEC_PER_SEC / VF2_CLOCK_FREQ, t').
Definition sleep_ms (fuel : nat) (ms : Z) : M T unit :=
  now ← now_ms;
  let end_time := wadd now ms in
  loopM fuel (λ _ : unit, now ← now_ms; mret (if now <? end_time then inl () else inr ())) ().
(** The closure [f] has a state of its own. *)
Definition sleep_turn {A} (end_time : Z) (f : A → M T (bool * A)) (a : A) : M T (A + A) :=
  now ← now_ms;
  if now <? end_time then '(stop, a) ← f a; mret (if (stop : bool) then inr a else inl a)
  else mret (inr a).
Definition sleep_ms_until {A} (fuel : nat) (ms : Z) (f : A → M T (bool * A)) (a : A) : M T A :=
  now ← now_ms;
  loopM fuel (sleep_turn (wadd now ms) f) a.
(** A closure without state, waited for and then asked once more *)
Definition wait_until (fuel : nat) (ms : Z) (f : M T bool) : M T bool :=
  sleep_ms_until fuel ms (λ _ : unit, b ← f; mret (b, ())) ();; f.

(** ** Commands *)

Definition can_send_cmd : M T bool := r ← read_reg CMD_REG; mret (negb (flag CmdReg "start_cmd" r)).
Definition wait_ms_util_can_send_cmd (fuel : nat) : M T bool := wait_until fuel 1 can_send_cmd.
Definition can_send_data : M T bool := r ← read_reg STATUS_REG; mret (negb (flag StatusReg "data_busy" r)).
Definition wait_ms_util_can_send_data (fuel : nat) : M T bool := wait_until fuel 100 can_send_data.
Definition read_int_status : M T Z :=
  r ← read_reg RAW_INT_STATUS_REG; mret (field_get RawInterruptStatusReg "int_status" r).
Definition has_response : M T bool := i ← read_int_status; mret (flag RawInterrupt "command_done" i).
Definition wait_ms_util_response (fuel : nat) : M T bool := wait_until fuel 1 has_response.
Definition fifo_filled_cnt : M T Z := r ← read_reg STATUS_REG; mret (field_get StatusReg "fifo_count" r).

Inductive DataTransType := TransNone | TransRead (buffer : list Z) | TransWrite (buffer : list Z).

(** Receiving: the buffer, the offset in it and the address of the FIFO *)
Definition store_word (buffer : list Z) (off : nat) (data : Z) : outcome (list Z) :=
  if (off + 8 <=? length buffer)%nat then Ok (splice buffer off (le_bytes 8 data)) else Panic Bounds.
Definition rx_turn (st : list Z * nat * Z) : M T (list Z * nat * Z + list Z * nat * Z) :=
  let '(buffer, off, addr) := st in
  c ← fifo_filled_cnt;
  if 2 <=? c then
    data ← read_fifo addr;
    buffer ← lift (store_word buffer off data);
    mret (inl (buffer, (off + 8)%nat, addr + 8))
  else mret (inr st).
Definition rx_poll (fuel : nat) (st : list Z * nat * Z) : M T (bool * (list Z * nat * Z)) :=
  i ← read_int_status;
  st ← (if flag RawInterrupt "rxdr" i then loopM fuel rx_turn st else mret st);
  mret (flag RawInterrupt "dto" i || have_error i, st).

(** Sending *)
Definition load_word (buffer : list Z) (off : nat) : outcome Z :=
  if (off + 8 <=? length buffer)%nat then Ok (le_word (slice buffer off (off + 8))) else Panic Bounds.
Definition tx_turn (buffer : list Z) (st : nat * Z) : M T (nat * Z + nat * Z) :=
  let '(off, addr) := st in
  c ← fifo_filled_cnt;
  if (c <? 120) && (off <? length buffer)%nat then
    data ← lift (load_word buffer off);
    write_fifo addr data;;
    mret (inl ((off + 8)%nat, addr + 8))
  else mret (inr st).
Definition tx_poll (fuel : nat) (buffer : list Z) (st : nat * Z) : M T (bool * (nat * Z)) :=
  r ← read_reg RAW_INT_STATUS_REG;
  let i := as_u16 r in
  st ← (if flag RawInterrupt "txdr" i then loopM fuel (tx_turn buffer) st else mret st);
  mret (flag RawInterrupt "dto" i || have_error i, st).

Definition transfer (fuel : nat) (data : DataTransType) : M T (list Z) :=
  match data with
  | TransRead buffer => '(buffer, _, _) ← sleep_ms_until fuel 250 (rx_poll fuel) (buffer, 0%nat, FIFO_DATA_REG); mret buffer
  | TransWrite buffer => sleep_ms_until fuel 250 (tx_poll fuel buffer) (0%nat, FIFO_DATA_REG);; mret buffer
  | TransNone => panic Explicit
  end.

(** The response, or nothing on an error, and the buffer afterwards *)
Definition send_cmd (fuel : nat) (cmd arg : Z) (data : DataTransType) : M T (option (list Z) * list Z) :=
  res ← wait_ms_util_can_send_cmd fuel;
  assertM res;;
  (if flag CmdReg "data_expected" cmd then res ← wait_ms_util_can_send_data fuel; assertM res else mret ());;
  write_reg ARG_REG arg;;
  write_reg CMD_REG cmd;;
  wait_ms_util_can_send_cmd fuel;;
  (if flag CmdReg "response_expect" cmd then wait_ms_util_response fuel else mret true);;
  buffer ← (if flag CmdReg "data_expected" cmd then transfer fuel data else mret []);
  raw ← read_reg RAW_INT_STATUS_REG;
  write_reg RAW_INT_STATUS_REG raw;;
  let i := field_get RawInterruptStatusReg "int_status" raw in
  r0 ← read_reg RESP0_REG;
  r1 ← read_reg RESP1_REG;
  r2 ← read_reg RESP2_REG;
  r3 ← read_reg RESP3_REG;
  mret (if have_error i then None else Some [r0; r1; r2; r3], buffer).

(** [send_cmd(..).unwrap()], its first response word, and the buffer *)
Definition send_cmd_unwrap (fuel : nat) (c : Cmd) (arg : Z) (data : DataTransType) : M T (Z * list Z) :=
  cmd ← lift (CmdReg_from c);
  '(o, buffer) ← send_cmd fuel cmd arg data;
  resp ← unwrap o;
  mret (default 0 (resp !! 0%nat), buffer).

Definition set_transaction_size (blk_size byte_count : Z) : M T unit :=
  write_reg BLK_SIZE_REG blk_size;; write_reg BYTE_CNT_REG byte_count.

Definition read_block (fuel : nat) (block : Z) (buf : list Z) : M T (Z * list Z) :=
  assertM (length buf =? 512)%nat;;
  set_transaction_size 512 512;;
  '(_, buf) ← send_cmd_unwrap fuel ReadSingleBlock (as_u32 block) (TransRead buf);
  mret (Z.of_nat (length buf), buf).
Definition write_block (fuel : nat) (block : Z) (buf : list Z) : M T Z :=
  assertM (length buf =? 512)%nat;;
  set_transaction_size 512 512;;
  send_cmd_unwrap fuel WriteSingleBlock (as_u32 block) (TransWrite buf);;
  mret (Z.of_nat (length buf)).

(** ** Initialisation *)

Definition clock_cmd : Z :=
  field_with CmdReg "update_clock_registers_only" 1
    (field_with CmdReg "wait_prvdata_complete" 1 (field_with CmdReg "start_cmd" 1 0)).
Definition reset_clock (fuel : nat) : M T unit :=
  let clock_enable := 0 in
  write_reg CLOCK_ENABLE_REG clock_enable;;
  send_cmd fuel clock_cmd 0 TransNone;;
  write_reg CLK_DIVIDER_REG (field_with ClockDividerReg "clk_divider0" 4 0);;
  let clock_enable := field_with ClockEnableReg "clk_enable" 1 clock_enable in
  write_reg CLOCK_ENABLE_REG clock_enable;;
  send_cmd fuel clock_cmd 0 TransNone;;
  mret ().
(** The control word goes to the data register. *)
Definition reset_fifo : M T unit :=
  r ← read_reg CTRL_REG; write_reg FIFO_DATA_REG (field_with ControlReg "fifo_reset" 1 r).
Definition reset_dma : M T unit :=
  r ← read_reg BUS_MODE_REG;
  write_reg BUS_MODE_REG (field_with BusModeReg "swr" 1 (field_with BusModeReg "de" 0 r));;
  r ← read_reg CTRL_REG;
  write_reg CTRL_REG (field_with ControlReg "use_internal_dmac" 0 (field_with ControlReg "dma_reset" 1 r)).

Definition check_version (fuel : nat) : M T Z :=
  '(r, _) ← send_cmd_unwrap fuel SendIfCond 0x1aa TransNone;
  mret (if Z.land r 0xaa =? 0 then 1 else 2).
(** One round of [check_big_support]; [polls] bounds the rounds. *)
Definition big_support_turn (fuel : nat) (_ : unit) : M T (unit + bool) :=
  cmd55 ← lift (CmdReg_from AppCmd);
  send_cmd fuel cmd55 0 TransNone;;
  '(ocr, _) ← send_cmd_unwrap fuel SdSendOpCond (Z.lor (Z.lor (Z.shiftl 1 30) (Z.shiftl 1 24)) 0xFF8000) TransNone;
  if get_bit ocr 31 then mret (inr true) else sleep_ms fuel 10;; mret (inl ()).
Definition check_big_support (fuel polls : nat) : M T bool := loopM polls (big_support_turn fuel) ().
Definition check_cid (fuel : nat) : M T unit :=
  cmd2 ← lift (CmdReg_from AllSendCid); send_cmd fuel cmd2 0 TransNone;; mret ().
Definition check_rca (fuel : nat) : M T Z :=
  '(r, _) ← send_cmd_unwrap fuel SendRelativeAddr 0 TransNone; mret (Z.shiftr r 16).
Definition check_csd (fuel : nat) (rca : Z) : M T unit :=
  send_cmd_unwrap fuel SendCsd (shl32 rca 16) TransNone;; mret ().
Definition select_card (fuel : nat) (rca : Z) : M T unit :=
  send_cmd_unwrap fuel SelectCard (shl32 rca 16) TransNone;; mret ().
Definition check_bus_width (fuel : nat) (rca : Z) : M T Z :=
  send_cmd_unwrap fuel AppCmd (shl32 rca 16) TransNone;;
  set_transaction_size 8 8;;
  acmd51 ← lift (CmdReg_from SendScr);
  send_cmd fuel acmd51 0 (TransRead (replicate 512 0));;
  read_fifo FIFO_DATA_REG;;
  mret 0.
Definition test_read (fuel : nat) : M T unit :=
  set_transaction_size 512 512;;
  send_cmd_unwrap fuel ReadSingleBlock 0 (TransRead (replicate 512 0));;
  mret ().

Definition init_sdcard (fuel polls : nat) : M T unit :=
  foldM (λ _ addr, read_reg addr;; mret ()) ()
    [CDETECT_REG; POWER_REG; CLOCK_ENABLE_REG; CTYPE_REG; CTRL_REG; BUS_MODE_REG; DBADDRL_REG; DBADDRU_REG; CLK_DIVIDER_REG];;
  reset_clock fuel;;
  reset_fifo;;
  write_reg CTYPE_REG (field_with CardTypeReg "card_width4_1" 0 0);;
  reset_dma;;
  read_reg CTRL_REG;;
  cmd0 ← lift (CmdReg_from GoIdleState);
  send_cmd fuel cmd0 0 TransNone;;
  check_version fuel;;
  check_big_support fuel polls;;
  check_cid fuel;;
  rca ← check_rca fuel;
  check_csd fuel rca;;
  sleep_ms fuel 1;;
  select_card fuel rca;;
  read_reg STATUS_REG;;
  check_bus_width fuel rca;;
  test_read fuel;;
  raw ← read_reg RAW_INT_STATUS_REG;
  write_reg RAW_INT_STATUS_REG raw.

(** [Vf2SdDriver::read_block] and [write_block], whose results are unwrapped *)
Definition sd_driver (fuel : nat) : Vf2SdDriver T := {|
  sd_read_block := λ block buf, '(_, buf) ← read_block fuel block buf; mret buf;
  sd_write_block := λ block buf, write_block fuel block buf;; mret ();
|}.
End driver.
