(* ===== verification/SdController.v ===== *)
(** * The SD-card controller as the driver relies on it

    [SdControllerOk] states the documented behaviour of the controller (a DesignWare mobile storage host) and of the card
    behind it.  The controller works on its own between two accesses: [advance] is what it may have done by a given time, and
    every access first lets it advance and then shows or changes the state.  A command is taken and answered after some
    time, data arrive and leave one by one, the card stays busy for a while after a write, and the bits of the raw interrupt
    status are logged until they are cleared by writing ones; a controller without a card signals a response time-out.  Every
    access takes time, which the counter measures.  A simulated controller shows that the laws can be kept. *)

From Stdlib Require Import ZArith Lia String.
From stdpp Require Import prelude.
From S2P Require Import Prelude Config Time BlockCache Drivers SdRegs SdCard.

Open Scope Z_scope.

(** ** States *)

(** Times are in nanoseconds.  A time that ends a state is the latest one at which it ends.
    [Rx coming due]: the bytes [coming] have still to arrive in the FIFO.  [Tx block got level due]: the host has given the
    bytes [got], of which [level] are in the FIFO.  [Mute due]: nothing answers the command. *)
Inductive Phase :=
| Idle
| Rx (coming : list Z) (due : Z)
| Tx (block : Z) (got : list Z) (level : nat) (due : Z)
| Mute (due : Z).

Record Ctl := {
  c_card : bool;              (* there is a card *)
  c_sector : Z → list Z;
  c_arg : Z; c_blk : Z; c_cnt : Z;
  c_start : option Z;         (* a command waits to be taken *)
  c_resp : option Z;          (* a response is due *)
  c_busy : option Z;          (* the card is busy *)
  c_done : bool; c_rxdr : bool; c_txdr : bool; c_dto : bool; c_rto : bool; (* logged interrupts *)
  c_fifo : list Z;            (* the bytes in the FIFO, unless the host is sending *)
  c_phase : Phase;
}.
#[export] Instance Ctl_eta : Settable Ctl := λ r,
  {| c_card := c_card r; c_sector := c_sector r; c_arg := c_arg r; c_blk := c_blk r; c_cnt := c_cnt r;
     c_start := c_start r; c_resp := c_resp r; c_busy := c_busy r; c_done := c_done r; c_rxdr := c_rxdr r;
     c_txdr := c_txdr r; c_dto := c_dto r; c_rto := c_rto r; c_fifo := c_fifo r; c_phase := c_phase r |}.

Definition FIFO_BYTES : nat := 512.
(** The level, in bytes, below which the driver fills the FIFO: 120 words *)
Definition FILL_BYTES : nat := 480.

(** How long an access takes, how long the controller needs, and the receive watermark in words *)
Record Timing := {
  access_min : Z; access_max : Z;
  cmd_time : Z;       (* to take and to answer a command, or to give up waiting for the answer *)
  transfer_time : Z;  (* to receive a sector *)
  drain_time : Z;     (* to ask for data and to make room in a full FIFO *)
  store_time : Z;     (* to send the end of a sector *)
  busy_time : Z;      (* to programme a sector after that *)
  rx_mark : nat;
}.

(** One poll of a transfer makes at most 64 transfers of eight bytes, each with two accesses. *)
Definition poll_time (τ : Timing) : Z := 140 * access_max τ.
Definition ms_ns : Z := 1000000.

(** The time limits of the driver leave room for the controller: 100 ms for a busy card and 250 ms for a transfer, each less
    one millisecond lost in rounding. *)
Record timing_ok (τ : Timing) : Prop := {
  to_access : 0 < access_min τ ≤ access_max τ;
  to_pos : 0 ≤ cmd_time τ ∧ 0 ≤ transfer_time τ ∧ 0 ≤ drain_time τ ∧ 0 ≤ store_time τ ∧ 0 ≤ busy_time τ;
  to_cmd : cmd_time τ + 4 * poll_time τ ≤ 90 * ms_ns;
  to_busy : busy_time τ + 4 * poll_time τ ≤ 98 * ms_ns;
  to_rx : transfer_time τ + 4 * poll_time τ ≤ 248 * ms_ns;
  to_tx : cmd_time τ + 65 * (drain_time τ + 2 * poll_time τ) + store_time τ + 4 * poll_time τ ≤ 248 * ms_ns;
  to_mark : (4 * rx_mark τ < FIFO_BYTES)%nat;
}.

(** ** What the controller does on its own *)

Section behaviour.
Context (τ : Timing).
Implicit Types (n : Z) (c : Ctl).

(** A state that ends at the latest at the time it carries, at time [n] *)
Definition later (n : Z) (o o' : option Z) : Prop :=
  match o with
  | None => o' = None
  | Some d => o' = None ∨ o' = Some d ∧ n < d
  end.
Definition is_some {A} (o : option A) : bool := match o with Some _ => true | None => false end.

(** The receive interrupt is logged at the latest when the FIFO has passed the watermark. *)
Definition rx_logged c (fifo : list Z) (rxdr : bool) : Prop :=
  c_rxdr c = true ∨ (4 * rx_mark τ < length fifo)%nat → rxdr = true.

Inductive progress (n : Z) : Ctl → Ctl → Prop :=
| idle_on c b : c_phase c = Idle → later n (c_busy c) b → progress n c (c <| c_busy := b |>)
| rx_on c bs coming due rxdr :
    c_phase c = Rx (bs ++ coming) due → n < due → rx_logged c (c_fifo c ++ bs) rxdr →
    progress n c (c <| c_fifo := c_fifo c ++ bs |> <| c_phase := Rx coming due |> <| c_rxdr := rxdr |>)
| rx_over c bs due rxdr :
    c_phase c = Rx bs due → rx_logged c (c_fifo c ++ bs) rxdr →
    progress n c (c <| c_fifo := c_fifo c ++ bs |> <| c_phase := Idle |> <| c_rxdr := rxdr |> <| c_dto := true |>)
| tx_on c block got level level' due :
    c_phase c = Tx block got level due → (level' ≤ level)%nat →
    (due ≤ n → length got ≠ 512%nat ∧ c_txdr c = true ∧ (level' < FILL_BYTES)%nat) →
    progress n c (c <| c_phase := Tx block got level' due |>)
| tx_over c block got level due b :
    c_phase c = Tx block got level due → length got = 512%nat → (∀ d, b = Some d → d ≤ n + busy_time τ) →
    progress n c (c <| c_phase := Idle |> <| c_dto := true |> <| c_busy := b |>
                    <| c_sector ::= λ s i, if decide (i = block) then got else s i |>)
| mute_on c due : c_phase c = Mute due → n < due → progress n c c
| mute_over c due : c_phase c = Mute due → progress n c (c <| c_phase := Idle |> <| c_rto := true |>).

(** What the controller may have become by the time [n].  Nothing happens before a command is taken.  The transmit interrupt
    may be logged at any time. *)
Inductive advance (n : Z) : Ctl → Ctl → Prop :=
| adv_wait c d : c_start c = Some d → n < d → advance n c c
| adv_run c r txdr c' :
    later n (c_resp c) r → (c_txdr c = true → txdr = true) →
    progress n (c <| c_start := None |> <| c_resp := r |> <| c_txdr := txdr |>
                  <| c_done := c_done c || (is_some (c_resp c) && negb (is_some r)) |>) c' →
    advance n c c'.

(** ** What the accesses show and do *)

Definition int_of (v : Z) : Z := field_get RawInterruptStatusReg "int_status" v.
Definition fifo_words c : Z :=
  match c_phase c with
  | Tx _ _ level _ => Z.of_nat level / 4
  | _ => Z.of_nat (length (c_fifo c)) / 4
  end.

(** The registers that are read; no error but a response time-out occurs. *)
Definition shows (a v : Z) c : Prop :=
  (a = CMD_REG → flag CmdReg "start_cmd" v = is_some (c_start c)) ∧
  (a = STATUS_REG → (c_phase c = Idle → flag StatusReg "data_busy" v = is_some (c_busy c)) ∧
                    (fifo_words c ≤ 128 → field_get StatusReg "fifo_count" v = fifo_words c)) ∧
  (a = RAW_INT_STATUS_REG →
     flag RawInterrupt "command_done" (int_of v) = c_done c ∧ flag RawInterrupt "rxdr" (int_of v) = c_rxdr c ∧
     flag RawInterrupt "txdr" (int_of v) = c_txdr c ∧ flag RawInterrupt "dto" (int_of v) = c_dto c ∧
     flag RawInterrupt "rto" (int_of v) = c_rto c ∧ have_error (int_of v) = c_rto c).

(** The words of the two data commands ([command_words]) *)
Definition READ_CMD : Z := 0xA0002351.
Definition WRITE_CMD : Z := 0xA0002758.

(** The phase a data command starts *)
Definition starts (n cmd : Z) c (p : Phase) : Prop :=
  if c_card c then
    if cmd =? READ_CMD then ∃ due, p = Rx (c_sector c (c_arg c)) due ∧ due ≤ n + transfer_time τ
    else ∃ due, p = Tx (c_arg c) [] 0 due ∧ due ≤ n + cmd_time τ + drain_time τ
  else ∃ due, p = Mute due ∧ due ≤ n + cmd_time τ.

(** Writing ones clears the interrupts. *)
Definition cleared (v : Z) c : Ctl :=
  c <| c_done ::= λ b, b && negb (flag RawInterrupt "command_done" (int_of v)) |>
    <| c_rxdr ::= λ b, b && negb (flag RawInterrupt "rxdr" (int_of v)) |>
    <| c_txdr ::= λ b, b && negb (flag RawInterrupt "txdr" (int_of v)) |>
    <| c_dto ::= λ b, b && negb (flag RawInterrupt "dto" (int_of v)) |>
    <| c_rto ::= λ b, b && negb (flag RawInterrupt "rto" (int_of v)) |>.

(** The registers that are written.  A command register must not be written while a command waits to be taken, and a data
    command not while a transfer is under way or the card is busy: nothing is known about that. *)
Definition writes (n a v : Z) c c' : Prop :=
  (a = RAW_INT_STATUS_REG → c' = cleared v c) ∧
  (c_start c = None → c_phase c = Idle →
    (a = BLK_SIZE_REG → c' = c <| c_blk := v |>) ∧
    (a = BYTE_CNT_REG → c' = c <| c_cnt := v |>) ∧
    (a = ARG_REG → c' = c <| c_arg := v |>) ∧
    (a = CMD_REG → c_busy c = None → c_blk c = 512 → c_cnt c = 512 → v = READ_CMD ∨ v = WRITE_CMD →
       ∃ s r p, s ≤ n + cmd_time τ ∧ r ≤ n + cmd_time τ ∧ starts n v c p ∧
         c' = c <| c_start := Some s |> <| c_resp := Some r |> <| c_phase := p |>)).

Definition fifo_address (a : Z) : Prop := FIFO_DATA_REG ≤ a < FIFO_DATA_REG + Z.of_nat FIFO_BYTES.

(** Eight bytes are taken from the FIFO or put into it. *)
Definition takes (v : Z) c c' : Prop :=
  (∀ block got level due, c_phase c ≠ Tx block got level due) → (8 ≤ length (c_fifo c))%nat →
  v = le_word (take 8 (c_fifo c)) ∧ c' = c <| c_fifo := drop 8 (c_fifo c) |>.
Definition gives (n v : Z) c c' : Prop :=
  match c_phase c with
  | Tx block got level due => (length got + 8 ≤ 512)%nat → (level + 8 ≤ FIFO_BYTES)%nat →
      ∃ due', c' = c <| c_phase := Tx block (got ++ le_bytes 8 v) (level + 8) due' |> ∧
        due' ≤ n + (if (length got + 8 <? 512)%nat then drain_time τ else store_time τ)
  | Rx _ _ => True
  | _ => c' = c <| c_fifo := c_fifo c ++ le_bytes 8 v |>
  end.
End behaviour.

(** The counter of the board has 4 MHz, a tick of 250 ns, and 64 bits. *)
Definition TICK_NS : Z := 250.

Class SdControllerOk (T : Type) `{!SDIo T, !Clock T} := {
  ctl : T → Ctl;
  now : T → Z;
  timing : Timing;
  timing_law : timing_ok timing;
  took (t t' : T) : Prop := now t + access_min timing ≤ now t' ≤ now t + access_max timing;
  time_law t : let '(v, t') := read_time t in v = (now t / TICK_NS) mod W64 ∧ took t t' ∧ ctl t' = ctl t;
  reg_law a t : a < FIFO_DATA_REG → let '(v, t') := read_reg_at a t in
    took t t' ∧ advance timing (now t') (ctl t) (ctl t') ∧ shows a v (ctl t');
  wreg_law a v t : a < FIFO_DATA_REG → let t' := write_reg_at a v t in
    took t t' ∧ ∃ c, advance timing (now t') (ctl t) c ∧ writes timing (now t') a v c (ctl t');
  data_law a t : fifo_address a → let '(v, t') := read_data_at a t in
    took t t' ∧ ∃ c, advance timing (now t') (ctl t) c ∧ takes v c (ctl t');
  wdata_law a v t : fifo_address a → let t' := write_data_at a v t in
    took t t' ∧ ∃ c, advance timing (now t') (ctl t) c ∧ gives timing (now t') v c (ctl t');
}.

(** ** A simulated controller *)

(** Every access takes ten microseconds.  The simulation does things as late as the laws allow, except that it delivers a
    sector in parts. *)
Record Sim := { s_ctl : Ctl; s_now : Z }.

Definition sim_timing : Timing :=
  {| access_min := 10000; access_max := 10000; cmd_time := 25000; transfer_time := 100000; drain_time := 30000;
     store_time := 50000; busy_time := 200000; rx_mark := 15 |}.
Lemma sim_timing_ok : timing_ok sim_timing.
Proof. split; unfold poll_time, ms_ns, FIFO_BYTES; cbn -[Z.mul Z.add]; lia. Qed.

Definition sim_later (n : Z) (o : option Z) : option Z :=
  match o with Some d => if n <? d then Some d else None | None => None end.
Definition sim_rxdr (c : Ctl) (fifo : list Z) : bool := c_rxdr c || (60 <? length fifo)%nat.
Definition sim_progress (n : Z) (c : Ctl) : Ctl :=
  match c_phase c with
  | Idle => c <| c_busy := sim_later n (c_busy c) |>
  | Rx coming due =>
      if n <? due then
        let k := if n <? due - 50000 then 0%nat else 248%nat in
        c <| c_fifo := c_fifo c ++ take k coming |> <| c_phase := Rx (drop k coming) due |>
          <| c_rxdr := sim_rxdr c (c_fifo c ++ take k coming) |>
      else c <| c_fifo := c_fifo c ++ coming |> <| c_phase := Idle |>
             <| c_rxdr := sim_rxdr c (c_fifo c ++ coming) |> <| c_dto := true |>
  | Tx block got level due =>
      if n <? due then c <| c_phase := Tx block got level due |>
      else if (length got =? 512)%nat then
        c <| c_phase := Idle |> <| c_dto := true |> <| c_busy := Some (n + busy_time sim_timing) |>
          <| c_sector ::= λ s i, if decide (i = block) then got else s i |>
      else c <| c_phase := Tx block got 0 due |>
  | Mute due => if n <? due then c else c <| c_phase := Idle |> <| c_rto := true |>
  end.
Definition sim_txdr (n : Z) (c : Ctl) : bool :=
  c_txdr c || match c_phase c with Tx _ _ _ due => due <=? n | _ => false end.
Definition sim_run (n : Z) (c : Ctl) : Ctl :=
  let r := sim_later n (c_resp c) in
  sim_progress n (c <| c_start := None |> <| c_resp := r |> <| c_txdr := sim_txdr n c |>
                    <| c_done := c_done c || (is_some (c_resp c) && negb (is_some r)) |>).
Definition sim_advance (n : Z) (c : Ctl) : Ctl :=
  match c_start c with
  | Some d => if n <? d then c else sim_run n c
  | None => sim_run n c
  end.

Definition int_bit (name : string) (b : bool) (v : Z) : Z := if b then field_with RawInterrupt name 1 v else v.
Definition sim_shows (a : Z) (c : Ctl) : Z :=
  if a =? CMD_REG then if is_some (c_start c) then field_with CmdReg "start_cmd" 1 0 else 0
  else if a =? STATUS_REG then
    (if is_some (c_busy c) then 2 ^ 9 else 0) + fifo_words c mod 2 ^ 13 * 2 ^ 17
  else if a =? RAW_INT_STATUS_REG then
    int_bit "command_done" (c_done c) (int_bit "rxdr" (c_rxdr c) (int_bit "txdr" (c_txdr c) (int_bit "dto" (c_dto c)
      (int_bit "rto" (c_rto c) 0))))
  else 0.

Definition sim_writes (n a v : Z) (c : Ctl) : Ctl :=
  if a =? BLK_SIZE_REG then c <| c_blk := v |>
  else if a =? BYTE_CNT_REG then c <| c_cnt := v |>
  else if a =? ARG_REG then c <| c_arg := v |>
  else if a =? RAW_INT_STATUS_REG then cleared v c
  else if a =? CMD_REG then
    c <| c_start := Some (n + cmd_time sim_timing) |> <| c_resp := Some (n + cmd_time sim_timing) |>
      <| c_phase := if negb (c_card c) then Mute (n + cmd_time sim_timing)
                    else if v =? READ_CMD then Rx (c_sector c (c_arg c)) (n + transfer_time sim_timing)
                    else Tx (c_arg c) [] 0 (n + cmd_time sim_timing + drain_time sim_timing) |>
  else c.
Definition sim_gives (n v : Z) (c : Ctl) : Ctl :=
  match c_phase c with
  | Tx block got level _ =>
      c <| c_phase := Tx block (got ++ le_bytes 8 v) (level + 8)
             (n + (if (length got + 8 <? 512)%nat then drain_time sim_timing else store_time sim_timing)) |>
  | Rx _ _ => c
  | _ => c <| c_fifo := c_fifo c ++ le_bytes 8 v |>
  end.

(** An access: the controller advances to the time of its end. *)
Definition sim_step {A} (f : Z → Ctl → A * Ctl) (s : Sim) : A * Sim :=
  let n := s_now s + 10000 in
  let '(a, c) := f n (sim_advance n (s_ctl s)) in (a, {| s_ctl := c; s_now := n |}).
#[export] Instance sim_io : SDIo Sim := {|
  read_reg_at a s := sim_step (λ _ c, (sim_shows a c, c)) s;
  write_reg_at a v s := (sim_step (λ n c, ((), sim_writes n a v c)) s).2;
  read_data_at a s := sim_step (λ _ c, (le_word (take 8 (c_fifo c)), c <| c_fifo := drop 8 (c_fifo c) |>)) s;
  write_data_at a v s := (sim_step (λ n c, ((), sim_gives n v c)) s).2;
|}.
#[export] Instance sim_clock : Clock Sim :=
  {| read_time s := ((s_now s / TICK_NS) mod W64, {| s_ctl := s_ctl s; s_now := s_now s + 10000 |}) |}.

Lemma sim_later_ok n o : later n o (sim_later n o).
Proof. destruct o as [d|]; cbn; [|done]. destruct (Z.ltb_spec n d); auto. Qed.
Lemma sim_rxdr_ok c fifo : rx_logged sim_timing c fifo (sim_rxdr c fifo).
Proof.
  unfold rx_logged, sim_rxdr. intros [-> |H]; [done|]. rewrite (proj2 (Nat.ltb_lt _ _)) by (exact H). apply orb_true_r.
Qed.

Lemma sim_progress_ok n c :
  (∀ block got level due, c_phase c = Tx block got level due → due ≤ n → c_txdr c = true) →
  progress sim_timing n c (sim_progress n c).
Proof.
  intros Htx. unfold sim_progress. destruct (c_phase c) as [|coming due|block got level due|due] eqn:Ep.
  - by apply idle_on; [|apply sim_later_ok].
  - destruct (Z.ltb_spec n due).
    + set (k := if n <? _ then 0%nat else _). apply (rx_on _ _ _ (take k coming)); [by rewrite take_drop|done|apply sim_rxdr_ok].
    + by eapply rx_over; [|apply sim_rxdr_ok].
  - destruct (Z.ltb_spec n due) as [Hn|Hn].
    + eapply tx_on; [done|done|lia].
    + destruct (Nat.eqb_spec (length got) 512).
      * eapply tx_over; [done|done|]. intros d [= <-]. done.
      * eapply tx_on; [done|lia|]. unfold FILL_BYTES. intros _. split_and!; [done|by eapply Htx|lia].
  - destruct (Z.ltb_spec n due); [by eapply mute_on|by eapply mute_over].
Qed.
Lemma sim_advance_ok n c : advance sim_timing n c (sim_advance n c).
Proof.
  assert (advance sim_timing n c (sim_run n c)) as Hrun.
  { eapply adv_run; [apply sim_later_ok| |apply sim_progress_ok].
    - unfold sim_txdr. by intros ->.
    - intros block got level due E Hd. change (c_phase c = Tx block got level due) in E.
      change (sim_txdr n c = true). unfold sim_txdr. rewrite E, (proj2 (Z.leb_le _ _) Hd). apply orb_true_r. }
  unfold sim_advance. destruct (c_start c) as [d|] eqn:Es; [|done]. destruct (Z.ltb_spec n d); [by eapply adv_wait|done].
Qed.

Lemma sim_shows_ok a c : shows a (sim_shows a c) c.
Proof.
  split_and!; intros ->; unfold sim_shows; cbn [Z.eqb Pos.eqb CMD_REG STATUS_REG RAW_INT_STATUS_REG].
  - by destruct (c_start c).
  - set (w := fifo_words c). assert (0 ≤ w) by (unfold w, fifo_words; destruct (c_phase c); apply Z.div_pos; lia).
    change (field_get StatusReg "fifo_count") with (bits_get 17 13).
    change (flag StatusReg "data_busy") with (λ r, negb (bits_get 9 1 r =? 0)). cbv beta. unfold bits_get.
    rewrite !Z.land_ones, !Z.shiftr_div_pow2 by lia. split; intros.
    + destruct (is_some (c_busy c)); [rewrite (proj2 (Z.eqb_neq _ _))|rewrite (proj2 (Z.eqb_eq _ _))];
        [done| |done|]; Z.to_euclidean_division_equations; lia.
    + destruct (is_some (c_busy c)); Z.to_euclidean_division_equations; lia.
  - by destruct (c_done c), (c_rxdr c), (c_txdr c), (c_dto c), (c_rto c).
Qed.
Lemma sim_writes_ok n a v c : writes sim_timing n a v c (sim_writes n a v c).
Proof.
  split; [by intros ->|]. intros _ _. split_and!; intros ->; [done..|]. intros _ _ _ Hv. eexists _, _, _.
  split_and!; [reflexivity|reflexivity| |reflexivity]. unfold starts. destruct (c_card c); cbn [negb]; [|by eexists].
  destruct (v =? READ_CMD); by eexists.
Qed.
Lemma sim_gives_ok n v c : gives sim_timing n v c (sim_gives n v c).
Proof. unfold gives, sim_gives. destruct (c_phase c); [done|done| |done]. intros _ _. by eexists. Qed.

#[export] Program Instance sim_ok : SdControllerOk Sim := {| ctl := s_ctl; now := s_now; timing := sim_timing |}.
Next Obligation. apply sim_timing_ok. Qed.
Next Obligation. intros s. cbn. split_and!; [done|lia|lia|done]. Qed.
Next Obligation. intros a s _. cbn. split_and!; [lia|lia|apply sim_advance_ok|apply sim_shows_ok]. Qed.
Next Obligation. intros a v s _. cbn. split; [lia|]. eexists. split; [apply sim_advance_ok|apply sim_writes_ok]. Qed.
Next Obligation. intros a s _. cbn. split; [lia|]. eexists. split; [apply sim_advance_ok|done]. Qed.
Next Obligation. intros a v s _. cbn. split; [lia|]. eexists. split; [apply sim_advance_ok|apply sim_gives_ok]. Qed.

(** A controller at rest, with a card whose sectors hold their number, or without a card *)
Definition sim_card (card : bool) : Sim :=
  {| s_ctl := {| c_card := card; c_sector := λ i, replicate 512 (i mod 256); c_arg := 0; c_blk := 0; c_cnt := 0;
                 c_start := None; c_resp := None; c_busy := None; c_done := false; c_rxdr := false; c_txdr := false;
                 c_dto := false; c_rto := false; c_fifo := []; c_phase := Idle |};
     s_now := 0 |}.
