(* ===== verification/SdSpec.v ===== *)
(** * Theorems on the SD-card driver

    On a controller that keeps the laws of [SdController] the driver reads and writes sectors, which is what
    [Vf2SdDriverOk] asks of it, and a card that does not answer stops the kernel. *)

From Stdlib Require Import ZArith Lia String.
From stdpp Require Import prelude.
From S2P Require Import Prelude Config Time BlockCache Drivers SdRegs SdCard SdController.

Open Scope Z_scope.

(** ** What the controller does between accesses *)

Lemma later_some n o d : later n o (Some d) → o = Some d ∧ n < d.
Proof. destruct o as [d'|]; cbn; [|done]. intros [?|[[= ->] ?]]; done. Qed.

(** At rest only these change. *)
Definition quiet (c c' : Ctl) : Prop :=
  ∃ b r d x, c' = c <| c_busy := b |> <| c_resp := r |> <| c_done := d |> <| c_txdr := x |>.

Lemma quiet_refl c : quiet c c.
Proof. exists (c_busy c), (c_resp c), (c_done c), (c_txdr c). by destruct c. Qed.
Lemma quiet_trans c1 c2 c3 : quiet c1 c2 → quiet c2 c3 → quiet c1 c3.
Proof. intros (b1 & r1 & d1 & x1 & ->) (b2 & r2 & d2 & x2 & ->). by exists b2, r2, d2, x2. Qed.

Lemma advance_idle τ n c c' :
  advance τ n c c' → c_phase c = Idle → c_start c = None → quiet c c' ∧ later n (c_busy c) (c_busy c').
Proof.
  intros H Hp Hs. destruct H as [c d E _|c r x c' _ _ H]; [congruence|].
  inversion H; subst; cbn in *; try congruence. split; [|done]. destruct c; cbn in *; subst.
  by eexists _, _, _, _.
Qed.

(** A command under way: it is taken and answered by the time [K]. *)
Definition pending (K : Z) (c : Ctl) : Prop :=
  (∀ d, c_start c = Some d → d ≤ K) ∧ (c_done c = false → ∃ r, c_resp c = Some r ∧ r ≤ K).

Lemma progress_frame τ n c c' : progress τ n c c' →
  c_start c' = c_start c ∧ c_resp c' = c_resp c ∧ c_done c' = c_done c ∧ c_card c' = c_card c.
Proof. destruct 1; by split_and!. Qed.

Lemma advance_pending τ n K c c' :
  advance τ n c c' → pending K c → pending K c' ∧ (c_start c' ≠ None → n < K) ∧ (c_done c' = false → n < K).
Proof.
  intros H [Hs Hd]. destruct H as [c d E Hn|c r x c' Hr _ H].
  - specialize (Hs d E). split_and!; [split; [|done]|intros; lia|intros; lia]. rewrite E. by intros ? [= <-].
  - apply progress_frame in H as (E1 & E2 & E3 & _). cbn in E1, E2, E3. split_and!.
    + split; [congruence|]. rewrite E3, E2. intros [H1 H2]%orb_false_iff. destruct (Hd H1) as (d & Ed & Hk).
      rewrite Ed in Hr, H2. destruct Hr as [-> |[-> _]]; [done|]. eauto.
    + by rewrite E1.
    + rewrite E3. intros [H1 H2]%orb_false_iff. destruct (Hd H1) as (d & Ed & Hk).
      rewrite Ed in Hr, H2. destruct Hr as [-> |[-> ?]]; [done|]. lia.
Qed.

Section controller.
Context {T : Type} `{!SDIo T, !Clock T, !SdControllerOk T}.
Implicit Types (t : T) (c : Ctl).

Abbreviation τ := timing.
Abbreviation am := (access_max timing).
Abbreviation poll := (poll_time timing).

(** [c] returns from [t] within the time [d] with a result in [Q]. *)
Definition does {A} (c : M T A) (d : Z) (t : T) (Q : A → T → Prop) : Prop :=
  ∃ a t', c t = Ok (a, t') ∧ now t ≤ now t' ≤ now t + d ∧ Q a t'.

Lemma does_ret {A} (a : A) t (Q : A → T → Prop) : Q a t → does (mret a) 0 t Q.
Proof. intros H. exists a, t. split_and!; [done|lia|lia|done]. Qed.
Lemma does_bind {A B} (c : M T A) (k : A → M T B) n m t (Q : B → T → Prop) :
  does c n t (λ a t', does (k a) m t' Q) → does (c ≫= k) (n + m) t Q.
Proof.
  intros (a & t1 & E & Ht & b & t2 & E2 & Ht2 & HQ). exists b, t2.
  split_and!; [by rewrite (bind_Ok _ _ _ _ _ E)|lia|lia|done].
Qed.
Lemma does_post {A} (c : M T A) n t (Q Q' : A → T → Prop) :
  does c n t Q → (∀ a t', now t ≤ now t' ≤ now t + n → Q a t' → Q' a t') → does c n t Q'.
Proof. intros (a & t' & E & Ht & HQ) H. exists a, t'. auto. Qed.
Lemma does_cost {A} (c : M T A) n m t (Q : A → T → Prop) : does c n t Q → n ≤ m → does c m t Q.
Proof. intros (a & t' & E & Ht & HQ) Hn. exists a, t'. split_and!; [done|lia|lia|done]. Qed.

(** The next operation, by what it is known to do *)
Tactic Notation "does_step" uconstr(H) "as" simple_intropattern(a) simple_intropattern(t) simple_intropattern(Ht) simple_intropattern(Q) :=
  eapply does_bind, does_post; [apply H|intros a t Ht Q].

Lemma am_pos : 0 < am.
Proof. pose proof (to_access _ timing_law). lia. Qed.

(** *** Single accesses *)

Lemma does_reg a t : a < FIFO_DATA_REG →
  does (read_reg a) am t (λ v t', advance τ (now t') (ctl t) (ctl t') ∧ shows a v (ctl t')).
Proof.
  intros Ha. pose proof (reg_law a t Ha) as L. pose proof (to_access _ timing_law). unfold does, read_reg.
  destruct (read_reg_at a t) as [v t']. destruct L as (Ht & Hadv & Hs). unfold took in Ht.
  exists v, t'. split_and!; [done|lia|lia|done|done].
Qed.
Lemma does_wreg a v t : a < FIFO_DATA_REG →
  does (write_reg a v) am t (λ _ t', ∃ c, advance τ (now t') (ctl t) c ∧ writes τ (now t') a v c (ctl t')).
Proof.
  intros Ha. pose proof (wreg_law a v t Ha) as [Ht L]. pose proof (to_access _ timing_law). unfold took in Ht.
  exists (), (write_reg_at a v t). split_and!; [done|lia|lia|exact L].
Qed.
Lemma does_take a t : fifo_address a →
  does (read_fifo a) am t (λ v t', ∃ c, advance τ (now t') (ctl t) c ∧ takes v c (ctl t')).
Proof.
  intros Ha. pose proof (data_law a t Ha) as L. pose proof (to_access _ timing_law). unfold does, read_fifo.
  destruct (read_data_at a t) as [v t']. destruct L as (Ht & L). unfold took in Ht. exists v, t'. split_and!; [done|lia|lia|done].
Qed.
Lemma does_give a v t : fifo_address a →
  does (write_fifo a v) am t (λ _ t', ∃ c, advance τ (now t') (ctl t) c ∧ gives τ (now t') v c (ctl t')).
Proof.
  intros Ha. pose proof (wdata_law a v t Ha) as [Ht L]. pose proof (to_access _ timing_law). unfold took in Ht.
  exists (), (write_data_at a v t). split_and!; [done|lia|lia|exact L].
Qed.

(** *** The clock *)

(** The milliseconds the driver reads at the time [n] *)
Definition ms_of (n : Z) : Z := (n / TICK_NS * MSEC_PER_SEC) mod W64 / VF2_CLOCK_FREQ.
(** The state after a reading of the clock *)
Definition ticked t t' : Prop := ctl t' = ctl t ∧ now t + access_min τ ≤ now t' ≤ now t + am.

Lemma does_now t : ∃ t', now_ms t = Ok (ms_of (now t), t') ∧ ticked t t'.
Proof.
  pose proof (time_law t) as L. unfold now_ms. destruct (read_time t) as [v t']. destruct L as (-> & Ht & Hc). exists t'.
  split; [|done]. unfold ms_of, wmul, wrap. by rewrite Z.mul_mod_idemp_l by (unfold W64; lia).
Qed.

(** A wait of [ms] milliseconds waits for at least [ms - 1] of them, whether or not the counter overflows. *)
Lemma ms_before n n' ms :
  n ≤ n' → n' - n ≤ (ms - 1) * ms_ns - TICK_NS → ms ≤ 1000 → ms_of n' < wadd (ms_of n) ms.
Proof.
  unfold ms_of, ms_ns, TICK_NS, MSEC_PER_SEC, VF2_CLOCK_FREQ. intros Hn Hms Hb.
  set (q := n / 250). set (q' := n' / 250). assert (0 ≤ q' - q ≤ (ms - 1) * 4000) by (unfold q, q'; Z.to_euclidean_division_equations; lia).
  assert (W64 = 18446744073709551616) as HW by done.
  pose proof (Z.mod_pos_bound (q * 1000) W64 ltac:(lia)) as Ha. set (a := (q * 1000) mod W64) in *.
  assert ((q' * 1000) mod W64 ≤ a + (q' - q) * 1000) as Hle.
  { replace (q' * 1000) with (q * 1000 + (q' - q) * 1000) by lia. rewrite <-Z.add_mod_idemp_l by lia. fold a.
    apply Z.mod_le; lia. }
  assert (wadd (a / 4000000) ms = a / 4000000 + ms) as ->.
  { apply wadd_small; [apply Z.div_pos; lia|lia|]. assert (a / 4000000 ≤ a) by (apply Z.div_le_upper_bound; lia).
    Z.to_euclidean_division_equations; lia. }
  apply (Z.div_le_mono _ _ 4000000) in Hle; [|lia].
  assert ((a + (q' - q) * 1000) / 4000000 ≤ a / 4000000 + (ms - 1)); [|lia].
  rewrite <-Z.div_add by lia. apply Z.div_le_mono; lia.
Qed.

(** ** Waiting *)

(** A wait keeps [P], which bounds the time, until its condition is found or the time limit has passed, and then has [Q]. *)
Lemma sleep_does {A} (P Q : A → T → Prop) (f : A → M T (bool * A)) d D ms fuel a t :
  0 ≤ d → (∀ a t', P a t' → now t' ≤ D) →
  (∀ a t' t1, P a t' → ticked t' t1 → does (f a) d t1 (λ r t2, if (r.1 : bool) then Q r.2 t2 else P r.2 t2)) →
  (∀ a t' t1, P a t' → ticked t' t1 → now t ≤ now t' → wadd (ms_of (now t)) ms ≤ ms_of (now t') → Q a t1) →
  (∀ t1, ticked t t1 → P a t1) → D - now t < Z.of_nat fuel * access_min τ →
  does (sleep_ms_until fuel ms f a) (Z.max 0 (D - now t) + am + d) t Q.
Proof.
  intros Hd HD Hf Hexit HP Hfuel. pose proof (to_access _ timing_law) as Hacc.
  assert (∀ fuel a t', P a t' → now t ≤ now t' → D - now t' < Z.of_nat fuel * access_min τ →
    ∃ r t2, loopM fuel (sleep_turn (wadd (ms_of (now t)) ms) f) a t' = Ok (r, t2) ∧
      now t ≤ now t2 ≤ D + am + d ∧ Q r t2) as Hloop.
  { clear HP Hfuel a fuel. induction fuel as [|fuel IH]; intros a t' HPt Ht' Hfu; pose proof (HD _ _ HPt); [lia|].
    cbn [loopM]. destruct (does_now t') as (t1 & E1 & Ht1). pose proof (proj2 Ht1) as Hn1. set (e := wadd _ _).
    destruct (Z.ltb_spec (ms_of (now t')) e) as [Hlt|Hge].
    - destruct (Hf _ _ _ HPt Ht1) as ([b a'] & t2 & E2 & Hn2 & HQ).
      assert (sleep_turn e f a t' = Ok (if b then inr a' else inl a', t2)) as Et.
      { unfold sleep_turn. rewrite (bind_Ok _ _ _ _ _ E1), (proj2 (Z.ltb_lt _ _) Hlt). by rewrite (bind_Ok _ _ _ _ _ E2). }
      rewrite (bind_Ok _ _ _ _ _ Et). destruct b; cbn in HQ.
      + exists a', t2. split_and!; [done|lia|lia|done].
      + apply IH; [done|lia|lia].
    - assert (sleep_turn e f a t' = Ok (inr a, t1)) as Et.
      { unfold sleep_turn. by rewrite (bind_Ok _ _ _ _ _ E1), (proj2 (Z.ltb_ge _ _) Hge). }
      rewrite (bind_Ok _ _ _ _ _ Et). exists a, t1. split_and!; [done|lia|lia|]. by apply (Hexit a t' t1). }
  destruct (does_now t) as (t1 & E1 & Ht1). pose proof (proj2 Ht1) as Hn1. unfold sleep_ms_until.
  destruct (Hloop fuel a t1 (HP _ Ht1)) as (r & t2 & E2 & Ht2 & HQ); [lia|lia|].
  exists r, t2. rewrite (bind_Ok _ _ _ _ _ E1). split_and!; [done|lia|lia|done].
Qed.

(** A condition without state, which is then asked for once more *)
Lemma wait_does (P Q : T → Prop) (R : bool → T → Prop) (f : M T bool) d D ms fuel t :
  0 ≤ d → (∀ t', P t' → now t' ≤ D) →
  (∀ t' t1, P t' → ticked t' t1 → does f d t1 (λ b t2, if b then Q t2 else P t2)) →
  (∀ t' t1, P t' → ticked t' t1 → now t ≤ now t' → wadd (ms_of (now t)) ms ≤ ms_of (now t') → Q t1) →
  (∀ t1, ticked t t1 → P t1) → D - now t < Z.of_nat fuel * access_min τ →
  (∀ t1, Q t1 → does f d t1 R) →
  does (wait_until fuel ms f) (Z.max 0 (D - now t) + am + 2 * d) t R.
Proof.
  intros Hd HD Hf Hexit HP Hfuel HR. unfold wait_until. eapply does_cost; [eapply does_bind|].
  - eapply does_post; [apply (sleep_does (λ _, P) (λ _, Q) _ d D)|intros [] t1 _; apply HR]; [done|intros [] t'; apply HD|..|done|done].
    + intros [] t' t1 HPt Ht1. eapply does_cost; [eapply does_bind, does_post; [by apply (Hf t')|]|instantiate (1 := 0); lia].
      intros b t2 _ HQ. by apply does_ret.
    + intros []. apply Hexit.
  - lia.
Qed.

Lemma ticked_now t t' : ticked t t' → now t ≤ now t' ≤ now t + am.
Proof. intros [_ ?]. pose proof (to_access _ timing_law). lia. Qed.

(** *** Registers asked for in a wait *)

Lemma does_start t : does can_send_cmd am t (λ b t', advance τ (now t') (ctl t) (ctl t') ∧ b = negb (is_some (c_start (ctl t')))).
Proof.
  unfold can_send_cmd. eapply does_cost; [does_step (does_reg CMD_REG t eq_refl) as v t1 _ (Hadv & Hs & _)|instantiate (1 := 0); lia].
  apply does_ret. by rewrite (Hs eq_refl).
Qed.
Lemma does_busy t : c_phase (ctl t) = Idle → c_start (ctl t) = None →
  does can_send_data am t (λ b t', advance τ (now t') (ctl t) (ctl t') ∧ b = negb (is_some (c_busy (ctl t')))).
Proof.
  intros Hp Hs. unfold can_send_data.
  eapply does_cost; [does_step (does_reg STATUS_REG t eq_refl) as v t1 _ (Hadv & _ & Hst & _)|instantiate (1 := 0); lia].
  apply does_ret. destruct (advance_idle _ _ _ _ Hadv Hp Hs) as [(? & ? & ? & ? & E) _].
  destruct (Hst eq_refl) as [Hb _]. rewrite Hb; [done|]. rewrite E. done.
Qed.
Lemma does_ints t :
  does read_int_status am t (λ i t', advance τ (now t') (ctl t) (ctl t') ∧
    flag RawInterrupt "command_done" i = c_done (ctl t') ∧ flag RawInterrupt "rxdr" i = c_rxdr (ctl t') ∧
    flag RawInterrupt "dto" i = c_dto (ctl t') ∧ have_error i = c_rto (ctl t')).
Proof.
  unfold read_int_status.
  eapply does_cost; [does_step (does_reg RAW_INT_STATUS_REG t eq_refl) as v t1 _ (Hadv & _ & _ & Hs)|instantiate (1 := 0); lia].
  destruct (Hs eq_refl) as (H1 & H2 & H3 & H4 & H5 & H6). apply does_ret. by split_and!.
Qed.
Lemma does_count t :
  does fifo_filled_cnt am t (λ n t', advance τ (now t') (ctl t) (ctl t') ∧ (fifo_words (ctl t') ≤ 128 → n = fifo_words (ctl t'))).
Proof.
  unfold fifo_filled_cnt.
  eapply does_cost; [does_step (does_reg STATUS_REG t eq_refl) as v t1 _ (Hadv & _ & Hs & _)|instantiate (1 := 0); lia].
  apply does_ret. split; [done|apply Hs; done].
Qed.

(** *** The waits of a command *)

(** Fuel for the longest wait and for one poll *)
Definition enough (fuel : nat) : Prop := 255 * ms_ns < Z.of_nat fuel * access_min τ ∧ (70 < fuel)%nat.

(** At rest a command can be sent at once. *)
Lemma wait_start_idle fuel t :
  enough fuel → c_phase (ctl t) = Idle → c_start (ctl t) = None →
  does (wait_ms_util_can_send_cmd fuel) poll t (λ b t', b = true ∧ quiet (ctl t) (ctl t') ∧
    ∀ d, c_busy (ctl t') = Some d → c_busy (ctl t) = Some d).
Proof.
  intros [Hf _] Hp Hs. pose proof am_pos. pose proof (to_cmd _ timing_law) as Hcmd. pose proof (to_pos _ timing_law). unfold poll_time in *.
  set (I := λ t', quiet (ctl t) (ctl t') ∧ ∀ d, c_busy (ctl t') = Some d → c_busy (ctl t) = Some d).
  assert (∀ t1, I t1 → does can_send_cmd am t1 (λ b t2, b = true ∧ I t2)) as Hask.
  { intros t1 [Hq Hb]. eapply does_post; [apply does_start|]. intros b t2 _ [Hadv ->].
    assert (c_phase (ctl t1) = Idle ∧ c_start (ctl t1) = None) as [Hp1 Hs1] by (destruct Hq as (? & ? & ? & ? & E); by rewrite E).
    destruct (advance_idle _ _ _ _ Hadv Hp1 Hs1) as [Hq2 Hl].
    split; [|split; [by eapply quiet_trans|]].
    - destruct Hq2 as (? & ? & ? & ? & E). rewrite E. cbn. by rewrite Hs1.
    - intros d Hd. apply Hb. rewrite Hd in Hl. by apply later_some in Hl as [? _]. }
  eapply does_cost.
  - apply (wait_does (λ t', I t' ∧ now t' ≤ now t + am) I (λ b t', b = true ∧ I t') _ am (now t + am));
      [lia|by intros ? []|..|lia|by apply Hask].
    + intros t' t1 [HI _] [Hc _]. eapply does_post; [apply Hask; unfold I in *; by rewrite Hc|]. by intros b t2 _ [-> ?].
    + intros t' t1 [HI _] [Hc _] _ _. unfold I in *. by rewrite Hc.
    + intros t1 Ht1. pose proof (ticked_now _ _ Ht1). destruct Ht1 as [Hc _]. split; [|lia]. unfold I. rewrite Hc. split; [apply quiet_refl|done].
  - lia.
Qed.

(** A card that is busy is waited for. *)
Lemma wait_not_busy fuel t :
  enough fuel → c_phase (ctl t) = Idle → c_start (ctl t) = None →
  (∀ d, c_busy (ctl t) = Some d → d ≤ now t + busy_time τ) →
  does (wait_ms_util_can_send_data fuel) (busy_time τ + poll) t (λ b t', b = true ∧ quiet (ctl t) (ctl t') ∧ c_busy (ctl t') = None).
Proof.
  intros [Hf _] Hp Hs HB. pose proof am_pos. pose proof (to_busy _ timing_law) as Hbusy. pose proof (to_pos _ timing_law).
  unfold poll_time, ms_ns in *. set (B := now t + busy_time τ) in *.
  set (Q := λ t', quiet (ctl t) (ctl t') ∧ c_busy (ctl t') = None).
  set (P := λ t', quiet (ctl t) (ctl t') ∧ (∀ d, c_busy (ctl t') = Some d → d ≤ B) ∧ now t' ≤ B + am).
  assert (∀ t1 c, quiet (ctl t) c → ctl t1 = c → (∀ d, c_busy c = Some d → d ≤ B) →
    does can_send_data am t1 (λ b t2, if b then Q t2 else P t2 ∧ c_busy c ≠ None)) as Hask.
  { intros t1 c Hq <- Hb.
    assert (c_phase (ctl t1) = Idle ∧ c_start (ctl t1) = None) as [Hp1 Hs1] by (destruct Hq as (? & ? & ? & ? & E); by rewrite E).
    eapply does_post; [by apply does_busy|]. intros b t2 _ [Hadv ->].
    destruct (advance_idle _ _ _ _ Hadv Hp1 Hs1) as [Hq2 Hl]. pose proof (quiet_trans _ _ _ Hq Hq2).
    destruct (c_busy (ctl t2)) as [d|] eqn:Ed; cbn; [|by split]. apply later_some in Hl as [Hl Hn]. specialize (Hb d Hl).
    split; [|congruence]. split_and!; [done| |lia]. rewrite Ed. by intros ? [= <-]. }
  eapply does_cost.
  - apply (wait_does P Q (λ b t', b = true ∧ Q t') _ am (B + am)); [lia|by intros ? (_ & _ & ?)|..|unfold B; lia|].
    + intros t' t1 (Hq & Hb & _) [Hc _]. eapply does_post; [by apply (Hask t1 (ctl t'))|]. intros [] t2 _; [done|by intros []].
    + intros t' t1 (_ & _ & Hn) _ Hle Hms. pose proof (ms_before (now t) (now t') 100 Hle). unfold B, ms_ns, TICK_NS in *. lia.
    + intros t1 Ht1. pose proof (ticked_now _ _ Ht1). destruct Ht1 as [Hc _]. unfold P. rewrite Hc.
      split_and!; [apply quiet_refl|done|unfold B; lia].
    + intros t1 [Hq Hb]. eapply does_post; [apply (Hask t1 _ Hq eq_refl); by rewrite Hb|]. intros [] t2 _; [done|by intros []].
  - unfold B. lia.
Qed.

(** Waiting for a command that is under way, with a condition that is met by the time [K] at the latest; the wait may end
    before that, because it is as short as its time limit says, less a millisecond. *)
Lemma wait_pending (I : Ctl → Prop) K (f : M T bool) ms fuel t :
  enough fuel → (∀ n c c', advance τ n c c' → I c → I c') →
  (∀ t1, I (ctl t1) → does f am t1 (λ b t2, I (ctl t2) ∧ (b = false → now t2 < K))) →
  I (ctl t) → K ≤ now t + cmd_time τ →
  does (wait_until fuel ms f) (cmd_time τ + poll) t (λ _ t', I (ctl t')).
Proof.
  intros [Hf _] Hadv Hask HI HK. pose proof am_pos. pose proof (to_cmd _ timing_law) as Hcmd. pose proof (to_pos _ timing_law).
  unfold poll_time, ms_ns in *. eapply does_cost.
  - apply (wait_does (λ t', I (ctl t') ∧ now t' ≤ now t + cmd_time τ + am) (λ t', I (ctl t')) _ _ am (now t + cmd_time τ + am));
      [lia|by intros ? []|..|lia|].
    + intros t' t1 [HI1 _] [Hc _]. eapply does_post; [apply Hask; by rewrite Hc|]. intros [] t2 _ [HI2 Hn]; [done|]. specialize (Hn eq_refl).
      split; [done|lia].
    + intros t' t1 [HI1 _] [Hc _] _ _. by rewrite Hc.
    + intros t1 Ht1. pose proof (ticked_now _ _ Ht1). destruct Ht1 as [Hc _]. rewrite Hc. split; [done|lia].
    + intros t1 HI1. eapply does_post; [by apply Hask|]. by intros b t2 _ [].
  - lia.
Qed.

Lemma wait_taken (I : Ctl → Prop) K fuel t :
  enough fuel → (∀ n c c', advance τ n c c' → I c → I c') → (∀ c, I c → pending K c) → I (ctl t) → K ≤ now t + cmd_time τ →
  does (wait_ms_util_can_send_cmd fuel) (cmd_time τ + poll) t (λ _ t', I (ctl t')).
Proof.
  intros Hf Hadv HK HI Ht. apply (wait_pending I K); [done|done| |done|done]. intros t1 HI1.
  eapply does_post; [apply does_start|]. intros b t2 _ [Ha ->]. destruct (advance_pending _ _ _ _ _ Ha (HK _ HI1)) as (_ & Hs & _).
  split; [by eapply Hadv|]. intros Hb. apply Hs. by destruct (c_start (ctl t2)).
Qed.
Lemma wait_answered (I : Ctl → Prop) K fuel t :
  enough fuel → (∀ n c c', advance τ n c c' → I c → I c') → (∀ c, I c → pending K c) → I (ctl t) → K ≤ now t + cmd_time τ →
  does (wait_ms_util_response fuel) (cmd_time τ + poll) t (λ _ t', I (ctl t')).
Proof.
  intros Hf Hadv HK HI Ht. apply (wait_pending I K); [done|done| |done|done]. intros t1 HI1. unfold has_response.
  eapply does_cost; [does_step (does_ints t1) as i t2 _ (Ha & Hd & _)|instantiate (1 := 0); lia]. apply does_ret. rewrite Hd.
  destruct (advance_pending _ _ _ _ _ Ha (HK _ HI1)) as (_ & _ & Hs). split; [by eapply Hadv|done].
Qed.

(** ** Receiving a sector *)

(** The buffer when the first [off] bytes of [data] have arrived *)
Definition partial (data buf : list Z) (off : nat) : list Z := take off data ++ drop off buf.

Lemma store_partial data buf off :
  length data = 512%nat → length buf = 512%nat → Forall is_byte data → (off + 8 ≤ 512)%nat →
  store_word (partial data buf off) off (le_word (take 8 (drop off data))) = Ok (partial data buf (off + 8)).
Proof.
  intros Hd Hb Hby Ho. unfold store_word, partial. rewrite length_app, length_take, length_drop.
  rewrite (proj2 (Nat.leb_le _ _)) by lia. f_equal.
  assert (length (take 8 (drop off data)) = 8%nat) as Hl by (rewrite length_take, length_drop; lia).
  rewrite <-Hl at 1. rewrite le_bytes_le_word by auto using Forall_take, Forall_drop. unfold splice.
  rewrite take_app_le by (rewrite length_take; lia). rewrite take_take, Nat.min_id, Hl.
  rewrite drop_app_ge by (rewrite length_take; lia). rewrite length_take, drop_drop.
  replace (off + (off + 8 - off `min` length data))%nat with (off + 8)%nat by lia.
  by rewrite app_assoc, take_take_drop.
Qed.

Section receiving.
Context (sec : Z → list Z) (K Due : Z) (data buf : list Z).
Context (Hd : length data = 512%nat) (Hb : length buf = 512%nat) (Hby : Forall is_byte data).

(** The host has taken [off] bytes, and [coming] have still to arrive.  As the interrupts are logged, the receive interrupt
    stays once the FIFO has passed its watermark, which it does before the sector has arrived. *)
Record rx_inv (off : nat) (coming : list Z) (c : Ctl) : Prop := {
  ri_data : drop off data = c_fifo c ++ coming;
  ri_mark : c_rxdr c = false → off = 0%nat ∧ (length (c_fifo c) ≤ 4 * rx_mark τ)%nat;
  ri_card : c_card c = true ∧ c_sector c = sec ∧ c_rto c = false ∧ c_busy c = None;
  ri_pending : pending K c;
  ri_phase : (∃ due, c_phase c = Rx coming due ∧ due ≤ Due ∧ c_dto c = false) ∨
             (c_phase c = Idle ∧ coming = [] ∧ c_dto c = true ∧ c_start c = None);
}.

Lemma rx_mark_logged off c fifo rxdr :
  (c_rxdr c = false → off = 0%nat ∧ (length (c_fifo c) ≤ 4 * rx_mark τ)%nat) → rx_logged τ c fifo rxdr →
  (rxdr = false → off = 0%nat ∧ (length fifo ≤ 4 * rx_mark τ)%nat) ∧ (c_rxdr c = true → rxdr = true).
Proof.
  unfold rx_logged. intros H2 Hlog. split; [|auto]. intros ->. destruct (c_rxdr c); [by specialize (Hlog (or_introl eq_refl))|].
  destruct (H2 eq_refl) as [-> _]. split; [done|]. apply Nat.nlt_ge. intros Hgt. by specialize (Hlog (or_intror Hgt)).
Qed.

(** What is logged stays logged. *)
Definition logs (c c' : Ctl) : Prop := (c_dto c = true → c_dto c' = true) ∧ (c_rxdr c = true → c_rxdr c' = true).

Lemma rx_advance n off coming c c' :
  rx_inv off coming c → advance τ n c c' →
  ∃ coming', rx_inv off coming' c' ∧ (c_dto c' = false → n < Z.max K Due) ∧ logs c c' ∧
    (length (c_fifo c) ≤ length (c_fifo c'))%nat.
Proof.
  intros [H1 H2 H3 H4 H5] Ha. destruct (advance_pending _ _ _ _ _ Ha H4) as (H4' & _). destruct Ha as [c d E Hn|c r x c' Hr Hx Ha].
  { exists coming. split_and!; [by split|intros _|done|done]. destruct H4 as [H4 _]. specialize (H4 d E). lia. }
  inversion Ha as [c0 b Ep Hl E1 E2|c0 bs rest due rxdr Ep Hn Hlog E1 E2|c0 bs due rxdr Ep Hlog E1 E2|
                   c0 bl got lv lv' due Ep Hlv Htx E1 E2|c0 bl got lv due b Ep Hg Hbu E1 E2|c0 due Ep Hn E1 E2|c0 due Ep E1 E2];
    subst c0; cbn in Ep; (destruct H5 as [(due0 & Ep0 & Hdue & Hdto)|(Ep0 & -> & Hdto & Hst)]; rewrite Ep0 in Ep; try discriminate Ep).
  - exists []. assert (b = None) as -> by (cbn in Hl; destruct H3 as (_ & _ & _ & Eb); by rewrite Eb in Hl). subst c'.
    split_and!; [|cbn; congruence|done|done]. split; [done|done|by destruct H3 as (? & ? & ? & _)|done|by right].
  - injection Ep as -> ->. exists rest. subst c'. destruct (rx_mark_logged off c _ rxdr H2 Hlog) as [Hm Hlg].
    split_and!; [|intros _; lia|by split|cbn; rewrite length_app; lia]. split; [by cbn; rewrite <-app_assoc|done|done|done|]. left. by exists due.
  - injection Ep as -> ->. exists []. subst c'. destruct (rx_mark_logged off c _ rxdr H2 Hlog) as [Hm Hlg].
    split_and!; [|done|by split|cbn; rewrite length_app; lia]. split; [by cbn; rewrite app_nil_r|done|done|done|]. by right.
Qed.

(** When the transfer is over the receive interrupt is logged. *)
Lemma rx_over_logged off coming c : rx_inv off coming c → c_dto c = true → c_rxdr c = true ∧ coming = [].
Proof.
  intros [H1 H2 H3 H4 H5] Hdto. destruct H5 as [(due & _ & _ & E)|(_ & -> & _)]; [congruence|]. split; [|done].
  destruct (c_rxdr c); [done|]. destruct (H2 eq_refl) as [-> Hl]. rewrite drop_0, app_nil_r in H1. rewrite <-H1, Hd in Hl.
  pose proof (to_mark _ timing_law). unfold FIFO_BYTES in *. lia.
Qed.

Definition rx_at (off : nat) : list Z * nat * Z := (partial data buf off, off, FIFO_DATA_REG + Z.of_nat off).

(** One word is taken from the FIFO, or there is none. *)
Lemma rx_turn_does off w coming t :
  (off + 8 * w = 512)%nat → rx_inv off coming (ctl t) → c_rxdr (ctl t) = true →
  does (rx_turn (rx_at off)) (2 * am) t (λ r t', logs (ctl t) (ctl t') ∧ ∃ coming',
    r = inr (rx_at off) ∧ rx_inv off coming' (ctl t') ∧ (c_dto (ctl t) = true → off = 512%nat) ∨
    r = inl (rx_at (off + 8)) ∧ rx_inv (off + 8) coming' (ctl t') ∧ (0 < w)%nat).
Proof.
  intros Hw HI Hrx. pose proof am_pos as Ham. unfold rx_turn. change (rx_at off) with (partial data buf off, off, FIFO_DATA_REG + Z.of_nat off) at 1.
  cbv beta iota. eapply does_cost; [|instantiate (1 := am + am); lia].
  does_step (does_count t) as v t1 _ [Ha1 Hv]. destruct (rx_advance _ _ _ _ _ HI Ha1) as (coming1 & HI1 & _ & [Hl1 Hl1'] & _).
  pose proof (ri_data _ _ _ HI1) as Hdata. pose proof (f_equal length Hdata) as Hlen. rewrite length_drop, length_app, Hd in Hlen.
  assert (fifo_words (ctl t1) = Z.of_nat (length (c_fifo (ctl t1))) / 4) as Hfw.
  { unfold fifo_words. by destruct (ri_phase _ _ _ HI1) as [(due & -> & _)|(-> & _)]. }
  rewrite Hfw in Hv. rewrite (Hv ltac:(Z.to_euclidean_division_equations; lia)). clear Hv Hfw.
  destruct (Z.leb_spec 2 (Z.of_nat (length (c_fifo (ctl t1))) / 4)) as [H2|H2].
  - assert (8 ≤ length (c_fifo (ctl t1)))%nat as H8 by (Z.to_euclidean_division_equations; lia).
    eapply does_cost; [does_step (does_take (FIFO_DATA_REG + Z.of_nat off) t1) as x t2 _ (c & Ha2 & Ht)|instantiate (1 := 0); lia].
    { unfold fifo_address, FIFO_BYTES. lia. }
    destruct (rx_advance _ _ _ _ _ HI1 Ha2) as (coming2 & [D1 D2 D3 D4 D5] & _ & [Hl2 Hl2'] & Hlen2).
    destruct Ht as [-> Hc2]; [destruct D5 as [(due & -> & _)|(-> & _)]; congruence|lia|].
    assert (take 8 (c_fifo c) = take 8 (drop off data)) as -> by (rewrite D1, take_app_le by lia; done).
    eexists _, t2. split; [by rewrite store_partial by (done || lia)|]. split; [lia|].
    rewrite Hc2. split; [split; cbn; auto|]. exists coming2. right. split_and!; [|split; cbn|lia].
    + unfold rx_at. by replace (FIFO_DATA_REG + Z.of_nat (off + 8)) with (FIFO_DATA_REG + Z.of_nat off + 8) by lia.
    + rewrite <-drop_drop, D1, drop_app_le by lia. done.
    + intros Hr. rewrite (Hl2' (Hl1' Hrx)) in Hr. done.
    + done.
    + done.
    + done.
  - eapply does_cost; [apply does_ret|lia]. split; [by split|]. exists coming1. left. split_and!; [done|done|].
    intros Hdto. destruct (ri_phase _ _ _ HI1) as [(due & _ & _ & E)|(_ & -> & _)]; [by rewrite (Hl1 Hdto) in E|].
    cbn in Hlen. Z.to_euclidean_division_equations; lia.
Qed.

(** Taking what is in the FIFO *)
Lemma rx_drain w : ∀ fuel t off coming,
  (off + 8 * w = 512)%nat → rx_inv off coming (ctl t) → c_rxdr (ctl t) = true → (w < fuel)%nat →
  does (loopM fuel rx_turn (rx_at off)) (2 * (Z.of_nat w + 1) * am) t (λ st t', logs (ctl t) (ctl t') ∧ ∃ off' w' coming',
    st = rx_at off' ∧ (off' + 8 * w' = 512)%nat ∧ rx_inv off' coming' (ctl t') ∧ (c_dto (ctl t) = true → off' = 512%nat)).
Proof.
  pose proof am_pos as Ham. induction w as [|w IH]; intros fuel t off coming Hw HI Hrx Hf;
    (destruct fuel as [|fuel]; [lia|]); cbn [loopM];
    destruct (rx_turn_does off _ coming t Hw HI Hrx) as (r & t1 & E1 & Hn1 & [Hl1 Hl1'] & coming1 & [(-> & HI1 & Hend)|(-> & HI1 & Hpos)]);
    try (lia); (eapply does_cost; [eapply does_bind with (n := 2 * am); eexists _, t1; split_and!; [exact E1|lia|lia|]|]).
  - apply does_ret. split; [by split|]. by exists off, 0%nat, coming1.
  - lia.
  - apply does_ret. split; [by split|]. by exists off, (S w), coming1.
  - lia.
  - eapply does_post; [apply (IH fuel t1 _ coming1); [lia|done|auto|lia]|].
    intros st t2 _ [[Hl2 Hl2'] (off' & w' & coming' & -> & Hw' & HI' & Hend)]. split; [split; auto|].
    exists off', w', coming'. split_and!; auto.
  - lia.
Qed.

(** One poll of the receiving loop *)
Lemma rx_poll_does fuel t off w coming :
  (off + 8 * w = 512)%nat → rx_inv off coming (ctl t) → (70 < fuel)%nat →
  does (rx_poll fuel (rx_at off)) (131 * am) t (λ r t', ∃ off' w' coming',
    r.2 = rx_at off' ∧ (off' + 8 * w' = 512)%nat ∧ rx_inv off' coming' (ctl t') ∧
    if (r.1 : bool) then off' = 512%nat ∧ c_dto (ctl t') = true else now t' ≤ Z.max K Due + 131 * am).
Proof.
  intros Hw HI Hf. pose proof am_pos as Ham. unfold rx_poll. eapply does_cost; [|instantiate (1 := am + 130 * am); lia].
  eapply does_bind, does_post; [apply does_ints|]. intros i t1 Hn1 (Ha & _ & -> & Hdto & He).
  destruct (rx_advance _ _ _ _ _ HI Ha) as (coming1 & HI1 & Htime & _). rewrite He, Hdto.
  destruct (ri_card _ _ _ HI1) as (_ & _ & -> & _). rewrite orb_false_r.
  destruct (c_rxdr (ctl t1)) eqn:Erx.
  - eapply does_cost; [does_step (rx_drain w fuel t1 off coming1 Hw HI1 Erx ltac:(lia)) as st t2 Hn2 [[Hl _] (off' & w' & coming' & -> & Hw' & HI' & Hend)]|].
    + apply does_ret. exists off', w', coming'. cbn [fst snd]. split_and!; [done|done|done|].
      destruct (c_dto (ctl t1)); [auto|]. specialize (Htime eq_refl). nia.
    + nia.
  - eapply does_cost; [eapply does_bind, does_ret, does_ret|lia]. exists off, w, coming1. cbn [fst snd]. split_and!; [done|done|done|].
    destruct (c_dto (ctl t1)) eqn:Ed; [|specialize (Htime eq_refl); lia].
    destruct (rx_over_logged _ _ _ HI1 Ed) as [E _]. congruence.
Qed.

(** The receiving loop ends with the sector. *)
Lemma does_receive fuel t coming :
  enough fuel → rx_inv 0 coming (ctl t) → K ≤ now t + cmd_time τ → Due ≤ now t + transfer_time τ →
  does (transfer fuel (TransRead buf)) (252 * ms_ns) t (λ b t', b = data ∧ rx_inv 512 [] (ctl t') ∧ c_dto (ctl t') = true).
Proof.
  intros [Hf1 Hf2] HI HK HDue. pose proof am_pos as Ham. pose proof (to_cmd _ timing_law). pose proof (to_rx _ timing_law).
  pose proof (to_pos _ timing_law). unfold poll_time, ms_ns in *. unfold transfer. cbn [transfer].
  set (L := Z.max (Z.max K Due) (now t)).
  set (P := λ st t', ∃ off w coming, st = rx_at off ∧ (off + 8 * w = 512)%nat ∧ rx_inv off coming (ctl t') ∧ now t' ≤ L + 131 * am).
  set (Q := λ st t', st = rx_at 512 ∧ rx_inv 512 [] (ctl t') ∧ c_dto (ctl t') = true).
  eapply does_cost; [eapply does_bind, does_post; [apply (sleep_does P Q _ (131 * am) (L + 131 * am))|]|];
    [lia|by intros st t' (? & ? & ? & _ & _ & _ & ?)|..].
  - intros st t' t1 (off & w & coming' & -> & Hw & HI' & Hn) [Hc _]. eapply does_post; [by apply (rx_poll_does fuel t1 off w coming'); [|rewrite Hc|]|].
    intros [b st] t2 _ (off' & w' & coming2 & Est & Hw' & HI2 & Hres). cbn [fst snd] in *. subst st. destruct b.
    + destruct Hres as [-> Hdto]. destruct (rx_over_logged _ _ _ HI2 Hdto) as [_ ->]. by split_and!.
    + exists off', w', coming2. split_and!; [done..|lia].
  - intros st t' t1 (_ & _ & _ & _ & _ & _ & Hn) _ Hle Hms. pose proof (ms_before (now t) (now t') 250 Hle). unfold ms_ns, TICK_NS in *. lia.
  - intros t1 Ht1. pose proof (ticked_now _ _ Ht1). destruct Ht1 as [Hc _]. exists 0%nat, 64%nat, coming. rewrite Hc. split_and!; [done|done|done|lia].
  - lia.
  - intros st t1 _ (-> & HI1 & Hdto). unfold rx_at. cbv beta iota. apply does_ret. split_and!; [|done|done].
    unfold partial. rewrite take_ge, drop_ge, app_nil_r by lia. done.
  - lia.
Qed.
End receiving.

(** ** Sending a sector *)

Lemma int_of_u16 v : int_of v = as_u16 v.
Proof.
  change (bits_get 0 16 v = as_u16 v). unfold bits_get, as_u16. by rewrite Z.shiftr_0_r, Z.land_ones by lia.
Qed.

Section sending.
Context (sec : Z → list Z) (K : Z) (block : Z) (data : list Z).
Context (Hd : length data = 512%nat) (Hby : Forall is_byte data).

(** At the time [n] the host has given [off] bytes; the controller asks for more, or has sent all, at the time [due]. *)
Record tx_inv (n : Z) (off : nat) (due : Z) (c : Ctl) : Prop := {
  ti_card : c_card c = true ∧ c_rto c = false ∧ c_fifo c = [];
  ti_pending : pending K c;
  ti_phase :
    (∃ level d, c_phase c = Tx block (take off data) level d ∧ d ≤ due ∧ (level ≤ 512)%nat ∧ c_dto c = false ∧ c_sector c = sec ∧
       (off ≤ 512)%nat) ∨
    (c_phase c = Idle ∧ off = 512%nat ∧ c_dto c = true ∧ c_start c = None ∧
     (∀ i, c_sector c i = if decide (i = block) then data else sec i) ∧ (∀ d, c_busy c = Some d → d ≤ n + busy_time τ));
}.
(** The FIFO is below the level up to which the driver fills it. *)
Definition roomy (c : Ctl) : bool := match c_phase c with Tx _ _ level _ => (level <? FILL_BYTES)%nat | _ => true end.

Lemma tx_mono n n' off due due' c : n ≤ n' → due ≤ due' → tx_inv n off due c → tx_inv n' off due' c.
Proof.
  intros Hn Hdue [H1 H2 H3]. split; [done..|]. destruct H3 as [(lv & d & ? & ? & ? & ? & ? & ?)|(? & ? & ? & ? & ? & H)]; [left|right].
  - exists lv, d. split_and!; [done|lia|done..].
  - split_and!; try done. intros d Ed. specialize (H d Ed). lia.
Qed.

Lemma tx_advance n n' off due c c' :
  n ≤ n' → tx_inv n off due c → advance τ n' c c' →
  tx_inv n' off due c' ∧ (c_dto c = true → c_dto c' = true) ∧ (roomy c = true → roomy c' = true) ∧
  (c_dto c' = false → Z.max due K ≤ n' → off ≠ 512%nat ∧ c_txdr c' = true ∧ roomy c' = true).
Proof.
  intros Hle [H1 H2 H3] Ha. destruct (advance_pending _ _ _ _ _ Ha H2) as (H2' & _). destruct Ha as [c d E Hn|c r x c' Hr Hx Ha].
  { split_and!; [apply (tx_mono n n' off due due); [done|done|by split]|done|done|]. intros _ Hm. destruct H2 as [H2 _]. specialize (H2 d E). lia. }
  inversion Ha as [c0 b Ep Hl E1 E2|c0 bs rest du rxdr Ep Hn Hlog E1 E2|c0 bs du rxdr Ep Hlog E1 E2|
                   c0 bl got lv lv' du Ep Hlv Htx E1 E2|c0 bl got lv du b Ep Hg Hbu E1 E2|c0 du Ep Hn E1 E2|c0 du Ep E1 E2];
    subst c0; cbn in Ep;
    (destruct H3 as [(lv0 & d0 & Ep0 & Hdue & Hlv0 & Hdto & Hsec & Hoff)|(Ep0 & Hoff & Hdto & Hst & Hsec & Hbu0)]; rewrite Ep0 in Ep; try discriminate Ep).
  - subst c'. split_and!; [|done|unfold roomy; cbn; by rewrite Ep0|cbn; congruence]. split; [done|done|]. right. split_and!; try done.
    cbn. intros d Ed. subst b. apply later_some in Hl as [Hl _]. specialize (Hbu0 d Hl). lia.
  - injection Ep as <- <- <- <-. subst c'. split_and!; [split; [done|done|]|done| |].
    + left. exists lv', d0. split_and!; try done. lia.
    + assert (roomy c = (lv0 <? FILL_BYTES)%nat) as -> by (unfold roomy; by rewrite Ep0).
      change (roomy _) with (lv' <? FILL_BYTES)%nat. rewrite !Nat.ltb_lt. lia.
    + intros _ Hm. destruct (Htx ltac:(lia)) as (Hg & Ht & Hr'). rewrite length_take, Hd in Hg. split_and!; [lia|done|].
      change (roomy _) with (lv' <? FILL_BYTES)%nat. by apply Nat.ltb_lt.
  - injection Ep as <- <- <- <-. subst c'. rewrite length_take, Hd in Hg. split_and!; [split; [done|done|]|done|done|done].
    right. split_and!; try done; [lia|]. cbn. intros i. rewrite Hsec, take_ge by lia. done.
Qed.

Lemma load_data off : (off + 8 ≤ 512)%nat →
  ∃ w, load_word data off = Ok w ∧ take off data ++ le_bytes 8 w = take (off + 8) data.
Proof.
  intros Ho. eexists. unfold load_word. rewrite (proj2 (Nat.leb_le _ _)) by lia. split; [done|].
  unfold slice. replace (off + 8 - off)%nat with 8%nat by lia.
  assert (length (take 8 (drop off data)) = 8%nat) as Hl by (rewrite length_take, length_drop; lia).
  rewrite <-Hl at 1. rewrite le_bytes_le_word by auto using Forall_take, Forall_drop. apply take_take_drop.
Qed.

Definition tx_at (off : nat) : nat * Z := (off, FIFO_DATA_REG + Z.of_nat off).
Definition give_time (off : nat) : Z := if (off <? 512)%nat then drain_time τ else store_time τ.

(** One word is put into the FIFO, unless it is full or there is none. *)
Lemma tx_turn_does off w due t :
  (off + 8 * w = 512)%nat → tx_inv (now t) off due (ctl t) →
  does (tx_turn data (tx_at off)) (2 * am) t (λ r t', (c_dto (ctl t) = true → c_dto (ctl t') = true) ∧
    (r = inr (tx_at off) ∧ tx_inv (now t') off due (ctl t') ∧ (roomy (ctl t) = true → off = 512%nat) ∨
     r = inl (tx_at (off + 8)) ∧ tx_inv (now t') (off + 8) (now t' + give_time (off + 8)) (ctl t') ∧ (0 < w)%nat)).
Proof.
  intros Hw HI. pose proof am_pos as Ham. unfold tx_turn, tx_at at 1. cbv beta iota.
  eapply does_cost; [|instantiate (1 := am + am); lia]. does_step (does_count t) as v t1 Hn1 [Ha1 Hv].
  destruct (tx_advance _ _ _ _ _ _ (proj1 Hn1) HI Ha1) as (HI1 & Hdto1 & Hr1 & _). rewrite Hd.
  destruct (ti_phase _ _ _ _ HI1) as [(lv & d & Ep & Hdd & Hlv & Hdf & Hsec & _)|(Ep & -> & _)].
  2: { eapply does_cost; [rewrite andb_false_r; apply does_ret|lia]. split; [done|]. left. by split_and!. }
  assert (fifo_words (ctl t1) = Z.of_nat lv / 4) as Hfw by (unfold fifo_words; by rewrite Ep). rewrite Hfw in Hv.
  rewrite (Hv ltac:(Z.to_euclidean_division_equations; lia)). clear Hv Hfw.
  destruct (Z.ltb_spec (Z.of_nat lv / 4) 120) as [Hlt|Hge]; [destruct (Nat.ltb_spec off 512) as [Hoff|Hoff]|]; cbn [andb].
  - destruct (load_data off ltac:(lia)) as (x & Ex & Hx). rewrite Ex.
    eapply does_cost; [eapply does_bind with (n := 0); exists x, t1; split_and!; [done|lia|lia|]|instantiate (1 := am); lia].
    eapply does_cost; [does_step (does_give (FIFO_DATA_REG + Z.of_nat off) x t1) as u t2 Hn2 (c & Ha2 & Hg)|instantiate (1 := 0); lia].
    { unfold fifo_address, FIFO_BYTES. lia. }
    destruct (tx_advance _ _ _ _ _ _ (proj1 Hn2) HI1 Ha2) as ([D1 D2 D3] & Hdto2 & Hr2 & _). apply does_ret.
    destruct D3 as [(lv2 & d2 & Ep2 & Hd2 & Hlv2 & Hdf2 & Hsec2 & _)|(_ & ? & _)]; [|lia]. unfold gives in Hg. rewrite Ep2 in Hg.
    assert (lv2 < 480)%nat as Hroom.
    { unfold roomy, FILL_BYTES in Hr2. rewrite Ep, Ep2 in Hr2. apply Nat.ltb_lt, Hr2, Nat.ltb_lt. Z.to_euclidean_division_equations; lia. }
    rewrite length_take, Hd, Nat.min_l in Hg by lia. destruct Hg as (due' & Hc2 & Hdue'); [lia|unfold FIFO_BYTES; lia|].
    split; [intros E; specialize (Hdto1 E); congruence|]. right. rewrite Hc2. split_and!; [|split; [done|done|]|lia].
    + unfold tx_at. by replace (FIFO_DATA_REG + Z.of_nat (off + 8)) with (FIFO_DATA_REG + Z.of_nat off + 8) by lia.
    + left. exists (lv2 + 8)%nat, due'. rewrite Hx. split_and!; [done|exact Hdue'|lia|done|done|lia].
  - eapply does_cost; [apply does_ret|lia]. split; [done|]. left. split_and!; [done|done|]. lia.
  - eapply does_cost; [apply does_ret|lia]. split; [done|]. left. split_and!; [done|done|]. intros Hr. specialize (Hr1 Hr).
    unfold roomy, FILL_BYTES in Hr1. rewrite Ep in Hr1. apply Nat.ltb_lt in Hr1. Z.to_euclidean_division_equations; lia.
Qed.

(** How much later than [due] the transfer may still be over when [w] words of eight bytes are to be given *)
Definition budget (w : nat) : Z :=
  if decide (w = 0%nat) then 0 else Z.of_nat w * (drain_time τ + 2 * poll) + store_time τ + 2 * poll.
(** The latest time of the next progress, when the loop does not look before [now0] *)
Definition limit (now0 due : Z) : Z := Z.max due (Z.max K now0).

(** Giving a word in time moves the limit within the budget. *)
Lemma budget_step now0 due n w :
  n ≤ limit now0 due + 2 * poll → (0 < w ≤ 64)%nat →
  limit now0 (n + give_time (512 - 8 * (w - 1))) + budget (w - 1) ≤ limit now0 due + budget w.
Proof.
  intros Hn Hw. pose proof (to_pos _ timing_law). pose proof am_pos. unfold budget, limit, give_time, poll_time in *.
  rewrite (decide_False (P := (w = 0)%nat)) by lia.
  destruct (decide (w - 1 = 0)%nat) as [E|E].
  - rewrite E. cbn [Nat.mul Nat.sub]. rewrite (proj2 (Nat.ltb_ge _ _)) by lia. assert (w = 1)%nat as -> by lia. lia.
  - rewrite (proj2 (Nat.ltb_lt _ _)) by lia. replace (Z.of_nat w) with (Z.of_nat (w - 1) + 1) by lia. lia.
Qed.

(** Filling the FIFO either does nothing, or makes progress within the budget. *)
Lemma tx_fill now0 w : ∀ fuel t off due,
  (off + 8 * w = 512)%nat → tx_inv (now t) off due (ctl t) → (w < fuel)%nat → now t + 2 * am ≤ limit now0 due + 2 * poll →
  does (loopM fuel (tx_turn data) (tx_at off)) (2 * (Z.of_nat w + 1) * am) t (λ st t', (c_dto (ctl t) = true → c_dto (ctl t') = true) ∧
    ∃ off' w' due', st = tx_at off' ∧ (off' + 8 * w' = 512)%nat ∧ tx_inv (now t') off' due' (ctl t') ∧
      limit now0 due' + budget w' ≤ limit now0 due + budget w ∧
      (due' = due ∧ (roomy (ctl t) = true → off = 512%nat) ∨ now t' ≤ limit now0 due' + 130 * am)).
Proof.
  pose proof am_pos as Ham. pose proof (to_pos _ timing_law) as Hpos. induction w as [|w IH]; intros fuel t off due Hw HI Hf Hn;
    (destruct fuel as [|fuel]; [lia|]); cbn [loopM];
    destruct (tx_turn_does off _ due t Hw HI) as (r & t1 & E1 & Hn1 & Hdto & [(-> & HI1 & Hend)|(-> & HI1 & Hw0)]);
    try lia; (eapply does_cost; [eapply does_bind with (n := 2 * am); eexists _, t1; split_and!; [exact E1|lia|lia|]|]).
  - apply does_ret. split; [done|]. exists off, 0%nat, due. split_and!; [done|done|done|done|by left].
  - lia.
  - apply does_ret. split; [done|]. exists off, (S w), due. split_and!; [done|done|done|done|by left].
  - lia.
  - assert (limit now0 (now t1 + give_time (off + 8)) + budget w ≤ limit now0 due + budget (S w)) as Hbud.
    { pose proof (budget_step now0 due (now t1) (S w)) as H. replace (S w - 1)%nat with w in H by lia.
      replace (512 - 8 * w)%nat with (off + 8)%nat in H by lia. apply H; lia. }
    assert (0 ≤ give_time (off + 8)) by (unfold give_time; case_match; lia).
    assert (now t1 ≤ limit now0 (now t1 + give_time (off + 8))) as Hlim by (unfold limit; lia).
    eapply does_post; [apply (IH fuel t1 _ (now t1 + give_time (off + 8))); [lia|done|lia|unfold poll_time in *; lia]|].
    intros st t2 Hn2 [Hdto2 (off' & w' & due' & -> & Hw' & HI' & Hb' & Hcase)]. split; [auto|].
    exists off', w', due'. split_and!; [done|done|done|lia|]. right. destruct Hcase as [[-> Hr]|?]; [|done].
    nia.
  - lia.
Qed.

(** One poll of the sending loop *)
Lemma tx_poll_does now0 fuel t off w due :
  (off + 8 * w = 512)%nat → tx_inv (now t) off due (ctl t) → (70 < fuel)%nat → now t ≤ limit now0 due + poll + am →
  does (tx_poll fuel data (tx_at off)) (131 * am) t (λ r t', ∃ off' w' due',
    r.2 = tx_at off' ∧ (off' + 8 * w' = 512)%nat ∧ tx_inv (now t') off' due' (ctl t') ∧
    limit now0 due' + budget w' ≤ limit now0 due + budget w ∧
    if (r.1 : bool) then c_dto (ctl t') = true else now t' ≤ limit now0 due' + poll).
Proof.
  intros Hw HI Hf Hn. pose proof am_pos as Ham. unfold tx_poll. eapply does_cost; [|instantiate (1 := am + 130 * am); lia].
  does_step (does_reg RAW_INT_STATUS_REG t eq_refl) as v t1 Hn1 (Ha & _ & _ & Hs). destruct (Hs eq_refl) as (_ & _ & Htx & Hdto & _ & He).
  rewrite int_of_u16 in Htx, Hdto, He. cbv zeta. rewrite Htx, Hdto, He.
  destruct (tx_advance _ _ _ _ _ _ (proj1 Hn1) HI Ha) as (HI1 & _ & _ & Htime). destruct (ti_card _ _ _ _ HI1) as (_ & -> & _).
  rewrite orb_false_r. assert (c_dto (ctl t1) = false → limit now0 due ≤ now t1 → off ≠ 512%nat ∧ c_txdr (ctl t1) = true ∧ roomy (ctl t1) = true) as Hlate.
  { intros Hdf Hl. apply Htime; [done|]. unfold limit in Hl. lia. }
  destruct (c_txdr (ctl t1)).
  - eapply does_cost; [does_step (tx_fill now0 w fuel t1 off due Hw HI1 ltac:(lia)) as st t2 Hn2 [Hd2 (off' & w' & due' & -> & Hw' & HI' & Hbud & Hcase)]|].
    + unfold poll_time in *. lia.
    + apply does_ret. exists off', w', due'. cbn [fst snd]. split_and!; [done|done|done|done|].
      destruct (c_dto (ctl t1)) eqn:Edto; [auto|]. unfold poll_time. destruct Hcase as [[-> Hr]|?]; [|lia].
      destruct (Z.le_gt_cases (limit now0 due) (now t1)) as [Hl|Hl]; [|nia].
      destruct (Hlate eq_refl Hl) as (Hne & _ & Hroom). by specialize (Hr Hroom).
    + nia.
  - eapply does_cost; [eapply does_bind, does_ret, does_ret|lia]. exists off, w, due. cbn [fst snd]. split_and!; [done|done|done|done|].
    destruct (c_dto (ctl t1)) eqn:Edto; [done|]. unfold poll_time.
    destruct (Z.le_gt_cases (limit now0 due) (now t1)) as [Hl|Hl]; [|lia]. by destruct (Hlate eq_refl Hl) as (_ & ? & _).
Qed.

(** The sending loop ends when the sector is complete and the card has it. *)
Lemma does_transmit fuel t due :
  enough fuel → tx_inv (now t) 0 due (ctl t) → K ≤ now t + cmd_time τ → due ≤ now t + cmd_time τ + drain_time τ →
  does (transfer fuel (TransWrite data)) (252 * ms_ns) t (λ _ t', ∃ due', tx_inv (now t') 512 due' (ctl t') ∧ c_dto (ctl t') = true).
Proof.
  intros [Hf1 Hf2] HI HK HDue. pose proof am_pos as Ham. pose proof (to_tx _ timing_law). pose proof (to_pos _ timing_law).
  assert (limit (now t) due + budget 64 ≤ now t + cmd_time τ + drain_time τ + 64 * (drain_time τ + 2 * poll) + store_time τ + 2 * poll) as Hb
    by (unfold limit, budget; rewrite decide_False by done; lia).
  assert (∀ w, 0 ≤ budget w) as Hbpos by (intros w; unfold budget, poll_time; case_decide; nia).
  assert (∀ d, now t ≤ limit (now t) d) as Hl0 by (intros d; unfold limit; lia).
  set (V := limit (now t) due + budget 64) in *. unfold transfer. unfold poll_time, ms_ns in *.
  set (P := λ st t', ∃ off w d, st = tx_at off ∧ (off + 8 * w = 512)%nat ∧ tx_inv (now t') off d (ctl t') ∧
    limit (now t) d + budget w ≤ V ∧ now t' ≤ limit (now t) d + 140 * am).
  set (Q := λ (st : nat * Z) t', ∃ d, tx_inv (now t') 512 d (ctl t') ∧ c_dto (ctl t') = true).
  eapply does_cost; [eapply does_bind, does_post; [apply (sleep_does P Q _ (131 * am) (V + 140 * am))|]|]; [lia|..].
  - intros st t' (off & w & d & _ & _ & _ & H1 & H2). specialize (Hbpos w). lia.
  - intros st t' t1 (off & w & d & -> & Hw & HI' & HV & Hn) Ht1. pose proof (ticked_now _ _ Ht1) as Hn1. destruct Ht1 as [Hc _].
    eapply does_post; [apply (tx_poll_does (now t) fuel t1 off w d); [done| |done|unfold poll_time; lia]|].
    { rewrite Hc. by apply (tx_mono (now t') _ _ d); [lia|done|]. }
    intros [b st] t2 _ (off' & w' & d' & Est & Hw' & HI2 & Hbud & Hres). cbn [fst snd] in *. subst st. destruct b.
    + exists d'. split; [|done]. destruct (ti_phase _ _ _ _ HI2) as [(? & ? & _ & _ & _ & E & _)|(_ & -> & _)]; [congruence|done].
    + exists off', w', d'. split_and!; [done|done|done|lia|done].
  - intros st t' t1 (off & w & d & _ & _ & _ & H1 & H2) _ Hle Hms. pose proof (ms_before (now t) (now t') 250 Hle). specialize (Hbpos w).
    unfold ms_ns, TICK_NS in *. lia.
  - intros t1 Ht1. pose proof (ticked_now _ _ Ht1) as Hn1. destruct Ht1 as [Hc _]. exists 0%nat, 64%nat, due. rewrite Hc.
    split_and!; [done|done|by apply (tx_mono (now t) _ _ due); [lia|done|]|done|]. specialize (Hl0 due). lia.
  - lia.
  - intros st t1 _ HQ. by apply does_ret.
  - lia.
Qed.
End sending.

(** ** A card that does not answer *)

Section mute.
Context (K : Z) (data : list Z).
Context (Hd : length data = 512%nat).

Record mute_inv (c : Ctl) : Prop := {
  mi_pending : pending K c;
  mi_dto : c_dto c = false;
  mi_phase : (∃ due, c_phase c = Mute due ∧ due ≤ K ∧ c_rto c = false) ∨ (c_phase c = Idle ∧ c_rto c = true ∧ c_start c = None);
}.

Lemma mute_advance n c c' :
  mute_inv c → advance τ n c c' →
  mute_inv c' ∧ c_fifo c' = c_fifo c ∧ (c_rto c' = false → n < K) ∧ (c_rto c = true → c_rto c' = true).
Proof.
  intros [H1 H2 H3] Ha. destruct (advance_pending _ _ _ _ _ Ha H1) as (H1' & _). destruct Ha as [c d E Hn|c r x c' Hr Hx Ha].
  { split_and!; [by split|done|intros _|done]. destruct H1 as [H1 _]. specialize (H1 d E). lia. }
  inversion Ha as [c0 b Ep Hl E1 E2|c0 bs rest du rxdr Ep Hn Hlog E1 E2|c0 bs du rxdr Ep Hlog E1 E2|
                   c0 bl got lv lv' du Ep Hlv Htx E1 E2|c0 bl got lv du b Ep Hg Hbu E1 E2|c0 du Ep Hn E1 E2|c0 du Ep E1 E2];
    subst c0; cbn in Ep; (destruct H3 as [(d0 & Ep0 & Hdue & Hrto)|(Ep0 & Hrto & Hst)]; rewrite Ep0 in Ep; try discriminate Ep); subst c'.
  - split_and!; [split; [done|done|by right]|done|cbn; congruence|done].
  - injection Ep as <-. split_and!; [split; [done|done|]|done|lia|cbn; congruence]. left. by exists d0.
  - split_and!; [split; [done|done|by right]|done|done|done].
Qed.

(** A poll of the receiving loop finds nothing in the FIFO. *)
Lemma mute_rx_poll fuel t buf :
  mute_inv (ctl t) → c_fifo (ctl t) = [] → (0 < fuel)%nat →
  does (rx_poll fuel (buf, 0%nat, FIFO_DATA_REG)) (131 * am) t (λ r t', r.2 = (buf, 0%nat, FIFO_DATA_REG) ∧
    mute_inv (ctl t') ∧ c_fifo (ctl t') = [] ∧ if (r.1 : bool) then c_rto (ctl t') = true else now t' ≤ K + 131 * am).
Proof.
  intros HI Hfifo Hf. pose proof am_pos as Ham. destruct fuel as [|fuel]; [lia|]. unfold rx_poll.
  eapply does_cost; [|instantiate (1 := am + am); lia]. eapply does_bind, does_post; [apply does_ints|].
  intros i t1 Hn1 (Ha & _ & -> & -> & ->). destruct (mute_advance _ _ _ HI Ha) as (HI1 & Hf1 & Ht1 & _). rewrite (mi_dto _ HI1).
  destruct (c_rxdr (ctl t1)).
  - eapply does_cost; [|instantiate (1 := am + 0); lia]. cbn [loopM]. eapply does_bind with (n := am) (m := 0).
    eapply does_cost; [|instantiate (1 := am + 0); lia]. eapply does_bind with (n := am) (m := 0).
    unfold rx_turn. eapply does_cost; [|instantiate (1 := am + 0); lia]. does_step (does_count t1) as v t2 Hn2 [Ha2 Hv].
    destruct (mute_advance _ _ _ HI1 Ha2) as (HI2 & Hf2 & Ht2 & Hr2).
    assert (fifo_words (ctl t2) = 0) as Hw.
    { unfold fifo_words. rewrite Hf2, Hf1, Hfifo. by destruct (mi_phase _ HI2) as [(d & -> & _)|(-> & _)]. }
    rewrite Hw in Hv. rewrite (Hv ltac:(lia)). change (2 <=? 0) with false. apply does_ret, does_ret, does_ret. cbn [fst snd orb].
    split_and!; [done|done|congruence|]. destruct (c_rto (ctl t1)) eqn:E; [auto|]. specialize (Ht1 eq_refl). lia.
  - eapply does_cost; [eapply does_bind, does_ret, does_ret|lia]. cbn [fst snd orb]. split_and!; [done|done|congruence|].
    destruct (c_rto (ctl t1)) eqn:E; [done|]. specialize (Ht1 eq_refl). lia.
Qed.

(** Filling the FIFO does not change that nothing answers. *)
Lemma mute_turn t off w :
  (off + 8 * w = 512)%nat → mute_inv (ctl t) →
  does (tx_turn data (tx_at off)) (2 * am) t (λ r t', mute_inv (ctl t') ∧ (c_rto (ctl t) = true → c_rto (ctl t') = true) ∧
    (r = inr (tx_at off) ∨ r = inl (tx_at (off + 8)) ∧ (0 < w)%nat)).
Proof.
  intros Hw HI. pose proof am_pos as Ham. unfold tx_turn, tx_at at 1. cbv beta iota. eapply does_cost; [|instantiate (1 := am + am); lia].
  does_step (does_count t) as v t1 Hn1 [Ha1 _]. destruct (mute_advance _ _ _ HI Ha1) as (HI1 & _ & _ & Hr1). rewrite Hd.
  destruct (_ && _) eqn:Eb; [|eapply does_cost; [apply does_ret|lia]; by split_and!; [| |left]].
  apply andb_prop in Eb as [_ Hoff%Nat.ltb_lt].
  assert (load_word data off = Ok (le_word (slice data off (off + 8)))) as ->.
  { unfold load_word. by rewrite (proj2 (Nat.leb_le _ _)) by lia. }
  set (x := le_word _).
  eapply does_cost; [eapply does_bind with (n := 0); exists x, t1; split_and!; [done|lia|lia|]|instantiate (1 := am); lia].
  eapply does_cost; [does_step (does_give (FIFO_DATA_REG + Z.of_nat off) x t1) as u t2 Hn2 (c & Ha2 & Hg)|instantiate (1 := 0); lia].
  { unfold fifo_address, FIFO_BYTES. lia. }
  destruct (mute_advance _ _ _ HI1 Ha2) as ([D1 D2 D3] & _ & _ & Hr2). unfold gives in Hg.
  assert (ctl t2 = c <| c_fifo := c_fifo c ++ le_bytes 8 x |>) as Hc2 by (by destruct D3 as [(d & Ep & _)|(Ep & _)]; rewrite Ep in Hg).
  apply does_ret. rewrite Hc2. split_and!; [by split|cbn; auto|]. right. split; [|lia]. unfold tx_at.
  by replace (FIFO_DATA_REG + Z.of_nat (off + 8)) with (FIFO_DATA_REG + Z.of_nat off + 8) by lia.
Qed.

Lemma mute_fill w : ∀ fuel t off,
  (off + 8 * w = 512)%nat → mute_inv (ctl t) → (w < fuel)%nat →
  does (loopM fuel (tx_turn data) (tx_at off)) (2 * (Z.of_nat w + 1) * am) t (λ st t', mute_inv (ctl t') ∧
    (c_rto (ctl t) = true → c_rto (ctl t') = true) ∧ ∃ off' w', st = tx_at off' ∧ (off' + 8 * w' = 512)%nat).
Proof.
  pose proof am_pos as Ham. induction w as [|w IH]; intros fuel t off Hw HI Hf; (destruct fuel as [|fuel]; [lia|]); cbn [loopM];
    destruct (mute_turn t off _ Hw HI) as (r & t1 & E1 & Hn1 & HI1 & Hr1 & [->|[-> Hpos]]); try lia;
    (eapply does_cost; [eapply does_bind with (n := 2 * am); eexists _, t1; split_and!; [exact E1|lia|lia|]|]).
  - apply does_ret. split_and!; [done|done|]. by exists off, 0%nat.
  - lia.
  - apply does_ret. split_and!; [done|done|]. by exists off, (S w).
  - lia.
  - eapply does_post; [apply (IH fuel t1 (off + 8)%nat); [lia|done|lia]|]. intros st t2 _ (HI2 & Hr2 & Hex). split_and!; auto.
  - lia.
Qed.

Lemma mute_tx_poll fuel t off w :
  (off + 8 * w = 512)%nat → mute_inv (ctl t) → (70 < fuel)%nat →
  does (tx_poll fuel data (tx_at off)) (131 * am) t (λ r t', mute_inv (ctl t') ∧ (∃ off' w', r.2 = tx_at off' ∧ (off' + 8 * w' = 512)%nat) ∧
    if (r.1 : bool) then c_rto (ctl t') = true else now t' ≤ K + 131 * am).
Proof.
  intros Hw HI Hf. pose proof am_pos as Ham. unfold tx_poll. eapply does_cost; [|instantiate (1 := am + 130 * am); lia].
  does_step (does_reg RAW_INT_STATUS_REG t eq_refl) as v t1 Hn1 (Ha & _ & _ & Hs). destruct (Hs eq_refl) as (_ & _ & Htx & Hdto & _ & He).
  rewrite int_of_u16 in Htx, Hdto, He. cbv zeta. rewrite Htx, Hdto, He. destruct (mute_advance _ _ _ HI Ha) as (HI1 & _ & Ht1 & _).
  rewrite (mi_dto _ HI1). cbn [orb]. destruct (c_txdr (ctl t1)).
  - eapply does_cost; [does_step (mute_fill w fuel t1 off Hw HI1 ltac:(lia)) as st t2 Hn2 (HI2 & Hr2 & Hex)|].
    + apply does_ret. cbn [fst snd]. split_and!; [done|done|]. destruct (c_rto (ctl t1)) eqn:E; [auto|]. specialize (Ht1 eq_refl). nia.
    + nia.
  - eapply does_cost; [eapply does_bind, does_ret, does_ret|lia]. cbn [fst snd]. split_and!; [done|by exists off, w|].
    destruct (c_rto (ctl t1)) eqn:E; [done|]. specialize (Ht1 eq_refl). lia.
Qed.

(** Both loops end with the response time-out. *)
Lemma mute_transfer fuel t tr :
  enough fuel → mute_inv (ctl t) → K ≤ now t + cmd_time τ →
  (tr = TransRead data ∧ c_fifo (ctl t) = []) ∨ tr = TransWrite data →
  does (transfer fuel tr) (252 * ms_ns) t (λ b t', mute_inv (ctl t') ∧ c_rto (ctl t') = true).
Proof.
  intros [Hf1 Hf2] HI HK Htr. pose proof am_pos as Ham. pose proof (to_cmd _ timing_law). pose proof (to_pos _ timing_law).
  unfold poll_time, ms_ns in *. set (L := Z.max K (now t) + 131 * am). set (Q := λ t', mute_inv (ctl t') ∧ c_rto (ctl t') = true).
  destruct Htr as [[-> Hfifo]| ->]; unfold transfer.
  - set (st0 := (data, 0%nat, FIFO_DATA_REG)).
    eapply does_cost; [eapply does_bind, does_post; [apply (sleep_does
      (λ st t', st = st0 ∧ mute_inv (ctl t') ∧ c_fifo (ctl t') = [] ∧ now t' ≤ L) (λ _, Q) _ (131 * am) L)|]|]; [lia|by intros ? ? (_ & _ & _ & ?)|..].
    + intros st t' t1 (-> & HI' & Hf' & Hn) [Hc _]. eapply does_post; [apply mute_rx_poll; [by rewrite Hc|by rewrite Hc|lia]|].
      intros [b st] t2 _ (-> & HI2 & Hf2' & Hres). cbn [fst snd] in *. destruct b; [done|]. split_and!; [done|done|done|unfold L; lia].
    + intros st t' t1 (_ & _ & _ & Hn) _ Hle Hms. pose proof (ms_before (now t) (now t') 250 Hle). unfold L, ms_ns, TICK_NS in *. lia.
    + intros t1 Ht1. pose proof (ticked_now _ _ Ht1). destruct Ht1 as [Hc _]. rewrite Hc. split_and!; [done|done|done|unfold L; lia].
    + unfold L. lia.
    + intros [[b off] addr] t1 _ HQ. by apply does_ret.
    + unfold L. lia.
  - eapply does_cost; [eapply does_bind, does_post; [apply (sleep_does
      (λ st t', (∃ off w, st = tx_at off ∧ (off + 8 * w = 512)%nat) ∧ mute_inv (ctl t') ∧ now t' ≤ L) (λ _, Q) _ (131 * am) L)|]|]; [lia|by intros ? ? (_ & _ & ?)|..].
    + intros st t' t1 ((off & w & -> & Hw) & HI' & Hn) [Hc _]. eapply does_post; [apply (mute_tx_poll fuel t1 off w Hw); [by rewrite Hc|lia]|].
      intros [b st] t2 _ (HI2 & Hex & Hres). cbn [fst snd] in *. destruct b; [done|]. split_and!; [done|done|unfold L; lia].
    + intros st t' t1 (_ & _ & Hn) _ Hle Hms. pose proof (ms_before (now t) (now t') 250 Hle). unfold L, ms_ns, TICK_NS in *. lia.
    + intros t1 Ht1. pose proof (ticked_now _ _ Ht1). destruct Ht1 as [Hc _]. rewrite Hc. split_and!; [by exists 0%nat, 64%nat|done|unfold L; lia].
    + unfold L. lia.
    + intros st t1 _ HQ. by apply does_ret.
    + unfold L. lia.
Qed.
End mute.

(** ** Commands *)

(** The controller rests between two commands; [card] says whether there is a card. *)
Record at_rest (card : bool) (t : T) : Prop := {
  ar_idle : c_phase (ctl t) = Idle ∧ c_start (ctl t) = None ∧ c_fifo (ctl t) = [];
  ar_clear : c_dto (ctl t) = false ∧ c_rto (ctl t) = false;
  ar_card : c_card (ctl t) = card;
  ar_busy d : c_busy (ctl t) = Some d → d ≤ now t + busy_time τ;
}.

(** [c'] rests as [c] does. *)
Record rests (c c' : Ctl) : Prop := {
  rs_idle : c_phase c' = Idle ∧ c_start c' = None ∧ c_fifo c' = c_fifo c;
  rs_card : c_card c' = c_card c ∧ c_sector c' = c_sector c;
  rs_busy d : c_busy c' = Some d → c_busy c = Some d;
}.

Lemma rests_trans c1 c2 c3 : rests c1 c2 → rests c2 c3 → rests c1 c3.
Proof. intros [(_ & _ & H2) [H3 H4] H5] [(H6 & H7 & H8) [H9 H10] H11]. split; [split_and!; congruence|split; congruence|auto]. Qed.
Lemma advance_rests τ' n c c' : advance τ' n c c' → c_phase c = Idle → c_start c = None →
  rests c c' ∧ c_dto c' = c_dto c ∧ c_rto c' = c_rto c ∧ c_arg c' = c_arg c ∧ c_blk c' = c_blk c ∧ c_cnt c' = c_cnt c.
Proof.
  intros Ha Hp Hs. destruct (advance_idle _ _ _ _ Ha Hp Hs) as [(b & r & d & x & ->) Hl]. split_and!; try done. split; [done|done|].
  intros d' E. rewrite E in Hl. by apply later_some in Hl as [? _].
Qed.

(** The last steps of [send_cmd] *)
Definition finish (buffer : list Z) : M T (option (list Z) * list Z) :=
  raw ← read_reg RAW_INT_STATUS_REG;
  write_reg RAW_INT_STATUS_REG raw;;
  let i := field_get RawInterruptStatusReg "int_status" raw in
  r0 ← read_reg RESP0_REG;
  r1 ← read_reg RESP1_REG;
  r2 ← read_reg RESP2_REG;
  r3 ← read_reg RESP3_REG;
  mret (if have_error i then None else Some [r0; r1; r2; r3], buffer).

Lemma does_resp a t : a < FIFO_DATA_REG → c_phase (ctl t) = Idle → c_start (ctl t) = None →
  does (read_reg a) am t (λ _ t', rests (ctl t) (ctl t') ∧ c_dto (ctl t') = c_dto (ctl t) ∧ c_rto (ctl t') = c_rto (ctl t)).
Proof.
  intros Ha Hp Hs. eapply does_post; [by apply does_reg|]. intros v t1 _ [Hadv _].
  destruct (advance_rests _ _ _ _ Hadv Hp Hs) as (? & ? & ? & _). done.
Qed.

(** The interrupts are cleared, and the result says whether there was an error. *)
Lemma does_finish buffer t :
  c_phase (ctl t) = Idle → c_start (ctl t) = None →
  does (finish buffer) (6 * am) t (λ r t', r.2 = buffer ∧ (r.1 = None ↔ c_rto (ctl t) = true) ∧
    rests (ctl t) (ctl t') ∧ c_dto (ctl t') = false ∧ c_rto (ctl t') = false).
Proof.
  intros Hp Hs. unfold finish. eapply does_cost.
  { does_step (does_reg RAW_INT_STATUS_REG t eq_refl) as raw t1 _ (Ha1 & _ & _ & Hsh).
    destruct (Hsh eq_refl) as (_ & _ & _ & Hdto & Hrto & He). destruct (advance_rests _ _ _ _ Ha1 Hp Hs) as (R1 & Hdto1 & Hrto1 & _).
    destruct (rs_idle _ _ R1) as (Hp1 & Hs1 & _).
    does_step (does_wreg RAW_INT_STATUS_REG raw t1 eq_refl) as u t2 _ (c & Ha2 & Hw & _). specialize (Hw eq_refl).
    destruct (advance_rests _ _ _ _ Ha2 Hp1 Hs1) as (R2 & Hdto2 & Hrto2 & _).
    assert (rests (ctl t1) (ctl t2)) as R2' by (rewrite Hw; destruct R2; by split).
    assert (c_dto (ctl t2) = false ∧ c_rto (ctl t2) = false) as [Hd2 Hr2].
    { rewrite Hw. cbn. rewrite Hdto, Hrto, Hdto2, Hrto2. by destruct (c_dto (ctl t1)), (c_rto (ctl t1)). }
    pose proof (rests_trans _ _ _ R1 R2') as R. destruct (rs_idle _ _ R) as (Hp2 & Hs2 & _).
    does_step (does_resp RESP0_REG t2 eq_refl Hp2 Hs2) as r0 t3 _ (R3 & Hd3 & Hr3). destruct (rs_idle _ _ R3) as (Hp3 & Hs3 & _).
    does_step (does_resp RESP1_REG t3 eq_refl Hp3 Hs3) as r1 t4 _ (R4 & Hd4 & Hr4). destruct (rs_idle _ _ R4) as (Hp4 & Hs4 & _).
    does_step (does_resp RESP2_REG t4 eq_refl Hp4 Hs4) as r2 t5 _ (R5 & Hd5 & Hr5). destruct (rs_idle _ _ R5) as (Hp5 & Hs5 & _).
    does_step (does_resp RESP3_REG t5 eq_refl Hp5 Hs5) as r3 t6 _ (R6 & Hd6 & Hr6). apply does_ret. cbn [fst snd].
    change (field_get RawInterruptStatusReg "int_status" raw) with (int_of raw). rewrite He, Hrto1.
    split_and!; [done|by destruct (c_rto (ctl t))| |congruence|congruence].
    by eapply rests_trans, rests_trans, rests_trans, rests_trans, R6; [exact R|exact R3|exact R4|exact R5]. }
  lia.
Qed.

(** A data command runs up to [finish]: [I n] holds of the controller while a command written at the time [n] is under way,
    and [J] when the transfer is over. *)
Lemma does_command fuel cmd arg tr t (I : Z → Ctl → Prop) (J : list Z → T → Prop) :
  enough fuel → cmd = READ_CMD ∨ cmd = WRITE_CMD → c_phase (ctl t) = Idle → c_start (ctl t) = None →
  (∀ d, c_busy (ctl t) = Some d → d ≤ now t + busy_time τ) → c_blk (ctl t) = 512 → c_cnt (ctl t) = 512 →
  (∀ n c s r p, rests (ctl t) c → c_arg c = arg → c_busy c = None → c_dto c = c_dto (ctl t) → c_rto c = c_rto (ctl t) →
     s ≤ n + cmd_time τ → r ≤ n + cmd_time τ → starts τ n cmd c p →
     I n (c <| c_start := Some s |> <| c_resp := Some r |> <| c_phase := p |>)) →
  (∀ n n' c c', advance τ n' c c' → I n c → I n c') → (∀ n c, I n c → pending (n + cmd_time τ) c) →
  (∀ n t1, n ≤ now t1 → I n (ctl t1) → does (transfer fuel tr) (252 * ms_ns) t1 J) →
  ∃ b t', send_cmd fuel cmd arg tr t = finish b t' ∧ now t ≤ now t' ∧ J b t'.
Proof.
  intros Hf Hcmd Hp Hs Hb Hblk Hcnt HI Hadv Hpend Htr. unfold send_cmd.
  assert (flag CmdReg "data_expected" cmd = true ∧ flag CmdReg "response_expect" cmd = true) as [-> ->] by (by destruct Hcmd as [-> | ->]).
  destruct (wait_start_idle fuel t Hf Hp Hs) as (b1 & t1 & E1 & Hn1 & -> & Q1 & Hb1). rewrite (bind_Ok _ _ _ _ _ E1), (bind_Ok _ _ t1 () t1 eq_refl).
  assert (c_phase (ctl t1) = Idle ∧ c_start (ctl t1) = None) as [Hp1 Hs1] by (destruct Q1 as (? & ? & ? & ? & E); by rewrite E).
  destruct (wait_not_busy fuel t1 Hf Hp1 Hs1) as (b2 & t2 & E2 & Hn2 & -> & Q2 & Hb2); [intros d Ed; specialize (Hb d (Hb1 d Ed)); lia|].
  rewrite bind_bind, (bind_Ok _ _ _ _ _ E2), (bind_Ok _ _ t2 () t2 eq_refl).
  pose proof (quiet_trans _ _ _ Q1 Q2) as Q.
  assert (c_phase (ctl t2) = Idle ∧ c_start (ctl t2) = None) as [Hp2 Hs2] by (destruct Q2 as (? & ? & ? & ? & E); by rewrite E).
  destruct (does_wreg ARG_REG arg t2 eq_refl) as (u3 & t3 & E3 & Hn3 & c3 & Ha3 & Hw3). rewrite (bind_Ok _ _ _ _ _ E3).
  destruct (advance_idle _ _ _ _ Ha3 Hp2 Hs2) as [Q3 Hl3]. rewrite Hb2 in Hl3. cbn in Hl3.
  assert (ctl t3 = c3 <| c_arg := arg |>) as Hc3.
  { destruct Q3 as (? & ? & ? & ? & E). apply Hw3; [by rewrite E|by rewrite E|done]. }
  assert (quiet ((ctl t) <| c_arg := arg |>) (ctl t3)) as Q3'.
  { rewrite Hc3. destruct (quiet_trans _ _ _ Q Q3) as (? & ? & ? & ? & E). rewrite E. by eexists _, _, _, _. }
  assert (c_phase (ctl t3) = Idle ∧ c_start (ctl t3) = None ∧ c_busy (ctl t3) = None) as (Hp3 & Hs3 & Hb3).
  { split_and!; [destruct Q3' as (? & ? & ? & ? & E); by rewrite E..|by rewrite Hc3]. }
  destruct (does_wreg CMD_REG cmd t3 eq_refl) as (u4 & t4 & E4 & Hn4 & c4 & Ha4 & Hw4). rewrite (bind_Ok _ _ _ _ _ E4).
  destruct (advance_idle _ _ _ _ Ha4 Hp3 Hs3) as [Q4 Hl4]. rewrite Hb3 in Hl4. cbn in Hl4. pose proof (quiet_trans _ _ _ Q3' Q4) as Q4'.
  assert (I (now t4) (ctl t4)) as HI4.
  { destruct Q4' as (? & ? & ? & ? & E). destruct Hw4 as [_ Hw4]. rewrite E in Hw4.
    destruct Hw4 as (_ & _ & _ & Hw4); [done|done|]. rewrite <-E in Hw4.
    destruct (Hw4 eq_refl) as (s & r & p & Hsn & Hrn & Hst & ->); [done|by rewrite E|by rewrite E|done|].
    apply HI; try done; [split; rewrite E; cbn; try done; intros d Ed; rewrite E in Hl4; cbn in Hl4; congruence|by rewrite E..]. }
  assert (now t4 + cmd_time τ ≤ now t4 + cmd_time τ) as HK by lia.
  destruct (wait_taken (I (now t4)) _ fuel t4 Hf (Hadv _) (Hpend _) HI4 HK) as (b5 & t5 & E5 & Hn5 & HI5). rewrite (bind_Ok _ _ _ _ _ E5).
  assert (now t4 + cmd_time τ ≤ now t5 + cmd_time τ) as HK5 by lia.
  destruct (wait_answered (I (now t4)) _ fuel t5 Hf (Hadv _) (Hpend _) HI5 HK5) as (b6 & t6 & E6 & Hn6 & HI6).
  rewrite (bind_Ok _ _ _ _ _ E6). assert (now t4 ≤ now t6) as HK6 by lia.
  destruct (Htr (now t4) t6 HK6 HI6) as (b & t7 & E7 & Hn7 & HJ). rewrite (bind_Ok _ _ _ _ _ E7).
  exists b, t7. split_and!; [done|lia|done].
Qed.

(** ** Blocks *)

Lemma does_sizes card t : at_rest card t →
  ∃ t', set_transaction_size 512 512 t = Ok ((), t') ∧ at_rest card t' ∧ c_sector (ctl t') = c_sector (ctl t) ∧
    c_blk (ctl t') = 512 ∧ c_cnt (ctl t') = 512.
Proof.
  intros [(Hp & Hs & Hf) [Hd Hr] Hc Hb]. unfold set_transaction_size.
  destruct (does_wreg BLK_SIZE_REG 512 t eq_refl) as ([] & t1 & E1 & Hn1 & c1 & Ha1 & _ & Hw1). rewrite (bind_Ok _ _ _ _ _ E1).
  destruct (advance_rests _ _ _ _ Ha1 Hp Hs) as ([(Hp1 & Hs1 & Hf1) [Hc1 Hsec1] Hb1] & Hd1 & Hr1 & _).
  destruct (Hw1 Hs1 Hp1) as (Hw & _). specialize (Hw eq_refl).
  assert (c_phase (ctl t1) = Idle ∧ c_start (ctl t1) = None) as [Hp1' Hs1'] by (by rewrite Hw).
  destruct (does_wreg BYTE_CNT_REG 512 t1 eq_refl) as ([] & t2 & E2 & Hn2 & c2 & Ha2 & _ & Hw2). rewrite E2. exists t2. split; [done|].
  destruct (advance_rests _ _ _ _ Ha2 Hp1' Hs1') as ([(Hp2 & Hs2 & Hf2) [Hc2 Hsec2] Hb2] & Hd2 & Hr2 & _ & Hblk2 & _).
  destruct (Hw2 Hs2 Hp2) as (_ & Hw' & _). specialize (Hw' eq_refl). rewrite Hw in *. rewrite Hw'. cbn in *.
  split_and!; [split; rewrite Hw'; cbn| | |]; try congruence.
  - split_and!; congruence.
  - split; congruence.
  - intros d Ed. specialize (Hb d (Hb1 d (Hb2 d Ed))). lia.
Qed.

(** A card that answers, with sectors of bytes *)
Definition card_ready (t : T) : Prop :=
  at_rest true t ∧ ∀ id, length (c_sector (ctl t) id) = 512%nat ∧ Forall is_byte (c_sector (ctl t) id).

Lemma read_block_does fuel t id buf :
  enough fuel → card_ready t → 0 ≤ id < 2 ^ 32 → length buf = 512%nat →
  ∃ t', read_block fuel id buf t = Ok ((512, c_sector (ctl t) id), t') ∧ at_rest true t' ∧ c_sector (ctl t') = c_sector (ctl t).
Proof.
  intros Hf [Hr Hsec] Hid Hb. destruct (does_sizes true t Hr) as (t1 & E1 & [(Hp & Hs & Hfifo) [Hdto Hrto] Hcard Hbusy] & Hs1 & Hblk & Hcnt).
  set (data := c_sector (ctl t) id). destruct (Hsec id) as [Hl Hby]. fold data in Hl, Hby.
  destruct (does_command fuel READ_CMD id (TransRead buf) t1
    (λ n c, ∃ coming, rx_inv (c_sector (ctl t)) (n + cmd_time τ) (n + transfer_time τ) data 0 coming c)
    (λ b t', ∃ n, b = data ∧ rx_inv (c_sector (ctl t)) (n + cmd_time τ) (n + transfer_time τ) data 512 [] (ctl t') ∧ c_dto (ctl t') = true))
    as (b & t2 & E2 & Hn2 & n & -> & HI & Hd2); [done|by left|done|done|done|done|done|..].
  - intros n c s r p [(_ & _ & R1) [R2 R3] _] Harg Hb0 Hd0 Hr0 Hsn Hrn Hst. unfold starts in Hst. rewrite R2, Hcard in Hst.
    destruct Hst as (due & -> & Hdue). exists data. split; cbn.
    + rewrite R1, Hfifo, drop_0. done.
    + intros _. rewrite R1, Hfifo. cbn. lia.
    + split_and!; congruence.
    + split; cbn; [by intros d [= <-]|eauto].
    + left. exists due. rewrite R3, Harg, Hs1. split_and!; [done|done|congruence].
  - intros n n' c c' Ha [coming HI]. destruct (rx_advance _ _ _ data buf Hl Hb _ _ _ _ _ HI Ha) as (coming' & HI' & _). by exists coming'.
  - intros n c [coming HI]. apply HI.
  - intros n t3 Hn [coming HI]. eapply does_post; [by apply (does_receive _ _ _ data buf Hl Hb Hby fuel t3 coming Hf HI); lia|].
    intros b t4 _ (-> & HI4 & Hd4). by exists n.
  - destruct HI as [D1 _ (Dc & Ds & Dr & Db) _ D5]. destruct D5 as [(? & _ & _ & ?)|(Dp & _ & _ & Dst)]; [congruence|].
    rewrite drop_ge, app_nil_r in D1 by lia.
    destruct (does_finish data t2 Dp Dst) as ([o b] & t3 & E3 & Hn3 & Hob & Ho & [(F1 & F2 & F3) [F4 F5] F6] & F7 & F8). cbn [fst snd] in *.
    subst b. destruct o as [o|]; [|by rewrite (proj1 Ho eq_refl) in Dr]. exists t3. split; [|split; [split|congruence]].
    + unfold read_block. rewrite Hb. rewrite (bind_Ok _ _ t () t) by done. rewrite (bind_Ok _ _ _ _ _ E1).
      unfold send_cmd_unwrap. rewrite bind_bind. change (CmdReg_from ReadSingleBlock) with (Ok READ_CMD).
      rewrite (bind_Ok _ _ t1 READ_CMD t1) by done. rewrite as_u32_small by lia. rewrite bind_bind, (bind_Ok _ _ _ (Some o, data) t3) by congruence.
      change (Ok ((Z.of_nat (length data), data), t3) = Ok ((512, data), t3)). by rewrite Hl.
    + split_and!; congruence.
    + done.
    + congruence.
    + intros d Ed. specialize (F6 d Ed). congruence.
Qed.

Lemma tx_any sec K block data n m due c : tx_inv sec K block data n 0 due c → tx_inv sec K block data m 0 due c.
Proof. intros [H1 H2 [H3|(_ & H & _)]]; [split; [done|done|by left]|done]. Qed.

Lemma write_block_does fuel t id buf :
  enough fuel → card_ready t → 0 ≤ id < 2 ^ 32 → length buf = 512%nat → Forall is_byte buf →
  ∃ t', write_block fuel id buf t = Ok (512, t') ∧ at_rest true t' ∧
    ∀ i, c_sector (ctl t') i = if decide (i = id) then buf else c_sector (ctl t) i.
Proof.
  intros Hf [Hr Hsec] Hid Hb Hby. destruct (does_sizes true t Hr) as (t1 & E1 & [(Hp & Hs & Hfifo) [Hdto Hrto] Hcard Hbusy] & Hs1 & Hblk & Hcnt).
  set (sec := c_sector (ctl t)).
  destruct (does_command fuel WRITE_CMD id (TransWrite buf) t1
    (λ n c, tx_inv sec (n + cmd_time τ) id buf n 0 (n + cmd_time τ + drain_time τ) c)
    (λ b t', ∃ n due, tx_inv sec (n + cmd_time τ) id buf (now t') 512 due (ctl t') ∧ c_dto (ctl t') = true))
    as (b & t2 & E2 & Hn2 & n & due & HI & Hd2); [done|by right|done|done|done|done|done|..].
  - intros n c s r p [(_ & _ & R1) [R2 R3] _] Harg Hb0 Hd0 Hr0 Hsn Hrn Hst. unfold starts in Hst. rewrite R2, Hcard in Hst.
    destruct Hst as (due & -> & Hdue). split; cbn.
    + split_and!; congruence.
    + split; cbn; [by intros d [= <-]|eauto].
    + left. exists 0%nat, due. rewrite Harg. split_and!; [done|done|lia|congruence|unfold sec; congruence|lia].
  - intros n n' c c' Ha HI. apply (tx_any _ _ _ _ n' n). eapply (tx_advance _ _ _ _ Hb n'); [done|by eapply tx_any|done].
  - intros n c HI. apply HI.
  - intros n t3 Hn HI. eapply does_post; [apply (does_transmit _ _ _ buf Hb Hby fuel t3 _ Hf (tx_any _ _ _ _ _ _ _ _ HI)); lia|].
    intros b t4 _ (due & HI4 & Hd4). by exists n, due.
  - destruct HI as [(Dc & Dr & Df) _ D5]. destruct D5 as [(? & ? & _ & _ & _ & ? & _)|(Dp & _ & _ & Dst & Dsec & Db)]; [congruence|].
    destruct (does_finish b t2 Dp Dst) as ([o b'] & t3 & E3 & Hn3 & Hob & Ho & [(F1 & F2 & F3) [F4 F5] F6] & F7 & F8). cbn [fst snd] in *.
    subst b'. destruct o as [o|]; [|by rewrite (proj1 Ho eq_refl) in Dr]. exists t3. split; [|split; [split|intros i; by rewrite F5, Dsec]].
    + unfold write_block. rewrite Hb. rewrite (bind_Ok _ _ t () t) by done. rewrite (bind_Ok _ _ _ _ _ E1).
      unfold send_cmd_unwrap. rewrite bind_bind. change (CmdReg_from WriteSingleBlock) with (Ok WRITE_CMD).
      rewrite (bind_Ok _ _ t1 WRITE_CMD t1) by done. rewrite as_u32_small by lia. rewrite bind_bind, (bind_Ok _ _ _ (Some o, b) t3) by congruence. done.
    + split_and!; congruence.
    + done.
    + congruence.
    + intros d Ed. specialize (Db d (F6 d Ed)). lia.
Qed.

(** C38: (error path) a card that does not answer stops the kernel.  The controller signals a response time-out; reading or
    writing a block then runs through its waits and ends in the [unwrap] of the result of [send_cmd], which is a panic, and not in
    an error that the caller could handle. *)
Theorem silent_card_panics fuel id buf t :
  enough fuel → at_rest false t → length buf = 512%nat →
  read_block fuel id buf t = Panic Unwrap ∧ write_block fuel id buf t = Panic Unwrap.
Proof.
  intros Hf Hr Hb. destruct (does_sizes false t Hr) as (t1 & E1 & [(Hp & Hs & Hfifo) [Hdto Hrto] Hcard Hbusy] & _ & Hblk & Hcnt).
  assert (∀ cmd tr, cmd = READ_CMD ∧ tr = TransRead buf ∨ cmd = WRITE_CMD ∧ tr = TransWrite buf →
    ∃ b t', send_cmd fuel cmd (as_u32 id) tr t1 = Ok ((None, b), t')) as Hsend.
  { intros cmd tr Hcmd. destruct (does_command fuel cmd (as_u32 id) tr t1
      (λ n c, mute_inv (n + cmd_time τ) c ∧ c_fifo c = []) (λ b t', ∃ n, mute_inv n (ctl t') ∧ c_rto (ctl t') = true))
      as (b & t2 & E2 & Hn2 & n & HI & Hr2); [done|by destruct Hcmd as [[-> _]|[-> _]]; auto|done|done|done|done|done|..].
    - intros n c s r p [(_ & _ & R1) [R2 R3] _] _ _ Hd0 Hr0 Hsn Hrn Hst. unfold starts in Hst. rewrite R2, Hcard in Hst.
      destruct Hst as (due & -> & Hdue). split; [|cbn; congruence]. split; cbn.
      + split; cbn; [by intros d [= <-]|eauto].
      + congruence.
      + left. exists due. split_and!; [done|done|congruence].
    - intros n n' c c' Ha [HI Hfi]. destruct (mute_advance _ buf Hb _ _ _ HI Ha) as (HI' & Hfi' & _). split; [done|congruence].
    - intros n c [HI _]. apply HI.
    - intros n t3 Hn [HI Hfi]. eapply does_post; [apply (mute_transfer (n + cmd_time τ) buf Hb fuel t3 tr Hf HI); [lia|]|].
      + destruct Hcmd as [[_ ->]|[_ ->]]; auto.
      + intros b t4 _ [HI4 Hr4]. by exists (n + cmd_time τ).
    - destruct HI as [_ _ [(? & _ & _ & ?)|(Dp & _ & Dst)]]; [congruence|].
      destruct (does_finish b t2 Dp Dst) as ([o b'] & t3 & E3 & _ & _ & Ho & _). cbn [fst snd] in *. exists b', t3.
      rewrite E2, E3. by rewrite (proj2 Ho Hr2). }
  split; [unfold read_block|unfold write_block]; rewrite Hb; (rewrite (bind_Ok _ _ t () t) by done); rewrite (bind_Ok _ _ _ _ _ E1);
    unfold send_cmd_unwrap; rewrite bind_bind.
  - destruct (Hsend READ_CMD (TransRead buf)) as (b & t2 & E2); [by left|]. change (CmdReg_from ReadSingleBlock) with (Ok READ_CMD).
    rewrite (bind_Ok _ _ t1 READ_CMD t1) by done. by rewrite bind_bind, (bind_Ok _ _ _ _ _ E2).
  - destruct (Hsend WRITE_CMD (TransWrite buf)) as (b & t2 & E2); [by right|]. change (CmdReg_from WriteSingleBlock) with (Ok WRITE_CMD).
    rewrite (bind_Ok _ _ t1 WRITE_CMD t1) by done. by rewrite bind_bind, (bind_Ok _ _ _ _ _ E2).
Qed.

(** The driver keeps the promise of [Vf2SdDriverOk]. *)
Program Definition sd_driver_ok (fuel : nat) (Hf : enough fuel) : @Vf2SdDriverOk T (sd_driver fuel) :=
  {| sd_sector := λ t, c_sector (ctl t); sd_ready := card_ready |}.
Next Obligation. intros fuel Hf t id [_ H]. apply H. Qed.
Next Obligation.
  intros fuel Hf t id buf [Hi Hs] Hid Hb. destruct (read_block_does fuel t id buf Hf (conj Hi Hs) Hid Hb) as (t' & E & Hi' & Hs').
  exists t'. split_and!; [cbn; by rewrite (bind_Ok _ _ _ _ _ E)|split; [done|by rewrite Hs']|by rewrite Hs'].
Qed.
Next Obligation.
  intros fuel Hf t id buf [Hi Hs] Hid Hb Hby.
  destruct (write_block_does fuel t id buf Hf (conj Hi Hs) Hid Hb Hby) as (t' & E & Hi' & Hs').
  exists t'. split_and!; [cbn; by rewrite (bind_Ok _ _ _ _ _ E)| |done]. split; [done|]. intros i. rewrite Hs'. by case_decide.
Qed.

(** ** Sequences of operations *)

Inductive SdOp := SdRead (id : Z) | SdWrite (id : Z) (data : list Z).
Definition sd_op (fuel : nat) (op : SdOp) : M T (list Z) :=
  match op with
  | SdRead id => @sd_read_block T (sd_driver fuel) id (replicate 512 0)
  | SdWrite id data => @sd_write_block T (sd_driver fuel) id data;; mret []
  end.
Definition op_ok (op : SdOp) : Prop :=
  match op with
  | SdRead id => 0 ≤ id < 2 ^ 32
  | SdWrite id data => 0 ≤ id < 2 ^ 32 ∧ length data = 512%nat ∧ Forall is_byte data
  end.
(** The specification: an array of sectors *)
Definition spec_op (s : Z → list Z) (op : SdOp) : list Z * (Z → list Z) :=
  match op with
  | SdRead id => (s id, s)
  | SdWrite id data => ([], λ i, if decide (i = id) then data else s i)
  end.
Fixpoint spec_ops (s : Z → list Z) (ops : list SdOp) : list (list Z) * (Z → list Z) :=
  match ops with
  | [] => ([], s)
  | op :: ops => let '(r, s) := spec_op s op in let '(rs, s) := spec_ops s ops in (r :: rs, s)
  end.
Fixpoint sd_ops (fuel : nat) (ops : list SdOp) : M T (list (list Z)) :=
  match ops with [] => mret [] | op :: ops => r ← sd_op fuel op; rs ← sd_ops fuel ops; mret (r :: rs) end.

Lemma spec_ops_ext ops : ∀ s s', (∀ i, s i = s' i) →
  (spec_ops s ops).1 = (spec_ops s' ops).1 ∧ ∀ i, (spec_ops s ops).2 i = (spec_ops s' ops).2 i.
Proof.
  induction ops as [|op ops IH]; intros s s' H; [done|]. cbn. destruct op as [id|id data]; cbn.
  - destruct (IH s s' H) as [H1 H2]. rewrite H. destruct (spec_ops s ops), (spec_ops s' ops). cbn in *. by rewrite H1.
  - destruct (IH (λ i, if decide (i = id) then data else s i) (λ i, if decide (i = id) then data else s' i)) as [H1 H2].
    { intros i. by rewrite H. }
    destruct (spec_ops _ ops), (spec_ops _ ops). cbn in *. by rewrite H1.
Qed.

(** C18: (refinement) the driver of the SD card implements an array of sectors on every controller and card that behave as
    [SdControllerOk] says, within its timing: every sequence of reads and writes of blocks returns, and its results and the
    sectors afterwards are those of the array.  The controller takes commands, answers, fills and drains its FIFO and ends
    transfers in its own time while the driver polls it; the card may stay busy after a write, and the next command waits for it. *)
Theorem sd_driver_refines_sectors fuel ops t :
  enough fuel → card_ready t → Forall op_ok ops →
  ∃ t', sd_ops fuel ops t = Ok ((spec_ops (c_sector (ctl t)) ops).1, t') ∧ card_ready t' ∧
    ∀ i, c_sector (ctl t') i = (spec_ops (c_sector (ctl t)) ops).2 i.
Proof.
  intros Hf Ht Hops. revert t Ht. induction Hops as [|op ops Hop Hops IH]; intros t Ht; [by exists t|].
  assert (∃ t1, sd_op fuel op t = Ok ((spec_op (c_sector (ctl t)) op).1, t1) ∧ card_ready t1 ∧
            ∀ i, c_sector (ctl t1) i = (spec_op (c_sector (ctl t)) op).2 i) as (t1 & E1 & Ht1 & Hs1).
  { pose proof (sd_driver_ok fuel Hf) as Hok. destruct op as [id|id data]; cbn [sd_op spec_op fst snd].
    - destruct (@sd_read_ok T _ (sd_driver_ok fuel Hf) t id (replicate 512 0) Ht Hop (length_replicate _ _)) as (t1 & E & H1 & H2). by exists t1.
    - destruct Hop as (Hid & Hl & Hby). destruct (@sd_write_ok T _ (sd_driver_ok fuel Hf) t id data Ht Hid Hl Hby) as (t1 & E & H1 & H2).
      exists t1. split_and!; [by rewrite (bind_Ok _ _ _ _ _ E)|done|exact H2]. }
  destruct (IH t1 Ht1) as (t' & E' & Ht' & Hs'). exists t'. cbn [sd_ops spec_ops].
  destruct (spec_ops_ext ops _ _ Hs1) as [H1 H2]. rewrite (bind_Ok _ _ _ _ _ E1), (bind_Ok _ _ _ _ _ E').
  destruct (spec_op (c_sector (ctl t)) op) as [r s]. cbn [fst snd] in *. rewrite H1. destruct (spec_ops s ops) as [rs s'].
  split_and!; [done|done|]. intros i. by rewrite Hs', H2.
Qed.

Lemma join_slices {A} (l : list A) (k n : nat) :
  (k * n ≤ length l)%nat → mjoin ((λ j, slice l (k * j) (k * j + k)) <$> seq 0 n) = take (k * n) l.
Proof.
  induction n as [|n IH]; intros H; [by rewrite Nat.mul_0_r|].
  rewrite seq_S, fmap_app, join_app, IH by lia. cbn. rewrite app_nil_r. unfold slice.
  replace (k * n + k - k * n)%nat with k by lia. replace (k * S n)%nat with (k * n + k)%nat by lia.
  by rewrite take_take_drop.
Qed.

(** (round trip) 4096 bytes that are written through the block device of the SD card at the start of a sector are read
    back from there, and no sector outside of the eight changes. *)
Theorem sdcard_write_read fuel offset data t :
  enough fuel → card_ready t → Forall is_byte data → length data = 4096%nat → offset mod 512 = 0 → 0 ≤ offset < 2 ^ 41 - 4096 →
  ∃ t1 t2, @SDCard_write_offset T (sd_driver fuel) offset data t = Ok ((), t1) ∧
    @SDCard_read_offset T (sd_driver fuel) offset t1 = Ok (data, t2) ∧ card_ready t2 ∧
    ∀ i, ¬ offset / 512 ≤ i < offset / 512 + 8 → c_sector (ctl t2) i = c_sector (ctl t) i.
Proof.
  intros Hf Ht Hby Hl Hmod Ho.
  destruct (@sdcard_write_offset_rounds T _ (sd_driver_ok fuel Hf) offset data t Ht Hby Ho) as [_ H].
  destruct (H ltac:(lia)) as (_ & t1 & E1 & Ht1 & Hs1). exists t1.
  destruct (@sdcard_read_offset_contents T _ (sd_driver_ok fuel Hf) offset t1 Ht1 Ho) as (t2 & E2 & Ht2 & Hs2). exists t2.
  split_and!; [done| |exact Ht2|].
  - rewrite E2, Hmod. do 2 f_equal. change (Z.to_nat 0) with 0%nat. rewrite drop_0.
    transitivity (mjoin ((λ j, slice data (512 * j) (512 * j + 512)) <$> seq 0 8)).
    + unfold seqZ. rewrite <-list_fmap_compose. f_equal. apply list_fmap_ext. intros k j [-> Hj]%lookup_seq.
      cbn [compose]. rewrite Hs1, decide_True by lia.
      by replace (Z.to_nat (Z.of_nat (0 + k) + offset / 512 - offset / 512)) with (0 + k)%nat by lia.
    + rewrite join_slices by lia. apply take_ge. lia.
  - intros i Hi. cbn in Hs2, Hs1. by rewrite Hs2, Hs1, decide_False.
Qed.
End controller.

(** ** Witnesses on the simulated controller *)

Definition sim_fuel : nat := Z.to_nat 26000.
Lemma sim_enough : enough (T := Sim) sim_fuel.
Proof. unfold enough, sim_fuel. rewrite Z2Nat.id by lia. split; [by vm_compute|lia]. Qed.
Lemma sim_at_rest card : at_rest card (sim_card card).
Proof. by split. Qed.
Lemma sim_card_ready : card_ready (sim_card true).
Proof.
  split; [apply sim_at_rest|]. intros i. split; [apply length_replicate|]. apply Forall_replicate. by apply Z.mod_pos_bound.
Qed.

Lemma sd_driver_refines_sectors_witness : ∃ t',
  sd_ops sim_fuel [SdRead 3; SdWrite 3 (replicate 512 7); SdRead 3; SdRead 4] (sim_card true) =
    Ok ([replicate 512 3; []; replicate 512 7; replicate 512 4], t').
Proof.
  destruct (sd_driver_refines_sectors sim_fuel [SdRead 3; SdWrite 3 (replicate 512 7); SdRead 3; SdRead 4] (sim_card true))
    as (t' & E & _).
  - apply sim_enough.
  - apply sim_card_ready.
  - apply Forall_cons_2; [cbn; lia|]. apply Forall_cons_2; [|by repeat apply Forall_cons_2; [cbn; lia..|]].
    split_and!; [lia|lia|apply length_replicate|]. apply Forall_replicate. unfold is_byte. lia.
  - exists t'. rewrite E. by vm_compute.
Defined.
Lemma sdcard_write_read_witness : ∃ t1 t2,
  @SDCard_write_offset _ (sd_driver sim_fuel) 1024 (replicate 4096 9) (sim_card true) = Ok ((), t1) ∧
  @SDCard_read_offset _ (sd_driver sim_fuel) 1024 t1 = Ok (replicate 4096 9, t2).
Proof.
  destruct (sdcard_write_read sim_fuel 1024 (replicate 4096 9) (sim_card true)) as (t1 & t2 & E1 & E2 & _).
  - apply sim_enough.
  - apply sim_card_ready.
  - apply Forall_replicate. unfold is_byte. lia.
  - apply length_replicate.
  - done.
  - lia.
  - exists t1, t2. exact (conj E1 E2).
Defined.
Lemma silent_card_panics_witness :
  read_block sim_fuel 5 (replicate 512 1) (sim_card false) = Panic Unwrap ∧
  write_block sim_fuel 5 (replicate 512 1) (sim_card false) = Panic Unwrap.
Proof.
  apply (silent_card_panics sim_fuel 5 (replicate 512 1) (sim_card false)).
  - apply sim_enough.
  - apply sim_at_rest.
  - apply length_replicate.
Defined.

(** The simulated controller also runs: a sector that is written is read back. *)
Example sim_runs :
  match (write_block sim_fuel 3 (replicate 512 7);; read_block sim_fuel 3 (replicate 512 0)) (sim_card true) with
  | Ok ((n, data), _) => n = 512 ∧ data = replicate 512 7
  | _ => False
  end.
Proof. by vm_compute. Qed.
