(* ===== verification/Poll.v ===== *)
(** * Waiting for descriptors ([os/src/syscall/ppoll.rs])

    Sets of descriptors as sixteen words, [sys_ppoll] and [pselect].  The records and the sets are
    given by their values, as they are read from and written to user memory. *)

From Stdlib Require Import ZArith Lia.
From stdpp Require Import prelude gmap.
From S2P Require Import Prelude Config Ext4Layout Ext4 Time Task Syscall Vfs.

Open Scope Z_scope.

(** ** Events *)

Definition POLLIN : Z := 0x001.
Definition POLLPRI : Z := 0x002.
Definition POLLOUT : Z := 0x004.
Definition POLLERR : Z := 0x008.
Definition POLLHUP : Z := 0x010.
Definition POLLNVAL : Z := 0x020.
Definition PollEvent_contains (e f : Z) : bool := Z.land e f =? f.

Record PollFd := { poll_fd : Z; events : Z; revents : Z }.
#[export] Instance PollFd_eta : Settable PollFd := λ r, {| poll_fd := poll_fd r; events := events r; revents := revents r |}.

(** ** Sets of descriptors *)

(** The field [bits], of sixteen words *)
Definition FdSet : Type := list Z.
Definition FdSet_empty : FdSet := replicate 16 0.
Definition fd_elt (d : Z) : Z := Z.shiftr d 6.
Definition fd_mask (d : Z) : Z := wshl 1 (Z.land d 0x3F).
Definition FdSet_word (s : list Z) (d : Z) : outcome Z :=
  match s !! Z.to_nat (fd_elt d) with Some w => Ok w | None => Panic Bounds end.
Definition FdSet_clr_all (s : list Z) : FdSet := foldl (λ s i, <[i := 0]> s) s (seq 0 16).
Definition FdSet_set (d : Z) (s : list Z) : outcome FdSet :=
  w ← FdSet_word s d; Ok (<[Z.to_nat (fd_elt d) := Z.lor w (fd_mask d)]> s).
Definition FdSet_clr (d : Z) (s : list Z) : outcome FdSet :=
  w ← FdSet_word s d; Ok (<[Z.to_nat (fd_elt d) := Z.land w (wnot (fd_mask d))]> s).
Definition FdSet_is_set (s : list Z) (d : Z) : outcome bool :=
  w ← FdSet_word s d; Ok (negb (Z.land (fd_mask d) w =? 0)).
Fixpoint collect_fds (s : list Z) (ds : list nat) : outcome (list Z) :=
  match ds with
  | [] => Ok []
  | d :: ds => b ← FdSet_is_set s (Z.of_nat d); v ← collect_fds s ds; Ok (if (b : bool) then Z.of_nat d :: v else v)
  end.
Definition get_fd_vec (s : list Z) : outcome (list Z) := collect_fds s (seq 0 1024).
Definition count_ones (w : Z) : Z := Z.of_nat (length (filter (λ i : nat, Z.testbit w (Z.of_nat i) = true) (seq 0 64))).
Definition set_num (s : list Z) : Z := foldl (λ sum w, as_u32 (sum + count_ones w)) 0 s.

(** ** Polling *)

Section poll.
Context {D I32 F : Type} `{!OffsetDevice D, !InodeOps (VState D) I32, !FileOps (VState D) I32, !FileOps (VState D) F}.
Abbreviation File := (AnyFile I32 F) (only parsing).
Abbreviation Dent := (Dentry (AnyInode I32)) (only parsing).
Abbreviation Inner := (@TaskControlBlockInner File Dent) (only parsing).
Abbreviation Sys := (@Sys D I32 F) (only parsing).

(** What happens after the task has given up the processor, until it is dispatched again *)
Variable meanwhile : M Sys unit.

(** [inner.fd_table[fd]] *)
Definition table_at (i : Inner) (fd : Z) : outcome (option File) :=
  match fd_table i !! Z.to_nat fd with Some o => Ok o | None => Panic Bounds end.

(** One record: whether an event was triggered, and the record afterwards *)
Definition poll_one (i : Inner) (p : PollFd) : M (VState D) (bool * PollFd) :=
  o ← lift (table_at i (poll_fd p));
  match o with
  | None => mret (false, p)
  | Some f =>
      hup ← file_hang_up f;
      let p := if (hup : bool) then p <| revents ::= Z.lor POLLHUP |> else p in
      rd ← (if PollEvent_contains (events p) POLLIN then file_r_ready f else mret false);
      let p := if (rd : bool) then p <| revents ::= Z.lor POLLIN |> else p in
      wr ← (if PollEvent_contains (events p) POLLOUT then file_w_ready f else mret false);
      let p := if (wr : bool) then p <| revents ::= Z.lor POLLOUT |> else p in
      mret (hup || rd || wr, p)
  end.
Definition poll_all (i : Inner) (fds : list PollFd) (n : Z) : M (VState D) (Z * list PollFd) :=
  foldM (λ '(n, ps) p, '(b, p) ← poll_one i p; mret (if (b : bool) then n + 1 else n, ps ++ [p])) (n, []) fds.

(** One turn of the loop: the events found so far and the records *)
Definition ppoll_turn (st : Z * list PollFd) : M Sys ((Z * list PollFd) + (Z * list PollFd)) :=
  let '(n, fds) := st in
  t ← the_current;
  i ← the_inner t;
  '(n, fds) ← zoom sys_vfs (poll_all i fds n);
  let n := n + 1 in
  if 0 <? n then mret (inr (n, fds))
  else
    zoom sys_kernel suspend_current_and_run_next;;
    meanwhile;;
    mret (inl (n, fds)).
(** The time limit is only mentioned on the console; the mask is read through the pointer. *)
Definition sys_ppoll (fuel : nat) (fds : list PollFd) (sigmask : option Z) : M Sys (Z * list PollFd) :=
  the_current;;
  oldsig ← match sigmask with
           | Some m => '(_, old) ← zoom sys_kernel (sys_sigprocmask SIG_SETMASK (Some m)); mret old
           | None => mret 0
           end;
  '(n, fds) ← loopM fuel ppoll_turn (0, fds);
  match sigmask with
  | Some _ => zoom sys_kernel (sys_sigprocmask SIG_SETMASK (Some oldsig));; mret ()
  | None => mret ()
  end;;
  mret (n, fds).

(** *** [pselect] *)

(** The passes over one set: counting the descriptors that are ready, and clearing those that are not *)
Definition count_step (ready : File → M (VState D) bool) (i : Inner) (s : FdSet) (n : Z) (d : nat) : M (VState D) Z :=
  b ← lift (FdSet_is_set s (Z.of_nat d));
  if negb b then mret n
  else
    o ← lift (table_at i (Z.of_nat d));
    match o with
    | Some f => r ← ready f; mret (if (r : bool) then n + 1 else n)
    | None => mret n
    end.
Definition clear_step (ready : File → M (VState D) bool) (i : Inner) (s : FdSet) (d : nat) : M (VState D) FdSet :=
  b ← lift (FdSet_is_set s (Z.of_nat d));
  if negb b then mret s
  else
    o ← lift (table_at i (Z.of_nat d));
    match o with
    | Some f => r ← ready f; if (r : bool) then mret s else lift (FdSet_clr (Z.of_nat d) s)
    | None => mret s
    end.
Definition count_ready (ready : File → M (VState D) bool) (i : Inner) (nfds : nat) (o : option FdSet) (n : Z) : M (VState D) Z :=
  match o with Some s => foldM (count_step ready i s) n (seq 0 nfds) | None => mret n end.
Definition clear_unready (ready : File → M (VState D) bool) (i : Inner) (nfds : nat) (o : option FdSet) : M (VState D) (option FdSet) :=
  match o with Some s => s ← foldM (clear_step ready i) s (seq 0 nfds); mret (Some s) | None => mret None end.

Definition pselect_turn (nfds : nat) (read_fds write_fds : option FdSet) (timeout : option TimeSpec) (n : Z) : M Sys (Z + Z) :=
  t ← the_current;
  i ← the_inner t;
  n ← zoom sys_vfs (count_ready file_r_ready i nfds read_fds n);
  n ← zoom sys_vfs (count_ready file_w_ready i nfds write_fds n);
  if negb (n =? 0) then mret (inr n)
  else
    tick ← zoom sys_kernel (gets k_time);
    if match timeout with
       | Some limit => match TimeSpec_cmp (TimeSpec_now tick) limit with Lt => false | _ => true end
       | None => false
       end
    then mret (inr n)
    else
      zoom sys_kernel suspend_current_and_run_next;;
      meanwhile;;
      mret (inl n).
(** The result and the three sets afterwards; the mask is not used. *)
Definition pselect (fuel nfds : nat) (read_fds write_fds exception_fds : option FdSet) (timeout : option TimeSpec) :
    M Sys (Z * (option FdSet * option FdSet * option FdSet)) :=
  tick ← zoom sys_kernel (gets k_time);
  let timeout := (λ t, TimeSpec_add t (TimeSpec_now tick)) <$> timeout in
  n ← loopM fuel (pselect_turn nfds read_fds write_fds timeout) 0;
  t ← the_current;
  i ← the_inner t;
  read_fds ← zoom sys_vfs (clear_unready file_r_ready i nfds read_fds);
  write_fds ← zoom sys_vfs (clear_unready file_w_ready i nfds write_fds);
  mret (n, (read_fds, write_fds, (λ _, FdSet_empty) <$> exception_fds)).
End poll.
