(* ===== verification/PollSpec.v ===== *)
(** * Theorems on waiting for descriptors

    The sixteen words of an [FdSet] as a finite set of numbers below 1024, what [sys_ppoll] returns and
    what [pselect] returns when a descriptor is ready. *)

From Stdlib Require Import ZArith Lia Sorted.
From stdpp Require Import prelude gmap sorting.
From S2P Require Import Prelude Config PageTable MemorySet Ext4Layout Ext4 Ext4Spec Ext4DirSpec Time Task Syscall SchedSpec FdSpec Vfs VfsSpec Poll.

Open Scope Z_scope.

(** ** The sixteen words as a set *)

Definition fd_bit (s : list Z) (d : nat) : bool :=
  match s !! (d / 64)%nat with Some w => Z.testbit w (Z.of_nat (d mod 64)) | None => false end.
Definition fdset_wf (s : list Z) : Prop := length s = 16%nat ∧ Forall is_usize s.
(** The words hold exactly the numbers of [X]. *)
Definition holds_fds (s : list Z) (X : gset nat) : Prop :=
  fdset_wf s ∧ ∀ d, d ∈ X ↔ (d < 1024)%nat ∧ fd_bit s d = true.

Lemma fd_elt_nat d : Z.to_nat (fd_elt (Z.of_nat d)) = (d / 64)%nat.
Proof. unfold fd_elt. rewrite Z.shiftr_div_pow2 by lia. change (2 ^ 6) with (Z.of_nat 64). by rewrite <-Nat2Z.inj_div, Nat2Z.id. Qed.
Lemma fd_mask_nat d : fd_mask (Z.of_nat d) = 2 ^ Z.of_nat (d mod 64).
Proof.
  unfold fd_mask. change 0x3F with (Z.ones 6). rewrite Z.land_ones by lia. change (2 ^ 6) with (Z.of_nat 64).
  rewrite <-Nat2Z.inj_mod. pose proof (Nat.mod_upper_bound d 64). unfold wshl.
  rewrite shiftl_1 by lia. apply wrap_small. split; [lia|]. apply Z.pow_lt_mono_r; lia.
Qed.
Lemma FdSet_word_ok s d : length s = 16%nat → (d < 1024)%nat →
  ∃ w, s !! (d / 64)%nat = Some w ∧ FdSet_word s (Z.of_nat d) = Ok w.
Proof.
  intros Hl Hd. unfold FdSet_word. rewrite fd_elt_nat.
  assert (d / 64 < length s)%nat as [w Hw]%lookup_lt_is_Some_2; [|exists w; by rewrite Hw].
  rewrite Hl. apply Nat.Div0.div_lt_upper_bound. lia.
Qed.
Lemma FdSet_word_out s d : length s = 16%nat → (1024 ≤ d)%nat → FdSet_word s (Z.of_nat d) = Panic Bounds.
Proof.
  intros Hl Hd. unfold FdSet_word. rewrite fd_elt_nat, lookup_ge_None_2; [done|]. rewrite Hl. apply Nat.div_le_lower_bound; lia.
Qed.

Lemma FdSet_is_set_eq s d : length s = 16%nat → (d < 1024)%nat → FdSet_is_set s (Z.of_nat d) = Ok (fd_bit s d).
Proof.
  intros Hl Hd. destruct (FdSet_word_ok s d Hl Hd) as (w & Hw & E). unfold FdSet_is_set, fd_bit. rewrite E, Hw. cbn.
  by rewrite fd_mask_nat, Z.land_comm, land_bit_test by lia.
Qed.

(** A word changed in one bit *)
Lemma div_mod_eq d e : (d / 64 = e / 64 → d mod 64 = e mod 64 → d = e)%nat.
Proof. intros H1 H2. rewrite (Nat.div_mod_eq d 64), (Nat.div_mod_eq e 64). by rewrite H1, H2. Qed.
Lemma fd_bit_insert s d w w' e (b : bool) :
  s !! (d / 64)%nat = Some w →
  (∀ k, 0 ≤ k < 64 → Z.testbit w' k = if k =? Z.of_nat (d mod 64) then b else Z.testbit w k) →
  fd_bit (<[(d / 64)%nat := w']> s) e = if decide (e = d) then b else fd_bit s e.
Proof.
  intros Hw Hk. unfold fd_bit. pose proof (Nat.mod_upper_bound e 64). destruct (decide (e / 64 = d / 64)%nat) as [Hq|Hq].
  - rewrite Hq, list_lookup_insert_eq, Hw by (by eapply lookup_lt_Some). rewrite Hk by lia.
    case_decide as He; [subst; by rewrite Z.eqb_refl|]. rewrite (proj2 (Z.eqb_neq _ _)); [done|].
    intros ?%Nat2Z.inj. apply He. by apply div_mod_eq.
  - rewrite list_lookup_insert_ne by done. rewrite decide_False; [done|]. by intros ->.
Qed.

Lemma usize_log2 w : 0 ≤ w → Z.log2 w < 64 → is_usize w.
Proof. intros. split; [done|]. apply Z.log2_lt_cancel. by change (Z.log2 W64) with 64. Qed.
Lemma log2_usize w : is_usize w → Z.log2 w < 64.
Proof. intros [? ?]. destruct (decide (w = 0)) as [->|]; [done|]. apply Z.log2_lt_pow2; [lia|done]. Qed.

Lemma FdSet_set_ok s d : fdset_wf s → (d < 1024)%nat →
  ∃ s', FdSet_set (Z.of_nat d) s = Ok s' ∧ fdset_wf s' ∧ ∀ e, fd_bit s' e = if decide (e = d) then true else fd_bit s e.
Proof.
  intros [Hl Hs] Hd. destruct (FdSet_word_ok s d Hl Hd) as (w & Hw & E). unfold FdSet_set. rewrite E. cbn.
  rewrite fd_elt_nat, fd_mask_nat. eexists. split; [done|]. pose proof (Nat.mod_upper_bound d 64). split.
  - split; [by rewrite length_insert|]. apply Forall_insert; [done|]. pose proof (Forall_lookup_1 _ _ _ _ Hs Hw) as Hwu.
    pose proof (log2_usize w Hwu). destruct Hwu. apply usize_log2; [apply Z.lor_nonneg; lia|].
    rewrite Z.log2_lor, Z.log2_pow2 by lia. lia.
  - intros e. apply (fd_bit_insert s d w); [done|]. intros k Hk. rewrite Z.lor_spec, Z.pow2_bits_eqb, Z.eqb_sym by lia.
    destruct (k =? _); [apply orb_true_r|apply orb_false_r].
Qed.

Lemma wnot_pow2_bit k n : 0 ≤ k < 64 → 0 ≤ n < 64 → Z.testbit (wnot (2 ^ k)) n = negb (n =? k).
Proof.
  intros Hk Hn. unfold wnot. change (W64 - 1) with (Z.ones 64). rewrite Z.sub_nocarry_ldiff.
  - by rewrite Z.ldiff_spec, Z.ones_spec_low, Z.pow2_bits_eqb, Z.eqb_sym by lia.
  - apply Z.bits_inj'. intros i Hi. rewrite Z.ldiff_spec, Z.bits_0, Z.pow2_bits_eqb by lia.
    destruct (Z.eqb_spec k i) as [<-|]; [by rewrite Z.ones_spec_low by lia|done].
Qed.
Lemma FdSet_clr_ok s d : fdset_wf s → (d < 1024)%nat →
  ∃ s', FdSet_clr (Z.of_nat d) s = Ok s' ∧ fdset_wf s' ∧ ∀ e, fd_bit s' e = if decide (e = d) then false else fd_bit s e.
Proof.
  intros [Hl Hs] Hd. destruct (FdSet_word_ok s d Hl Hd) as (w & Hw & E). unfold FdSet_clr. rewrite E. cbn.
  rewrite fd_elt_nat, fd_mask_nat. eexists. split; [done|]. pose proof (Nat.mod_upper_bound d 64). split.
  - split; [by rewrite length_insert|]. apply Forall_insert; [done|]. pose proof (Forall_lookup_1 _ _ _ _ Hs Hw) as Hwu.
    pose proof (log2_usize w Hwu). destruct Hwu. apply usize_log2; [apply Z.land_nonneg; lia|].
    assert (0 ≤ wnot (2 ^ Z.of_nat (d mod 64))).
    { unfold wnot. assert (2 ^ Z.of_nat (d mod 64) < 2 ^ 64) by (apply Z.pow_lt_mono_r; lia). change W64 with (2 ^ 64). lia. }
    pose proof (Z.log2_land w (wnot (2 ^ Z.of_nat (d mod 64)))). lia.
  - intros e. apply (fd_bit_insert s d w); [done|]. intros k Hk. rewrite Z.land_spec, wnot_pow2_bit by lia.
    destruct (k =? _); [apply andb_false_r|apply andb_true_r].
Qed.

Lemma FdSet_clr_all_eq s : length s = 16%nat → FdSet_clr_all s = FdSet_empty.
Proof. intros Hl. do 16 (destruct s as [|? s]; [done|]). by destruct s. Qed.
Lemma empty_wf : fdset_wf FdSet_empty.
Proof. split; [done|]. apply Forall_replicate. unfold is_usize, W64. lia. Qed.
Lemma empty_bit d : fd_bit FdSet_empty d = false.
Proof. unfold fd_bit, FdSet_empty. destruct (_ !! _) as [w|] eqn:E; [|done]. apply lookup_replicate in E as [-> _]. apply Z.bits_0. Qed.

(** *** Collecting and counting *)

Lemma collect_fds_eq s ds : length s = 16%nat → Forall (λ d, (d < 1024)%nat) ds →
  collect_fds s ds = Ok (Z.of_nat <$> filter (λ d, fd_bit s d = true) ds).
Proof.
  intros Hl. induction 1 as [|d ds Hd _ IH]; [done|]. cbn [collect_fds]. rewrite FdSet_is_set_eq, IH, filter_cons by done. by destruct (fd_bit s d).
Qed.
Lemma get_fd_vec_eq s : length s = 16%nat → get_fd_vec s = Ok (Z.of_nat <$> filter (λ d, fd_bit s d = true) (seq 0 1024)).
Proof. intros Hl. apply collect_fds_eq; [done|]. apply Forall_forall. intros d ?%elem_of_seq. lia. Qed.

Lemma length_filter_Forall2 {A B} (P : A → Prop) (Q : B → Prop) `{!∀ x, Decision (P x), !∀ y, Decision (Q y)} l k :
  Forall2 (λ x y, P x ↔ Q y) l k → length (filter P l) = length (filter Q k).
Proof. induction 1 as [|x y l k Hxy _ IH]; [done|]. rewrite !filter_cons. repeat case_decide; cbn; naive_solver. Qed.
(** The bits of the last word *)
Lemma count_ones_block s w :
  length (filter (λ d, fd_bit (s ++ [w]) d = true) (seq (64 * length s) 64)) =
  length (filter (λ i : nat, Z.testbit w (Z.of_nat i) = true) (seq 0 64)).
Proof.
  apply length_filter_Forall2, Forall2_same_length_lookup_2; [by rewrite !length_seq|].
  intros j d i [-> ?]%lookup_seq [-> _]%lookup_seq. unfold fd_bit. rewrite Nat.add_0_l, Nat.mul_comm, Nat.div_add_l, Nat.div_small by lia.
  rewrite (Nat.add_comm _ j), Nat.Div0.mod_add, Nat.mod_small, Nat.add_0_r by lia. by rewrite lookup_app_r, Nat.sub_diag by lia.
Qed.
Lemma count_all s :
  foldl (λ n w, n + count_ones w) 0 s = Z.of_nat (length (filter (λ d, fd_bit s d = true) (seq 0 (64 * length s)))).
Proof.
  induction s as [|w s IH] using rev_ind; [done|].
  rewrite foldl_snoc, IH, length_app, Nat.mul_add_distr_l, seq_app, filter_app, length_app, Nat2Z.inj_add, Nat.add_0_l.
  change (64 * length [w])%nat with 64%nat. rewrite count_ones_block. f_equal. f_equal.
  apply length_filter_Forall2, Forall2_same_length_lookup_2; [done|]. intros j d e H1 H2. rewrite H1 in H2. injection H2 as <-.
  apply lookup_seq in H1 as [-> ?]. unfold fd_bit. rewrite lookup_app_l; [done|]. apply Nat.Div0.div_lt_upper_bound. lia.
Qed.
Lemma count_ones_bound w : 0 ≤ count_ones w ≤ 64.
Proof. unfold count_ones. pose proof (length_filter (λ i : nat, Z.testbit w (Z.of_nat i) = true) (seq 0 64)) as H. rewrite length_seq in H. lia. Qed.
(** The counter of 32 bits does not overflow. *)
Lemma set_num_from s n : 0 ≤ n → n + 64 * Z.of_nat (length s) < 2 ^ 32 →
  foldl (λ sum w, as_u32 (sum + count_ones w)) n s = foldl (λ n w, n + count_ones w) n s.
Proof.
  revert n. induction s as [|w s IH]; intros n Hn Hl; [done|]. cbn [foldl length] in *. pose proof (count_ones_bound w).
  replace (as_u32 (n + count_ones w)) with (n + count_ones w) by (unfold as_u32; symmetry; apply Z.mod_small; lia).
  apply IH; lia.
Qed.
Lemma set_num_eq s : length s = 16%nat → set_num s = Z.of_nat (length (filter (λ d, fd_bit s d = true) (seq 0 1024))).
Proof. intros Hl. unfold set_num. rewrite set_num_from by (rewrite ?Hl; lia). by rewrite count_all, Hl. Qed.

(** *** Refinement *)

Inductive FdSetOp := OpSet (d : nat) | OpClr (d : nat) | OpClrAll.
Definition fdset_op (s : list Z) (o : FdSetOp) : outcome FdSet :=
  match o with OpSet d => FdSet_set (Z.of_nat d) s | OpClr d => FdSet_clr (Z.of_nat d) s | OpClrAll => Ok (FdSet_clr_all s) end.
Fixpoint fdset_ops (s : list Z) (os : list FdSetOp) : outcome FdSet :=
  match os with [] => Ok s | o :: os => s ← fdset_op s o; fdset_ops s os end.
Definition set_op (X : gset nat) (o : FdSetOp) : gset nat :=
  match o with OpSet d => {[d]} ∪ X | OpClr d => X ∖ {[d]} | OpClrAll => ∅ end.
Definition op_in_range (o : FdSetOp) : bool := match o with OpSet d | OpClr d => (d <? 1024)%nat | OpClrAll => true end.

Lemma empty_holds : holds_fds FdSet_empty ∅.
Proof. split; [apply empty_wf|]. intros d. rewrite empty_bit. set_solver. Qed.
Lemma fdset_op_holds s X o : holds_fds s X → 
  if op_in_range o then ∃ s', fdset_op s o = Ok s' ∧ holds_fds s' (set_op X o) else fdset_op s o = Panic Bounds.
Proof.
  intros [Hs HX]. destruct o as [d|d|]; cbn [op_in_range fdset_op set_op].
  - destruct (Nat.ltb_spec d 1024) as [Hd|Hd].
    + destruct (FdSet_set_ok s d Hs Hd) as (s' & E & Hs' & Hb). exists s'. split; [done|]. split; [done|]. intros e. rewrite Hb.
      rewrite elem_of_union, elem_of_singleton, HX. case_decide; naive_solver.
    + unfold FdSet_set. by rewrite FdSet_word_out by (try apply Hs; lia).
  - destruct (Nat.ltb_spec d 1024) as [Hd|Hd].
    + destruct (FdSet_clr_ok s d Hs Hd) as (s' & E & Hs' & Hb). exists s'. split; [done|]. split; [done|]. intros e. rewrite Hb.
      rewrite elem_of_difference, elem_of_singleton, HX. case_decide; naive_solver.
    + unfold FdSet_clr. by rewrite FdSet_word_out by (try apply Hs; lia).
  - rewrite FdSet_clr_all_eq by apply Hs. exists FdSet_empty. split; [done|]. apply empty_holds.
Qed.
Lemma fdset_ops_hold os s X : holds_fds s X →
  if forallb op_in_range os then ∃ s', fdset_ops s os = Ok s' ∧ holds_fds s' (foldl set_op X os) else fdset_ops s os = Panic Bounds.
Proof.
  revert s X. induction os as [|o os IH]; intros s X H; [by exists s|]. cbn [forallb fdset_ops foldl].
  pose proof (fdset_op_holds s X o H) as Ho. destruct (op_in_range o); cbn [andb].
  - destruct Ho as (s' & -> & Hs'). apply (IH s' _ Hs').
  - by rewrite Ho.
Qed.

(** The members in increasing order *)
Lemma held_fds_vec s X : holds_fds s X →
  ∃ l, get_fd_vec s = Ok (Z.of_nat <$> l) ∧ StronglySorted lt l ∧ list_to_set l = X ∧ set_num s = Z.of_nat (size X).
Proof.
  intros [[Hl _] HX]. set (l := filter (λ d, fd_bit s d = true) (seq 0 1024)).
  assert (list_to_set l = X) as Hset.
  { apply set_eq. intros d. rewrite elem_of_list_to_set, HX. unfold l. rewrite list_elem_of_filter, elem_of_seq. intuition lia. }
  assert (StronglySorted lt (seq 0 1024)) as Hseq.
  { generalize 0%nat 1024%nat. intros a n. revert a. induction n as [|n IH]; intros a; constructor; [done|].
    apply Forall_forall. intros x ?%elem_of_seq. lia. }
  exists l. split_and!; [by apply get_fd_vec_eq| |done|].
  - clear -Hseq. unfold l. induction Hseq as [|x k Hk IH Hx]; [constructor|]. rewrite filter_cons. case_decide; [|done].
    constructor; [done|]. rewrite Forall_forall in *. intros y [_ ?]%list_elem_of_filter. by apply Hx.
  - rewrite set_num_eq by done. fold l. rewrite <-Hset. f_equal. rewrite size_list_to_set; [done|]. apply NoDup_filter, NoDup_seq.
Qed.

(** C19: Any sequence of insertions and removals on the sixteen words implements a finite set of numbers below 1024: membership,
    the list of the members in increasing order and their number are those of the set, and a number from 1024 on stops the
    kernel. *)
Theorem fdset_refines_set os :
  let X := foldl set_op ∅ os in
  if forallb op_in_range os then
    ∃ s l, fdset_ops FdSet_empty os = Ok s ∧ (∀ d, (d < 1024)%nat → FdSet_is_set s (Z.of_nat d) = Ok (bool_decide (d ∈ X))) ∧
      get_fd_vec s = Ok (Z.of_nat <$> l) ∧ StronglySorted lt l ∧ list_to_set l = X ∧ set_num s = Z.of_nat (size X)
  else fdset_ops FdSet_empty os = Panic Bounds.
Proof.
  intros X. pose proof (fdset_ops_hold os FdSet_empty ∅ empty_holds) as H. destruct (forallb op_in_range os); [|done].
  destruct H as (s & E & Hs). destruct (held_fds_vec s _ Hs) as (l & H). exists s, l. split_and!; [done| |apply H..].
  intros d Hd. destruct Hs as [[Hl _] HX]. rewrite FdSet_is_set_eq by done. f_equal. apply eq_true_iff_eq. rewrite bool_decide_eq_true.
  unfold X. rewrite HX. tauto.
Qed.

(** ** Polling *)

Section polling.
Context {D I32 F : Type} `{!OffsetDevice D, !InodeOps (VState D) I32, !FileOps (VState D) I32, !FileOps (VState D) F}.
Abbreviation File := (AnyFile I32 F) (only parsing).
Abbreviation Inner := (@TaskControlBlockInner File (Dentry (AnyInode I32))) (only parsing).
Abbreviation Sys := (@Sys D I32 F) (only parsing).
Variable meanwhile : M Sys unit.
Implicit Types (w : Sys) (s : VState D) (i : Inner).

(** Which files are hung up, ready for reading and ready for writing; asking changes nothing. *)
Variables (hup rd wr : File → bool).
Definition steady s (f : File) : Prop :=
  file_hang_up f s = Ok (hup f, s) ∧ file_r_ready f s = Ok (rd f, s) ∧ file_w_ready f s = Ok (wr f, s).

Definition found_events i (p : PollFd) : Z :=
  match fd_file i (Z.to_nat (poll_fd p)) with
  | None => 0
  | Some f => Z.lor (Z.lor (if PollEvent_contains (events p) POLLOUT && wr f then POLLOUT else 0)
                           (if PollEvent_contains (events p) POLLIN && rd f then POLLIN else 0))
                    (if hup f then POLLHUP else 0)
  end.
Definition with_events i (p : PollFd) : PollFd := p <| revents ::= Z.lor (found_events i p) |>.
Definition triggered i (fds : list PollFd) : Z := Z.of_nat (length (filter (λ p, found_events i p ≠ 0) fds)).
(** The descriptor is in the table, and its file can be asked. *)
Definition pollable s i (d : nat) : Prop := (d < length (fd_table i))%nat ∧ ∀ f, fd_file i d = Some f → steady s f.

Lemma table_at_eq i d : (d < length (fd_table i))%nat → table_at i (Z.of_nat d) = Ok (fd_file i d).
Proof. intros Hd. unfold table_at, fd_file. rewrite Nat2Z.id. destruct (lookup_lt_is_Some_2 _ _ Hd) as [o ->]. by destruct o. Qed.
Lemma poll_one_eq s i p : 0 ≤ poll_fd p → pollable s i (Z.to_nat (poll_fd p)) →
  poll_one i p s = Ok ((bool_decide (found_events i p ≠ 0), with_events i p), s).
Proof.
  intros Hp [Hd Hf]. unfold poll_one, with_events, found_events. rewrite <-(Z2Nat.id (poll_fd p)) at 1 by done.
  rewrite table_at_eq by done. rewrite (bind_Ok _ _ s (fd_file i (Z.to_nat (poll_fd p))) s) by done.
  destruct (fd_file _ _) as [f|]; [|by destruct p]. destruct (Hf f eq_refl) as (Hh & Hr & Hw).
  rewrite (bind_Ok _ _ _ _ _ Hh).
  set (p1 := if hup f then _ else p). assert (events p1 = events p) as -> by (unfold p1; by destruct (hup f)).
  erewrite (bind_Ok _ _ s (PollEvent_contains (events p) POLLIN && rd f) s) by (destruct (PollEvent_contains _ POLLIN); [exact Hr|done]).
  set (p2 := if _ && rd f then _ else p1).
  assert (events p2 = events p) as -> by (unfold p2, p1; by destruct (_ && _), (hup f)).
  erewrite (bind_Ok _ _ s (PollEvent_contains (events p) POLLOUT && wr f) s) by (destruct (PollEvent_contains _ POLLOUT); [exact Hw|done]).
  unfold p2, p1. destruct p as [d e r]. cbn [poll_fd events revents]. destruct (PollEvent_contains e POLLIN && rd f), (PollEvent_contains e POLLOUT && wr f), (hup f); unfold set_field; cbn -[Z.lor].
  all: rewrite ?Z.lor_0_r, ?Z.lor_0_l, ?Z.lor_assoc; reflexivity.
Qed.
Lemma poll_all_from s i fds n ps : Forall (λ p, 0 ≤ poll_fd p ∧ pollable s i (Z.to_nat (poll_fd p))) fds →
  foldM (λ '(n, ps) p, '(b, p) ← poll_one i p; mret (if (b : bool) then n + 1 else n, ps ++ [p])) (n, ps) fds s =
    Ok ((n + triggered i fds, ps ++ (with_events i <$> fds)), s).
Proof.
  intros H. revert n ps. induction H as [|p fds [Hp Hd] _ IH]; intros n ps; cbn [foldM fmap list_fmap].
  { unfold triggered. cbn. by rewrite Z.add_0_r, app_nil_r. }
  rewrite bind_bind, (bind_Ok _ _ _ _ _ (poll_one_eq s i p Hp Hd)). erewrite bind_Ok by done. rewrite IH.
  rewrite <-app_assoc. unfold triggered. rewrite filter_cons. case_bool_decide; case_decide; try done; cbn [length].
  do 3 f_equal. lia.
Qed.
Lemma poll_all_eq s i fds n : Forall (λ p, 0 ≤ poll_fd p ∧ pollable s i (Z.to_nat (poll_fd p))) fds →
  poll_all i fds n s = Ok ((n + triggered i fds, with_events i <$> fds), s).
Proof. apply poll_all_from. Qed.

Lemma ppoll_turn_eq w t tcb fds : cur (sys_kernel w) = Some t → k_tasks (sys_kernel w) !! t = Some tcb →
  Forall (λ p, 0 ≤ poll_fd p ∧ pollable (sys_vfs w) (inner tcb) (Z.to_nat (poll_fd p))) fds →
  ppoll_turn meanwhile (0, fds) w = Ok (inr (1 + triggered (inner tcb) fds, with_events (inner tcb) <$> fds), w).
Proof.
  intros Hc Ht Hf. unfold ppoll_turn.
  rewrite (bind_Ok _ _ _ _ _ (the_current_state w t Hc)), (bind_Ok _ _ _ _ _ (the_inner_state w t tcb Ht)).
  erewrite bind_Ok by (unfold zoom; rewrite (poll_all_eq _ _ _ _ Hf); reflexivity).
  cbv beta iota zeta. rewrite (proj2 (Z.ltb_lt _ _)) by (unfold triggered; lia). rewrite (Z.add_comm _ 1). by destruct w.
Qed.
Lemma setmask_state w t tcb m : cur (sys_kernel w) = Some t → k_tasks (sys_kernel w) !! t = Some tcb → SignalFlags_from_bits m = Some m →
  zoom sys_kernel (sys_sigprocmask SIG_SETMASK (Some m)) w =
    Ok ((SUCCESS, signal_mask (inner tcb)), w <| sys_kernel ::= set_inner t (λ _, (inner tcb) <| signal_mask := m |>) |>).
Proof.
  intros Hc Ht Hm. unfold zoom, sys_sigprocmask, with_current, current_task, task_inner. unfold cur in Hc. run. rewrite Hc. run. rewrite Ht. run.
  rewrite Hm. run. reflexivity.
Qed.
(** Setting the inner block and setting it back *)
Lemma set_inner_back (k : @Kernel File (Dentry (AnyInode I32))) t tcb x : k_tasks k !! t = Some tcb →
  set_inner t (λ _, inner tcb) (set_inner t (λ _, x) k) = k.
Proof.
  intros Ht. unfold set_inner, set_field. cbn. destruct k; cbn in *. f_equal. apply map_eq. intros u. destruct (decide (u = t)) as [->|Hu].
  - rewrite !lookup_alter_eq, Ht. by destruct tcb.
  - by rewrite !lookup_alter_ne by done.
Qed.

(** C31: [sys_ppoll] never waits: on descriptors that it can ask ([pollable]: in the table, and closed or a file whose [hang_up]
    answers, which among the files of the kernel are the read ends of pipes) one turn of its loop is enough, whatever the events
    and the time limit are.  It adds the events that it found to the records and returns the number of records with an event
    plus one; the signal mask is set back and nothing else changes.  On any other descriptor it panics: [hang_up] is a [todo!]
    of standard input and output, ext4 and FAT32 files, the write end of a pipe panics, and so does a number outside of the
    table. *)
Theorem ppoll_counts_one_more w t tcb fds sigmask fuel :
  cur (sys_kernel w) = Some t → k_tasks (sys_kernel w) !! t = Some tcb →
  Forall (λ p, 0 ≤ poll_fd p ∧ pollable (sys_vfs w) (inner tcb) (Z.to_nat (poll_fd p))) fds →
  (∀ m, sigmask = Some m → SignalFlags_from_bits m = Some m) →
  SignalFlags_from_bits (signal_mask (inner tcb)) = Some (signal_mask (inner tcb)) →
  sys_ppoll meanwhile (S fuel) fds sigmask w = Ok ((1 + triggered (inner tcb) fds, with_events (inner tcb) <$> fds), w).
Proof.
  intros Hc Ht Hf Hm Hold. unfold sys_ppoll. rewrite (bind_Ok _ _ _ _ _ (the_current_state w t Hc)).
  destruct sigmask as [m|].
  - set (w1 := w <| sys_kernel ::= set_inner t (λ _, (inner tcb) <| signal_mask := m |>) |>).
    rewrite (bind_Ok _ _ w (signal_mask (inner tcb)) w1)
      by (erewrite bind_Ok by (apply (setmask_state w t tcb m Hc Ht); by apply Hm); done).
    set (tcb1 := tcb <| inner ::= λ i, i <| signal_mask := m |> |>).
    assert (k_tasks (sys_kernel w1) !! t = Some tcb1) as Ht1 by (cbn; by rewrite lookup_alter_eq, Ht).
    rewrite (bind_Ok _ _ w1 (1 + triggered (inner tcb) fds, with_events (inner tcb) <$> fds) w1)
      by (cbn [loopM]; erewrite bind_Ok by (exact (ppoll_turn_eq w1 t tcb1 fds Hc Ht1 Hf)); done).
    rewrite (bind_Ok _ _ w1 () w); [done|].
    erewrite bind_Ok by (exact (setmask_state w1 t tcb1 _ Hc Ht1 Hold)). unfold mret, M_ret. do 2 f_equal. destruct w as [k s].
    unfold w1, set_field. cbn. f_equal.
    etransitivity; [|exact (set_inner_back k t tcb ((inner tcb) <| signal_mask := m |>) Ht)]. by destruct (inner tcb).
  - rewrite (bind_Ok _ _ w 0 w) by done.
    rewrite (bind_Ok _ _ w (1 + triggered (inner tcb) fds, with_events (inner tcb) <$> fds) w); [done|].
    cbn [loopM]. by rewrite (bind_Ok _ _ _ _ _ (ppoll_turn_eq w t tcb fds Hc Ht Hf)).
Qed.

(** A descriptor that is not in the table, and an ext4 file, stop the kernel. *)
Theorem ppoll_panics w t tcb p fds fuel :
  cur (sys_kernel w) = Some t → k_tasks (sys_kernel w) !! t = Some tcb → 0 ≤ poll_fd p →
  (Z.of_nat (length (fd_table (inner tcb))) ≤ poll_fd p → sys_ppoll meanwhile (S fuel) (p :: fds) None w = Panic Bounds) ∧
  (∀ e : Ext4Inode, fd_file (inner tcb) (Z.to_nat (poll_fd p)) = Some (FileExt4 e) → sys_ppoll meanwhile (S fuel) (p :: fds) None w = Panic Todo).
Proof.
  intros Hc Ht Hp.
  assert (∀ e, poll_one (inner tcb) p (sys_vfs w) = Panic e → sys_ppoll meanwhile (S fuel) (p :: fds) None w = Panic e) as H.
  { intros e E. unfold sys_ppoll. rewrite (bind_Ok _ _ _ _ _ (the_current_state w t Hc)), (bind_Ok _ _ w 0 w) by done.
    apply bind_Panic. cbn [loopM]. apply bind_Panic. unfold ppoll_turn.
    rewrite (bind_Ok _ _ _ _ _ (the_current_state w t Hc)), (bind_Ok _ _ _ _ _ (the_inner_state w t tcb Ht)).
    apply bind_Panic. unfold zoom, poll_all. cbn [foldM]. rewrite bind_bind. by rewrite (bind_Panic _ _ _ _ E). }
  split; [intros Hlen|intros e Hi]; apply H; unfold poll_one.
  - unfold table_at. by rewrite lookup_ge_None_2 by lia.
  - rewrite <-(Z2Nat.id (poll_fd p)), table_at_eq; try done.
    + by erewrite bind_Ok by (unfold lift; rewrite Hi; reflexivity).
    + unfold fd_file in Hi. destruct (fd_table (inner tcb) !! _) eqn:E; [by eapply lookup_lt_Some|done].
Qed.
(** *** [pselect] *)

(** [ready f] answers [r f] in the state [s], for the open files of a set below [nfds]. *)
Definition selectable s i nfds (ready : File → M (VState D) bool) (r : File → bool) (o : option FdSet) : Prop :=
  ∀ x : list Z, o = Some x → fdset_wf x ∧ ∀ d, (d < nfds)%nat → fd_bit x d = true →
    (d < length (fd_table i))%nat ∧ ∀ f, fd_file i d = Some f → ready f s = Ok (r f, s).
Definition file_is (r : File → bool) i (d : nat) (b : bool) : bool := match fd_file i d with Some f => eqb (r f) b | None => false end.
Definition ready_count (r : File → bool) i nfds (o : option FdSet) : Z :=
  match o with Some x => Z.of_nat (length (filter (λ d, fd_bit x d && file_is r i d true = true) (seq 0 nfds))) | None => 0 end.
(** What is left of a set: the open files that are not ready are gone. *)
Definition left_over (r : File → bool) i nfds (x x' : list Z) : Prop :=
  fdset_wf x' ∧ ∀ d, fd_bit x' d = fd_bit x d && negb ((d <? nfds)%nat && file_is r i d false).

Section select.
Variables (s0 : VState D) (i0 : Inner) (ready : File → M (VState D) bool) (r : File → bool) (nfds : nat).
Hypothesis (Hn : (nfds ≤ 1024)%nat).

Lemma count_from x n ds : selectable s0 i0 nfds ready r (Some x) → Forall (λ d, d < nfds)%nat ds →
  foldM (count_step ready i0 x) n ds s0 = Ok (n + Z.of_nat (length (filter (λ d, fd_bit x d && file_is r i0 d true = true) ds)), s0).
Proof.
  intros Hsel. destruct (Hsel x eq_refl) as [[Hl _] Hx]. intros H. revert n. induction H as [|d ds Hd _ IH]; intros n.
  { cbn. by rewrite Z.add_0_r. }
  assert (count_step ready i0 x n d s0 = Ok (if fd_bit x d && file_is r i0 d true then n + 1 else n, s0)) as E.
  { unfold count_step. rewrite FdSet_is_set_eq by (done || lia). rewrite (bind_Ok _ _ s0 (fd_bit x d) s0) by done.
    destruct (fd_bit x d) eqn:Eb; [|done]. destruct (Hx d Hd Eb) as [Ht Hf].
    cbn [negb andb]. rewrite table_at_eq, (bind_Ok _ _ s0 (fd_file i0 d) s0) by done. unfold file_is.
    destruct (fd_file i0 d) as [f|]; [|done]. rewrite (bind_Ok _ _ _ _ _ (Hf f eq_refl)). by destruct (r f). }
  cbn [foldM]. rewrite (bind_Ok _ _ _ _ _ E), IH, filter_cons. destruct (fd_bit x d && file_is r i0 d true).
  - rewrite decide_True by done. cbn [length]. do 2 f_equal. lia.
  - by rewrite decide_False.
Qed.
Lemma count_ready_eq o n : selectable s0 i0 nfds ready r o → count_ready ready i0 nfds o n s0 = Ok (n + ready_count r i0 nfds o, s0).
Proof.
  intros H. destruct o as [x|]; cbn; [|by rewrite Z.add_0_r]. apply count_from; [done|]. apply Forall_forall. intros d ?%elem_of_seq. lia.
Qed.

(** The pass has cleared what is not ready among the first [m] descriptors. *)
Lemma clear_from x m k y : selectable s0 i0 nfds ready r (Some x) → (m + k ≤ nfds)%nat → left_over r i0 m x y →
  ∃ z, foldM (clear_step ready i0) y (seq m k) s0 = Ok (z, s0) ∧ left_over r i0 (m + k) x z.
Proof.
  intros Hsel. destruct (Hsel x eq_refl) as [_ Hx]. revert m y. induction k as [|k IH]; intros m y Hk [Hy Hb].
  { exists y. by rewrite Nat.add_0_r. }
  assert (∃ y', clear_step ready i0 y m s0 = Ok (y', s0) ∧ left_over r i0 (S m) x y') as (y' & E & Hy').
  { unfold clear_step. rewrite FdSet_is_set_eq by (apply Hy || lia). rewrite (bind_Ok _ _ s0 (fd_bit y m) s0) by done.
    assert (fd_bit y m = fd_bit x m) as Em by (rewrite Hb, Nat.ltb_irrefl; apply andb_true_r).
    assert (fd_bit x m && file_is r i0 m false = false → left_over r i0 (S m) x y) as Hkeep.
    { intros Hm. split; [done|]. intros d. rewrite Hb. destruct (Nat.ltb_spec d m), (Nat.ltb_spec d (S m)); [done|lia| |done].
      assert (d = m) as -> by lia. by destruct (fd_bit x m), (file_is r i0 m false). }
    rewrite Em. destruct (fd_bit x m) eqn:Ex; cbn [negb]; [|by exists y; split; [|apply Hkeep]].
    destruct (Hx m ltac:(lia) Ex) as [Ht Hf]. rewrite table_at_eq, (bind_Ok _ _ s0 (fd_file i0 m) s0) by done. unfold file_is in Hkeep.
    destruct (fd_file i0 m) as [f|] eqn:Ef; [|by exists y; split; [|apply Hkeep]].
    rewrite (bind_Ok _ _ _ _ _ (Hf f eq_refl)). destruct (r f) eqn:Er; [by exists y; split; [|apply Hkeep]|].
    destruct (FdSet_clr_ok y m Hy ltac:(lia)) as (y' & E & Hy' & Hb'). exists y'. split; [by unfold lift; rewrite E|]. split; [done|].
    intros d. rewrite Hb', Hb. case_decide as Hd.
    - subst d. rewrite (proj2 (Nat.ltb_lt m (S m))) by lia. unfold file_is. by rewrite Ef, Er, andb_false_r.
    - destruct (Nat.ltb_spec d m), (Nat.ltb_spec d (S m)); done || lia. }
  destruct (IH (S m) y') as (z & Ez & Hz); [lia|done|]. exists z. cbn [seq foldM]. rewrite (bind_Ok _ _ _ _ _ E). split; [done|].
  by replace (m + S k)%nat with (S m + k)%nat by lia.
Qed.
Lemma clear_unready_eq o : selectable s0 i0 nfds ready r o →
  ∃ o', clear_unready ready i0 nfds o s0 = Ok (o', s0) ∧ option_Forall2 (left_over r i0 nfds) o o'.
Proof.
  intros H. destruct o as [x|]; [|exists None; split; [done|constructor]].
  destruct (clear_from x 0 nfds x H) as (z & E & Hz); [lia| |].
  - split; [apply (H x eq_refl)|]. intros d. by rewrite andb_true_r.
  - exists (Some z). unfold clear_unready. rewrite (bind_Ok _ _ _ _ _ E). split; [done|]. by constructor.
Qed.
End select.

(** When a descriptor of one of the sets is ready, [pselect] returns in its first turn.  The result is the number of the
    descriptors that are ready, for reading and for writing; afterwards the open descriptors that are not ready are gone from
    the sets, the set of exceptions is empty, and nothing else changes.  A number in a set that is not open is not counted and
    stays in the set. *)
Theorem pselect_ready w t tcb nfds (ro wo eo : option FdSet) timeout fuel :
  cur (sys_kernel w) = Some t → k_tasks (sys_kernel w) !! t = Some tcb → (nfds ≤ 1024)%nat →
  selectable (sys_vfs w) (inner tcb) nfds file_r_ready rd ro → selectable (sys_vfs w) (inner tcb) nfds file_w_ready wr wo →
  let n := ready_count rd (inner tcb) nfds ro + ready_count wr (inner tcb) nfds wo in
  n ≠ 0 →
  ∃ ro' wo', pselect meanwhile (S fuel) nfds ro wo eo timeout w = Ok ((n, (ro', wo', (λ _, FdSet_empty) <$> eo)), w) ∧
    option_Forall2 (left_over rd (inner tcb) nfds) ro ro' ∧ option_Forall2 (left_over wr (inner tcb) nfds) wo wo'.
Proof.
  intros Hc Ht Hn Hr Hw n Hn0.
  destruct (clear_unready_eq (sys_vfs w) (inner tcb) file_r_ready rd nfds Hn ro Hr) as (ro' & Er & Hro).
  destruct (clear_unready_eq (sys_vfs w) (inner tcb) file_w_ready wr nfds Hn wo Hw) as (wo' & Ew & Hwo).
  exists ro', wo'. split; [|done]. unfold pselect. rewrite (bind_Ok _ _ w (k_time (sys_kernel w)) w) by (by destruct w).
  assert (∀ A (c : M (VState D) A) a, c (sys_vfs w) = Ok (a, sys_vfs w) → zoom sys_vfs c w = Ok (a, w)) as Hz.
  { intros A c a E. unfold zoom. rewrite E. by destruct w. }
  assert (∀ lim, pselect_turn meanwhile nfds ro wo lim 0 w = Ok (inr n, w)) as Eturn.
  { intros lim. unfold pselect_turn.
    rewrite (bind_Ok _ _ _ _ _ (the_current_state w t Hc)), (bind_Ok _ _ _ _ _ (the_inner_state w t tcb Ht)).
    rewrite (bind_Ok _ _ _ _ _ (Hz _ _ _ (count_ready_eq _ _ _ _ _ Hn ro 0 Hr))).
    rewrite (bind_Ok _ _ _ _ _ (Hz _ _ _ (count_ready_eq _ _ _ _ _ Hn wo _ Hw))), Z.add_0_l. fold n.
    by rewrite (proj2 (Z.eqb_neq _ _) Hn0). }
  rewrite (bind_Ok _ _ w n w) by (cbn [loopM]; by rewrite (bind_Ok _ _ _ _ _ (Eturn _))).
  rewrite (bind_Ok _ _ _ _ _ (the_current_state w t Hc)), (bind_Ok _ _ _ _ _ (the_inner_state w t tcb Ht)).
  by rewrite (bind_Ok _ _ _ _ _ (Hz _ _ _ Er)), (bind_Ok _ _ _ _ _ (Hz _ _ _ Ew)).
Qed.
End polling.

(** ** Witnesses *)

Definition no_wait : M (@Sys RamDisk Empty_set unit) unit := mret ().
Definition always {A} (b : bool) (_ : A) : bool := b.

Lemma ppoll_counts_one_more_witness :
  sys_ppoll no_wait 1 [{| poll_fd := 0; events := 5; revents := 0 |}; {| poll_fd := 1; events := 1; revents := 0 |}] (Some 4) open_sys =
    Ok ((2, [{| poll_fd := 0; events := 5; revents := 5 |}; {| poll_fd := 1; events := 1; revents := 0 |}]), open_sys).
Proof.
  apply (ppoll_counts_one_more no_wait (always false) (always true) (always true) open_sys 0 open_task
    [{| poll_fd := 0; events := 5; revents := 0 |}; {| poll_fd := 1; events := 1; revents := 0 |}] (Some 4) 0).
  - reflexivity.
  - reflexivity.
  - constructor; [|constructor; [|constructor]]; (split; [cbn; lia|split; [cbn; lia|]]); intros f Hf; [|discriminate Hf].
    injection Hf as <-. repeat split.
  - intros m [= <-]. reflexivity.
  - reflexivity.
Defined.

Lemma ppoll_panics_witness :
  sys_ppoll no_wait 1 [{| poll_fd := 3; events := 1; revents := 0 |}] None open_sys = Panic Bounds ∧
  sys_ppoll no_wait 1 [{| poll_fd := 2; events := 1; revents := 0 |}] None open_sys = Panic Todo.
Proof.
  split.
  - apply (ppoll_panics no_wait open_sys 0 open_task {| poll_fd := 3; events := 1; revents := 0 |} [] 0); [reflexivity|reflexivity|cbn; lia|cbn; lia].
  - apply (ppoll_panics no_wait open_sys 0 open_task {| poll_fd := 2; events := 1; revents := 0 |} [] 0) with (e := root_handle); [reflexivity|reflexivity|cbn; lia|reflexivity].
Defined.

Definition two_fds : FdSet := 3 :: replicate 15 0.
Lemma two_fds_wf : fdset_wf two_fds.
Proof. split; [done|]. repeat constructor; unfold W64; lia. Qed.
Lemma pselect_ready_witness : ∃ ro',
  pselect no_wait 1 2 (Some two_fds) None None None open_sys = Ok ((1, (ro', None, None)), open_sys) ∧
  option_Forall2 (left_over (always true) open_inner 2) (Some two_fds) ro'.
Proof.
  pose proof (pselect_ready no_wait (always true) (always true) open_sys 0 open_task 2 (Some two_fds) None None None 0) as H.
  destruct H as (ro' & wo' & E & H1 & H2).
  - reflexivity.
  - reflexivity.
  - lia.
  - intros x [= <-]. split; [exact two_fds_wf|]. intros d Hd _. split; [cbn; lia|]. intros f Hf.
    destruct d as [|[|d]]; [by injection Hf as <-|discriminate|lia].
  - intros x [=].
  - vm_compute. discriminate.
  - inversion H2. subst wo'. exists ro'. split; [exact E|exact H1].
Defined.
