(* ===== verification/Trap.v ===== *)
(** * Traps and the system-call table ([os/src/trap], [os/src/syscall/mod.rs])

    The registers of the hart that traps touch, the assembly routines that save and restore them in
    the trap context ([trap/trap.S], [trap/init_entry.S]), the table of system calls, [trap_handler]
    and the ways back to user mode.  Trap contexts are read and written through the active page
    table, which the register [satp] names.

    A call that gives up the processor leaves no current task; the rest of the handler, [trap_finish],
    runs when the task is dispatched again.  The calls whose arguments are in user memory are a
    parameter, [other]. *)

From Stdlib Require Import ZArith Lia.
From stdpp Require Import prelude gmap.
From S2P Require Import Prelude Config Address FrameAllocator PageTable MemorySet Time Task Syscall Process.

Open Scope Z_scope.

(** ** The causes of traps ([riscv::register::scause]) *)

Inductive Interrupt :=
  | UserSoft | VirtualSupervisorSoft | SupervisorSoft | UserTimer | VirtualSupervisorTimer | SupervisorTimer
  | UserExternal | VirtualSupervisorExternal | SupervisorExternal | UnknownInterrupt.
Inductive Exception :=
  | InstructionMisaligned | InstructionFault | IllegalInstruction | Breakpoint | LoadFault | StoreMisaligned | StoreFault
  | UserEnvCall | VirtualSupervisorEnvCall | InstructionPageFault | LoadPageFault | StorePageFault
  | InstructionGuestPageFault | LoadGuestPageFault | VirtualInstruction | StoreGuestPageFault | UnknownException.
Inductive Trap := TInterrupt (i : Interrupt) | TException (e : Exception).

(** ** System calls ([syscall/mod.rs]) *)

Definition as_i32 (x : Z) : Z := let y := x mod 2 ^ 32 in if y <? 2 ^ 31 then y else y - 2 ^ 32.

(** A call with the arguments that its function takes *)
Inductive Call :=
  | Getcwd (buf len : Z) | Dup (fd : Z) | Dup3 (fd new_fd : Z) | Linkat (old_name new_name : Z) | Unlinkat (name : Z)
  | Openat (dirfd path flags : Z) | Close (fd : Z) | Pipe (pipe : Z) | Read (fd buf len : Z) | Write (fd buf len : Z)
  | Writev (fd iov iovcnt : Z) | Fstat (fd st : Z) | SysExit (exit_code : Z) | ExitGroup (exit_code : Z) | Settid (tidptr : Z)
  | ClockGettime (clock_id tp : Z) | Yield | Times (tms : Z) | Uname (uts : Z) | Getpid | Getppid | Getuid | Geteuid
  | Getgid | Getegid | Gettid | Sigaction (signum action old_action : Z) | Sigprocmask (how set old_set : Z) (kernel_space : bool)
  | Sigtimedwait (uthese info uts sigsetsize : Z) | Clone (flags stack_ptr ptid tls ctid : Z) | Brk (addr : Z)
  | Execve (path args envp : Z) | Wait4 (pid exit_code_ptr option rusage : Z) | Gettimeofday (ts tz : Z)
  | Mmap (start len prot flags fd off : Z) | Munmap (start len : Z) | SetPriority (prio : Z) | TaskInfo (ti : Z)
  | Spawn (path : Z) | ThreadCreate (entry arg : Z) | Waittid (tid : Z) | Kill (pid signal : Z) | Chdir (path : Z)
  | Mkdirat (dirfd path mode : Z) | Getdents64 (dirfd buf len : Z) | Umount2 (target flags : Z)
  | Mount (source target fs flags data : Z) | Ioctl (fd request arg : Z) | Fcntl (fd cmd arg : Z)
  | Ppoll (fds nfds tmo_p sigmask : Z) | Sendfile (out_fd in_fd offset count : Z) | Prlimit64.

(** The arms of [syscall]; pointers and [usize] arguments are passed as they are. *)
Definition decode (syscall_id : Z) (a0 a1 a2 a3 a4 a5 : Z) : option Call :=
  match syscall_id with
  | 17 => Some (Getcwd a0 a1)
  | 23 => Some (Dup a0)
  | 24 => Some (Dup3 a0 a1)
  | 37 => Some (Linkat a1 a3)
  | 35 => Some (Unlinkat a1)
  | 56 => Some (Openat (as_i32 a0) a1 (as_i32 a2))
  | 57 => Some (Close a0)
  | 59 => Some (Pipe a0)
  | 63 => Some (Read a0 a1 a2)
  | 64 => Some (Write a0 a1 a2)
  | 66 => Some (Writev a0 a1 a2)
  | 80 => Some (Fstat a0 a1)
  | 93 => Some (SysExit (as_i32 a0))
  | 94 => Some (ExitGroup (as_i32 a0))
  | 96 => Some (Settid a0)
  | 113 => Some (ClockGettime a0 a1)
  | 124 => Some Yield
  | 153 => Some (Times a0)
  | 160 => Some (Uname a0)
  | 172 => Some Getpid
  | 173 => Some Getppid
  | 174 => Some Getuid
  | 175 => Some Geteuid
  | 176 => Some Getgid
  | 177 => Some Getegid
  | 178 => Some Gettid
  | 134 => Some (Sigaction a0 a1 a2)
  | 135 => Some (Sigprocmask a0 a1 a2 false)
  | 137 => Some (Sigtimedwait a0 a1 a2 a3)
  | 220 => Some (Clone a0 a1 a2 a3 a4)
  | 214 => Some (Brk a0)
  | 221 => Some (Execve a0 a1 a2)
  | 260 => Some (Wait4 (as_isize a0) a1 (as_u32 a2) a3)
  | 169 => Some (Gettimeofday a0 a1)
  | 222 => Some (Mmap a0 a1 a2 a3 a4 a5)
  | 215 => Some (Munmap a0 a1)
  | 140 => Some (SetPriority (as_isize a0))
  | 410 => Some (TaskInfo a0)
  | 400 => Some (Spawn a0)
  | 460 => Some (ThreadCreate a0 a1)
  | 462 => Some (Waittid a0)
  | 129 => Some (Kill a0 (as_u32 a1))
  | 49 => Some (Chdir a0)
  | 34 => Some (Mkdirat (as_i32 a0) a1 (as_u32 a2))
  | 61 => Some (Getdents64 (as_i32 a0) a1 a2)
  | 39 => Some (Umount2 a0 (as_i32 a1))
  | 40 => Some (Mount a0 a1 a2 (as_u32 a3) a4)
  | 29 => Some (Ioctl a0 a1 a2)
  | 25 => Some (Fcntl a0 (as_i32 a1) a2)
  | 73 => Some (Ppoll a0 a1 a2 a3)
  | 71 => Some (Sendfile a0 a1 a2 a3)
  | 261 => Some Prlimit64
  | _ => None
  end.
Definition SYSCALL_EXECVE : Z := 221.
Definition ENOTTY : Z := -25.

(** The calls that are not implemented and return a constant *)
Definition sys_getuid : Z := 0.
Definition sys_geteuid : Z := 0.
Definition sys_getgid : Z := 0.
Definition sys_getegid : Z := 0.
Definition sys_sigtimedwait (uthese info uts sigsetsize : Z) : Z := SUCCESS.
Definition sys_set_priority (prio : Z) : Z := 0.
Definition sys_spawn (path : Z) : Z := -1.
Definition sys_thread_create (entry arg : Z) : Z := 0.
Definition sys_waittid (tid : Z) : Z := -1.
Definition sys_umount2 (target flags : Z) : Z := 0.
Definition sys_mount (source target fs flags data : Z) : Z := 0.
Definition sys_ioctl (fd request arg : Z) : Z := ENOTTY.

(** ** The machine *)

(** The registers [x0] to [x31], the program counter and the control registers of supervisor mode;
    [stimecmp] is what the firmware was last asked to interrupt at. *)
Record Hart := {
  h_x : list Z; h_pc : Z; h_user : bool; h_sstatus : Z; h_sepc : Z; h_scause : Trap; h_sscratch : Z; h_satp : Z;
  h_stvec : Z; h_stimecmp : Z;
}.
#[export] Instance Hart_eta : Settable Hart := λ r,
  {| h_x := h_x r; h_pc := h_pc r; h_user := h_user r; h_sstatus := h_sstatus r; h_sepc := h_sepc r; h_scause := h_scause r;
     h_sscratch := h_sscratch r; h_satp := h_satp r; h_stvec := h_stvec r; h_stimecmp := h_stimecmp r |}.

(** The addresses of the assembly routines and of [trap_handler] *)
Record TrapEntries := { at_alltraps : Z; at_trap_from_kernel : Z }.

Section traps.
(** [W] is the state of the rest of the kernel, such as the file systems. *)
Context {File Dentry W : Type} {heap : KernelHeap}.
Abbreviation Kernel := (@Kernel File Dentry) (only parsing).

Record Machine := { m_hart : Hart; m_kernel : Kernel; m_world : W }.
#[global] Instance Machine_eta : Settable Machine := λ r, {| m_hart := m_hart r; m_kernel := m_kernel r; m_world := m_world r |}.

Definition set_hart (f : Hart → Hart) : M Machine unit := modify (λ m : Machine, m <| m_hart ::= f |>).
Definition in_kernel {A} (c : M Kernel A) : M Machine A := zoom m_kernel c.
Definition reg (i : nat) : M Machine Z := h ← gets m_hart; unwrap (h_x h !! i).
Definition set_reg (i : nat) (v : Z) : M Machine unit := set_hart (λ h, h <| h_x ::= <[i := v]> |>).

(** [sd] and [ld], through the table that [satp] names *)
Definition active_table : M Machine PageTable := h ← gets m_hart; lift (PageTable_from_token (h_satp h)).
Definition sd (va v : Z) : M Machine unit := pt ← active_table; in_kernel (zoom k_mm (mmu_store pt va (le_bytes 8 v))).
Definition ld (va : Z) : M Machine Z := pt ← active_table; in_kernel (zoom k_mm (load_usize pt va)).

(** ** Assembly ([trap/trap.S], [trap/init_entry.S]) *)

(** [n*8(sp)] *)
Definition slot (sp : Z) (n : nat) : Z := wadd sp (Z.of_nat n * 8).

(** What the hart does on a trap from user mode: [SPP] is cleared and [SIE] moves to [SPIE]. *)
Definition sstatus_trap (s : Z) : Z :=
  Z.lor (Z.ldiff s (Z.lor (2 ^ 8) (Z.lor (2 ^ 5) (2 ^ 1)))) (if Z.testbit s 1 then 2 ^ 5 else 0).
Definition hart_trap (cause : Trap) : M Machine unit :=
  set_hart (λ h, h <| h_sepc := h_pc h |> <| h_scause := cause |> <| h_sstatus ::= sstatus_trap |>
                   <| h_user := false |> <| h_pc := h_stvec h |>).
(** [sret]: the privilege is in [SPP], [SIE] comes back from [SPIE]. *)
Definition sstatus_sret (s : Z) : Z :=
  Z.lor (Z.lor (Z.ldiff s (Z.lor (2 ^ 8) (2 ^ 1))) (2 ^ 5)) (if Z.testbit s 5 then 2 ^ 1 else 0).
Definition sret : M Machine unit :=
  set_hart (λ h, h <| h_pc := h_sepc h |> <| h_user := negb (Z.testbit (h_sstatus h) 8) |> <| h_sstatus ::= sstatus_sret |>).

(** The registers that are saved and restored: all but [x0], [sp] and [tp] *)
Definition saved_regs : list nat := [1; 3]%nat ++ seq 5 27.
Definition SAVE_GP (n : nat) : M Machine unit := sp ← reg 2; v ← reg n; sd (slot sp n) v.
Definition LOAD_GP (n : nat) : M Machine unit := sp ← reg 2; v ← ld (slot sp n); set_reg n v.

(** [__alltraps], up to the jump to the address that the trap context names *)
Definition alltraps : M Machine unit :=
  sp ← reg 2;
  h ← gets m_hart;
  set_reg 2 (h_sscratch h);;
  set_hart (λ h, h <| h_sscratch := sp |>);;
  foldM (λ _ n, SAVE_GP n) () saved_regs;;
  sp ← reg 2;
  h ← gets m_hart;
  set_reg 5 (h_sstatus h);;
  set_reg 6 (h_sepc h);;
  sd (slot sp 32) (h_sstatus h);;
  sd (slot sp 33) (h_sepc h);;
  set_reg 7 (h_sscratch h);;
  sd (slot sp 2) (h_sscratch h);;
  t0 ← ld (slot sp 34);
  set_reg 5 t0;;
  t1 ← ld (slot sp 36);
  set_reg 6 t1;;
  sp ← ld (slot sp 35);
  set_reg 2 sp;;
  set_hart (λ h, h <| h_pc := t1 |>).

Definition restore : M Machine unit :=
  a0 ← reg 10;
  set_hart (λ h, h <| h_sscratch := a0 |>);;
  set_reg 2 a0;;
  t0 ← ld (slot a0 32);
  set_reg 5 t0;;
  t1 ← ld (slot a0 33);
  set_reg 6 t1;;
  set_hart (λ h, h <| h_sstatus := t0 |> <| h_sepc := t1 |>);;
  foldM (λ _ n, LOAD_GP n) () saved_regs;;
  sp ← reg 2;
  sp ← ld (slot sp 2);
  set_reg 2 sp;;
  sret.
(** [__init_entry] and [__user_entry], which are the same code *)
Definition entry : M Machine unit :=
  a1 ← reg 11;
  set_hart (λ h, h <| h_satp := a1 |>);;
  restore.

(** ** The table *)

(** [other] performs the calls that read or write user memory or files, to their completion, with
    whatever other tasks do meanwhile. *)
Variable other : Call → M Machine Z.
Variables (te : TrapEntries).

Definition kernel_call (c : Call) : option (M Kernel Z) :=
  match c with
  | Dup fd => Some (sys_dup (Z.to_nat fd))
  | Dup3 fd new_fd => Some (sys_dup3 (Z.to_nat fd) (Z.to_nat new_fd))
  | Close fd => Some (sys_close (Z.to_nat fd))
  | SysExit code => Some (sys_exit code;; mret 0)
  | ExitGroup code => Some (sys_exit_group code;; mret 0)
  | Settid tidptr => Some (sys_set_tid_address tidptr)
  | Yield => Some sys_yield
  | Getpid => Some sys_getpid
  | Getppid => Some sys_getppid
  | Getuid => Some (mret sys_getuid)
  | Geteuid => Some (mret sys_geteuid)
  | Getgid => Some (mret sys_getgid)
  | Getegid => Some (mret sys_getegid)
  | Gettid => Some sys_gettid
  | Sigtimedwait uthese info uts sigsetsize => Some (mret (sys_sigtimedwait uthese info uts sigsetsize))
  | Brk addr => Some (sys_brk addr)
  | Munmap start len => Some (sys_munmap start len)
  | SetPriority prio => Some (mret (sys_set_priority prio))
  | Spawn path => Some (mret (sys_spawn path))
  | ThreadCreate entry arg => Some (mret (sys_thread_create entry arg))
  | Waittid tid => Some (mret (sys_waittid tid))
  | Kill pid signal => Some (sys_kill pid signal)
  | Umount2 target flags => Some (mret (sys_umount2 target flags))
  | Mount source target fs flags data => Some (mret (sys_mount source target fs flags data))
  | Ioctl fd request arg => Some (mret (sys_ioctl fd request arg))
  | Fcntl fd cmd _ => Some (sys_fcntl (Z.to_nat fd) cmd)
  | Prlimit64 => Some (mret 0)
  | _ => None
  end.
Definition perform (c : Call) : M Machine Z := match kernel_call c with Some m => in_kernel m | None => other c end.

(** [inner.syscall_times[syscall_id] += 1], on counters of 32 bits *)
Definition count_call (syscall_id : Z) : M Kernel unit :=
  o ← current_task;
  t ← unwrap o;
  i ← task_inner t;
  match syscall_times i !! Z.to_nat syscall_id with
  | Some n => inner_modify t (λ i, i <| syscall_times ::= <[Z.to_nat syscall_id := as_u32 (n + 1)]> |>)
  | None => panic Bounds
  end.
Definition syscall (syscall_id a0 a1 a2 a3 a4 a5 : Z) : M Machine Z :=
  in_kernel (count_call syscall_id);;
  match decode syscall_id a0 a1 a2 a3 a4 a5 with Some c => perform c | None => panic Explicit end.

(** ** Returning to user mode

    [regs] is what the compiled code has left in the registers. *)

(** [current_trap_cx()]: the address of the context *)
Definition current_trap_cx : M Machine Z :=
  o ← in_kernel current_task; t ← unwrap o; tcb ← in_kernel (task_block t); lift (trap_cx_user_va tcb).
Definition set_user_trap_entry : M Machine unit := set_hart (λ h, h <| h_stvec := at_alltraps te |>).
Definition set_kernel_trap_entry : M Machine unit := set_hart (λ h, h <| h_stvec := at_trap_from_kernel te |>).
Definition jump_regs (regs : list Z) (va token : Z) : M Machine unit :=
  set_hart (λ h, h <| h_x := <[10%nat := va]> (<[11%nat := token]> regs) |>).

Definition trap_return (regs : list Z) : M Machine unit :=
  set_user_trap_entry;;
  o ← in_kernel current_task;
  t ← unwrap o;
  tick ← in_kernel (gets k_time);
  in_kernel (inner_modify t (λ i, (user_clock_time_start tick i).2));;
  trap_cx_user_va ← current_trap_cx;
  user_satp ← in_kernel current_user_token;
  jump_regs regs trap_cx_user_va user_satp;;
  restore.
Definition initproc_entry (regs : list Z) : M Machine unit :=
  set_user_trap_entry;;
  trap_cx_user_va ← current_trap_cx;
  initproc ← in_kernel (gets k_initproc);
  i ← in_kernel (task_inner initproc);
  jump_regs regs trap_cx_user_va (MemorySet_token (memory_set i));;
  entry.
Definition user_entry (regs : list Z) : M Machine unit :=
  set_user_trap_entry;;
  trap_cx_user_va ← current_trap_cx;
  user_satp ← in_kernel current_user_token;
  jump_regs regs trap_cx_user_va user_satp;;
  entry.
(** After a wait, inside the kernel *)
Definition wait_return : M Machine unit :=
  set_user_trap_entry;;
  current_trap_cx;;
  user_satp ← in_kernel current_user_token;
  set_hart (λ h, h <| h_satp := user_satp |>).
Definition trap_from_kernel : M Machine unit := panic Explicit.

(** [match current_task().unwrap().pid.0 { 0 => initproc_entry(), _ => user_entry() }] *)
Definition enter_process (regs : list Z) : M Machine unit :=
  o ← in_kernel current_task;
  t ← unwrap o;
  pid ← in_kernel (task_pid t);
  if pid =? 0 then initproc_entry regs else user_entry regs.

(** ** The handler *)

(** What the first half leaves for the second: the number of the call, its result and the table that
    was active *)
Record TrapFrame := { tf_cause : Trap; tf_num : Z; tf_result : Z; tf_satp : Z }.
(** [BackInUser]: the hart runs the user program.  [SwitchedTo f]: another task runs, and [trap_finish]
    goes on with [f] if this one is dispatched again; [Ended]: it never is. *)
Inductive TrapExit := BackInUser | SwitchedTo (f : TrapFrame) | Ended.

Definition is_user_fault (e : Exception) : bool :=
  match e with
  | StoreFault | StorePageFault | InstructionFault | InstructionPageFault | LoadFault | LoadPageFault => true
  | _ => false
  end.

(** The arm of [UserEnvCall]; the context is read before the call. *)
Definition handle_ecall : M Machine (Z * Z) :=
  o ← in_kernel current_task;
  t ← unwrap o;
  tick ← in_kernel (gets k_time);
  in_kernel (inner_modify t (λ i, (user_clock_time_end tick i).2));;
  cx ← current_trap_cx;
  sepc ← ld (slot cx 33);
  sd (slot cx 33) (wadd sepc 4);;
  x17 ← ld (slot cx 17);
  x10 ← ld (slot cx 10);
  x11 ← ld (slot cx 11);
  x12 ← ld (slot cx 12);
  x13 ← ld (slot cx 13);
  x14 ← ld (slot cx 14);
  x15 ← ld (slot cx 15);
  result ← syscall x17 x10 x11 x12 x13 x14 x15;
  mret (as_i32 x17, result).

Definition set_result (result : Z) : M Machine unit := cx ← current_trap_cx; sd (slot cx 10) (wrap result).

Definition trap_finish (regs : list Z) (f : TrapFrame) : M Machine TrapExit :=
  o ← in_kernel check_signals_of_current;
  match o with
  | Some errno => in_kernel (exit_current_and_run_next errno);; mret Ended
  | None =>
      h ← gets m_hart;
      match tf_cause f with
      | TException UserEnvCall =>
          if tf_num f =? SYSCALL_EXECVE then set_result (tf_result f);; enter_process regs
          else if negb (tf_satp f =? h_satp h) then enter_process regs
          else set_result (tf_result f);; trap_return regs
      | _ => if negb (h_satp h =? tf_satp f) then enter_process regs else trap_return regs
      end;;
      mret BackInUser
  end.

(** The calls that do not come back *)
Definition ends_task (cause : Trap) (num : Z) : bool :=
  match cause with
  | TException UserEnvCall => (num =? 93) || (num =? 94)
  | TException IllegalInstruction => true
  | _ => false
  end.

Definition trap_handler (regs : list Z) : M Machine TrapExit :=
  set_kernel_trap_entry;;
  h ← gets m_hart;
  let cause := h_scause h in
  '(num, result) ←
    match cause with
    | TException UserEnvCall => handle_ecall
    | TException IllegalInstruction => in_kernel (exit_current_and_run_next (-1));; mret (-1, -1)
    | TException e =>
        if is_user_fault e then in_kernel (current_add_signal SIGSEGV);; mret (-1, -1) else panic Explicit
    | TInterrupt SupervisorTimer =>
        tick ← in_kernel (gets k_time);
        set_hart (λ h, h <| h_stimecmp := set_next_trigger tick |>);;
        in_kernel check_timer;;
        in_kernel suspend_current_and_run_next;;
        mret (-1, -1)
    | TInterrupt _ => panic Explicit
    end;
  o ← in_kernel current_task;
  let f := {| tf_cause := cause; tf_num := num; tf_result := result; tf_satp := h_satp h |} in
  match o with
  | Some _ => trap_finish regs f
  | None => mret (if ends_task cause num then Ended else SwitchedTo f)
  end.

(** A trap from user mode, up to the return or the switch *)
Definition user_trap (cause : Trap) (regs : list Z) : M Machine TrapExit :=
  hart_trap cause;; alltraps;; trap_handler regs.
End traps.
