(* ===== verification/TrapSpec.v ===== *)
(** * Theorems on traps

    [trap_page] is the state in which the trap context of the current task is mapped in the active
    table; [in_user] and [resumed] describe a hart before a trap and after the return.  The theorems
    follow a trap through the assembly, the handler and the way back: what a system call changes in
    the registers of its caller, that a preempted task goes on where it was, what happens to the
    result when the table changes during the call, and which traps end the task or the kernel. *)

From Stdlib Require Import ZArith Lia.
From stdpp Require Import functions prelude gmap.
From S2P Require Import Prelude Config Address FrameAllocator PageTable PageTableSpec MemorySet MemorySetSpec ForkSpec Time Task Syscall Process SchedSpec SpawnSpec Trap.

Open Scope Z_scope.

(** ** Words of a page *)

Definition word (s : Mm) (p : Z) (n : nat) : Z := le_word (slice (mem s p) (8 * n) (8 * n + 8)).

(** Only the page [p] has changed, and it is still a page of bytes. *)
Record only_page (p : Z) (s s' : Mm) : Prop := {
  op_fa : fa s' = fa s;
  op_same : ∀ q, q ≠ p → mem s' q = mem s q;
  op_len : length (mem s' p) = 4096%nat;
  op_bytes : Forall is_byte (mem s' p);
}.
Lemma only_page_refl p s : mm_inv s → only_page p s s.
Proof. intros Hm. split; try done; apply Hm. Qed.
Lemma only_page_trans p s1 s2 s3 : only_page p s1 s2 → only_page p s2 s3 → only_page p s1 s3.
Proof.
  intros [H1 H2 _ _] [H3 H4 H5 H6]. split; [by rewrite H3|intros q Hq; by rewrite H4, H2|done|done].
Qed.

Lemma word_splice s s' p n w :
  mm_inv s → mem s' p = splice (mem s p) (8 * n) (le_bytes 8 w) → (n < 512)%nat → is_usize w →
  ∀ j, (j < 512)%nat → word s' p j = if decide (j = n) then w else word s p j.
Proof.
  intros Hm E Hn Hw j Hj. pose proof (mm_inv_len _ Hm p) as Hl. unfold word. rewrite E. destruct (decide (j = n)) as [->|Hne].
  - replace (8 * n + 8)%nat with (8 * n + length (le_bytes 8 w))%nat by (rewrite length_le_bytes; lia).
    rewrite slice_splice_same by (autorewrite with chaos; lia). by apply le_word_le_bytes.
  - by rewrite slice_splice_other by (rewrite ?length_le_bytes; lia).
Qed.

Lemma bits_bound x n : 0 ≤ n → 0 ≤ x → (∀ i, n ≤ i → Z.testbit x i = false) → x < 2 ^ n.
Proof.
  intros Hn Hx H. destruct (Z.eq_dec x 0) as [->|]; [apply Z.pow_pos_nonneg; lia|].
  apply Z.log2_lt_pow2; [lia|]. destruct (Z_lt_ge_dec (Z.log2 x) n); [done|].
  specialize (H (Z.log2 x) ltac:(lia)). rewrite Z.bit_log2 in H by lia. done.
Qed.
(** A trap from user mode clears the bit of the privilege. *)
Lemma sstatus_trap_ok s : is_usize s → is_usize (sstatus_trap s) ∧ Z.testbit (sstatus_trap s) 8 = false.
Proof.
  intros [H0 H1]. assert (0 ≤ sstatus_trap s) as Hp.
  { unfold sstatus_trap. apply Z.lor_nonneg. split; [apply Z.ldiff_nonneg; lia|by destruct (Z.testbit s 1)]. }
  split; [split; [done|]|].
  - change W64 with (2 ^ 64). apply bits_bound; [lia|done|]. intros i Hi. unfold sstatus_trap.
    assert (Z.testbit s i = false) as E.
    { rewrite <-(Z.mod_small s (2 ^ 64)) by (split; [done|exact H1]). apply Z.mod_pow2_bits_high. lia. }
    rewrite Z.lor_spec, Z.ldiff_spec, E.
    cbn [andb orb]. destruct (Z.testbit s 1); [|apply Z.bits_0]. apply Z.pow2_bits_false. lia.
  - unfold sstatus_trap. rewrite Z.lor_spec, Z.ldiff_spec, !Z.lor_spec, (Z.pow2_bits_true 8) by lia.
    cbn [orb negb]. rewrite andb_false_r. by destruct (Z.testbit s 1).
Qed.

Section traps.
Context {File Dentry W : Type} {heap : KernelHeap}.
Abbreviation Machine := (@Machine File Dentry W) (only parsing).
Abbreviation Kernel := (@Kernel File Dentry) (only parsing).
Implicit Types m : Machine.

Definition mm (m : Machine) : Mm := k_mm (m_kernel m).
Definition upd_mm (m : Machine) (s : Mm) : Machine := m <| m_kernel := (m_kernel m) <| k_mm := s |> |>.

Lemma upd_mm_same m : upd_mm m (mm m) = m.
Proof. by destruct m as [h [] w]. Qed.
Lemma in_mm {A} (c : M Mm A) m a s : c (mm m) = Ok (a, s) → in_kernel (zoom k_mm c) m = Ok (a, upd_mm m s).
Proof. intros E. unfold in_kernel, zoom. unfold mm in E. by rewrite E. Qed.

(** The page [v] of the active table is the frame [p], which is no table. *)
Record trap_page (m : Machine) (pt : PageTable) (v p : Z) : Prop := {
  tp_table : PageTable_from_token (h_satp (m_hart m)) = Ok pt;
  tp_mm : mm_inv (mm m);
  tp_pt : pt_inv (mm m) (root_ppn pt);
  tp_rw : rw_page (mm m) pt v p;
  tp_node : ¬ is_node (mm m) pt p;
  tp_user : user_vpn v;
}.

Lemma trap_page_written m pt v p s' :
  trap_page m pt v p → only_page p (mm m) s' → trap_page (upd_mm m s') pt v p.
Proof.
  intros [H1 H2 H3 H4 H5 H6] O. pose proof O as [O1 O2 O3 O4].
  destruct (tree_same (mm m) s' pt) as (T1 & T2 & T3); [|by rewrite O1|done|].
  { intros q Hq. apply O2. by intros ->. }
  split; [done| |exact T1| |by intros ?%T3|done].
  - apply (page_written_mm p (mem s' p) (mm m)); done || by split.
  - by apply (rw_page_same (mm m) s').
Qed.
(** What matters of the machine is [satp] and the memory. *)
Lemma trap_page_ext m m' pt v p :
  h_satp (m_hart m') = h_satp (m_hart m) → mm m' = mm m → trap_page m pt v p → trap_page m' pt v p.
Proof. intros E1 E2 [H1 H2 H3 H4 H5 H6]. split; by rewrite ?E1, ?E2. Qed.

Lemma slot_eq v n : user_vpn v → (n < 512)%nat → slot (v * 4096) n = v * 4096 + Z.of_nat (8 * n).
Proof. intros Hv Hn. unfold user_vpn in Hv. unfold slot. rewrite wadd_small by (unfold W64; lia). lia. Qed.

Lemma ld_ok m pt v p n : trap_page m pt v p → (n < 512)%nat → ld (slot (v * 4096) n) m = Ok (word (mm m) p n, m).
Proof.
  intros [H1 H2 H3 H4 H5 H6] Hn. unfold ld, active_table. run. rewrite H1. run. rewrite slot_eq by done.
  erewrite in_mm; [by rewrite upd_mm_same|]. unfold load_usize.
  erewrite bind_Ok by (apply (mmu_load_ok _ _ v p); (done || lia)). done.
Qed.
Lemma sd_ok m pt v p n w : trap_page m pt v p → (n < 512)%nat → is_usize w →
  ∃ s', sd (slot (v * 4096) n) w m = Ok ((), upd_mm m s') ∧ only_page p (mm m) s' ∧ trap_page (upd_mm m s') pt v p ∧
    ∀ j, (j < 512)%nat → word s' p j = if decide (j = n) then w else word (mm m) p j.
Proof.
  intros Hp Hn Hw. pose proof Hp as [H1 H2 H3 H4 H5 H6].
  destruct (mmu_store_ok (mm m) pt v p (8 * n) (le_bytes 8 w)) as (s' & E & [P1 P2 P3]); try done.
  { rewrite length_le_bytes. lia. }
  { apply le_bytes_byte. }
  assert (only_page p (mm m) s') as O.
  { split; [done|done|..]; rewrite P2; pose proof (mm_inv_len _ H2 p).
    - rewrite length_splice; [done|]. rewrite length_le_bytes. lia.
    - apply Forall_splice; [by apply H2|apply le_bytes_byte]. }
  exists s'. split_and!; [|done|by apply trap_page_written|by apply word_splice].
  unfold sd, active_table. run. rewrite H1. run. rewrite slot_eq by done. by apply in_mm.
Qed.

(** ** Saving and restoring *)

Definition xreg (m : Machine) (n : nat) : Z := default 0 (h_x (m_hart m) !! n).
Definition regs_ok (m : Machine) : Prop := length (h_x (m_hart m)) = 32%nat ∧ Forall is_usize (h_x (m_hart m)).

Lemma reg_ok m n : length (h_x (m_hart m)) = 32%nat → (n < 32)%nat → reg n m = Ok (xreg m n, m).
Proof.
  intros Hl Hn. unfold reg, xreg. run. destruct (lookup_lt_is_Some_2 (h_x (m_hart m)) n) as [a E]; [lia|]. by rewrite E.
Qed.
Lemma xreg_range m n : regs_ok m → is_usize (xreg m n).
Proof.
  intros [Hl Hr]. unfold xreg. destruct (h_x (m_hart m) !! n) as [a|] eqn:E; [|unfold is_usize, W64; cbn; lia].
  by eapply Forall_lookup_1 in Hr.
Qed.

(** The words of the page after the registers [l] have been saved *)
Lemma save_loop l : ∀ m pt v p,
  trap_page m pt v p → regs_ok m → xreg m 2 = v * 4096 → Forall (λ n, n < 32)%nat l →
  ∃ s', foldM (λ _ n, SAVE_GP n) () l m = Ok ((), upd_mm m s') ∧ only_page p (mm m) s' ∧ trap_page (upd_mm m s') pt v p ∧
    ∀ j, (j < 512)%nat → word s' p j = if decide (j ∈ l) then xreg m j else word (mm m) p j.
Proof.
  induction l as [|n l IH]; intros m pt v p Hp Hr Hsp Hl; cbn [foldM].
  { exists (mm m). rewrite upd_mm_same. split_and!; [done|by apply only_page_refl, Hp|done|]. done. }
  apply Forall_cons in Hl as [Hn Hl]. pose proof Hr as [Hlen _].
  destruct (sd_ok m pt v p n (xreg m n) Hp ltac:(lia) (xreg_range m n Hr)) as (s1 & E1 & O1 & P1 & W1).
  destruct (IH (upd_mm m s1) pt v p P1 Hr Hsp Hl) as (s2 & E2 & O2 & P2 & W2). exists s2.
  assert (SAVE_GP n m = Ok ((), upd_mm m s1)) as E.
  { unfold SAVE_GP. by rewrite (bind_Ok _ _ _ _ _ (reg_ok m 2 Hlen ltac:(lia))), Hsp, (bind_Ok _ _ _ _ _ (reg_ok m n Hlen Hn)). }
  rewrite (bind_Ok _ _ _ _ _ E). split_and!; [exact E2|by eapply only_page_trans|exact P2|].
  intros j Hj. rewrite W2 by done. change (mm (upd_mm m s1)) with s1. rewrite W1 by done.
  destruct (decide (j ∈ l)) as [Hjl|Hjl]; [by rewrite decide_True by set_solver|].
  destruct (decide (j = n)) as [->|Hne]; [by rewrite decide_True by set_solver|by rewrite decide_False by set_solver].
Qed.

(** The registers after [l] has been loaded from the page *)
Lemma load_loop l : ∀ m pt v p,
  trap_page m pt v p → length (h_x (m_hart m)) = 32%nat → xreg m 2 = v * 4096 → Forall (λ n, n < 32 ∧ n ≠ 2)%nat l →
  ∃ x, foldM (λ _ n, LOAD_GP n) () l m = Ok ((), m <| m_hart ::= λ h, h <| h_x := x |> |>) ∧ length x = 32%nat ∧
    ∀ j, x !! j = if decide (j ∈ l) then Some (word (mm m) p j) else h_x (m_hart m) !! j.
Proof.
  induction l as [|n l IH]; intros m pt v p Hp Hlen Hsp Hl; cbn [foldM].
  { exists (h_x (m_hart m)). split_and!; [by destruct m as [[] k w]|done|done]. }
  apply Forall_cons in Hl as [[Hn Hn2] Hl]. set (m1 := m <| m_hart ::= λ h, h <| h_x ::= <[n := word (mm m) p n]> |> |>).
  destruct (IH m1 pt v p) as (x & E & Hx & Hw); [by eapply trap_page_ext, Hp|by rewrite <-Hlen; apply length_insert| |done|].
  { rewrite <-Hsp. unfold xreg, m1. cbn. by rewrite list_lookup_insert_ne. }
  exists x. assert (LOAD_GP n m = Ok ((), m1)) as E1.
  { unfold LOAD_GP. by rewrite (bind_Ok _ _ _ _ _ (reg_ok m 2 Hlen ltac:(lia))), Hsp, (bind_Ok _ _ _ _ _ (ld_ok m pt v p n Hp ltac:(lia))). }
  rewrite (bind_Ok _ _ _ _ _ E1). split_and!; [exact E|done|].
  intros j. rewrite Hw. change (mm m1) with (mm m). change (h_x (m_hart m1)) with (<[n := word (mm m) p n]> (h_x (m_hart m))).
  destruct (decide (j ∈ l)) as [Hjl|Hjl]; [by rewrite decide_True by set_solver|]. destruct (decide (j = n)) as [->|Hne].
  - rewrite decide_True by set_solver. rewrite list_lookup_insert_eq; [done|]. lia.
  - rewrite decide_False by set_solver. by rewrite list_lookup_insert_ne.
Qed.

Definition upd_hart (m : Machine) (h : Hart) : Machine := m <| m_hart := h |>.

Lemma trap_page_hart m h pt v p : h_satp h = h_satp (m_hart m) → trap_page m pt v p → trap_page (upd_hart m h) pt v p.
Proof. intros E. by apply trap_page_ext. Qed.
Lemma set_reg_eq n a m : set_reg n a m = Ok ((), upd_hart m ((m_hart m) <| h_x ::= <[n := a]> |>)).
Proof. done. Qed.
Lemma set_hart_eq f m : set_hart f m = Ok ((), upd_hart m (f (m_hart m))).
Proof. done. Qed.

(** The context after a trap: the registers, the status and the address of the instruction *)
Definition frame_word (m : Machine) (p : Z) (j : nat) : Z :=
  if decide (j ∈ 2%nat :: saved_regs) then xreg m j
  else if decide (j = 32%nat) then h_sstatus (m_hart m)
  else if decide (j = 33%nat) then h_sepc (m_hart m)
  else word (mm m) p j.

Lemma alltraps_ok m pt v p :
  trap_page m pt v p → regs_ok m → h_sscratch (m_hart m) = v * 4096 →
  is_usize (h_sstatus (m_hart m)) → is_usize (h_sepc (m_hart m)) →
  ∃ s' h', alltraps m = Ok ((), upd_hart (upd_mm m s') h') ∧ h_satp h' = h_satp (m_hart m) ∧
    h_scause h' = h_scause (m_hart m) ∧ only_page p (mm m) s' ∧
    (∀ j, (j < 512)%nat → word s' p j = frame_word m p j).
Proof.
  intros Hp Hr Hss Hst Hse. pose proof Hr as [Hlen Hall]. unfold alltraps.
  rewrite (bind_Ok _ _ _ _ _ (reg_ok m 2 Hlen ltac:(lia))). run. rewrite Hss.
  rewrite (bind_Ok _ _ _ _ _ (set_reg_eq _ _ _)), (bind_Ok _ _ _ _ _ (set_hart_eq _ _)).
  set (m1 := upd_hart _ _).
  assert (regs_ok m1) as Hr1.
  { split; [by rewrite <-Hlen; apply length_insert|]. apply Forall_insert; [done|].
    pose proof (tp_user _ _ _ _ Hp) as Hu. unfold user_vpn in Hu. unfold is_usize, W64. lia. }
  assert (∀ j, j ≠ 2%nat → xreg m1 j = xreg m j) as Hx1.
  { intros j Hj. unfold xreg, m1. cbn. by rewrite list_lookup_insert_ne. }
  assert (xreg m1 2 = v * 4096) as Hsp.
  { unfold xreg, m1. cbn. by rewrite list_lookup_insert_eq by lia. }
  destruct (save_loop saved_regs m1 pt v p) as (s1 & E1 & O1 & P1 & W1); [by eapply trap_page_ext, Hp|done|done|by vm_compute; repeat constructor|].
  rewrite (bind_Ok _ _ _ _ _ E1), (bind_Ok _ _ _ _ _ (reg_ok (upd_mm m1 s1) 2 (proj1 Hr1) ltac:(lia))).
  change (xreg (upd_mm m1 s1) 2) with (xreg m1 2). rewrite Hsp. run.
  rewrite (bind_Ok _ _ _ _ _ (set_reg_eq _ _ _)), (bind_Ok _ _ _ _ _ (set_reg_eq _ _ _)). set (m2 := upd_hart _ _).
  assert (trap_page m2 pt v p) as P2 by exact (trap_page_ext (upd_mm m1 s1) m2 pt v p eq_refl eq_refl P1).
  destruct (sd_ok m2 pt v p 32 (h_sstatus (m_hart m)) P2) as (s3 & E3 & O3 & P3 & W3); [lia|done|].
  rewrite (bind_Ok _ _ _ _ _ E3).
  destruct (sd_ok (upd_mm m2 s3) pt v p 33 (h_sepc (m_hart m)) P3) as (s4 & E4 & O4 & P4 & W4); [lia|done|].
  rewrite (bind_Ok _ _ _ _ _ E4), (bind_Ok _ _ _ _ _ (set_reg_eq _ _ _)). set (m5 := upd_hart _ _).
  assert (trap_page m5 pt v p) as P5 by exact (trap_page_ext (upd_mm m2 s4) m5 pt v p eq_refl eq_refl P4).
  destruct (sd_ok m5 pt v p 2 (xreg m 2) P5) as (s6 & E6 & O6 & P6 & W6); [lia|by apply xreg_range|].
  rewrite (bind_Ok _ _ _ _ _ E6), (bind_Ok _ _ _ _ _ (ld_ok _ pt v p 34 P6 ltac:(lia))), (bind_Ok _ _ _ _ _ (set_reg_eq _ _ _)).
  erewrite bind_Ok by (apply (ld_ok _ pt v p 36); [by apply (trap_page_ext (upd_mm m5 s6))|lia]).
  rewrite (bind_Ok _ _ _ _ _ (set_reg_eq _ _ _)).
  erewrite bind_Ok by (apply (ld_ok _ pt v p 35); [by apply (trap_page_ext (upd_mm m5 s6))|lia]).
  rewrite (bind_Ok _ _ _ _ _ (set_reg_eq _ _ _)).
  rewrite set_hart_eq. exists s6. eexists. split; [reflexivity|]. split_and!; [done|done| |].
  - exact (only_page_trans _ _ _ _ O1 (only_page_trans _ _ _ _ O3 (only_page_trans _ _ _ _ O4 O6))).
  - intros j Hj. rewrite W6 by done. change (mm m5) with s4. rewrite W4 by done. change (mm (upd_mm m2 s3)) with s3.
    rewrite W3 by done. change (mm m2) with s1. rewrite W1 by done. unfold frame_word. change (mm m1) with (mm m).
    assert (∀ j, j ∈ saved_regs → j ≠ 2 ∧ j ≠ 32 ∧ j ≠ 33)%nat as Hsv.
    { intros i Hi. apply elem_of_app in Hi as [Hi|Hi%elem_of_seq]; [set_solver|lia]. }
    destruct (decide (j = 2%nat)) as [->|H2]; [by rewrite decide_True by set_solver|].
    destruct (decide (j ∈ saved_regs)) as [Hsj|Hsj].
    + rewrite (decide_True (P := j ∈ _ :: _)) by set_solver. destruct (Hsv j Hsj) as (_ & ? & ?). rewrite !decide_False by done. by apply Hx1.
    + rewrite (decide_False (P := j ∈ _ :: _)) by set_solver. destruct (decide (j = 33%nat)) as [->|]; [by rewrite decide_False by lia|done].
Qed.

Lemma saved_lt n : n ∈ saved_regs → (n < 32 ∧ n ≠ 2)%nat.
Proof. intros [H|H%elem_of_seq]%elem_of_app; [|lia]. repeat (apply elem_of_cons in H as [->|H]; [lia|]). by apply elem_of_nil in H. Qed.

Lemma restore_ok m pt v p :
  trap_page m pt v p → length (h_x (m_hart m)) = 32%nat → xreg m 10 = v * 4096 →
  ∃ h', restore m = Ok ((), upd_hart m h') ∧ h_satp h' = h_satp (m_hart m) ∧ h_stvec h' = h_stvec (m_hart m) ∧
    h_sscratch h' = v * 4096 ∧ h_pc h' = word (mm m) p 33 ∧ h_user h' = negb (Z.testbit (word (mm m) p 32) 8) ∧
    ∀ j, h_x h' !! j = if decide (j ∈ 2%nat :: saved_regs) then Some (word (mm m) p j) else h_x (m_hart m) !! j.
Proof.
  intros Hp Hlen H10. unfold restore.
  rewrite (bind_Ok _ _ _ _ _ (reg_ok m 10 Hlen ltac:(lia))), H10.
  rewrite (bind_Ok _ _ _ _ _ (set_hart_eq _ _)), (bind_Ok _ _ _ _ _ (set_reg_eq _ _ _)).
  erewrite bind_Ok by (apply (ld_ok _ pt v p 32); [by apply (trap_page_ext m)|lia]). rewrite (bind_Ok _ _ _ _ _ (set_reg_eq _ _ _)).
  erewrite bind_Ok by (apply (ld_ok _ pt v p 33); [by apply (trap_page_ext m)|lia]). rewrite (bind_Ok _ _ _ _ _ (set_reg_eq _ _ _)).
  rewrite (bind_Ok _ _ _ _ _ (set_hart_eq _ _)). set (m1 := upd_hart _ _).
  set (x1 := <[6%nat := word (mm m) p 33]> (<[5%nat := word (mm m) p 32]> (<[2%nat := v * 4096]> (h_x (m_hart m))))).
  assert (h_x (m_hart m1) = x1) as Hx1 by done. assert (mm m1 = mm m) as Hm1 by done.
  assert (length x1 = 32%nat) as Hl1 by (unfold x1; by rewrite !length_insert).
  assert (trap_page m1 pt v p) as P1 by exact (trap_page_ext m m1 pt v p eq_refl eq_refl Hp).
  assert (∀ m', h_x (m_hart m') !! 2%nat = x1 !! 2%nat → xreg m' 2 = v * 4096) as Hsp.
  { intros m' E. unfold xreg. rewrite E. unfold x1. rewrite !list_lookup_insert_ne by done. by rewrite list_lookup_insert_eq by lia. }
  destruct (load_loop saved_regs m1 pt v p) as (x & E & Hl & Hx); [done|by rewrite Hx1|by apply Hsp| |].
  { apply Forall_forall. intros n Hn. apply (saved_lt n Hn). }
  rewrite (bind_Ok _ _ _ _ _ E). set (m2 := m1 <| m_hart ::= _ |>).
  rewrite (bind_Ok _ _ _ _ _ (reg_ok m2 2 Hl ltac:(lia))), Hsp.
  2: { change (h_x (m_hart m2)) with x. rewrite Hx, decide_False; [done|]. intros [_ H]%saved_lt. done. }
  rewrite (bind_Ok _ _ _ _ _ (ld_ok m2 pt v p 2 (trap_page_ext m m2 pt v p eq_refl eq_refl Hp) ltac:(lia))), (bind_Ok _ _ _ _ _ (set_reg_eq _ _ _)).
  unfold sret. rewrite set_hart_eq. eexists. split; [reflexivity|]. split_and!; [done..|].
  intros j. change (h_x _) with (<[2%nat := word (mm m) p 2]> x) at 1. destruct (decide (j = 2%nat)) as [->|Hj].
  - rewrite list_lookup_insert_eq by lia. by rewrite decide_True by (apply list_elem_of_here).
  - rewrite list_lookup_insert_ne by done. rewrite Hx, Hx1, Hm1. destruct (decide (j ∈ saved_regs)) as [Hs|Hs].
    + by rewrite decide_True by (by apply list_elem_of_further).
    + rewrite decide_False by (intros [|]%elem_of_cons; done). unfold x1.
      assert (5 ∈ saved_regs ∧ 6 ∈ saved_regs)%nat as [? ?] by (split; apply elem_of_app; right; apply elem_of_seq; lia).
      by rewrite !list_lookup_insert_ne by congruence.
Qed.

(** ** The task that traps *)

Variable other : Call → M Machine Z.
Variable te : TrapEntries.

Record is_current (m : Machine) (t : nat) (tcb : @TaskControlBlock File Dentry) : Prop := {
  ic_cur : current (k_processor (m_kernel m)) = Some t;
  ic_task : k_tasks (m_kernel m) !! t = Some tcb;
  ic_pid : 0 ≤ pid tcb < max_trap_id;
}.
(** [t] is the current task, its table is active, and [p] is the frame of its trap context. *)
Record trapping (m : Machine) (t : nat) (tcb : @TaskControlBlock File Dentry) (pt : PageTable) (p : Z) : Prop := {
  tr_cur : is_current m t tcb;
  tr_token : h_satp (m_hart m) = MemorySet_token (memory_set (inner tcb));
  tr_page : trap_page m pt (trap_vpn (pid tcb)) p;
}.

Lemma bind_from {S A B} (c d : M S A) (k : A → M S B) s s' : c s = d s' → (c ≫= k) s = (d ≫= k) s'.
Proof. intros E. unfold mbind, M_bind. by rewrite E. Qed.
Lemma in_kernel_Ok {A} (c : M Kernel A) m a k : c (m_kernel m) = Ok (a, k) → in_kernel c m = Ok (a, m <| m_kernel := k |>).
Proof. intros E. unfold in_kernel, zoom. by rewrite E. Qed.
Lemma in_kernel_get {A} (c : M Kernel A) m a : c (m_kernel m) = Ok (a, m_kernel m) → in_kernel c m = Ok (a, m).
Proof. intros E. rewrite (in_kernel_Ok _ _ _ _ E). by destruct m. Qed.

Lemma trapping_hart m h t tcb pt p : h_satp h = h_satp (m_hart m) → trapping m t tcb pt p → trapping (upd_hart m h) t tcb pt p.
Proof. intros E [[H1 H2 H3] H4 H5]. split; [done|by rewrite <-H4|by apply trap_page_hart]. Qed.
Lemma trapping_mm m s t tcb pt p : only_page p (mm m) s → trapping m t tcb pt p → trapping (upd_mm m s) t tcb pt p.
Proof. intros O [[H1 H2 H3] H4 H5]. split; [done|done|by apply trap_page_written]. Qed.
Lemma trapping_inner m f t tcb pt p : (∀ i, memory_set (f i) = memory_set i) → trapping m t tcb pt p →
  trapping (m <| m_kernel ::= set_inner t f |>) t (tcb <| inner ::= f |>) pt p.
Proof.
  intros Hf [[H1 H2 H3] H4 H5]. split; [split; [done| |done]| |by apply (trap_page_ext m)].
  - cbn. by rewrite lookup_alter_eq, H2.
  - transitivity (h_satp (m_hart m)); [done|]. rewrite H4. cbn. by rewrite Hf.
Qed.

Lemma the_task m t tcb : is_current m t tcb → in_kernel current_task m = Ok (Some t, m).
Proof. intros [H1 _ _]. apply in_kernel_get. unfold current_task, gets. by rewrite H1. Qed.
Lemma the_block m t tcb : is_current m t tcb → in_kernel (task_block t) m = Ok (tcb, m).
Proof. intros [_ H2 _]. apply in_kernel_get. unfold task_block. run. by rewrite H2. Qed.
Lemma the_pid m t tcb : is_current m t tcb → in_kernel (task_pid t) m = Ok (pid tcb, m).
Proof. intros [_ H2 _]. apply in_kernel_get. unfold task_pid. run. by rewrite H2. Qed.
Lemma current_trap_cx_ok m t tcb : is_current m t tcb → current_trap_cx m = Ok (trap_vpn (pid tcb) * 4096, m).
Proof.
  intros H. unfold current_trap_cx. rewrite (bind_Ok _ _ _ _ _ (the_task _ _ _ H)). run.
  rewrite (bind_Ok _ _ _ _ _ (the_block _ _ _ H)). unfold trap_cx_user_va.
  destruct (trap_cx_bottom_eq (pid tcb) (ic_pid _ _ _ H)) as (_ & -> & E & _). by rewrite E.
Qed.
Lemma current_token m t tcb : is_current m t tcb → in_kernel current_user_token m = Ok (MemorySet_token (memory_set (inner tcb)), m).
Proof.
  intros [H1 H2 _]. apply in_kernel_get. unfold current_user_token, current_task, task_inner. run. rewrite H1. run. by rewrite H2.
Qed.
Lemma in_inner m f t tcb : is_current m t tcb → in_kernel (inner_modify t f) m = Ok ((), m <| m_kernel ::= set_inner t f |>).
Proof. intros [_ H2 _]. by rewrite (in_kernel_Ok _ _ _ _ (inner_modify_eq t f _ _ H2)). Qed.

Definition clock_end (t : nat) (k : Kernel) : Kernel := set_inner t (λ i, (user_clock_time_end (k_time k) i).2) k.
Definition clock_start (t : nat) (k : Kernel) : Kernel := set_inner t (λ i, (user_clock_time_start (k_time k) i).2) k.

(** The state in which a call starts: the time in user mode has been counted and the context saved, with
    the address of the next instruction. *)
Record call_state (m m2 : Machine) (t : nat) (p : Z) : Prop := {
  cs_kernel : ∃ s, m_kernel m2 = (clock_end t (m_kernel m)) <| k_mm := s |> ∧ only_page p (mm m) s;
  cs_world : m_world m2 = m_world m;
  cs_satp : h_satp (m_hart m2) = h_satp (m_hart m);
}.

Lemma handle_ecall_ok m t tcb pt p w :
  trapping m t tcb pt p → (∀ j, (j < 37)%nat → word (mm m) p j = w j) →
  ∃ m2, handle_ecall other m =
      (result ← syscall other (w 17%nat) (w 10%nat) (w 11%nat) (w 12%nat) (w 13%nat) (w 14%nat) (w 15%nat);
       mret (as_i32 (w 17%nat), result)) m2 ∧
    call_state m m2 t p ∧ trapping m2 t (tcb <| inner ::= λ i, (user_clock_time_end (k_time (m_kernel m)) i).2 |>) pt p ∧
    (∀ j, (j < 37)%nat → word (mm m2) p j = if decide (j = 33%nat) then wadd (w 33%nat) 4 else w j) ∧
    m_hart m2 = m_hart m.
Proof.
  intros H Hw. unfold handle_ecall. rewrite (bind_Ok _ _ _ _ _ (the_task _ _ _ (tr_cur _ _ _ _ _ H))). run.
  rewrite (bind_Ok _ _ _ (k_time (m_kernel m)) m) by (by apply in_kernel_get).
  rewrite (bind_Ok _ _ _ _ _ (in_inner _ _ _ _ (tr_cur _ _ _ _ _ H))). set (m1 := m <| m_kernel ::= _ |>).
  set (tcb1 := tcb <| inner ::= λ i, (user_clock_time_end (k_time (m_kernel m)) i).2 |>).
  assert (trapping m1 t tcb1 pt p) as H1 by (by apply trapping_inner). set (v := trap_vpn (pid tcb1)).
  rewrite (bind_Ok _ _ _ _ _ (current_trap_cx_ok _ _ _ (tr_cur _ _ _ _ _ H1))). pose proof (tr_page _ _ _ _ _ H1) as P1.
  rewrite (bind_Ok _ _ _ _ _ (ld_ok m1 pt v p 33 P1 ltac:(lia))). change (mm m1) with (mm m). rewrite (Hw 33%nat) by lia.
  destruct (sd_ok m1 pt v p 33 (wadd (w 33%nat) 4) P1) as (s2 & E2 & O2 & P2 & W2); [lia|apply wrap_range|].
  rewrite (bind_Ok _ _ _ _ _ E2). set (m2 := upd_mm m1 s2).
  assert (∀ j, (j < 37)%nat → word (mm m2) p j = if decide (j = 33%nat) then wadd (w 33%nat) 4 else w j) as Hw2.
  { intros j Hj. change (mm m2) with s2. rewrite W2 by lia. destruct (decide (j = 33%nat)); [done|by apply Hw]. }
  exists m2. split_and!; [|split; [by exists s2|done|done]|by apply trapping_mm|done|done].
  repeat (erewrite bind_Ok by (apply (ld_ok m2 pt v p); [done|lia]); rewrite Hw2 by lia; rewrite decide_False by lia). done.
Qed.

(** ** Going back *)

(** The hart runs the user program from the context in the page [p]; [regs] shows through in [x0] and [tp]. *)
Record resumed (h : Hart) (s : Mm) (v p : Z) (regs : list Z) : Prop := {
  rs_pc : h_pc h = word s p 33;
  rs_user : h_user h = negb (Z.testbit (word s p 32) 8);
  rs_stvec : h_stvec h = at_alltraps te;
  rs_sscratch : h_sscratch h = v * 4096;
  rs_x : ∀ j, h_x h !! j = if decide (j ∈ 2%nat :: saved_regs) then Some (word s p j) else regs !! j;
}.

Lemma restore_jump m pt v p token regs :
  trap_page m pt v p → length regs = 32%nat → h_x (m_hart m) = <[10%nat := v * 4096]> (<[11%nat := token]> regs) →
  h_stvec (m_hart m) = at_alltraps te →
  ∃ h', restore m = Ok ((), upd_hart m h') ∧ h_satp h' = h_satp (m_hart m) ∧ resumed h' (mm m) v p regs.
Proof.
  intros Hp Hl Hx Hs. destruct (restore_ok m pt v p) as (h' & E & H1 & H2 & H3 & H4 & H5 & H6); [done|by rewrite Hx, !length_insert| |].
  { unfold xreg. rewrite Hx, list_lookup_insert_eq; [done|]. rewrite length_insert. lia. }
  exists h'. split_and!; [done|done|]. split; [done|done|by rewrite H2|done|]. intros j. rewrite H6. case_decide as Hj; [done|].
  assert (10 ∈ saved_regs ∧ 11 ∈ saved_regs)%nat as [? ?] by (split; apply elem_of_app; right; apply elem_of_seq; lia).
  rewrite Hx, !list_lookup_insert_ne; [done|..]; intros <-; apply Hj; by apply list_elem_of_further.
Qed.

Lemma trap_return_ok m t tcb pt p regs :
  trapping m t tcb pt p → length regs = 32%nat →
  ∃ h', trap_return te regs m = Ok ((), upd_hart (m <| m_kernel ::= clock_start t |>) h') ∧
    h_satp h' = h_satp (m_hart m) ∧ resumed h' (mm m) (trap_vpn (pid tcb)) p regs.
Proof.
  intros H Hl. unfold trap_return, set_user_trap_entry. rewrite (bind_Ok _ _ _ _ _ (set_hart_eq _ _)). set (m1 := upd_hart m _).
  assert (trapping m1 t tcb pt p) as H1 by (by apply trapping_hart).
  rewrite (bind_Ok _ _ _ _ _ (the_task _ _ _ (tr_cur _ _ _ _ _ H1))). run.
  rewrite (bind_Ok _ _ _ (k_time (m_kernel m)) m1) by (by apply in_kernel_get).
  rewrite (bind_Ok _ _ _ _ _ (in_inner _ _ _ _ (tr_cur _ _ _ _ _ H1))). set (m2 := m1 <| m_kernel ::= _ |>).
  set (tcb2 := tcb <| inner ::= λ i, (user_clock_time_start (k_time (m_kernel m)) i).2 |>).
  assert (trapping m2 t tcb2 pt p) as H2 by (by apply trapping_inner).
  rewrite (bind_Ok _ _ _ _ _ (current_trap_cx_ok _ _ _ (tr_cur _ _ _ _ _ H2))), (bind_Ok _ _ _ _ _ (current_token _ _ _ (tr_cur _ _ _ _ _ H2))).
  unfold jump_regs. rewrite (bind_Ok _ _ _ _ _ (set_hart_eq _ _)). set (m3 := upd_hart m2 _).
  destruct (restore_jump m3 pt (trap_vpn (pid tcb)) p (MemorySet_token (memory_set (inner tcb2))) regs) as (h' & E & Hs & Hr);
    [|done|done|done|].
  { apply (trap_page_ext m); [done|done|apply H]. }
  exists h'. rewrite E. split_and!; [done|done|exact Hr].
Qed.

(** Through [user_entry], whatever table was active *)
Definition with_table (m : Machine) (tcb : @TaskControlBlock File Dentry) : Machine :=
  upd_hart m ((m_hart m) <| h_satp := MemorySet_token (memory_set (inner tcb)) |>).
Lemma with_table_current m t tcb pt p : trapping (with_table m tcb) t tcb pt p → is_current m t tcb.
Proof. by intros [[H1 H2 H3] _ _]. Qed.
Lemma user_entry_ok m t tcb pt p regs :
  trapping (with_table m tcb) t tcb pt p → length regs = 32%nat →
  ∃ h', user_entry te regs m = Ok ((), upd_hart m h') ∧ h_satp h' = MemorySet_token (memory_set (inner tcb)) ∧
    resumed h' (mm m) (trap_vpn (pid tcb)) p regs.
Proof.
  intros [[C1 C2 C3] _ C5] Hl. unfold user_entry, set_user_trap_entry. rewrite (bind_Ok _ _ _ _ _ (set_hart_eq _ _)). set (m1 := upd_hart m _).
  assert (is_current m1 t tcb) as H1 by done.
  rewrite (bind_Ok _ _ _ _ _ (current_trap_cx_ok _ _ _ H1)), (bind_Ok _ _ _ _ _ (current_token _ _ _ H1)).
  unfold jump_regs. rewrite (bind_Ok _ _ _ _ _ (set_hart_eq _ _)). set (m2 := upd_hart m1 _).
  assert (reg 11 m2 = Ok (MemorySet_token (memory_set (inner tcb)), m2)) as E2.
  { unfold reg. run. cbn. rewrite list_lookup_insert_ne by done. by rewrite list_lookup_insert_eq by lia. }
  unfold entry. rewrite (bind_Ok _ _ _ _ _ E2), (bind_Ok _ _ _ _ _ (set_hart_eq _ _)). set (m3 := upd_hart m2 _).
  destruct (restore_jump m3 pt (trap_vpn (pid tcb)) p (MemorySet_token (memory_set (inner tcb))) regs) as (h' & E & Hs & Hr);
    [|done|done|done|].
  { by apply (trap_page_ext (with_table m tcb)). }
  exists h'. rewrite E. split_and!; [done|done|exact Hr].
Qed.

Definition no_signal (tcb : @TaskControlBlock File Dentry) : Prop := SignalFlags_check_error (signals (inner tcb)) = None.
Lemma no_signal_ok m t tcb : is_current m t tcb → no_signal tcb → in_kernel check_signals_of_current m = Ok (None, m).
Proof.
  intros [H1 H2 _] Hn. apply in_kernel_get. unfold check_signals_of_current, current_task, task_inner. run. rewrite H1. run. rewrite H2. run.
  by rewrite Hn.
Qed.

(** The second half of the handler after a call, while the table has stayed the same *)
Lemma trap_finish_call m t tcb pt p regs f :
  trapping m t tcb pt p → no_signal tcb → tf_cause f = TException UserEnvCall → tf_num f ≠ SYSCALL_EXECVE →
  tf_satp f = h_satp (m_hart m) → length regs = 32%nat →
  ∃ s' h', trap_finish te regs f m = Ok (BackInUser, upd_hart ((upd_mm m s') <| m_kernel ::= clock_start t |>) h') ∧
    only_page p (mm m) s' ∧ h_satp h' = h_satp (m_hart m) ∧ resumed h' s' (trap_vpn (pid tcb)) p regs ∧
    ∀ j, (j < 512)%nat → word s' p j = if decide (j = 10%nat) then wrap (tf_result f) else word (mm m) p j.
Proof.
  intros H Hn Hc Hnum Hsatp Hl. pose proof (tr_cur _ _ _ _ _ H) as Hcur. unfold trap_finish.
  rewrite (bind_Ok _ _ _ _ _ (no_signal_ok _ _ _ Hcur Hn)). run. rewrite Hc, Hsatp, Z.eqb_refl, (proj2 (Z.eqb_neq _ _) Hnum). cbn [negb].
  destruct (sd_ok m pt (trap_vpn (pid tcb)) p 10 (wrap (tf_result f)) (tr_page _ _ _ _ _ H)) as (s' & E & O & P & Hw);
    [lia|apply wrap_range|].
  assert (set_result (tf_result f) m = Ok ((), upd_mm m s')) as E1.
  { unfold set_result. by rewrite (bind_Ok _ _ _ _ _ (current_trap_cx_ok _ _ _ Hcur)). }
  rewrite bind_bind, (bind_Ok _ _ _ _ _ E1).
  destruct (trap_return_ok (upd_mm m s') t tcb pt p regs) as (h' & E2 & Hs & Hr); [by apply trapping_mm|done|].
  rewrite (bind_Ok _ _ _ _ _ E2). exists s', h'. split_and!; [done|done|done|exact Hr|exact Hw].
Qed.

(** A user program about to trap *)
Record in_user (m : Machine) (t : nat) (tcb : @TaskControlBlock File Dentry) (pt : PageTable) (p : Z) : Prop := {
  iu_task : trapping m t tcb pt p;
  iu_regs : regs_ok m;
  iu_sscratch : h_sscratch (m_hart m) = trap_vpn (pid tcb) * 4096;
  iu_pc : is_usize (h_pc (m_hart m));
  iu_sstatus : is_usize (h_sstatus (m_hart m));
}.

(** The first half of the handler starts with the context saved. *)
Lemma trap_saved m t tcb pt p cause :
  in_user m t tcb pt p →
  ∃ m1, (hart_trap cause;; alltraps) m = Ok ((), m1) ∧ trapping m1 t tcb pt p ∧
    (∃ s, m_kernel m1 = (m_kernel m) <| k_mm := s |> ∧ only_page p (mm m) s) ∧ m_world m1 = m_world m ∧
    h_satp (m_hart m1) = h_satp (m_hart m) ∧ h_scause (m_hart m1) = cause ∧
    (∀ j, j ∈ 2%nat :: saved_regs → word (mm m1) p j = xreg m j) ∧
    word (mm m1) p 33 = h_pc (m_hart m) ∧ Z.testbit (word (mm m1) p 32) 8 = false.
Proof.
  intros [H Hr Hss Hpc Hst]. destruct (sstatus_trap_ok _ Hst) as [Hst' H8].
  unfold hart_trap. rewrite (bind_Ok _ _ _ _ _ (set_hart_eq _ _)). set (m0 := upd_hart m _).
  assert (trapping m0 t tcb pt p) as H0 by (by apply trapping_hart).
  destruct (alltraps_ok m0 pt (trap_vpn (pid tcb)) p (tr_page _ _ _ _ _ H0)) as (s & h & E & Hs & Hc & O & Hw); [done..|].
  exists (upd_hart (upd_mm m0 s) h). split_and!; [done| |by exists s|done|done|done|..].
  - apply trapping_hart; [done|]. by apply trapping_mm.
  - intros j Hj. change (mm _) with s. rewrite Hw.
    + unfold frame_word. by rewrite decide_True.
    + apply elem_of_cons in Hj as [->|[? _]%saved_lt]; lia.
  - change (mm _) with s. rewrite Hw by lia. by vm_compute.
  - change (mm _) with s. rewrite Hw by lia. exact H8.
Qed.

(** The context while a call runs: the registers, the address of the next instruction and the status *)
Record call_context (m m2 : Machine) (p : Z) : Prop := {
  cc_x : ∀ j, j ∈ 2%nat :: saved_regs → word (mm m2) p j = xreg m j;
  cc_pc : word (mm m2) p 33 = wadd (h_pc (m_hart m)) 4;
  cc_user : Z.testbit (word (mm m2) p 32) 8 = false;
}.
Definition do_syscall (m : Machine) : M Machine Z :=
  syscall other (xreg m 17) (xreg m 10) (xreg m 11) (xreg m 12) (xreg m 13) (xreg m 14) (xreg m 15).
Definition call_frame (m : Machine) (r : Z) : TrapFrame :=
  {| tf_cause := TException UserEnvCall; tf_num := as_i32 (xreg m 17); tf_result := r; tf_satp := h_satp (m_hart m) |}.

Lemma saved_range j : (5 ≤ j < 32)%nat → j ∈ saved_regs.
Proof. intros H. apply elem_of_app. right. apply elem_of_seq. lia. Qed.

(** The handler from the call on *)
Definition after_call (m : Machine) (regs : list Z) : M Machine TrapExit :=
  r ← do_syscall m;
  o ← in_kernel current_task;
  match o with
  | Some _ => trap_finish te regs (call_frame m r)
  | None => mret (if ends_task (TException UserEnvCall) (as_i32 (xreg m 17)) then Ended else SwitchedTo (call_frame m r))
  end.
Lemma after_call_back m m2 m3 t tcb3 r regs :
  do_syscall m m2 = Ok (r, m3) → is_current m3 t tcb3 → after_call m regs m2 = trap_finish te regs (call_frame m r) m3.
Proof. intros E H. unfold after_call. by rewrite (bind_Ok _ _ _ _ _ E), (bind_Ok _ _ _ _ _ (the_task _ _ _ H)). Qed.

(** Up to the call *)
Lemma ecall_calls m t tcb pt p regs :
  in_user m t tcb pt p →
  ∃ m2, call_state m m2 t p ∧ call_context m m2 p ∧ user_trap other te (TException UserEnvCall) regs m = after_call m regs m2.
Proof.
  intros Hu. unfold user_trap.
  destruct (trap_saved m t tcb pt p (TException UserEnvCall) Hu) as (m1 & E1 & H1 & (s1 & K1 & O1) & W1 & Hs1 & C1 & X1 & PC1 & ST1).
  set (m2 := upd_hart m1 ((m_hart m1) <| h_stvec := at_trap_from_kernel te |>)).
  assert (trapping m2 t tcb pt p) as H2 by (by apply trapping_hart).
  destruct (handle_ecall_ok m2 t tcb pt p (word (mm m2) p) H2 (λ _ _, eq_refl)) as (m4 & E4 & CS & _ & X4 & _).
  change (mm m2) with (mm m1) in *. exists m4. split_and!; [|split|].
  - destruct CS as [(s4 & K4 & O4) W4 S4]. split; [|by rewrite W4|by rewrite S4]. exists s4.
    change (m_kernel m2) with (m_kernel m1) in K4. change (mm m2) with (k_mm (m_kernel m1)) in O4. rewrite K1 in K4, O4.
    split; [exact K4|exact (only_page_trans _ _ _ _ O1 O4)].
  - intros j Hj. rewrite X4, decide_False, X1; [done|done|..]; apply elem_of_cons in Hj as [->|[? _]%saved_lt]; lia.
  - rewrite X4, decide_True by lia. by rewrite PC1.
  - by rewrite X4, decide_False by lia.
  - rewrite <-(bind_bind _ _ _ m), (bind_Ok _ _ _ _ _ E1). unfold trap_handler, set_kernel_trap_entry.
    rewrite (bind_Ok _ _ _ _ _ (set_hart_eq _ _)). fold m2. run. change (h_scause (m_hart m2)) with (h_scause (m_hart m1)). rewrite C1.
    rewrite (bind_from _ _ _ _ _ E4), bind_bind. rewrite !X1 by (apply list_elem_of_further, saved_range; lia).
    change (h_satp (m_hart m2)) with (h_satp (m_hart m1)). by rewrite Hs1.
Qed.

(** C10: (functional) a system call that returns: whatever the call does, as long as it leaves the task current with its
    table active, its trap context untouched and no fatal signal pending, the user program goes on behind its [ecall]
    in user mode with the result in [a0] and every other saved register, the stack pointer among them, as it was; the
    next trap will be saved in the same place.  [tp], which is not saved, is what the kernel has left. *)
Theorem ecall_returns m t tcb pt p regs r :
  in_user m t tcb pt p → length regs = 32%nat → as_i32 (xreg m 17) ≠ SYSCALL_EXECVE →
  (∀ m2, call_state m m2 t p → ∃ m3 tcb3, do_syscall m m2 = Ok (r, m3) ∧
     trapping m3 t tcb3 pt p ∧ pid tcb3 = pid tcb ∧ no_signal tcb3 ∧ h_satp (m_hart m3) = h_satp (m_hart m) ∧
     ∀ j, (j < 37)%nat → word (mm m3) p j = word (mm m2) p j) →
  ∃ m', user_trap other te (TException UserEnvCall) regs m = Ok (BackInUser, m') ∧
    h_pc (m_hart m') = wadd (h_pc (m_hart m)) 4 ∧ h_user (m_hart m') = true ∧ h_satp (m_hart m') = h_satp (m_hart m) ∧
    h_stvec (m_hart m') = at_alltraps te ∧ h_sscratch (m_hart m') = h_sscratch (m_hart m) ∧
    h_x (m_hart m') !! 10%nat = Some (wrap r) ∧ h_x (m_hart m') !! 4%nat = regs !! 4%nat ∧
    ∀ j, j ∈ 2%nat :: saved_regs → j ≠ 10%nat → h_x (m_hart m') !! j = h_x (m_hart m) !! j.
Proof.
  intros Hu Hl Hnum Hcall. destruct (ecall_calls m t tcb pt p regs Hu) as (m2 & CS & [X2 PC2 ST2] & Hrun).
  destruct (Hcall m2 CS) as (m3 & tcb3 & E3 & H3 & Hpid & Hns & Hs3 & Hw3). rewrite Hrun, (after_call_back _ _ _ _ _ _ _ E3 (tr_cur _ _ _ _ _ H3)).
  destruct (trap_finish_call m3 t tcb3 pt p regs (call_frame m r)) as (s' & h' & Ef & Of & Sf & [R1 R2 R3 R4 R5] & Wf);
    [done|done|done|done|by rewrite Hs3|done|].
  rewrite Ef. eexists. split; [reflexivity|]. change (m_hart (upd_hart _ h')) with h'.
  assert (∀ j, (j < 37)%nat → j ≠ 10%nat → word s' p j = word (mm m2) p j) as Hword.
  { intros j Hj N10. rewrite Wf by lia. rewrite decide_False by done. by apply Hw3. }
  split_and!; [by rewrite R1, Hword by lia|by rewrite R2, Hword, ST2 by lia|by rewrite Sf|done|..].
  - by rewrite R4, Hpid, (iu_sscratch _ _ _ _ _ Hu).
  - rewrite R5, decide_True by (apply list_elem_of_further, saved_range; lia). by rewrite Wf by lia.
  - rewrite R5, decide_False; [done|]. intros [?|[?|?%elem_of_seq]%elem_of_app]%elem_of_cons; [done|set_solver|lia].
  - intros j Hj N10. rewrite R5, decide_True by done. assert (j < 32)%nat as Hj32.
    { apply elem_of_cons in Hj as [->|[? _]%saved_lt]; lia. }
    rewrite Hword, X2 by (done || lia). unfold xreg.
    destruct (lookup_lt_is_Some_2 (h_x (m_hart m)) j) as [a ->]; [|done]. by rewrite (proj1 (iu_regs _ _ _ _ _ Hu)).
Qed.

(** What [resumed] means for the registers of the program that trapped *)
Lemma resumed_regs m m2 h s v p regs :
  resumed h s v p regs → regs_ok m → (∀ j, j ∈ 2%nat :: saved_regs → word s p j = word (mm m2) p j) → 
  (∀ j, j ∈ 2%nat :: saved_regs → word (mm m2) p j = xreg m j) →
  ∀ j, j ∈ 2%nat :: saved_regs → h_x h !! j = h_x (m_hart m) !! j.
Proof.
  intros [_ _ _ _ R5] [Hlen _] H1 H2 j Hj. rewrite R5, decide_True, H1, H2 by done. unfold xreg.
  destruct (lookup_lt_is_Some_2 (h_x (m_hart m)) j) as [a ->]; [|done].
  rewrite Hlen. apply elem_of_cons in Hj as [->|[? _]%saved_lt]; lia.
Qed.
Lemma saved_lt37 j : j ∈ 2%nat :: saved_regs → (j < 37)%nat.
Proof. intros [->|[? _]%saved_lt]%elem_of_cons; lia. Qed.

Lemma enter_process_user m t tcb regs : is_current m t tcb → 0 < pid tcb → enter_process te regs m = user_entry te regs m.
Proof.
  intros H Hp. unfold enter_process. rewrite (bind_Ok _ _ _ _ _ (the_task _ _ _ H)). run.
  rewrite (bind_Ok _ _ _ _ _ (the_pid _ _ _ H)). by rewrite (proj2 (Z.eqb_neq _ _)) by lia.
Qed.

(** C39: (error path) the result of a call is lost when another table has become active meanwhile, which is what happens when
    the call waited and another process ran: the program goes on behind its [ecall] with every saved register as it was,
    so that [a0] holds the first argument and not the result. *)
Theorem switched_call_loses_result m t tcb pt p regs r :
  in_user m t tcb pt p → length regs = 32%nat → as_i32 (xreg m 17) ≠ SYSCALL_EXECVE → 0 < pid tcb →
  (∀ m2, call_state m m2 t p → ∃ m3 tcb3, do_syscall m m2 = Ok (r, m3) ∧
     trapping (with_table m3 tcb3) t tcb3 pt p ∧ pid tcb3 = pid tcb ∧ no_signal tcb3 ∧ h_satp (m_hart m3) ≠ h_satp (m_hart m) ∧
     ∀ j, (j < 37)%nat → word (mm m3) p j = word (mm m2) p j) →
  ∃ m', user_trap other te (TException UserEnvCall) regs m = Ok (BackInUser, m') ∧
    h_pc (m_hart m') = wadd (h_pc (m_hart m)) 4 ∧ h_user (m_hart m') = true ∧
    ∀ j, j ∈ 2%nat :: saved_regs → h_x (m_hart m') !! j = h_x (m_hart m) !! j.
Proof.
  intros Hu Hl Hnum Hp0 Hcall. destruct (ecall_calls m t tcb pt p regs Hu) as (m2 & CS & [X2 PC2 ST2] & Hrun).
  destruct (Hcall m2 CS) as (m3 & tcb3 & E3 & H3 & Hpid & Hns & Hs3 & Hw3). pose proof (with_table_current _ _ _ _ _ H3) as Hc.
  rewrite Hrun, (after_call_back _ _ _ _ _ _ _ E3 Hc). unfold trap_finish. rewrite (bind_Ok _ _ _ _ _ (no_signal_ok _ _ _ Hc Hns)). run. cbn [call_frame tf_cause tf_num tf_satp].
  rewrite (proj2 (Z.eqb_neq _ _) Hnum), (proj2 (Z.eqb_neq _ _) (not_eq_sym Hs3)). cbn [negb].
  destruct (user_entry_ok m3 t tcb3 pt p regs H3 Hl) as (h' & E & Hs & R).
  rewrite (bind_Ok _ _ _ () (upd_hart m3 h')) by (by rewrite (enter_process_user _ _ _ _ Hc ltac:(lia))).
  eexists. split; [reflexivity|]. change (m_hart (upd_hart m3 h')) with h'. pose proof R as [R1 R2 _ _ _].
  split_and!; [by rewrite R1, Hw3 by lia|by rewrite R2, Hw3, ST2 by lia|].
  apply (resumed_regs m m2 h' (mm m3) _ p regs R); [apply Hu| |done]. intros j Hj%saved_lt37. by apply Hw3.
Qed.

(** ** The timer *)

Lemma check_timer_loop_ok now l : ∀ k : Kernel, Forall (λ x, is_Some (k_tasks k !! timer_task x)) l →
  ∃ l' k', check_timer_loop now l k = Ok (l', k') ∧ k_mm k' = k_mm k ∧ k_processor k' = k_processor k ∧
    ∀ t, is_Some (k_tasks k !! t) → is_Some (k_tasks k' !! t).
Proof.
  induction l as [|x l IH]; intros k Hl; cbn [check_timer_loop]; [by eexists _, k|].
  apply Forall_cons in Hl as [[tcb Hx] Hl]. destruct (expire_ms x <=? now); [|by eexists _, k].
  unfold wakeup_task. rewrite !bind_bind, (bind_Ok _ _ _ _ _ (inner_modify_eq _ _ _ _ Hx)).
  unfold add_task. rewrite (bind_Ok _ _ _ _ _ eq_refl). set (k1 := _ <| k_manager ::= _ |>).
  assert (∀ t, is_Some (k_tasks k !! t) → is_Some (k_tasks k1 !! t)) as Hk1.
  { intros t Ht. change (k_tasks k1) with (alter (λ tcb, tcb <| inner ::= λ i, i <| task_status := Ready |> |>) (timer_task x) (k_tasks k)).
    by apply lookup_alter_is_Some. }
  destruct (IH k1) as (l' & k' & E & Hm & Hp & Ht); [eapply Forall_impl; [exact Hl|]; intros y; apply Hk1|].
  exists l', k'. split_and!; [exact E|by rewrite Hm|by rewrite Hp|]. intros t H. by apply Ht, Hk1.
Qed.

(** Giving up the processor: the task is the last of the ready queue. *)
Lemma suspend_ok (k : Kernel) t : current (k_processor k) = Some t → is_Some (k_tasks k !! t) →
  ∃ k', suspend_current_and_run_next k = Ok ((), k') ∧ k_mm k' = k_mm k ∧ current (k_processor k') = None ∧
    last (ready_queue (k_manager k')) = Some t.
Proof.
  intros Hc [tcb Ht]. unfold suspend_current_and_run_next, take_current_task. run. unfold Processor_take_current. rewrite Hc. run.
  erewrite bind_Ok by (eapply inner_modify_eq; exact Ht).
  eexists. split; [reflexivity|]. split_and!; [done|done|]. cbn. by rewrite last_snoc.
Qed.

(** The timer's part of the handler *)
Lemma handle_timer_ok m t tcb :
  is_current m t tcb → Forall (λ x, is_Some (k_tasks (m_kernel m) !! timer_task x)) (k_timers (m_kernel m)) →
  ∃ m', (tick ← in_kernel (gets k_time);
         set_hart (λ h, h <| h_stimecmp := set_next_trigger tick |>);;
         in_kernel check_timer;; in_kernel suspend_current_and_run_next;; mret (-1, -1)) m = Ok ((-1, -1), m') ∧
    h_stimecmp (m_hart m') = set_next_trigger (k_time (m_kernel m)) ∧ h_satp (m_hart m') = h_satp (m_hart m) ∧
    mm m' = mm m ∧ current (k_processor (m_kernel m')) = None ∧ last (ready_queue (k_manager (m_kernel m'))) = Some t.
Proof.
  intros [Hc Ht _] Hf. rewrite (bind_Ok _ _ _ (k_time (m_kernel m)) m) by (by apply in_kernel_get).
  rewrite (bind_Ok _ _ _ _ _ (set_hart_eq _ _)). set (m1 := upd_hart m _).
  destruct (check_timer_loop_ok (get_time_ms (k_time (m_kernel m))) _ _ Hf) as (l' & k' & E & Hm & Hp & Hk).
  set (k2 := k' <| k_timers := l' |>).
  assert (check_timer (m_kernel m1) = Ok ((), k2)) as E1.
  { unfold check_timer. change (m_kernel m1) with (m_kernel m). run. by rewrite (bind_Ok _ _ _ _ _ E). }
  rewrite (bind_Ok _ _ _ _ _ (in_kernel_Ok _ _ _ _ E1)).
  destruct (suspend_ok k2 t) as (k3 & E3 & Hm3 & Hc3 & Hl3); [by cbn; rewrite Hp|apply Hk; by eexists|].
  erewrite bind_Ok by (apply in_kernel_Ok; exact E3).
  eexists. split; [reflexivity|]. split_and!; [done|done| |done|done]. unfold mm. cbn. by rewrite Hm3.
Qed.

(** C11: (preemption) a timer interrupt is transparent to the program it interrupts: the task goes to the end of the ready
    queue and the next interrupt is requested, and whenever the task is dispatched again, with its context as it was left
    and no fatal signal pending, whichever table is active by then, the program goes on where it was interrupted with the
    saved registers it had. *)
Theorem preemption_is_transparent m t tcb pt p regs :
  in_user m t tcb pt p → 0 < pid tcb → Forall (λ x, is_Some (k_tasks (m_kernel m) !! timer_task x)) (k_timers (m_kernel m)) →
  ∃ f m2, user_trap other te (TInterrupt SupervisorTimer) regs m = Ok (SwitchedTo f, m2) ∧
    current (k_processor (m_kernel m2)) = None ∧ last (ready_queue (k_manager (m_kernel m2))) = Some t ∧
    h_stimecmp (m_hart m2) = set_next_trigger (k_time (m_kernel m)) ∧ only_page p (mm m) (mm m2) ∧
    ∀ m3 tcb3 regs', trapping (with_table m3 tcb3) t tcb3 pt p → pid tcb3 = pid tcb → no_signal tcb3 →
      MemorySet_token (memory_set (inner tcb3)) = h_satp (m_hart m) → length regs' = 32%nat →
      (∀ j, (j < 37)%nat → word (mm m3) p j = word (mm m2) p j) →
      ∃ m', trap_finish te regs' f m3 = Ok (BackInUser, m') ∧ h_pc (m_hart m') = h_pc (m_hart m) ∧ h_user (m_hart m') = true ∧
        h_satp (m_hart m') = h_satp (m_hart m) ∧ h_stvec (m_hart m') = at_alltraps te ∧
        ∀ j, j ∈ 2%nat :: saved_regs → h_x (m_hart m') !! j = h_x (m_hart m) !! j.
Proof.
  intros Hu Hp0 Hf. unfold user_trap.
  destruct (trap_saved m t tcb pt p (TInterrupt SupervisorTimer) Hu) as (m1 & E1 & H1 & (s1 & K1 & O1) & _ & Hs1 & C1 & X1 & PC1 & ST1).
  rewrite <-(bind_bind _ _ _ m), (bind_Ok _ _ _ _ _ E1). unfold trap_handler, set_kernel_trap_entry.
  rewrite (bind_Ok _ _ _ _ _ (set_hart_eq _ _)). set (m2 := upd_hart m1 _). run. change (h_scause (m_hart m2)) with (h_scause (m_hart m1)).
  rewrite C1. destruct (handle_timer_ok m2 t tcb) as (m4 & E4 & T4 & S4 & M4 & P4 & Q4).
  { by destruct (tr_cur _ _ _ _ _ H1). }
  { change (m_kernel m2) with (m_kernel m1). by rewrite K1. }
  rewrite (bind_Ok _ _ _ _ _ E4). run. rewrite (bind_Ok _ _ _ None m4) by (apply in_kernel_get; unfold current_task, gets; by rewrite P4).
  eexists _, m4. split; [reflexivity|]. split_and!; [done|done|rewrite T4; change (m_kernel m2) with (m_kernel m1); by rewrite K1| |].
  { rewrite M4. change (mm m2) with (k_mm (m_kernel m1)). by rewrite K1. }
  intros m3 tcb3 regs' H3 Hpid Hns Htok Hl Hw. pose proof (with_table_current _ _ _ _ _ H3) as Hc.
  assert (∀ j, (j < 37)%nat → word (mm m3) p j = word (mm m1) p j) as Hw1 by (intros j Hj; by rewrite Hw, M4).
  assert (∃ m' h', (if negb (h_satp (m_hart m3) =? h_satp (m_hart m)) then enter_process te regs' else trap_return te regs') m3 = Ok ((), m') ∧
    m_hart m' = h' ∧ h_satp h' = h_satp (m_hart m) ∧ resumed h' (mm m3) (trap_vpn (pid tcb3)) p regs') as (m' & h' & E & Eh & Hs & R).
  { destruct (Z.eqb_spec (h_satp (m_hart m3)) (h_satp (m_hart m))) as [Hsame|Hne]; cbn [negb].
    - destruct (trap_return_ok m3 t tcb3 pt p regs') as (h' & E & Hs & R); [|done|].
      { split; [done|by rewrite Htok|]. apply (trap_page_ext (with_table m3 tcb3)); [|done|apply H3]. cbn. by rewrite Htok. }
      eexists _, h'. split_and!; [exact E|done|by rewrite Hs|exact R].
    - destruct (user_entry_ok m3 t tcb3 pt p regs' H3 Hl) as (h' & E & Hs & R).
      eexists _, h'. split_and!; [by rewrite (enter_process_user _ _ _ _ Hc ltac:(lia))|done|by rewrite Hs|exact R]. }
  exists m'. unfold trap_finish. rewrite (bind_Ok _ _ _ _ _ (no_signal_ok _ _ _ Hc Hns)). run. cbn [tf_cause tf_satp].
  change (h_satp (m_hart m2)) with (h_satp (m_hart m1)). rewrite Hs1, (bind_Ok _ _ _ _ _ E), Eh. pose proof R as [R1 R2 R3 _ _].
  split_and!; [done|by rewrite R1, Hw1 by lia|by rewrite R2, Hw1, ST1 by lia|done|done|].
  apply (resumed_regs m m1 h' (mm m3) _ p regs' R); [apply Hu| |done]. intros j Hj%saved_lt37. by apply Hw1.
Qed.

(** ** Faults and unknown calls *)

Lemma contains_other s a f : Z.land a f = 0 → SignalFlags_contains (Z.lor a s) f = SignalFlags_contains s f.
Proof. intros H. unfold SignalFlags_contains. by rewrite Z.land_lor_distr_l, H, Z.lor_0_l. Qed.
Lemma check_error_segv s : SignalFlags_check_error s = None → SignalFlags_check_error (Z.lor SIGSEGV s) = Some (-11).
Proof.
  unfold SignalFlags_check_error. intros H. rewrite !(contains_other s SIGSEGV) by done.
  repeat (destruct (SignalFlags_contains s _); [discriminate H|]).
  assert (SignalFlags_contains (Z.lor SIGSEGV s) SIGSEGV = true) as ->; [|done].
  unfold SignalFlags_contains. apply Z.eqb_eq, Z.bits_inj'. intros n Hn. rewrite Z.land_spec, Z.lor_spec.
  by destruct (Z.testbit SIGSEGV n), (Z.testbit s n).
Qed.

(** (error path) an access fault or a page fault of a user program ends its task and nothing else happens before: with
    no fatal signal pending the handler exits the task with the code -11. *)
Theorem fault_ends_task m t tcb pt p regs e :
  in_user m t tcb pt p → is_user_fault e = true → no_signal tcb →
  ∃ m1, user_trap other te (TException e) regs m = (in_kernel (exit_current_and_run_next (-11));; mret Ended) m1 ∧
    (∃ s, m_kernel m1 = (set_inner t (λ i, i <| signals ::= Z.lor SIGSEGV |>) (m_kernel m)) <| k_mm := s |> ∧ only_page p (mm m) s) ∧
    m_world m1 = m_world m.
Proof.
  intros Hu He Hns. unfold user_trap.
  destruct (trap_saved m t tcb pt p (TException e) Hu) as (m1 & E1 & H1 & (s1 & K1 & O1) & W1 & _ & C1 & _).
  rewrite <-(bind_bind _ _ _ m), (bind_Ok _ _ _ _ _ E1). unfold trap_handler, set_kernel_trap_entry.
  rewrite (bind_Ok _ _ _ _ _ (set_hart_eq _ _)). set (m2 := upd_hart m1 _). run. change (h_scause (m_hart m2)) with (h_scause (m_hart m1)).
  rewrite C1. assert (trapping m2 t tcb pt p) as H2 by (by apply trapping_hart). pose proof (tr_cur _ _ _ _ _ H2) as [Hc Ht _].
  set (m3 := m2 <| m_kernel ::= set_inner t (λ i, i <| signals ::= Z.lor SIGSEGV |>) |>).
  assert (in_kernel (current_add_signal SIGSEGV) m2 = Ok ((), m3)) as E2.
  { rewrite (in_kernel_Ok _ m2 () (set_inner t (λ i, i <| signals ::= Z.lor SIGSEGV |>) (m_kernel m2))); [done|].
    unfold current_add_signal, current_task. run. rewrite Hc. run. by apply (inner_modify_eq _ _ _ tcb). }
  assert (trapping m3 t (tcb <| inner ::= λ i, i <| signals ::= Z.lor SIGSEGV |> |>) pt p) as H3 by (by apply trapping_inner).
  assert (in_kernel check_signals_of_current m3 = Ok (Some (-11), m3)) as E3.
  { destruct (tr_cur _ _ _ _ _ H3) as [Hc3 Ht3 _]. apply in_kernel_get. unfold check_signals_of_current, current_task, task_inner.
    run. rewrite Hc3. run. rewrite Ht3. run. cbn. by rewrite check_error_segv. }
  rewrite (bind_Ok _ _ _ (-1, -1) m3) by (destruct e; try discriminate He; cbn [is_user_fault]; by rewrite (bind_Ok _ _ _ _ _ E2)).
  run. rewrite (bind_Ok _ _ _ _ _ (the_task _ _ _ (tr_cur _ _ _ _ _ H3))). unfold trap_finish. rewrite (bind_Ok _ _ _ _ _ E3).
  exists m3. split_and!; [done| |done]. exists s1. split; [|done]. change (m_kernel m3) with (set_inner t (λ i, i <| signals ::= Z.lor SIGSEGV |>) (m_kernel m1)).
  by rewrite K1.
Qed.

Lemma count_call_eq m t tcb n :
  current (k_processor (m_kernel m)) = Some t → k_tasks (m_kernel m) !! t = Some tcb →
  (∀ c, syscall_times (inner tcb) !! Z.to_nat n = Some c → in_kernel (count_call n) m =
     Ok ((), m <| m_kernel ::= set_inner t (λ i, i <| syscall_times ::= <[Z.to_nat n := as_u32 (c + 1)]> |>) |>)) ∧
  (syscall_times (inner tcb) !! Z.to_nat n = None → in_kernel (count_call n) m = Panic Bounds).
Proof.
  intros Hc Ht. unfold in_kernel, zoom, count_call, current_task, task_inner. split; [intros c Hcnt|intros Hcnt];
    run; rewrite Hc; run; rewrite Ht; run; rewrite Hcnt; [|done].
  by rewrite (inner_modify_eq _ _ _ _ Ht).
Qed.

Lemma call_state_trapping m m2 t tcb pt p :
  trapping m t tcb pt p → call_state m m2 t p →
  trapping m2 t (tcb <| inner ::= λ i, (user_clock_time_end (k_time (m_kernel m)) i).2 |>) pt p.
Proof.
  intros [[H1 H2 H3] H4 H5] [(s & K & O) _ S]. split; [split|..].
  - by rewrite K.
  - rewrite K. cbn. by rewrite lookup_alter_eq, H2.
  - done.
  - by rewrite S, H4.
  - apply (trap_page_ext (upd_mm m s)); [by rewrite S|by unfold mm; rewrite K|by apply trap_page_written].
Qed.

(** A call that only looks at the kernel meets the demands of [ecall_returns]. *)
Lemma readonly_call m t tcb pt p c cm r :
  in_user m t tcb pt p → no_signal tcb → is_Some (syscall_times (inner tcb) !! Z.to_nat (xreg m 17)) →
  decode (xreg m 17) (xreg m 10) (xreg m 11) (xreg m 12) (xreg m 13) (xreg m 14) (xreg m 15) = Some c → kernel_call c = Some cm →
  (∀ (k : Kernel) tcb', current (k_processor k) = Some t → k_tasks k !! t = Some tcb' → pid tcb' = pid tcb → cm k = Ok (r, k)) →
  ∀ m2, call_state m m2 t p → ∃ m3 tcb3, do_syscall m m2 = Ok (r, m3) ∧
    trapping m3 t tcb3 pt p ∧ pid tcb3 = pid tcb ∧ no_signal tcb3 ∧ h_satp (m_hart m3) = h_satp (m_hart m) ∧
    ∀ j, (j < 37)%nat → word (mm m3) p j = word (mm m2) p j.
Proof.
  intros Hu Hns [n Hn] Hd Hk Hcm m2 CS. pose proof (call_state_trapping _ _ _ _ _ _ (iu_task _ _ _ _ _ Hu) CS) as H2.
  set (f (i : @TaskControlBlockInner File Dentry) := i <| syscall_times ::= <[Z.to_nat (xreg m 17) := as_u32 (n + 1)]> |>).
  set (m3 := m2 <| m_kernel ::= set_inner t f |>).
  pose proof (trapping_inner m2 f t _ pt p (λ i, eq_refl) H2) as H3. fold m3 in H3.
  destruct (tr_cur _ _ _ _ _ H2) as [Hc Ht _]. destruct (tr_cur _ _ _ _ _ H3) as [Hc3 Ht3 _].
  eexists m3, _. split_and!; [|exact H3|done|exact Hns|by apply CS|done]. unfold do_syscall, syscall.
  rewrite (bind_Ok _ _ _ () m3) by (by apply (count_call_eq m2 t _ (xreg m 17) Hc Ht)).
  rewrite Hd. unfold perform. rewrite Hk. apply in_kernel_get. by eapply Hcm.
Qed.

(** (error path) a call with a number that is not in the table brings the kernel down: numbers from 500 on are outside of
    the array of counters, and the others reach the last arm of the table. *)
Theorem unknown_call_panics m t tcb pt p regs :
  in_user m t tcb pt p → length (syscall_times (inner tcb)) = Z.to_nat MAX_SYSCALL_NUM →
  decode (xreg m 17) (xreg m 10) (xreg m 11) (xreg m 12) (xreg m 13) (xreg m 14) (xreg m 15) = None →
  user_trap other te (TException UserEnvCall) regs m = Panic (if xreg m 17 <? MAX_SYSCALL_NUM then Explicit else Bounds).
Proof.
  intros Hu Hlen Hd. destruct (ecall_calls m t tcb pt p regs Hu) as (m2 & [(s & K2 & _) _ _] & _ & ->).
  destruct (tr_cur _ _ _ _ _ (iu_task _ _ _ _ _ Hu)) as [Hc Ht _]. pose proof (xreg_range m 17 (iu_regs _ _ _ _ _ Hu)) as [Hn _].
  set (i := (user_clock_time_end (k_time (m_kernel m)) (inner tcb)).2).
  assert (current (k_processor (m_kernel m2)) = Some t) as Hc2 by (by rewrite K2).
  assert (k_tasks (m_kernel m2) !! t = Some (tcb <| inner := i |>)) as Ht2.
  { rewrite K2. cbn. by rewrite lookup_alter_eq, Ht. }
  unfold after_call, do_syscall, syscall. rewrite Hd. destruct (count_call_eq m2 t (tcb <| inner := i |>) (xreg m 17) Hc2 Ht2) as [H1 H2].
  change (syscall_times (inner (tcb <| inner := i |>))) with (syscall_times (inner tcb)) in *.
  destruct (Z.ltb_spec (xreg m 17) MAX_SYSCALL_NUM) as [Hlt|Hge].
  - destruct (lookup_lt_is_Some_2 (syscall_times (inner tcb)) (Z.to_nat (xreg m 17))) as [c Hcnt]; [lia|].
    by rewrite !bind_bind, (bind_Ok _ _ _ _ _ (H1 c Hcnt)).
  - rewrite !bind_bind. apply bind_Panic, H2. apply lookup_ge_None. lia.
Qed.
End traps.

(** ** A machine with one process, for the witnesses *)

#[local] Existing Instance empty_heap.
Definition demo_te : TrapEntries := {| at_alltraps := 0xffffffc080202000; at_trap_from_kernel := 0xffffffc080203000 |}.
Definition trapping_task (ms : MemorySet) : @TaskControlBlock unit unit :=
  (forking_task ms) <| inner ::= λ i, i <| syscall_times := replicate 500 0 |> |>.
(** The registers hold their numbers; the call is [n] with the first argument 3. *)
Definition demo_regs (n : Z) : list Z := <[17%nat := n]> (<[10%nat := 3]> (seqZ 0 32)).
Definition demo_machine (s : Mm) (space ms : MemorySet) (n : Z) : @Machine unit unit unit :=
  {| m_hart := {| h_x := demo_regs n; h_pc := 0x10000; h_user := true; h_sstatus := 0; h_sepc := 0; h_scause := TException Breakpoint;
       h_sscratch := trap_vpn 5 * 4096; h_satp := MemorySet_token ms; h_stvec := at_alltraps demo_te; h_stimecmp := 0 |};
     m_kernel := (forking_kernel s space ms) <| k_tasks := {[ 1%nat := trapping_task ms ]} |>
                   <| k_processor := {| current := Some 1%nat; idle_task_cx := TaskContext_zero_init |} |>;
     m_world := () |}.

Lemma demo_in_user : ∃ s space ms pt p, ∀ n, is_usize n → in_user (demo_machine s space ms n) 1 (trapping_task ms) pt p.
Proof.
  destruct demo_process as (ptk & pt & s & p & Hm & Hk & Hs & _ & _ & Hf & _ & Hrw & Hp & Hn & Hnu & _ & _ & Hroot0).
  set (ms := empty_space pt [trap_area 5 p]). exists s, (empty_space ptk []), ms, {| root_ppn := root_ppn pt; frames := [] |}, p.
  intros n Hn64. pose proof (fk_pt _ _ Hf) as Hpt. change (page_table _) with pt in Hpt.
  pose proof (pt_inv_bound _ _ Hpt [] _ good_path_nil eq_refl) as Hroot. pose proof (mm_inv_fa _ Hm) as [F1 F2 F3 _ _].
  split; [split; [split|..]|..].
  - done.
  - done.
  - cbn. unfold max_trap_id. lia.
  - done.
  - split; [apply token_roundtrip; cbn; lia|done|exact Hpt|exact Hrw| |by destruct (trap_cx_bottom_eq 5) as [? _]].
    intros Hnode. destruct (node_cases s ptk pt p Hs Hnode) as [?|?]; done.
  - split; [by vm_compute|]. change (h_x _) with (demo_regs n). unfold demo_regs.
    apply Forall_insert; [apply Forall_insert|done]; [|unfold is_usize, W64; lia].
    apply Forall_forall. intros x [? ?]%elem_of_seqZ. unfold is_usize, W64. lia.
  - done.
  - unfold is_usize, W64. cbn. lia.
  - unfold is_usize, W64. cbn. lia.
Qed.

Lemma getpid_reads {File Dentry} (k : @Kernel File Dentry) t tcb :
  current (k_processor k) = Some t → k_tasks k !! t = Some tcb → sys_getpid k = Ok (as_isize (pid tcb), k).
Proof. intros Hc Ht. unfold sys_getpid, current_task, task_pid. run. rewrite Hc. run. by rewrite Ht. Qed.

(** [getpid] of a process with the identifier 5 *)
Lemma ecall_returns_witness : ∃ (m m' : @Machine unit unit unit),
  user_trap (λ _, panic Todo) demo_te (TException UserEnvCall) (replicate 32 0) m = Ok (BackInUser, m') ∧
  h_pc (m_hart m') = 0x10004 ∧ h_x (m_hart m') !! 10%nat = Some 5 ∧ h_x (m_hart m') !! 11%nat = Some 11.
Proof.
  destruct demo_in_user as (s & space & ms & pt & p & Hu). specialize (Hu 172 ltac:(unfold is_usize, W64; lia)).
  destruct (ecall_returns (λ _, panic Todo) demo_te (demo_machine s space ms 172) 1 (trapping_task ms) pt p (replicate 32 0) 5)
    as (m' & E & Hpc & _ & _ & _ & _ & H10 & _ & Hx).
  - exact Hu.
  - reflexivity.
  - discriminate.
  - apply (readonly_call _ _ _ _ _ _ Getpid sys_getpid); [exact Hu|done|by vm_compute; eexists|done|done|].
    intros k tcb Hc Ht Hpid. rewrite (getpid_reads _ _ _ Hc Ht), Hpid. reflexivity.
  - exists (demo_machine s space ms 172), m'. split; [exact E|]. split; [exact Hpc|]. split; [exact H10|].
    rewrite Hx; [reflexivity| |discriminate]. apply list_elem_of_further, saved_range. lia.
Defined.

(** [write] on a machine where another process runs meanwhile, as to a full pipe: the result 7 is lost. *)
Definition other_table {A : Type} (r : A) : M (@Machine unit unit unit) A := set_hart (λ h, h <| h_satp ::= Z.succ |>);; mret r.
Lemma switched_call_loses_result_witness : ∃ m m' : @Machine unit unit unit,
  user_trap (λ _, other_table 7) demo_te (TException UserEnvCall) (replicate 32 0) m = Ok (BackInUser, m') ∧
  h_pc (m_hart m') = 0x10004 ∧ h_x (m_hart m') !! 10%nat = Some 3.
Proof.
  destruct demo_in_user as (s & space & ms & pt & p & Hu). specialize (Hu 64 ltac:(unfold is_usize, W64; lia)).
  destruct (switched_call_loses_result (λ _, other_table 7) demo_te (demo_machine s space ms 64) 1
    (trapping_task ms) pt p (replicate 32 0) 7) as (m' & E & Hpc & _ & Hx).
  - exact Hu.
  - reflexivity.
  - discriminate.
  - reflexivity.
  - intros m2 CS. pose proof (call_state_trapping _ _ _ _ _ _ (iu_task _ _ _ _ _ Hu) CS) as H2.
    destruct (tr_cur _ _ _ _ _ H2) as [Hc Ht _]. set (f (i : @TaskControlBlockInner unit unit) := i <| syscall_times ::= <[64%nat := 1]> |>).
    pose proof (trapping_inner m2 f 1 _ pt p (λ i, eq_refl) H2) as H3.
    set (m3 := upd_hart (m2 <| m_kernel ::= set_inner 1 f |>) ((m_hart m2) <| h_satp ::= Z.succ |>)).
    eexists m3, _. split_and!; [|apply (trapping_hart (m2 <| m_kernel ::= set_inner 1 f |>)); [|exact H3]|reflexivity|reflexivity| |done].
    + unfold do_syscall, syscall. change (xreg _ 17) with 64. rewrite (bind_Ok _ _ _ _ _ (proj1 (count_call_eq m2 1 _ 64 Hc Ht) 0 eq_refl)). reflexivity.
    + change (MemorySet_token ms = h_satp (m_hart m2)). by rewrite (cs_satp _ _ _ _ CS).
    + change (Z.succ (h_satp (m_hart m2)) ≠ MemorySet_token ms). rewrite (cs_satp _ _ _ _ CS). apply Z.neq_succ_diag_l.
  - exists (demo_machine s space ms 64), m'. split; [exact E|]. split; [exact Hpc|].
    rewrite Hx; [reflexivity|]. apply list_elem_of_further, saved_range. lia.
Defined.

(** The interrupted task is the next to run and goes on. *)
Lemma preemption_is_transparent_witness : ∃ (m m2 m3 m' : @Machine unit unit unit) f,
  user_trap (λ _, panic Todo) demo_te (TInterrupt SupervisorTimer) (replicate 32 0) m = Ok (SwitchedTo f, m2) ∧
  last (ready_queue (k_manager (m_kernel m2))) = Some 1%nat ∧ mm m3 = mm m2 ∧
  trap_finish demo_te (replicate 32 0) f m3 = Ok (BackInUser, m') ∧ h_pc (m_hart m') = 0x10000.
Proof.
  destruct demo_in_user as (s & space & ms & pt & p & Hu). specialize (Hu 0 ltac:(unfold is_usize, W64; lia)).
  destruct (preemption_is_transparent (λ _, panic Todo) demo_te (demo_machine s space ms 0) 1 (trapping_task ms) pt p (replicate 32 0))
    as (f & m2 & E & _ & Hq & _ & O & Hback).
  - exact Hu.
  - reflexivity.
  - apply Forall_nil_2.
  - set (m3 := upd_mm (demo_machine s space ms 0) (mm m2)).
    destruct (Hback m3 (trapping_task ms) (replicate 32 0)) as (m' & E' & Hpc & _).
    + apply (trapping_hart m3); [reflexivity|]. apply trapping_mm; [exact O|apply Hu].
    + reflexivity.
    + reflexivity.
    + reflexivity.
    + reflexivity.
    + reflexivity.
    + exists (demo_machine s space ms 0), m2, m3, m', f. split_and!; [exact E|exact Hq|reflexivity|exact E'|exact Hpc].
Defined.

Lemma fault_ends_task_witness : ∃ m m1 : @Machine unit unit unit,
  user_trap (λ _, panic Todo) demo_te (TException LoadPageFault) (replicate 32 0) m =
    (in_kernel (exit_current_and_run_next (-11));; mret Ended) m1 ∧ current (k_processor (m_kernel m1)) = Some 1%nat.
Proof.
  destruct demo_in_user as (s & space & ms & pt & p & Hu). specialize (Hu 0 ltac:(unfold is_usize, W64; lia)).
  destruct (fault_ends_task (λ _, panic Todo) demo_te (demo_machine s space ms 0) 1 (trapping_task ms) pt p (replicate 32 0) LoadPageFault)
    as (m1 & E & (s1 & K & _) & _).
  - exact Hu.
  - reflexivity.
  - reflexivity.
  - exists (demo_machine s space ms 0), m1. split; [exact E|]. rewrite K. reflexivity.
Defined.

Lemma unknown_call_panics_witness : ∃ m : @Machine unit unit unit,
  user_trap (λ _, panic Todo) demo_te (TException UserEnvCall) (replicate 32 0) m = Panic Explicit.
Proof.
  destruct demo_in_user as (s & space & ms & pt & p & Hu). specialize (Hu 1 ltac:(unfold is_usize, W64; lia)).
  exists (demo_machine s space ms 1).
  apply (unknown_call_panics (λ _, panic Todo) demo_te (demo_machine s space ms 1) 1 (trapping_task ms) pt p (replicate 32 0)).
  - exact Hu.
  - reflexivity.
  - reflexivity.
Defined.
