(* ===== verification/Mutex.v ===== *)
(** * Spin locks and cells ([os/src/sync])

    [SpinMutex] ([sync/mutex]) as a program for each of several harts, one atomic access to the shared
    flag per step, and [UPSafeCell] ([sync/up.rs]).  The theorems hold for every interleaving of the
    steps of any number of harts: one of them holds the lock at a time, and with [SpinNoIrq]
    interrupts are off from before the lock is tried until it has been released. *)

From Stdlib Require Import ZArith Lia.
From stdpp Require Import prelude.
From S2P Require Import Prelude.

Open Scope Z_scope.

(** ** Cells *)

(** A [RefCell] that is only borrowed exclusively *)
Record UPSafeCell (A : Type) := { cell_inner : A; cell_borrowed : bool }.
Arguments cell_inner {A}.
Arguments cell_borrowed {A}.
Definition UPSafeCell_new {A} (value : A) : UPSafeCell A := {| cell_inner := value; cell_borrowed := false |}.
(** The borrowed cell; its value is [cell_inner]. *)
Definition exclusive_access {A} (c : UPSafeCell A) : outcome (UPSafeCell A) :=
  if cell_borrowed c then Panic Borrowed else Ok {| cell_inner := cell_inner c; cell_borrowed := true |}.
(** Dropping the [RefMut] after having written [a] *)
Definition RefMut_drop {A} (a : A) : UPSafeCell A := {| cell_inner := a; cell_borrowed := false |}.

(** ** Guards *)

(** [GuardData] of [Spin] and of [SpinNoIrq]; [SieGuard] holds whether interrupts were enabled. *)
Inductive MutexSupport := Spin | SpinNoIrq.
Definition GuardData : Type := option bool.
(** The guard and [sstatus.sie] afterwards *)
Definition SieGuard_new (sie : bool) : bool * bool := (sie, false).
Definition SieGuard_drop (guard sie : bool) : bool := if guard then true else sie.
Definition before_lock (S : MutexSupport) (sie : bool) : GuardData * bool :=
  match S with Spin => (None, sie) | SpinNoIrq => let '(g, sie) := SieGuard_new sie in (Some g, sie) end.
(** [after_unlock] does nothing; the guard is dropped after it. *)
Definition drop_guard (g : GuardData) (sie : bool) : bool := match g with None => sie | Some b => SieGuard_drop b sie end.

(** ** Locking and unlocking *)

(** Where a hart is in [lock] and in the [drop] of the guard *)
Inductive Place :=
  | Outside
  | WaitUnlock (try_count : Z) (g : GuardData)
  | CompareExchange (g : GuardData)
  | Inside (g : GuardData)
  | Released (g : GuardData)
  | Deadlock.
Record Locker := { place : Place; sie : bool }.
#[export] Instance Locker_eta : Settable Locker := λ r, {| place := place r; sie := sie r |}.

Definition try_limit : Z := 0x10000000.
(** One step of a hart on the flag [lock] *)
Definition wait_unlock (lock : bool) (try_count : Z) (g : GuardData) : Place :=
  if lock then (if try_count + 1 =? try_limit then Deadlock else WaitUnlock (try_count + 1) g) else CompareExchange g.
Definition compare_exchange (lock : bool) (g : GuardData) : bool * Place := (true, if lock then WaitUnlock 0 g else Inside g).
Definition locker_step (S : MutexSupport) (lock : bool) (h : Locker) : bool * Locker :=
  match place h with
  | Outside => let '(g, sie) := before_lock S (sie h) in (lock, {| place := WaitUnlock 0 g; sie := sie |})
  | WaitUnlock n g => (lock, h <| place := wait_unlock lock n g |>)
  | CompareExchange g => let '(lock, p) := compare_exchange lock g in (lock, h <| place := p |>)
  | Inside g => (false, h <| place := Released g |>)
  | Released g => (lock, {| place := Outside; sie := drop_guard g (sie h) |})
  | Deadlock => (lock, h)
  end.

Record SpinMutex := { m_lock : bool; m_harts : list Locker }.
Definition SpinMutex_new (harts : list bool) : SpinMutex :=
  {| m_lock := false; m_harts := (λ b, {| place := Outside; sie := b |}) <$> harts |}.
(** The hart [i] takes a step. *)
Definition mutex_step (S : MutexSupport) (m : SpinMutex) (i : nat) : SpinMutex :=
  match m_harts m !! i with
  | Some h => let '(lock, h) := locker_step S (m_lock m) h in {| m_lock := lock; m_harts := <[i := h]> (m_harts m) |}
  | None => m
  end.
Definition mutex_run (S : MutexSupport) (m : SpinMutex) (schedule : list nat) : SpinMutex := foldl (mutex_step S) m schedule.

(** ** Theorems *)

Definition inside (h : Locker) : bool := match place h with Inside _ => true | _ => false end.
(** The flag is set exactly while a hart is inside, and there is at most one. *)
Definition excluded (m : SpinMutex) : Prop :=
  (m_lock m = false → ∀ i h, m_harts m !! i = Some h → inside h = false) ∧
  (m_lock m = true → ∃ i h, m_harts m !! i = Some h ∧ inside h = true) ∧
  ∀ i j h k, m_harts m !! i = Some h → m_harts m !! j = Some k → inside h = true → inside k = true → i = j.

Lemma excluded_step S m i : excluded m → excluded (mutex_step S m i).
Proof.
  intros (H1 & H2 & H3). unfold mutex_step. destruct (m_harts m !! i) as [h|] eqn:Eh; [|done].
  pose proof (lookup_lt_Some _ _ _ Eh) as Hlt.
  destruct (locker_step S (m_lock m) h) as [lock h'] eqn:E.
  assert (lock = m_lock m ∧ inside h' = inside h ∨ m_lock m = false ∧ lock = true ∧ inside h' = true
          ∨ inside h = true ∧ lock = false ∧ inside h' = false) as Hstep.
  { unfold locker_step, compare_exchange, inside in *. destruct (place h) eqn:Ep; try (injection E as <- <-; cbn; rewrite ?Ep; auto; fail).
    - destruct (before_lock S (sie h)). injection E as <- <-. auto.
    - injection E as <- <-. left. cbn. unfold wait_unlock. destruct (m_lock m); [|done]. by destruct (_ =? _).
    - injection E as <- <-. cbn. destruct (m_lock m); auto. }
  assert (∀ j k, <[i := h']> (m_harts m) !! j = Some k → j = i ∧ k = h' ∨ j ≠ i ∧ m_harts m !! j = Some k) as Hl.
  { intros j k Hj. destruct (decide (j = i)) as [->|Hne].
    - rewrite list_lookup_insert_eq in Hj by done. injection Hj as <-. auto.
    - rewrite list_lookup_insert_ne in Hj by done. auto. }
  unfold excluded. cbn. destruct Hstep as [[-> Hin]|[(Hf & -> & Hin)|(Hin & -> & Hin')]].
  - split_and!.
    + intros Hf j k [[-> ->]|[_ Hk]]%Hl; [rewrite Hin|]; by eapply H1.
    + intros Ht. destruct (H2 Ht) as (j & k & Hj & Hk). destruct (decide (j = i)) as [->|Hne].
      * exists i, h'. rewrite list_lookup_insert_eq by done. split; [done|]. rewrite Hj in Eh. injection Eh as <-. by rewrite Hin.
      * exists j, k. by rewrite list_lookup_insert_ne by done.
    + intros a b x y [[-> ->]|[Ha Hx]]%Hl [[-> ->]|[Hb Hy]]%Hl Hix Hiy; [done| | |]; rewrite ?Hin in *; by eapply H3.
  - split_and!; [done| |].
    + intros _. exists i, h'. by rewrite list_lookup_insert_eq by done.
    + intros a b x y [[-> ->]|[Ha Hx]]%Hl [[-> ->]|[Hb Hy]]%Hl Hix Hiy; [done| | |].
      all: [> rewrite (H1 Hf _ _ Hy) in Hiy|rewrite (H1 Hf _ _ Hx) in Hix..]; done.
  - assert (∀ j k, j ≠ i → m_harts m !! j = Some k → inside k = false) as Hout.
    { intros j k Hj Hk. destruct (inside k) eqn:Ek; [|done]. destruct Hj. by eapply H3. }
    split_and!; [|done|].
    + intros _ j k [[-> ->]|[Hj Hk]]%Hl; [done|by eapply Hout].
    + intros a b x y [[-> ->]|[Ha Hx]]%Hl _ Hix _; [congruence|]. rewrite (Hout _ _ Ha Hx) in Hix. done.
Qed.

Lemma excluded_new harts : excluded (SpinMutex_new harts).
Proof.
  assert (∀ i h, m_harts (SpinMutex_new harts) !! i = Some h → inside h = false) as H.
  { intros i h E. cbn in E. rewrite list_lookup_fmap in E. by destruct (harts !! i); simplify_eq/=. }
  split_and!; [by intros _|done|]. intros i j h k Hh _ Hih _. by rewrite (H i h Hh) in Hih.
Qed.
Lemma run_invariant (P : SpinMutex → Prop) S m schedule : (∀ m i, P m → P (mutex_step S m i)) → P m → P (mutex_run S m schedule).
Proof. intros Hs. unfold mutex_run. revert m. induction schedule as [|i l IH]; intros m Hm; cbn [foldl]; auto. Qed.

(** C20: Mutual exclusion: however the steps of the harts are interleaved, at most one hart is between taking the lock and giving it
    back, and the flag is set exactly when there is one. *)
Theorem spin_mutual_exclusion S harts schedule : excluded (mutex_run S (SpinMutex_new harts) schedule).
Proof. apply run_invariant; [intros m i; apply excluded_step|apply excluded_new]. Qed.

(** The interrupts of a hart whose [sie] was [b] before *)
Definition irq_ok (b : bool) (h : Locker) : Prop :=
  match place h with
  | Outside => sie h = b
  | WaitUnlock _ g | CompareExchange g | Inside g | Released g => g = Some b ∧ sie h = false
  | Deadlock => sie h = false
  end.
Lemma irq_ok_step b lock h : irq_ok b h → irq_ok b (locker_step SpinNoIrq lock h).2.
Proof.
  unfold irq_ok, locker_step. destruct (place h) as [|n g|g|g|g|] eqn:Ep; cbn; rewrite ?Ep; try tauto.
  - by intros ->.
  - unfold wait_unlock. destruct lock; [destruct (_ =? _)|]; tauto.
  - destruct lock; tauto.
  - intros [-> ->]. by destruct b.
Qed.
(** With [SpinNoIrq] a hart cannot be interrupted from before it tries the lock until after it has released it, and afterwards
    its interrupts are as they were, in every interleaving. *)
Theorem no_irq_while_locked harts schedule :
  Forall2 irq_ok harts (m_harts (mutex_run SpinNoIrq (SpinMutex_new harts) schedule)).
Proof.
  apply (run_invariant (λ m, Forall2 irq_ok harts (m_harts m))).
  - intros m i H. unfold mutex_step. destruct (m_harts m !! i) as [h|] eqn:Eh; [|done].
    pose proof (Forall2_lookup_r _ _ _ _ _ H Eh) as (b & Hb & Hok). pose proof (irq_ok_step b (m_lock m) h Hok) as Hok'.
    destruct (locker_step SpinNoIrq (m_lock m) h) as [lock h']. cbn in *.
    rewrite <-(list_insert_id harts i b Hb). by apply Forall2_insert.
  - cbn. apply Forall2_fmap_r, Forall_Forall2_diag, Forall_forall. done.
Qed.

Lemma waiting_step S m i n g : m_harts m !! i = Some {| place := WaitUnlock n g; sie := false |} → m_lock m = true → n + 1 ≠ try_limit →
  mutex_step S m i = {| m_lock := true; m_harts := <[i := {| place := WaitUnlock (n + 1) g; sie := false |}]> (m_harts m) |}.
Proof.
  intros Hi Hl Hn. unfold mutex_step. rewrite Hi. unfold locker_step. cbn. rewrite Hl. unfold wait_unlock. by rewrite (proj2 (Z.eqb_neq _ _) Hn).
Qed.
Lemma waits_until S k m i n g : m_harts m !! i = Some {| place := WaitUnlock n g; sie := false |} → m_lock m = true →
  n + Z.of_nat k + 1 = try_limit →
  m_harts (mutex_run S m (replicate (1 + k) i)) !! i = Some {| place := Deadlock; sie := false |}.
Proof.
  revert m n. induction k as [|k IH]; intros m n Hi Hl Hn; cbn [replicate Nat.add mutex_run foldl].
  - unfold mutex_step. rewrite Hi. unfold locker_step. cbn. rewrite Hl. unfold wait_unlock. rewrite (proj2 (Z.eqb_eq _ _)) by lia.
    apply list_lookup_insert_eq. by eapply lookup_lt_Some.
  - rewrite (waiting_step S m i n g Hi Hl) by lia. apply (IH _ (n + 1)); [|done|lia].
    apply list_lookup_insert_eq. by eapply lookup_lt_Some.
Qed.
(** A hart that waits takes a free lock with its next two steps, and stops the kernel after [0x10000000] looks at a lock that
    is not given back. *)
Theorem spin_wait_ends S m i g : m_harts m !! i = Some {| place := WaitUnlock 0 g; sie := false |} →
  (m_lock m = false → m_harts (mutex_run S m [i; i]) !! i = Some {| place := Inside g; sie := false |}) ∧
  (m_lock m = true → m_harts (mutex_run S m (replicate (Z.to_nat try_limit) i)) !! i = Some {| place := Deadlock; sie := false |}).
Proof.
  intros Hi. pose proof (lookup_lt_Some _ _ _ Hi). split; intros Hl.
  - unfold mutex_run. cbn [foldl]. unfold mutex_step at 2. rewrite Hi. unfold locker_step. cbn. rewrite Hl. unfold wait_unlock, mutex_step. cbn.
    rewrite list_lookup_insert_eq by done. unfold locker_step. cbn. rewrite list_lookup_insert_eq by (by rewrite length_insert). done.
  - replace (Z.to_nat try_limit) with (1 + Z.to_nat (try_limit - 1))%nat by (unfold try_limit; lia).
    apply (waits_until S _ m i 0 g Hi Hl). rewrite Z2Nat.id; unfold try_limit; lia.
Qed.

Lemma spin_wait_ends_witness :
  m_harts (mutex_run SpinNoIrq {| m_lock := false; m_harts := [{| place := WaitUnlock 0 (Some true); sie := false |}] |} [0; 0]%nat) !! 0%nat =
    Some {| place := Inside (Some true); sie := false |}.
Proof.
  apply (spin_wait_ends SpinNoIrq {| m_lock := false; m_harts := [{| place := WaitUnlock 0 (Some true); sie := false |}] |} 0 (Some true)); reflexivity.
Defined.
