(* ===== verification/User.v ===== *)
(** * User programs ([user/src])

    The library of system calls of user programs ([user/src/syscall.rs], [lib.rs]) and the shell
    ([bin/user_shell.rs]): how it takes a command line apart and how it connects the commands of a
    pipeline.  A call runs the table of [Trap] on the kernel; [TrapSpec] shows that its result reaches
    the program. *)

From Stdlib Require Import ZArith Lia.
From stdpp Require Import prelude gmap.
From S2P Require Import Prelude Config Task Syscall Process Trap.

Open Scope Z_scope.

(** ** The calls of the library *)

Inductive UserFn :=
  | UDup (fd : Z) | UOpen (path flags : Z) | UClose (fd : Z) | UPipe (pipe : Z) | URead (fd buffer len : Z)
  | UWrite (fd buffer len : Z) | UExit (exit_code : Z) | USleep (sleep_ms : Z) | UYield | UKill (pid signal : Z) | UGetTime
  | UGetpid | UFork | UExec (path args : Z) | UWaitpid (pid exit_code : Z) | UThreadCreate (entry arg : Z) | UGettid
  | UWaittid (tid : Z) | UMutexCreate (blocking : bool) | UMutexLock (id : Z) | UMutexUnlock (id : Z)
  | USemaphoreCreate (res_count : Z) | USemaphoreUp (sem_id : Z) | USemaphoreDown (sem_id : Z) | UCondvarCreate
  | UCondvarSignal (condvar_id : Z) | UCondvarWait (condvar_id mutex_id : Z).

(** The number and the three arguments; signed arguments are extended to 64 bits. *)
Definition user_call (f : UserFn) : Z * (Z * Z * Z) :=
  match f with
  | UDup fd => (24, (fd, 0, 0))
  | UOpen path flags => (56, (path, flags, 0))
  | UClose fd => (57, (fd, 0, 0))
  | UPipe pipe => (59, (pipe, 0, 0))
  | URead fd buffer len => (63, (fd, buffer, len))
  | UWrite fd buffer len => (64, (fd, buffer, len))
  | UExit exit_code => (93, (wrap exit_code, 0, 0))
  | USleep sleep_ms => (101, (sleep_ms, 0, 0))
  | UYield => (124, (0, 0, 0))
  | UKill pid signal => (129, (pid, wrap signal, 0))
  | UGetTime => (169, (0, 0, 0))
  | UGetpid => (172, (0, 0, 0))
  | UFork => (220, (0, 0, 0))
  | UExec path args => (221, (path, args, 0))
  | UWaitpid pid exit_code => (260, (wrap pid, exit_code, 0))
  | UThreadCreate entry arg => (1000, (entry, arg, 0))
  | UGettid => (1001, (0, 0, 0))
  | UWaittid tid => (1002, (tid, 0, 0))
  | UMutexCreate blocking => (1010, (if blocking then 1 else 0, 0, 0))
  | UMutexLock id => (1011, (id, 0, 0))
  | UMutexUnlock id => (1012, (id, 0, 0))
  | USemaphoreCreate res_count => (1020, (res_count, 0, 0))
  | USemaphoreUp sem_id => (1021, (sem_id, 0, 0))
  | USemaphoreDown sem_id => (1022, (sem_id, 0, 0))
  | UCondvarCreate => (1030, (0, 0, 0))
  | UCondvarSignal condvar_id => (1031, (condvar_id, 0, 0))
  | UCondvarWait condvar_id mutex_id => (1032, (condvar_id, mutex_id, 0))
  end.

Definition UO_RDONLY : Z := 0.
Definition UO_WRONLY : Z := 1.
Definition UO_CREATE : Z := 2 ^ 9.

(** What [pipe(&mut [0usize; 2])] leaves in the array: the kernel stores two numbers of 32 bits. *)
Definition pipe_words (read_fd write_fd : Z) : Z * Z :=
  let bytes := le_bytes 4 read_fd ++ le_bytes 4 write_fd ++ replicate 8 0 in
  (le_word (take 8 bytes), le_word (drop 8 bytes)).

(** ** Taking a command apart ([ProcessArguments::new]) *)

Fixpoint split (sep : Z) (l : list Z) : list (list Z) :=
  match l with
  | [] => [[]]
  | c :: l => if c =? sep then [] :: split sep l else match split sep l with w :: ws => (c :: w) :: ws | [] => [[c]] end
  end.

Record ProcessArguments := { input : list Z; output : list Z; args_copy : list (list Z) }.

(** The argument behind [mark], and the arguments without the two *)
Definition take_redirect (mark : list Z) (args : list (list Z)) : outcome (list Z * list (list Z)) :=
  match list_find (λ a, a = mark) args with
  | None => Ok ([], args)
  | Some (idx, _) =>
      match args !! S idx with
      | Some file => Ok (file, take idx args ++ drop (idx + 2) args)
      | None => Panic Bounds
      end
  end.
Definition ProcessArguments_new (command : list Z) : outcome ProcessArguments :=
  let args_copy := (λ arg, arg ++ [0]) <$> filter (λ arg, arg ≠ []) (split 32 command) in
  '(input, args_copy) ← take_redirect [60; 0] args_copy;
  '(output, args_copy) ← take_redirect [62; 0] args_copy;
  Ok {| input := input; output := output; args_copy := args_copy |}.

(** Only the first command may have its input and only the last its output redirected; a single command is always valid. *)
Definition pipeline_valid (ps : list ProcessArguments) : bool :=
  let n := length ps in
  (n =? 1)%nat ||
  forallb (λ '(i, p), if (i =? 0)%nat then bool_decide (output p = []) else if (i =? n - 1)%nat then bool_decide (input p = [])
                      else bool_decide (output p = []) && bool_decide (input p = [])) (zip (seq 0 n) ps).

(** ** Programs

    A program ends by returning from [main] or by a panic, whose handler kills the process. *)

Inductive UserEnd := UReturn (code : Z) | UPanic.

Section programs.
Context {File Dentry W : Type} {heap : KernelHeap}.
Abbreviation Machine := (@Machine File Dentry W) (only parsing).
Variable other : Call → M Machine Z.
(** The registers [a3] to [a5], which the library does not set *)
Variables (a3 a4 a5 : Z).

Abbreviation U A := (M Machine (sum A UserEnd)) (only parsing).
Definition uret {A} (a : A) : U A := mret (inl a).
Definition uend {A} (e : UserEnd) : U A := mret (inr e).
Definition ubind {A B} (m : U A) (k : A → U B) : U B :=
  r ← m; match r with inl a => k a | inr e => mret (inr e) end.

Definition ecall (f : UserFn) : U Z :=
  let '(id, (a0, a1, a2)) := user_call f in r ← syscall other id a0 a1 a2 a3 a4 a5; mret (inl r).
Definition assert_eq (a b : Z) : U unit := if a =? b then uret () else uend UPanic.
Definition close_all (fds : list Z) : U unit := foldr (λ fd k, ubind (ecall (UClose fd)) (λ _, k)) (uret ()) fds.

(** [close(fd); assert_eq!(dup(from), fd)] *)
Definition move_fd (from : U Z) (fd : Z) : U unit :=
  ubind (ecall (UClose fd)) (λ _, ubind from (λ from, ubind (ecall (UDup from)) (λ d, assert_eq d fd))).
(** Opening a file in place of [fd]; [path] is the address of its name, if it has one. *)
Definition redirect (path : option Z) (flags fd : Z) : U unit :=
  match path with
  | None => uret ()
  | Some p =>
      ubind (ecall (UOpen p flags)) (λ r,
        if r =? -1 then uend (UReturn (-4))
        else ubind (move_fd (uret (wrap r)) fd) (λ _, ubind (ecall (UClose (wrap r))) (λ _, uret ())))
  end.
(** [pipes_fd.get(i).unwrap()] *)
Definition pipe_at (pipes : list (Z * Z)) (i : nat) (proj : Z * Z → Z) : U Z :=
  match pipes !! i with Some p => uret (proj p) | None => uend UPanic end.

(** What the child that runs the command [i] of [n] does, up to [exec] *)
Definition child (i n : nat) (pipes : list (Z * Z)) (in_path out_path : option Z) (path args : Z) : U unit :=
  ubind (redirect in_path UO_RDONLY 0) (λ _,
  ubind (redirect out_path (Z.lor UO_CREATE UO_WRONLY) 1) (λ _,
  ubind (if (0 <? i)%nat then move_fd (pipe_at pipes (i - 1) fst) 0 else uret ()) (λ _,
  ubind (if (i <? n - 1)%nat then move_fd (pipe_at pipes i snd) 1 else uret ()) (λ _,
  ubind (close_all (pipes ≫= λ p, [p.1; p.2])) (λ _,
  ubind (ecall (UExec path args)) (λ r,
  uend (if r =? -1 then UReturn (-4) else UPanic))))))).
End programs.
