(* ===== verification/UserSpec.v ===== *)
(** * Theorems on user programs

    How the library and the kernel understand each other: the shell takes a command apart as it
    should, but the number it uses for [dup] is that of [dup3], so that no command of a pipeline but
    the last is ever run. *)

From Stdlib Require Import ZArith Lia.
From stdpp Require Import prelude gmap.
From S2P Require Import Prelude Config Address MemorySet MemorySetSpec Time Task Syscall Process SchedSpec FdSpec SpawnSpec Trap TrapSpec User.

Open Scope Z_scope.

(** ** Command lines *)

Definition word_ok (w : list Z) : Prop := w ≠ [] ∧ (32 ∉ w) ∧ w ≠ [60] ∧ w ≠ [62].
Fixpoint join (sep : Z) (ws : list (list Z)) : list Z :=
  match ws with [] => [] | [w] => w | w :: ws => w ++ sep :: join sep ws end.
(** [< file], [> file] or nothing *)
Definition redirection (mark : Z) (o : option (list Z)) : list (list Z) := match o with Some f => [[mark]; f] | None => [] end.

Lemma split_word sep w l : sep ∉ w → split sep (w ++ sep :: l) = w :: split sep l.
Proof.
  induction w as [|c w IH]; intros Hw; cbn [app split]; [by rewrite Z.eqb_refl|].
  rewrite not_elem_of_cons in Hw. destruct Hw as [Hc Hw]. rewrite (proj2 (Z.eqb_neq _ _)) by done. by rewrite IH.
Qed.
Lemma split_last sep w : sep ∉ w → split sep w = [w].
Proof.
  induction w as [|c w IH]; intros Hw; [done|]. cbn [split]. rewrite not_elem_of_cons in Hw. destruct Hw as [Hc Hw].
  rewrite (proj2 (Z.eqb_neq _ _)) by done. by rewrite IH.
Qed.
Lemma split_join sep ws : Forall (λ w, w ≠ [] ∧ sep ∉ w) ws → filter (λ a, a ≠ []) (split sep (join sep ws)) = ws.
Proof.
  induction 1 as [|w ws [Hw Hs] Hws IH]; [done|]. destruct ws as [|v ws].
  - cbn [join]. rewrite split_last by done. by rewrite filter_cons_True.
  - change (join sep (w :: v :: ws)) with (w ++ sep :: join sep (v :: ws)). rewrite split_word, filter_cons_True by done. by rewrite IH.
Qed.

Lemma take_redirect_none mark args : mark ∉ args → take_redirect mark args = Ok ([], args).
Proof.
  intros H. unfold take_redirect. destruct (list_find _ args) as [[i a]|] eqn:E; [|done].
  apply list_find_Some in E as (Hi & -> & _). destruct H. by eapply list_elem_of_lookup_2.
Qed.
Lemma take_redirect_some mark pre f post : mark ∉ pre → take_redirect mark (pre ++ mark :: f :: post) = Ok (f, pre ++ post).
Proof.
  intros H. unfold take_redirect.
  assert (list_find (λ a, a = mark) (pre ++ mark :: f :: post) = Some (length pre, mark)) as ->.
  { apply list_find_Some. split_and!; [by rewrite lookup_app_r, Nat.sub_diag by lia|done|].
    intros j y Hj Hlt ->. rewrite lookup_app_l in Hj by done. destruct H. by eapply list_elem_of_lookup_2. }
  rewrite lookup_app_r by lia. replace (S (length pre) - length pre)%nat with 1%nat by lia. cbn [lookup list_lookup].
  rewrite take_app_length. do 3 f_equal. rewrite drop_app_ge by lia. by replace (length pre + 2 - length pre)%nat with 2%nat by lia.
Qed.
Lemma take_redirect_at mark pre o post : [mark; 0] ∉ pre → (o = None → [mark; 0] ∉ post) →
  take_redirect [mark; 0] (pre ++ ((λ a, a ++ [0]) <$> redirection mark o) ++ post) = Ok (from_option (λ f, f ++ [0]) [] o, pre ++ post).
Proof.
  intros Hpre Hpost. destruct o as [f|]; cbn; [by apply take_redirect_some|].
  apply take_redirect_none. rewrite elem_of_app. intros [?|?]; [done|by apply Hpost].
Qed.
Lemma mark_not_in mark ws : Forall (λ w, w ≠ [mark]) ws → [mark; 0] ∉ ((λ a, a ++ [0]) <$> ws).
Proof.
  intros H (w & Hw & Hin)%list_elem_of_fmap. rewrite Forall_forall in H. apply (H w Hin).
  change [mark; 0] with ([mark] ++ [0]) in Hw. by apply (inj (λ a, a ++ [0])) in Hw.
Qed.

(** C33: Words separated by spaces, with the redirections behind them, are taken apart into the words, each with a zero at its end,
    and the names of the files. *)
Theorem command_roundtrip cmd inp outp :
  Forall word_ok cmd → (∀ f, inp = Some f → word_ok f) → (∀ f, outp = Some f → word_ok f) →
  ProcessArguments_new (join 32 (cmd ++ redirection 60 inp ++ redirection 62 outp)) =
    Ok {| input := from_option (λ f, f ++ [0]) [] inp; output := from_option (λ f, f ++ [0]) [] outp;
          args_copy := (λ w, w ++ [0]) <$> cmd |}.
Proof.
  intros Hc Hi Ho. unfold ProcessArguments_new. rewrite split_join.
  2: { rewrite !Forall_app. split_and!.
    - eapply Forall_impl; [done|]. by intros w (? & ? & _).
    - destruct inp as [f|]; cbn; [|done]. destruct (Hi f eq_refl) as (? & ? & _). repeat constructor; set_solver.
    - destruct outp as [f|]; cbn; [|done]. destruct (Ho f eq_refl) as (? & ? & _). repeat constructor; set_solver. }
  assert (∀ mark, mark = 60 ∨ mark = 62 → Forall (λ w, w ≠ [mark]) cmd) as Hmark.
  { intros mark Hm. eapply Forall_impl; [done|]. intros w (_ & _ & ? & ?). by destruct Hm as [-> | ->]. }
  rewrite !fmap_app, take_redirect_at.
  - cbn [mbind outcome_bind]. rewrite <-(app_nil_r ((λ a, a ++ [0]) <$> redirection 62 outp)), take_redirect_at; cbn; [by rewrite app_nil_r| |].
    + apply mark_not_in, Hmark. by right.
    + intros _. apply not_elem_of_nil.
  - apply mark_not_in, Hmark. by left.
  - intros _. apply mark_not_in. destruct outp as [f|]; cbn; [|done]. destruct (Ho f eq_refl) as (_ & _ & ? & _). by repeat constructor.
Qed.

(** ** The library and the kernel *)

(** The two numbers of [pipe] share the first word, and the second word is 0. *)
Lemma le_word_app bs cs : le_word (bs ++ cs) = le_word bs + 256 ^ Z.of_nat (length bs) * le_word cs.
Proof.
  unfold le_word. induction bs as [|b bs IH]; cbn [app foldr length]; [lia|]. rewrite IH, Nat2Z.inj_succ, Z.pow_succ_r by lia. lia.
Qed.
Lemma pipe_words_eq r w : 0 ≤ r < 2 ^ 32 → 0 ≤ w < 2 ^ 32 → pipe_words r w = (r + 2 ^ 32 * w, 0).
Proof.
  intros Hr Hw. unfold pipe_words. rewrite app_assoc.
  assert (length (le_bytes 4 r ++ le_bytes 4 w) = 8%nat) as Hl by (by rewrite length_app, !length_le_bytes).
  rewrite <-Hl, take_app_length, drop_app_length, le_word_app, length_le_bytes, !le_word_le_bytes by (cbn; lia). done.
Qed.

Section pipelines.
Context {File Dentry W : Type} {heap : KernelHeap}.
Abbreviation Machine := (@Machine File Dentry W) (only parsing).
Variable other : Call → M Machine Z.
Variables (a3 a4 a5 : Z).
Implicit Types (m : Machine) (k : @Kernel File Dentry).

(** A task runs, and its counters reach the calls of the library for descriptors. *)
Definition live m : Prop := ∃ t tcb, current (k_processor (m_kernel m)) = Some t ∧ k_tasks (m_kernel m) !! t = Some tcb ∧
  (100 ≤ length (syscall_times (inner tcb)))%nat.

Lemma fd_result {B} k (c : M (@Kernel File Dentry) B) r k' : (x ← c; mret (x, @nil Z)) k = Ok (r, k') → c k = Ok (r.1, k').
Proof. intros (x & k1 & E & H)%bind_Ok_inv. by injection H as <- <-. Qed.
Lemma sys_close_ok k t tcb fd : cur k = Some t → k_tasks k !! t = Some tcb →
  ∃ r l, sys_close fd k = Ok (r, set_inner t (λ i, i <| fd_table := l |>) k).
Proof.
  intros Hc Ht. assert (∃ r k', fd_call (FdSpec.Close fd) k = Ok (r, k') ∧ fd_outcome k t tcb (FdSpec.Close fd) r k')
    as (r & k' & E & m' & l & _ & -> & _).
  { destruct (fd_map (fd_table (inner tcb)) fd) as [f|] eqn:Ef; [by eapply close_outcome|]. eapply closed_outcome; eauto. }
  exists r.1, l. by apply fd_result in E.
Qed.
(** [dup3] onto descriptor 0 returns 0, or [EBADF]. *)
Lemma sys_dup3_ok k t tcb fd : cur k = Some t → k_tasks k !! t = Some tcb →
  ∃ r l, sys_dup3 fd 0 k = Ok (r, set_inner t (λ i, i <| fd_table := l |>) k) ∧ (r = 0 ∨ r = EBADF).
Proof.
  intros Hc Ht. assert (∃ r k', fd_call (FdSpec.Dup3 fd 0) k = Ok (r, k') ∧ fd_outcome k t tcb (FdSpec.Dup3 fd 0) r k')
    as (r & k' & E & m' & l & Hs & -> & _).
  { destruct (fd_map (fd_table (inner tcb)) fd) as [f|] eqn:Ef; [|eapply closed_outcome; eauto 10].
    eapply dup3_outcome; [done..| |lia]. intros [Hl _]. by rewrite fd_map_None in Ef by lia. }
  exists r.1, l. apply fd_result in E. split; [done|]. inversion Hs; subst; cbn; auto; naive_solver.
Qed.

(** A call of the library that the kernel understands as [c], which only changes the descriptors *)
Lemma ecall_ok m f id a0 a1 a2 c (P : Z → Prop) (km : M (@Kernel File Dentry) Z) :
  live m → user_call f = (id, (a0, a1, a2)) → 0 ≤ id < 100 → decode id a0 a1 a2 a3 a4 a5 = Some c → kernel_call c = Some km →
  (∀ k t tcb, cur k = Some t → k_tasks k !! t = Some tcb → ∃ r l, km k = Ok (r, set_inner t (λ i, i <| fd_table := l |>) k) ∧ P r) →
  ∃ r m', ecall other a3 a4 a5 f m = Ok (inl r, m') ∧ live m' ∧ P r.
Proof.
  intros (t & tcb & Hc & Ht & Hl) Ef Hid Ed Ek Hkm. unfold ecall. rewrite Ef. unfold syscall. rewrite Ed. unfold perform. rewrite Ek.
  assert (is_Some (syscall_times (inner tcb) !! Z.to_nat id)) as [n Hn] by (apply lookup_lt_is_Some_2; lia).
  set (m1 := m <| m_kernel ::= set_inner t (λ i, i <| syscall_times ::= <[Z.to_nat id := as_u32 (n + 1)]> |>) |>).
  set (tcb1 := tcb <| inner ::= λ i, i <| syscall_times ::= <[Z.to_nat id := as_u32 (n + 1)]> |> |>).
  assert (k_tasks (m_kernel m1) !! t = Some tcb1) as Ht1 by (cbn; by rewrite lookup_alter_eq, Ht).
  destruct (Hkm (m_kernel m1) t tcb1 Hc Ht1) as (r & l & E & HP).
  exists r, (m1 <| m_kernel := set_inner t (λ i, i <| fd_table := l |>) (m_kernel m1) |>). split_and!; [| |done].
  - rewrite bind_bind, (bind_Ok _ _ _ () m1) by (by apply (count_call_eq m t tcb id Hc Ht)).
    by rewrite (bind_Ok _ _ _ _ _ (in_kernel_Ok _ _ _ _ E)).
  - exists t, (tcb1 <| inner ::= λ i, i <| fd_table := l |> |>). split_and!; [done| |].
    + change (k_tasks (set_inner t (λ i, i <| fd_table := l |>) (m_kernel m1)) !! t = Some (tcb1 <| inner ::= λ i, i <| fd_table := l |> |>)).
      unfold set_inner at 1. cbn. change (alter _ t (k_tasks (m_kernel m))) with (k_tasks (m_kernel m1)). by rewrite lookup_alter_eq, Ht1.
    + cbn. by rewrite length_insert.
Qed.
Lemma close_live m fd : live m → ∃ r m', ecall other a3 a4 a5 (UClose fd) m = Ok (inl r, m') ∧ live m' ∧ True.
Proof.
  intros H. eapply (ecall_ok m (UClose fd) 57 fd 0 0 (Close fd) (λ _, True)); [done..|lia|done|done|].
  intros k t tcb Hc Ht. destruct (sys_close_ok k t tcb (Z.to_nat fd) Hc Ht) as (r & l & E). eauto.
Qed.
(** [dup] of the library is [dup3] onto descriptor 0. *)
Lemma dup_live m fd : live m → ∃ r m', ecall other a3 a4 a5 (UDup fd) m = Ok (inl r, m') ∧ live m' ∧ (r = 0 ∨ r = EBADF).
Proof.
  intros H. eapply (ecall_ok m (UDup fd) 24 fd 0 0 (Dup3 fd 0) (λ r, r = 0 ∨ r = EBADF)); [done..|lia|done|done|].
  intros k t tcb Hc Ht. apply (sys_dup3_ok k t tcb (Z.to_nat fd) Hc Ht).
Qed.

Lemma ubind_Ok {A B} m m' a (c : M Machine (A + UserEnd)) (h : A → M Machine (B + UserEnd)) :
  c m = Ok (inl a, m') → ubind c h m = h a m'.
Proof. intros E. unfold ubind. by rewrite (bind_Ok _ _ _ _ _ E). Qed.
Lemma ubind_end {A B} m m' e (c : M Machine (A + UserEnd)) (h : A → M Machine (B + UserEnd)) :
  c m = Ok (inr e, m') → ubind c h m = Ok (inr e, m').
Proof. intros E. unfold ubind. by rewrite (bind_Ok _ _ _ _ _ E). Qed.

(** Moving a descriptor to 0 works or fails its assertion; moving one to 1 always fails it. *)
Lemma move_fd_ends m from fd : live m → fd = 0 ∨ fd = 1 →
  ∃ m', live m' ∧ (move_fd other a3 a4 a5 (uret from) fd m = Ok (inr UPanic, m') ∨
                   fd = 0 ∧ move_fd other a3 a4 a5 (uret from) fd m = Ok (inl (), m')).
Proof.
  intros H Hfd. unfold move_fd. destruct (close_live m fd H) as (r1 & m1 & E1 & H1 & _). rewrite (ubind_Ok _ _ _ _ _ E1).
  rewrite (ubind_Ok m1 m1 from) by done. destruct (dup_live m1 from H1) as (r & m2 & E2 & H2 & Hr). rewrite (ubind_Ok _ _ _ _ _ E2).
  exists m2. split; [done|]. unfold assert_eq. destruct Hfd as [-> | ->], Hr as [-> | ->]; auto.
Qed.

(** C40: No command of a pipeline but the last is ever run: without redirections its process fails an assertion before [exec],
    whatever the pipes and the descriptors are, because the [dup] of the library asks for [dup3] onto descriptor 0. *)
Theorem pipelines_never_run m i n pipes path args :
  live m → (S i < n)%nat → length pipes = (n - 1)%nat →
  ∃ m', child other a3 a4 a5 i n pipes None None path args m = Ok (inr UPanic, m').
Proof.
  intros H Hi Hp. unfold child. rewrite (ubind_Ok m m ()), (ubind_Ok m m ()) by done.
  assert (∀ j proj, (j < n - 1)%nat → ∃ x, pipe_at pipes j proj = uret (W := W) (File := File) (Dentry := Dentry) x) as Hat.
  { intros j proj Hj. unfold pipe_at. assert (is_Some (pipes !! j)) as [x ->]; [apply lookup_lt_is_Some_2; lia|by eexists]. }
  assert (∀ m A (h : unit → M Machine (A + UserEnd)), live m →
    ∃ m', ubind (if (i <? n - 1)%nat then move_fd other a3 a4 a5 (pipe_at pipes i snd) 1 else uret ()) h m = Ok (inr UPanic, m')) as Hout.
  { intros m1 A h H1. rewrite (proj2 (Nat.ltb_lt _ _)) by lia. destruct (Hat i snd) as [x ->]; [lia|].
    destruct (move_fd_ends m1 x 1 H1 (or_intror eq_refl)) as (m2 & _ & [E|[[=] _]]). exists m2. by apply ubind_end. }
  destruct (Nat.ltb_spec 0 i).
  - destruct (Hat (i - 1)%nat fst) as [x ->]; [lia|].
    destruct (move_fd_ends m x 0 H (or_introl eq_refl)) as (m2 & H2 & [E|[_ E]]).
    + exists m2. by apply ubind_end.
    + rewrite (ubind_Ok _ _ _ _ _ E). by apply Hout.
  - rewrite (ubind_Ok m m ()) by done. by apply Hout.
Qed.

(** Sleeping, threads, locks and semaphores stop the kernel: their numbers are beyond its counters or not in its table. *)
Theorem library_stops_kernel m t tcb f :
  current (k_processor (m_kernel m)) = Some t → k_tasks (m_kernel m) !! t = Some tcb → length (syscall_times (inner tcb)) = 500%nat →
  decode (user_call f).1 0 0 0 0 0 0 = None → ∃ e, ecall other a3 a4 a5 f m = Panic e.
Proof.
  intros Hc Ht Hl Hd. unfold ecall. destruct (user_call f) as [id [[x0 x1] x2]] eqn:Ef. unfold syscall.
  destruct (count_call_eq m t tcb id Hc Ht) as [H1 H2]. destruct (syscall_times (inner tcb) !! Z.to_nat id) as [n|] eqn:En.
  - exists Explicit. rewrite bind_bind. erewrite bind_Ok by (by apply H1).
    assert (decode id x0 x1 x2 a3 a4 a5 = None) as ->; [|done].
    destruct f; injection Ef as <- <- <- <-; first [discriminate Hd|reflexivity].
  - exists Bounds. rewrite bind_bind. by rewrite (bind_Panic _ _ _ _ (H2 eq_refl)).
Qed.
End pipelines.

(** ** Witnesses *)

#[local] Existing Instance empty_heap.
Definition user_task : @TaskControlBlock unit unit := (demo_task 0 None []) <| inner ::= λ i, i <| syscall_times := replicate 500 0 |> |>.
Definition user_machine : @Machine unit unit unit :=
  {| m_hart := {| h_x := seqZ 0 32; h_pc := 0; h_user := false; h_sstatus := 0; h_sepc := 0; h_scause := TException UserEnvCall;
       h_sscratch := 0; h_satp := 0; h_stvec := 0; h_stimecmp := 0 |};
     m_kernel := demo_kernel <| k_tasks := {[0%nat := user_task]} |>
                   <| k_processor := {| current := Some 0%nat; idle_task_cx := TaskContext_zero_init |} |>;
     m_world := () |}.
Definition no_other (_ : Call) : M (@Machine unit unit unit) Z := panic Todo.

(** [cat < a] *)
Lemma command_roundtrip_witness :
  ProcessArguments_new [99; 97; 116; 32; 60; 32; 97] = Ok {| input := [97; 0]; output := []; args_copy := [[99; 97; 116; 0]] |}.
Proof.
  apply (command_roundtrip [[99; 97; 116]] (Some [97]) None).
  - constructor; [|constructor]. split_and!; [discriminate| |discriminate|discriminate]. set_solver by lia.
  - intros f [= <-]. split_and!; [discriminate| |discriminate|discriminate]. set_solver by lia.
  - intros f [=].
Defined.

Lemma pipelines_never_run_witness : ∃ m', child no_other 0 0 0 0 2 [(3, 4)] None None 0 0 user_machine = Ok (inr UPanic, m').
Proof.
  apply (pipelines_never_run no_other 0 0 0 user_machine 0 2 [(3, 4)] 0 0).
  - exists 0%nat, user_task. split_and!; [reflexivity|reflexivity|cbn; lia].
  - lia.
  - reflexivity.
Defined.

Lemma library_stops_kernel_witness : ∃ e, ecall no_other 0 0 0 (USleep 10) user_machine = Panic e.
Proof.
  apply (library_stops_kernel no_other 0 0 0 user_machine 0 user_task); reflexivity.
Defined.
